(** * Request integrity and checkout pricing of the storefront backend

    A shallow embedding of [src/san_rate_env.js]: the sanitizing
    middleware ([sanitizeRequest], [sanitizeObject]), the JWT middleware
    ([authenticateJWT]), the error handler, the order digest
    ([generateOrderHash], [verifyOrderHash]), the pattern of the email
    schema and the handlers of the five POST routes (get-token, subscribe,
    add-to-collection, checkout, save-order), together with the parts of
    the JavaScript run time they rest on (IEEE-754 binary64 numbers,
    [JSON.stringify], [Number.prototype.toFixed], [parseFloat],
    [String.prototype.trim], regular expressions, HMAC-SHA-256).

    Conventions.
    - A JavaScript string is a [string] holding its UTF-8 encoding (the
      encoding [Hmac.update] feeds to the hash); strings are assumed
      well-formed Unicode.
    - A JavaScript number is a [spec_float] of binary64 format, with the
      operations of the Standard Library's executable IEEE-754 model.
    - A JavaScript object is the list of its own enumerable properties in
      the order [Object.keys] and [JSON.stringify] visit them (for string
      keys that are not array indices, the order of insertion).
    - Code that may throw lives in the [result] monad; an HTTP answer is a
      status and a JSON body.
    - The functions of packages ([jwt.verify], [jwt.sign], [xss],
      [validator.isEmail]), [String.prototype.toLowerCase] and the order and
      email collections are parameters; the product collection is a list
      of documents; the decisions of the two rate limiters are
      parameters of the routes.  The header middleware, the CORS and
      database configuration and the health route are outside the
      model. *)

From Stdlib Require Import ZArith List String Ascii Bool Lia Permutation.
From Stdlib Require Import SpecFloat.
Import ListNotations.

Local Open Scope list_scope.
Local Open Scope string_scope.
Local Open Scope Z_scope.

(** ** SHA-256 and HMAC, as [crypto.createHmac('sha256', key)] computes them *)

Module Sha256.

Definition word := Z.
Definition wrap32 (x : Z) : word := x mod 2 ^ 32.
Definition add32 (x y : word) : word := wrap32 (x + y).
Definition rotr (n : Z) (x : word) : word :=
  wrap32 (Z.lor (Z.shiftr x n) (Z.shiftl x (32 - n))).
Definition shr (n : Z) (x : word) : word := Z.shiftr x n.
Definition not32 (x : word) : word := Z.lxor x (2 ^ 32 - 1).

Definition Ch (x y z : word) := Z.lxor (Z.land x y) (Z.land (not32 x) z).
Definition Maj (x y z : word) :=
  Z.lxor (Z.lxor (Z.land x y) (Z.land x z)) (Z.land y z).
Definition Sigma0 x := Z.lxor (Z.lxor (rotr 2 x) (rotr 13 x)) (rotr 22 x).
Definition Sigma1 x := Z.lxor (Z.lxor (rotr 6 x) (rotr 11 x)) (rotr 25 x).
Definition sigma0 x := Z.lxor (Z.lxor (rotr 7 x) (rotr 18 x)) (shr 3 x).
Definition sigma1 x := Z.lxor (Z.lxor (rotr 17 x) (rotr 19 x)) (shr 10 x).

(** The round constants are the first 32 bits of the fractional parts of
    the cube roots of the first 64 primes, the initial hash value those of
    the square roots of the first 8 primes (FIPS 180-4, 4.2.2 and 5.3.3). *)
Definition is_prime (n : nat) : bool :=
  forallb (fun d => negb (Nat.eqb (Nat.modulo n d) 0)) (seq 2 (n - 2)).

Definition primes : list Z :=
  map Z.of_nat (filter is_prime (seq 2 310)).

(** The integer cube root, one bit at a time. *)
Fixpoint cbrt_bits (bits : nat) (n r : Z) : Z :=
  match bits with
  | O => r
  | S b =>
      let r' := r + 2 ^ Z.of_nat b in
      cbrt_bits b n (if r' * r' * r' <=? n then r' else r)
  end.

Definition K : list word :=
  Eval vm_compute in
    map (fun p => wrap32 (cbrt_bits 40 (p * 2 ^ 96) 0)) (firstn 64 primes).

Definition H0 : list word :=
  Eval vm_compute in
    map (fun p => wrap32 (Z.sqrt (p * 2 ^ 64))) (firstn 8 primes).

(** Message padding: the byte 0x80, zeros up to 56 mod 64, and the bit
    length as a 64-bit big-endian integer. *)
Fixpoint be_bytes (n : nat) (x : Z) : list Z :=
  match n with
  | O => []
  | S n' => Z.shiftr x (8 * Z.of_nat n') mod 256 :: be_bytes n' x
  end.

Definition pad (msg : list Z) : list Z :=
  let len := Z.of_nat (List.length msg) in
  let zeros := Z.to_nat ((55 - len) mod 64) in
  (msg ++ [0x80] ++ repeat 0 zeros ++ be_bytes 8 (8 * len))%list.

Fixpoint words_of_bytes (fuel : nat) (bs : list Z) : list word :=
  match fuel, bs with
  | S fuel', b0 :: b1 :: b2 :: b3 :: rest =>
      (((b0 * 256 + b1) * 256 + b2) * 256 + b3) :: words_of_bytes fuel' rest
  | _, _ => []
  end.

(** The message schedule, most recent word first. *)
Fixpoint extend (n : nat) (rev_w : list word) : list word :=
  match n with
  | O => rev_w
  | S n' =>
      let w :=
        add32 (add32 (sigma1 (nth 1 rev_w 0)) (nth 6 rev_w 0))
              (add32 (sigma0 (nth 14 rev_w 0)) (nth 15 rev_w 0)) in
      extend n' (w :: rev_w)
  end.

Definition schedule (block : list word) : list word :=
  rev (extend 48 (rev block)).

Record regs := Regs { ra : word; rb : word; rc : word; rd : word;
                      re : word; rf : word; rg : word; rh : word }.

Definition round (s : regs) (kw : word * word) : regs :=
  let '(k, w) := kw in
  let t1 := add32 (add32 (add32 (rh s) (Sigma1 (re s)))
                         (add32 (Ch (re s) (rf s) (rg s)) k)) w in
  let t2 := add32 (Sigma0 (ra s)) (Maj (ra s) (rb s) (rc s)) in
  Regs (add32 t1 t2) (ra s) (rb s) (rc s) (add32 (rd s) t1) (re s) (rf s) (rg s).

Definition regs_of (h : list word) : regs :=
  Regs (nth 0 h 0) (nth 1 h 0) (nth 2 h 0) (nth 3 h 0)
       (nth 4 h 0) (nth 5 h 0) (nth 6 h 0) (nth 7 h 0).

Definition list_of (s : regs) : list word :=
  [ra s; rb s; rc s; rd s; re s; rf s; rg s; rh s].

Definition compress (h : list word) (block : list word) : list word :=
  let s := fold_left round (combine K (schedule block)) (regs_of h) in
  list_of (Regs (add32 (nth 0 h 0) (ra s)) (add32 (nth 1 h 0) (rb s))
                (add32 (nth 2 h 0) (rc s)) (add32 (nth 3 h 0) (rd s))
                (add32 (nth 4 h 0) (re s)) (add32 (nth 5 h 0) (rf s))
                (add32 (nth 6 h 0) (rg s)) (add32 (nth 7 h 0) (rh s))).

Fixpoint blocks (fuel : nat) (h : list word) (ws : list word) : list word :=
  match fuel, ws with
  | S fuel', _ :: _ => blocks fuel' (compress h (firstn 16 ws)) (skipn 16 ws)
  | _, _ => h
  end.

Definition sha256 (msg : list Z) : list Z :=
  let bs := pad msg in
  let ws := words_of_bytes (List.length bs) bs in
  flat_map (be_bytes 4) (blocks (List.length ws) H0 ws).

(** HMAC (RFC 2104) with a 64-byte block. *)
Definition hmac (key msg : list Z) : list Z :=
  let key0 := if Z.of_nat (List.length key) >? 64 then sha256 key else key in
  let key64 := (key0 ++ repeat 0 (64 - List.length key0)%nat)%list in
  let ipad := map (Z.lxor 0x36) key64 in
  let opad := map (Z.lxor 0x5c) key64 in
  sha256 (opad ++ sha256 (ipad ++ msg))%list.

End Sha256.

(** Bytes of a string, and the lower-case hexadecimal rendering that
    [digest('hex')] produces. *)
Definition bytes_of_string (s : string) : list Z :=
  map (fun c => Z.of_N (N_of_ascii c)) (list_ascii_of_string s).

Definition hex_digit (d : Z) : ascii :=
  ascii_of_N (Z.to_N (if d <? 10 then 48 + d else 87 + d)).

Fixpoint hex_of_bytes (bs : list Z) : string :=
  match bs with
  | [] => EmptyString
  | b :: rest => String (hex_digit (b / 16)) (String (hex_digit (b mod 16)) (hex_of_bytes rest))
  end.

Definition hmac_sha256_hex (key msg : string) : string :=
  hex_of_bytes (Sha256.hmac (bytes_of_string key) (bytes_of_string msg)).

(** ** JavaScript numbers: IEEE-754 binary64 *)

Definition number := spec_float.
Definition prec : Z := 53.
Definition emax : Z := 1024.

Definition num_add : number -> number -> number := SFadd prec emax.
Definition num_sub : number -> number -> number := SFsub prec emax.
Definition num_mul : number -> number -> number := SFmul prec emax.
(** [x > y], [isNaN(x)] *)
Definition num_gt (x y : number) : bool := SFltb y x.
Definition num_lt (x y : number) : bool := SFltb x y.
Definition isNaN (x : number) : bool :=
  match x with S754_nan => true | _ => false end.

(** The double nearest to [p / q] (ties to even), for [0 <= p] and [0 < q],
    with sign [neg]: the value of a decimal literal or of a parsed numeral. *)
Definition nearest (neg : bool) (p q : Z) : number :=
  let '(mz, ez, lz) := SFdiv_core_binary prec emax p 0 q 0 in
  binary_round_aux prec emax neg mz ez lz.

(** [digits * 10 ^ exp10] as a double. *)
Definition dec (neg : bool) (digits exp10 : Z) : number :=
  if 0 <=? exp10 then nearest neg (digits * 10 ^ exp10) 1
  else nearest neg digits (10 ^ (- exp10)).

Definition num_of_Z (z : Z) : number := dec (z <? 0) (Z.abs z) 0.

(** The exact value of a positive finite double as a fraction. *)
Definition ratio_of (m : positive) (e : Z) : Z * Z :=
  if 0 <=? e then (Zpos m * 2 ^ e, 1) else (Zpos m, 2 ^ (- e)).

(** *** Decimal numerals *)

Definition digit_char (d : Z) : ascii := ascii_of_N (Z.to_N (48 + d)).

Fixpoint digits_acc (fuel : nat) (n : Z) (acc : string) : string :=
  match fuel with
  | O => acc
  | S fuel' =>
      let acc' := String (digit_char (n mod 10)) acc in
      if n <? 10 then acc' else digits_acc fuel' (n / 10) acc'
  end.

(** The decimal digits of [n >= 0], without leading zeros ("0" for 0). *)
Definition decimal (n : Z) : string :=
  digits_acc (S (Z.to_nat (Z.log2 n))) n EmptyString.

Fixpoint zeros (n : nat) : string :=
  match n with O => EmptyString | S n' => String "0" (zeros n') end.

Definition str_take (n : nat) (s : string) : string := substring 0 n s.
Definition str_drop (n : nat) (s : string) : string :=
  substring n (String.length s - n)%nat s.

(** *** Number::toString (ECMA-262 6.1.6.1.20), radix 10 *)

(** The least [n] with [p / q < 10 ^ n], searched upwards from an estimate
    that lies below it. *)
Definition lt_pow10 (p q n : Z) : bool :=
  if 0 <=? n then p <? q * 10 ^ n else p * 10 ^ (- n) <? q.

Fixpoint magnitude_from (fuel : nat) (p q n : Z) : Z :=
  match fuel with
  | O => n
  | S fuel' => if lt_pow10 p q n then n else magnitude_from fuel' p q (n + 1)
  end.

Definition magnitude (p q : Z) : Z :=
  magnitude_from 8 p q ((Z.log2 p - Z.log2 q - 1) * 1233 / 4096 - 2).

(** [floor (p / q / 10 ^ e)] *)
Definition scaled_floor (p q e : Z) : Z :=
  if 0 <=? e then p / (q * 10 ^ e) else p * 10 ^ (- e) / q.

(** [| p / q - s * 10 ^ e |] as a numerator over a common denominator *)
Definition dist (p q s e : Z) : Z :=
  if 0 <=? e then Z.abs (p - s * 10 ^ e * q)
  else Z.abs (p * 10 ^ (- e) - s * q).

Fixpoint strip_zeros (fuel : nat) (s e : Z) : Z * Z :=
  match fuel with
  | O => (s, e)
  | S fuel' =>
      if (s mod 10 =? 0) && (0 <? s) then strip_zeros fuel' (s / 10) (e + 1)
      else (s, e)
  end.

(** Shortest digits [s] and exponent [e] with [s * 10 ^ e] reading back as
    the double [x = m * 2 ^ ex]; among the shortest, the closest to [x]. *)
Fixpoint shortest_from (fuel : nat) (k : Z) (x : number) (p q n : Z) : Z * Z :=
  match fuel with
  | O => (0, 0)
  | S fuel' =>
      let e := n - k in
      let lo := scaled_floor p q e in
      let hi := lo + 1 in
      let ok s := match x, dec false s e with
                  | S754_finite _ m1 e1, S754_finite _ m2 e2 =>
                      Pos.eqb m1 m2 && (e1 =? e2)
                  | _, _ => false
                  end in
      match ok lo, ok hi with
      | true, true => if dist p q hi e <? dist p q lo e then (hi, e)
                      else if dist p q lo e <? dist p q hi e then (lo, e)
                      else if Z.even lo then (lo, e) else (hi, e)
      | true, false => (lo, e)
      | false, true => (hi, e)
      | false, false => shortest_from fuel' (k + 1) x p q n
      end
  end.

Definition shortest (m : positive) (ex : Z) : Z * Z :=
  let '(p, q) := ratio_of m ex in
  let '(s, e) := shortest_from 17 1 (S754_finite false m ex) p q (magnitude p q) in
  strip_zeros 17 s e.

Definition toString_pos (m : positive) (ex : Z) : string :=
  let '(s, e) := shortest m ex in
  let ds := decimal s in
  let k := Z.of_nat (String.length ds) in
  let n := e + k in
  if (k <=? n) && (n <=? 21) then ds ++ zeros (Z.to_nat (n - k))
  else if (0 <? n) && (n <=? 21) then
    str_take (Z.to_nat n) ds ++ "." ++ str_drop (Z.to_nat n) ds
  else if (-6 <? n) && (n <=? 0) then "0." ++ zeros (Z.to_nat (- n)) ++ ds
  else
    let ex10 := n - 1 in
    let sgn := if ex10 <? 0 then "-" else "+" in
    if k =? 1 then ds ++ "e" ++ sgn ++ decimal (Z.abs ex10)
    else str_take 1 ds ++ "." ++ str_drop 1 ds ++ "e" ++ sgn ++ decimal (Z.abs ex10).

Definition Number_toString (x : number) : string :=
  match x with
  | S754_nan => "NaN"
  | S754_zero _ => "0"
  | S754_infinity false => "Infinity"
  | S754_infinity true => "-Infinity"
  | S754_finite false m e => toString_pos m e
  | S754_finite true m e => "-" ++ toString_pos m e
  end.

(** *** Number.prototype.toFixed (ECMA-262 21.1.3.3) *)

Definition toFixed_pos (m : positive) (e : Z) (f : nat) : string :=
  let '(p, q) := ratio_of m e in
  if 10 ^ 21 * q <=? p then toString_pos m e
  else
    (* the integer n nearest to x * 10^f, the larger one on a tie *)
    let n := (2 * p * 10 ^ Z.of_nat f + q) / (2 * q) in
    let ds := decimal n in
    let k := String.length ds in
    let ds := if (k <=? f)%nat then zeros (f + 1 - k)%nat ++ ds else ds in
    let k := String.length ds in
    if (f =? 0)%nat then ds
    else str_take (k - f)%nat ds ++ "." ++ str_drop (k - f)%nat ds.

Definition toFixed (x : number) (f : nat) : string :=
  match x with
  | S754_nan => "NaN"
  | S754_infinity false => "Infinity"
  | S754_infinity true => "-Infinity"
  | S754_zero _ => if (f =? 0)%nat then "0" else "0." ++ zeros f
  | S754_finite false m e => toFixed_pos m e f
  | S754_finite true m e => "-" ++ toFixed_pos m e f
  end.

(** *** White space, [String.prototype.trim] and [parseFloat] *)

Definition str_of_bytes (bs : list nat) : string :=
  string_of_list_ascii (map ascii_of_nat bs).

(** WhiteSpace and LineTerminator code points (ECMA-262 12.2, 12.3) in
    UTF-8: TAB LF VT FF CR SP, U+00A0, U+1680, U+2000..U+200A, U+2028,
    U+2029, U+202F, U+205F, U+3000, U+FEFF. *)
Definition white_space : list string :=
  map str_of_bytes
    [ [9]; [10]; [11]; [12]; [13]; [32]; [194; 160]; [225; 154; 128];
      [226; 128; 128]; [226; 128; 129]; [226; 128; 130]; [226; 128; 131];
      [226; 128; 132]; [226; 128; 133]; [226; 128; 134]; [226; 128; 135];
      [226; 128; 136]; [226; 128; 137]; [226; 128; 138]; [226; 128; 168];
      [226; 128; 169]; [226; 128; 175]; [226; 129; 159]; [227; 128; 128];
      [239; 187; 191] ]%nat.

Fixpoint str_rev (s : string) : string :=
  match s with
  | EmptyString => EmptyString
  | String c r => str_rev r ++ String c EmptyString
  end.

(** Drop every leading occurrence of a string of [seps]. *)
Fixpoint strip_prefix (fuel : nat) (seps : list string) (s : string) : string :=
  match fuel with
  | O => s
  | S fuel' =>
      match find (fun w => prefix w s) seps with
      | Some w => strip_prefix fuel' seps (str_drop (String.length w) s)
      | None => s
      end
  end.

Definition trimStart (s : string) : string :=
  strip_prefix (String.length s) white_space s.
Definition trimEnd (s : string) : string :=
  str_rev (strip_prefix (String.length s) (map str_rev white_space) (str_rev s)).
Definition trim (s : string) : string := trimEnd (trimStart s).

Definition is_digit (c : ascii) : bool :=
  let n := N_of_ascii c in (48 <=? n)%N && (n <=? 57)%N.

(** Read a run of decimal digits: its value, its length, and what follows. *)
Fixpoint read_digits (s : string) (acc : Z) (cnt : nat) : Z * nat * string :=
  match s with
  | String c r =>
      if is_digit c then read_digits r (10 * acc + (Z.of_N (N_of_ascii c) - 48)) (S cnt)
      else (acc, cnt, s)
  | EmptyString => (acc, cnt, s)
  end.

(** ExponentPart, when one follows; otherwise exponent 0. *)
Definition read_exponent (s : string) : Z :=
  match s with
  | String c r =>
      if (c =? "e")%char || (c =? "E")%char then
        let '(neg, r') :=
          match r with
          | String "-" t => (true, t)
          | String "+" t => (false, t)
          | _ => (false, r)
          end in
        let '(v, n, _) := read_digits r' 0 O in
        match n with O => 0 | _ => if neg then - v else v end
      else 0
  | EmptyString => 0
  end.

(** StrUnsignedDecimalLiteral: [Infinity], or digits with an optional
    fraction and exponent; [NaN] when there is no digit at all. *)
Definition parse_unsigned (neg : bool) (s : string) : number :=
  if prefix "Infinity" s then S754_infinity neg
  else
    let '(ip, ni, r1) := read_digits s 0 O in
    let '(fp, nf, r2) :=
      match r1 with
      | String "." t => read_digits t ip O
      | _ => (ip, O, r1)
      end in
    match ni, nf with
    | O, O => S754_nan
    | _, _ =>
        let ex := read_exponent r2 - Z.of_nat nf in
        if fp =? 0 then S754_zero neg else dec neg fp ex
    end.

(** [parseFloat] (ECMA-262 19.2.4): the longest prefix of the trimmed
    string that is a StrDecimalLiteral, read as the nearest double. *)
Definition parseFloat (input : string) : number :=
  match trimStart input with
  | String "-" t => parse_unsigned true t
  | String "+" t => parse_unsigned false t
  | s => parse_unsigned false s
  end.

(** ** JavaScript values *)

Set Warnings "-register-all".


Inductive value :=
| VUndefined
| VNull
| VBool (b : bool)
| VNum (x : number)
| VStr (s : string)
| VArr (items : list value)
| VObj (props : list (string * value)).

(** [typeof v] *)
Definition typeof (v : value) : string :=
  match v with
  | VUndefined => "undefined"
  | VBool _ => "boolean"
  | VNum _ => "number"
  | VStr _ => "string"
  | VNull | VArr _ | VObj _ => "object"
  end.

(** ToBoolean *)
Definition truthy (v : value) : bool :=
  match v with
  | VUndefined | VNull => false
  | VBool b => b
  | VNum (S754_zero _) | VNum S754_nan => false
  | VNum _ => true
  | VStr s => negb (s =? EmptyString)%string
  | VArr _ | VObj _ => true
  end.

Definition isArray (v : value) : bool :=
  match v with VArr _ => true | _ => false end.

(** Exceptions and the monad of code that may throw. *)
Inductive exn :=
| TypeError (what : string)
| Error (msg : string).

Definition exn_message (e : exn) : string :=
  match e with TypeError m | Error m => m end.

Inductive result (A : Type) :=
| Ok (a : A)
| Throw (e : exn).
Arguments Ok {A} a.
Arguments Throw {A} e.

Definition bind {A B} (r : result A) (k : A -> result B) : result B :=
  match r with Ok a => k a | Throw e => Throw e end.

Notation "x <- r ;; k" := (bind r (fun x => k))
  (at level 61, r at next level, right associativity).

Fixpoint mapM {A B} (f : A -> result B) (l : list A) : result (list B) :=
  match l with
  | [] => Ok []
  | a :: rest => b <- f a ;; bs <- mapM f rest ;; Ok (b :: bs)
  end.

(** Own property lookup in a property list. *)
Fixpoint lookup (k : string) (props : list (string * value)) : value :=
  match props with
  | [] => VUndefined
  | (k', v) :: rest => if (k' =? k)%string then v else lookup k rest
  end.

(** [v.k] for the property names the handlers read (none of them is
    defined on a prototype): a TypeError on [null] and [undefined], the own
    property of an object, [undefined] on any other value. *)
Definition get (v : value) (k : string) : result value :=
  match v with
  | VUndefined | VNull => Throw (TypeError ("Cannot read properties of null or undefined: " ++ k))
  | VObj props => Ok (lookup k props)
  | _ => Ok VUndefined
  end.

(** [v.map(f)]: only arrays have a [map] method. *)
Definition array_map (v : value) (f : value -> result value) : result value :=
  match v with
  | VArr items => items' <- mapM f items ;; Ok (VArr items')
  | VUndefined | VNull => Throw (TypeError "Cannot read properties of null or undefined: map")
  | _ => Throw (TypeError "map is not a function")
  end.

(** *** JSON.stringify (ECMA-262 25.5.2) *)

Definition hex4 (n : Z) : string :=
  String (hex_digit (n / 4096 mod 16)) (String (hex_digit (n / 256 mod 16))
    (String (hex_digit (n / 16 mod 16)) (String (hex_digit (n mod 16)) EmptyString))).

Definition quote_char (c : ascii) : string :=
  let n := Z.of_N (N_of_ascii c) in
  if n =? 8 then "\b"
  else if n =? 9 then "\t"
  else if n =? 10 then "\n"
  else if n =? 12 then "\f"
  else if n =? 13 then "\r"
  else if n =? 34 then str_of_bytes [92; 34]%nat
  else if n =? 92 then "\\"
  else if n <? 32 then "\u" ++ hex4 n
  else String c EmptyString.

Fixpoint quote_body (s : string) : string :=
  match s with
  | EmptyString => EmptyString
  | String c r => quote_char c ++ quote_body r
  end.

(** QuoteJSONString *)
Definition Quote (s : string) : string :=
  str_of_bytes [34]%nat ++ quote_body s ++ str_of_bytes [34]%nat.

Fixpoint join (sep : string) (l : list string) : string :=
  match l with
  | [] => EmptyString
  | [x] => x
  | x :: rest => x ++ sep ++ join sep rest
  end.

Definition is_finite (x : number) : bool :=
  match x with S754_zero _ | S754_finite _ _ _ => true | _ => false end.

(** An array element that is [undefined] is written [null]; an object
    member that is [undefined] is left out. *)
Definition elem_text (o : option string) : string :=
  match o with Some s => s | None => "null" end.

Fixpoint members_text (l : list (string * option string)) : list string :=
  match l with
  | [] => []
  | (k, Some s) :: rest => (Quote k ++ ":" ++ s) :: members_text rest
  | (_, None) :: rest => members_text rest
  end.

(** SerializeJSONProperty: [None] is [undefined]. *)
Fixpoint stringify (v : value) : option string :=
  match v with
  | VUndefined => None
  | VNull => Some "null"
  | VBool true => Some "true"
  | VBool false => Some "false"
  | VNum x => Some (if is_finite x then Number_toString x else "null")
  | VStr s => Some (Quote s)
  | VArr items =>
      Some ("[" ++ join "," (map elem_text (map stringify items)) ++ "]")
  | VObj props =>
      Some ("{" ++ join "," (members_text
                   (map (fun kv => let '(k, x) := kv in (k, stringify x)) props))
                ++ "}")
  end.

(** [JSON.stringify] of an object or array always yields a string. *)
Definition JSON_stringify (v : value) : string :=
  match stringify v with Some s => s | None => "undefined" end.

(** ** The application *)

(** [process.env]: a variable that is not set reads as [undefined]. *)
Record env := { SECRET_KEY : option string; JWT_SECRET : option string }.

Record request := { authorization : option string; body : value }.
Record response := { status : Z; json : value }.

Definition reply (code : Z) (props : list (string * value)) : response :=
  {| status := code; json := VObj props |}.

(** A destructured property of [req.body]; body-parser leaves [req.body] an
    object or an array, so the destructuring itself cannot throw. *)
Definition field (b : value) (k : string) : value :=
  match get b k with Ok v => v | Throw _ => VUndefined end.

Definition array_length (v : value) : Z :=
  match v with VArr items => Z.of_nat (List.length items) | _ => 0 end.

(** [s === v] for a string [s] *)
Definition strict_eq_str (s : string) (v : value) : bool :=
  match v with VStr s' => (s =? s')%string | _ => false end.

(** *** authenticateJWT (lines 142-162) *)

Fixpoint split_acc (sep : ascii) (s : string) (cur : string) : list string :=
  match s with
  | EmptyString => [str_rev cur]
  | String c r =>
      if (c =? sep)%char then str_rev cur :: split_acc sep r EmptyString
      else split_acc sep r (String c cur)
  end.

(** [s.split(sep)] for a one-character separator *)
Definition split (sep : ascii) (s : string) : list string :=
  split_acc sep s EmptyString.

Inductive auth_result :=
| Rejected (r : response)
| Next (clientId : value).

Section Auth.

(** [jwt.verify(token, secret)] of the jsonwebtoken package: the decoded
    payload, or the error it throws (malformed token, invalid signature,
    expired token, missing secret). *)
Variable jwt_verify : string -> option string -> result value.
Variable E : env.

Definition authenticateJWT (req : request) : auth_result :=
  match authorization req with
  | None => Rejected (reply 401 [("success", VBool false);
                                 ("message", VStr "Authorization header missing")])
  | Some authHeader =>
      if negb (truthy (VStr authHeader)) then
        Rejected (reply 401 [("success", VBool false);
                             ("message", VStr "Authorization header missing")])
      else
        match nth_error (split " " authHeader) 1 with
        | None => Rejected (reply 401 [("success", VBool false);
                                       ("message", VStr "Token not provided")])
        | Some token =>
            if negb (truthy (VStr token)) then
              Rejected (reply 401 [("success", VBool false);
                                   ("message", VStr "Token not provided")])
            else
              match (decoded <- jwt_verify token (JWT_SECRET E) ;;
                     get decoded "clientId") with
              | Ok clientId => Next clientId
              | Throw _ => Rejected (reply 403 [("success", VBool false);
                                                ("message", VStr "Invalid or expired token")])
              end
        end
  end.

End Auth.

(** *** generateOrderHash and verifyOrderHash (lines 264-288) *)

(** [crypto.createHmac('sha256', key).update(msg).digest('hex')]; a key that
    is [undefined] makes [createHmac] throw. *)
Definition createHmac_digest (key : option string) (msg : string) : result string :=
  match key with
  | Some k => Ok (hmac_sha256_hex k msg)
  | None => Throw (TypeError "The key argument must be of type string")
  end.

Definition project_item (item : value) : result value :=
  productCode <- get item "productCode" ;;
  productName <- get item "productName" ;;
  price <- get item "price" ;;
  size <- get item "size" ;;
  Ok (VObj [("productCode", productCode); ("productName", productName);
            ("price", price); ("size", size)]).

(** The object literal handed to [JSON.stringify], and the string that is
    hashed. *)
Definition projection (order : value) : result value :=
  cart0 <- get order "cart" ;;
  cart <- array_map cart0 project_item ;;
  address <- get order "address" ;;
  pricing <- get order "pricing" ;;
  Ok (VObj [("cart", cart); ("address", address); ("pricing", pricing)]).

Definition orderString (order : value) : result string :=
  p <- projection order ;;
  Ok (JSON_stringify p).

Definition generateOrderHash (E : env) (order : value) : result string :=
  s <- orderString order ;;
  createHmac_digest (SECRET_KEY E) s.

Definition verifyOrderHash (E : env) (order hash : value) : result bool :=
  computedHash <- generateOrderHash E order ;;
  Ok (strict_eq_str computedHash hash).

(** *** The catalog and the checkout handler (lines 368-452) *)

Record product := {
  _id : value;
  product_code : string;
  product_name : value;
  product_price : value;
  product_imageurl : value
}.

(** sanitizeMongoQuery (lines 129-136) *)
Definition sanitizeMongoQuery (query : value) : result value :=
  match query with
  | VObj props =>
      if existsb (fun kv => prefix "$" (fst kv)) props
      then Throw (Error "Invalid query format")
      else Ok query
  | VUndefined | VNull => Throw (TypeError "Cannot convert undefined or null to object")
  | _ => Ok query
  end.

(** [Product.find({ product_code: { $in: codes } })]: the documents whose
    code is one of [codes], in collection order.  The database is taken to
    be reachable. *)
Definition Product_find (catalog : list product) (codes : list string) : list product :=
  filter (fun p => existsb (String.eqb (product_code p)) codes) catalog.

(** The callback of the first [cart.map] (lines 382-387). *)
Definition productCode_of (item : value) : result string :=
  pc <- get item "productCode" ;;
  match pc with
  | VStr s =>
      if negb (truthy (VStr (trim s))) then Throw (Error "Invalid product code in cart")
      else Ok (trim s)
  | _ => Throw (Error "Invalid product code in cart")
  end.

(** The callback of the second [cart.map] (lines 397-414). *)
Definition enhance (products : list product) (cartItem : value) : result value :=
  code <- get cartItem "productCode" ;;
  match find (fun p => strict_eq_str (product_code p) code) products with
  | None => Ok VNull
  | Some productData =>
      size0 <- get cartItem "size" ;;
      let size := match size0 with VStr s => trim s | _ => EmptyString end in
      if negb (truthy (VStr size)) then Ok VNull
      else Ok (VObj [("_id", _id productData);
                     ("productCode", VStr (product_code productData));
                     ("productName", product_name productData);
                     ("price", product_price productData);
                     ("imageUrl", product_imageurl productData);
                     ("size", VStr size)])
  end.

(** The reducer of lines 422-425. *)
Definition add_price (sum : number) (item : value) : number :=
  let price :=
    match field item "price" with
    | VNum x => if negb (isNaN x) then x else S754_zero false
    | _ => S754_zero false
    end in
  num_add sum price.

Definition pricing_of (enhancedCart : list value) : value :=
  let subtotal := fold_left add_price enhancedCart (S754_zero false) in
  let discount := parseFloat (toFixed (num_mul subtotal (dec false 1 (-1))) 2) in
  let delivery := if num_gt subtotal (num_of_Z 700) then num_of_Z 0 else num_of_Z 150 in
  let total := parseFloat (toFixed (num_sub (num_add subtotal delivery) discount) 2) in
  VObj [("subtotal", VNum subtotal); ("discount", VNum discount);
        ("delivery", VNum delivery); ("total", VNum total)].

Section Checkout.

Variable E : env.
Variable catalog : list product.
(** The value of [new Date()] when the summary is built. *)
Variable now : value.

(** The body of the [try] block. *)
Definition checkout_try (cart address : value) : result response :=
  let items := match cart with VArr items => items | _ => [] end in
  productCodes <- mapM productCode_of items ;;
  _ <- sanitizeMongoQuery
         (VObj [("product_code", VObj [("$in", VArr (map VStr productCodes))])]) ;;
  let products := Product_find catalog productCodes in
  if (Z.of_nat (List.length products) =? 0) then
    Ok (reply 404 [("success", VBool false);
                   ("message", VStr "No products found in database")])
  else
    mapped <- mapM (enhance products) items ;;
    let enhancedCart := filter truthy mapped in
    if (Z.of_nat (List.length enhancedCart) =? 0) then
      Ok (reply 400 [("success", VBool false);
                     ("message", VStr "No valid items in cart")])
    else
      let orderSummary :=
        VObj [("cart", VArr enhancedCart); ("address", address);
              ("pricing", pricing_of enhancedCart);
              ("orderDate", now); ("status", VStr "pending")] in
      orderHash <- generateOrderHash E orderSummary ;;
      Ok (reply 200 [("success", VBool true); ("order", orderSummary);
                     ("orderHash", VStr orderHash)]).

Definition checkout (b : value) : response :=
  let cart := field b "cart" in
  let address := field b "address" in
  if negb (truthy cart) || negb (isArray cart) || (array_length cart =? 0) then
    reply 400 [("success", VBool false);
               ("message", VStr "Invalid request. Cart items are required.")]
  else if negb (truthy address) || negb (typeof address =? "object")%string then
    reply 400 [("success", VBool false);
               ("message", VStr "Invalid request. Address details are required.")]
  else
    match checkout_try cart address with
    | Ok r => r
    | Throw err =>
        reply 500 [("success", VBool false);
                   ("message", VStr "Server error processing order");
                   ("error", VStr (exn_message err))]
    end.

End Checkout.

(** *** The save-order handler (lines 455-500) *)

Section SaveOrder.

Variable E : env.
(** The order collection, and [new Order(order)] followed by [save()]: the
    collection after the insert and the [_id] of the new document, or the
    error [save] rejects with, in which case nothing is stored. *)
Variable store : Type.
Variable Order_save : store -> value -> result (store * value).

Definition verification_failed : string :=
  "Order verification failed. The order data may have been tampered with.".

Definition save_order_try (st : store) (b : value) : result (store * response) :=
  order <- get b "order" ;;
  orderHash <- get b "orderHash" ;;
  if negb (truthy order) || negb (truthy orderHash)
     || negb (typeof orderHash =? "string")%string then
    Ok (st, reply 400 [("success", VBool false);
                       ("message", VStr "Invalid order data or missing hash")])
  else
    cart <- get order "cart" ;;
    address <- get order "address" ;;
    pricing <- get order "pricing" ;;
    if negb (truthy cart) || negb (isArray cart) || negb (truthy address)
       || negb (truthy pricing) then
      Ok (st, reply 400 [("success", VBool false);
                         ("message", VStr "Order is missing required fields")])
    else
      verified <- verifyOrderHash E order orderHash ;;
      if negb verified then
        Ok (st, reply 400 [("success", VBool false);
                           ("message", VStr verification_failed)])
      else
        saved <- Order_save st order ;;
        let '(st', newId) := saved in
        Ok (st', reply 200 [("success", VBool true);
                            ("message", VStr "Order saved successfully");
                            ("orderId", newId)]).

Definition save_order (st : store) (b : value) : store * response :=
  match save_order_try st b with
  | Ok r => r
  | Throw err =>
      (st, reply 500 [("success", VBool false);
                      ("message", VStr "Server error saving order");
                      ("error", VStr (exn_message err))])
  end.

End SaveOrder.

(** *** The sanitizing middleware (lines 82-121) *)

Section Sanitize.

(** The [xss] function of the xss package. *)
Variable xss : string -> string.

(** [sanitizeObject(obj)] rewrites a tree in place; the model returns the
    tree it leaves.  A request body is a tree (it comes out of
    [JSON.parse]), so no two positions share a value.  [Object.keys] of an
    array are its indices. *)
Fixpoint sanitizeObject (obj : value) : value :=
  let visit (v : value) : value :=
    match v with
    | VStr s => VStr (xss s)
    | VArr items =>
        VArr (map (fun item =>
                     match item with
                     | VStr s => VStr (xss s)
                     | VArr _ | VObj _ => sanitizeObject item
                     | _ => item
                     end) items)
    | VObj _ => sanitizeObject v
    | _ => v
    end in
  match obj with
  | VObj props => VObj (map (fun kv => let '(key, v) := kv in (key, visit v)) props)
  | VArr elems => VArr (map visit elems)
  | _ => obj
  end.

(** [sanitizeRequest]: the body it leaves in [req.body] when it calls
    [next()].  A body that is a primitive value has no property that can
    be assigned. *)
Definition sanitizeRequest (body : value) : value :=
  if truthy body then
    let visit (v : value) : value :=
      match v with
      | VStr s => VStr (xss s)
      | VArr _ | VObj _ => sanitizeObject v
      | _ => v
      end in
    match body with
    | VObj props => VObj (map (fun kv => let '(key, v) := kv in (key, visit v)) props)
    | VArr elems => VArr (map visit elems)
    | _ => body
    end
  else body.

(** The request as the routes receive it: [app.use(sanitizeRequest)] comes
    before every route. *)
Definition sanitized (req : request) : request :=
  {| authorization := authorization req; body := sanitizeRequest (body req) |}.

End Sanitize.

(** *** errorHandler (lines 185-191) *)

(** An error handed to the error-handling middleware: [err.status] is
    [undefined] or an integer, [err.message] is [undefined] or a string. *)
Record http_error := { err_status : option Z; err_message : option string }.

Definition errorHandler (err : http_error) : response :=
  let code :=
    match err_status err with
    | Some s => if s =? 0 then 500 else s
    | None => 500
    end in
  let message :=
    match err_message err with
    | Some m => if truthy (VStr m) then m else "Internal server error"
    | None => "Internal server error"
    end in
  reply code [("success", VBool false); ("message", VStr message)].

(** An exception thrown in a route: an [Error] object without [status]. *)
Definition thrown (e : exn) : http_error :=
  {| err_status := None; err_message := Some (exn_message e) |}.

(** *** The pattern of the email schema (line 225) *)

(** Regular expressions without captures, matched against a whole string
    (the pattern is anchored at both ends). *)
Inductive regex :=
| Never
| Empty
| Char (p : ascii -> bool)
| Cat (r1 r2 : regex)
| Alt (r1 r2 : regex)
| Star (r : regex).

(** [r+] and [r{2,4}] *)
Definition many1 (r : regex) : regex := Cat r (Star r).
Definition maybe (r : regex) : regex := Alt Empty r.
Definition rep_2_4 (r : regex) : regex := Cat r (Cat r (maybe (Cat r (maybe r)))).

Fixpoint nullable (r : regex) : bool :=
  match r with
  | Never | Char _ => false
  | Empty | Star _ => true
  | Cat r1 r2 => nullable r1 && nullable r2
  | Alt r1 r2 => nullable r1 || nullable r2
  end.

(** What remains to be matched after reading [c]. *)
Fixpoint after (c : ascii) (r : regex) : regex :=
  match r with
  | Never | Empty => Never
  | Char p => if p c then Empty else Never
  | Cat r1 r2 =>
      if nullable r1 then Alt (Cat (after c r1) r2) (after c r2)
      else Cat (after c r1) r2
  | Alt r1 r2 => Alt (after c r1) (after c r2)
  | Star r1 => Cat (after c r1) (Star r1)
  end.

Fixpoint regex_test (r : regex) (s : string) : bool :=
  match s with
  | EmptyString => nullable r
  | String c rest => regex_test (after c r) rest
  end.

Definition in_range (lo hi c : ascii) : bool :=
  (N_of_ascii lo <=? N_of_ascii c)%N && (N_of_ascii c <=? N_of_ascii hi)%N.

(** [\w] *)
Definition word_char (c : ascii) : bool :=
  in_range "a" "z" c || in_range "A" "Z" c || in_range "0" "9" c || (c =? "_")%char.

(** [[\w-\.]] and [[\w-]] *)
Definition local_char (c : ascii) : bool :=
  word_char c || (c =? "-")%char || (c =? ".")%char.
Definition label_char (c : ascii) : bool :=
  word_char c || (c =? "-")%char.

(** [/^[\w-\.]+@([\w-]+\.)+[\w-]{2,4}$/] *)
Definition email_pattern : regex :=
  Cat (many1 (Char local_char))
      (Cat (Char (Ascii.eqb "@"))
           (Cat (many1 (Cat (many1 (Char label_char)) (Char (Ascii.eqb "."))))
                (rep_2_4 (Char label_char)))).

(** The validator of the [email] path: [v => pattern.test(v)]. *)
Definition email_validator (v : string) : bool := regex_test email_pattern v.

(** *** Token generation (lines 291-305) *)

Section Token.

(** [jwt.sign(payload, secret, { expiresIn })] of the jsonwebtoken package:
    the token, or the error it throws. *)
Variable jwt_sign : value -> option string -> option string -> result string.
Variable E : env.
(** [process.env.JWT_EXPIRY] *)
Variable JWT_EXPIRY : option string.

(** The handler, for the bytes [crypto.randomBytes(16)] returns. *)
Definition get_token (randomBytes : list Z) : result response :=
  let clientId := hex_of_bytes randomBytes in
  token <- jwt_sign (VObj [("clientId", VStr clientId)]) (JWT_SECRET E) JWT_EXPIRY ;;
  Ok (reply 200 [("success", VBool true); ("token", VStr token)]).

End Token.

(** *** The subscribe handler (lines 308-340) *)

(** What a [catch] clause sees of an error: its name and its message. *)
Record js_error := { error_name : string; error_message : string }.

Definition caught (e : exn) : js_error :=
  match e with
  | TypeError m => {| error_name := "TypeError"; error_message := m |}
  | Error m => {| error_name := "Error"; error_message := m |}
  end.

(** An awaited promise: fulfilled with a value or rejected with an error. *)
Inductive settled (A : Type) :=
| Fulfilled (a : A)
| RejectedWith (e : js_error).
Arguments Fulfilled {A} a.
Arguments RejectedWith {A} e.

(** [v.trim()]: only strings have a [trim] method. *)
Definition method_trim (v : value) : result string :=
  match v with
  | VStr s => Ok (trim s)
  | VUndefined | VNull => Throw (TypeError "Cannot read properties of null or undefined: trim")
  | _ => Throw (TypeError "trim is not a function")
  end.

Section Subscribe.

(** [validator.isEmail] and [String.prototype.toLowerCase]. *)
Variable validator_isEmail : string -> bool.
Variable toLowerCase : string -> string.
(** The email collection: [Email.findOne({ email })] resolves to a document
    or to [null]; [new Email({ email })] followed by [save()] resolves with
    the collection after the insert.  A rejected call stores nothing. *)
Variable store : Type.
Variable Email_findOne : store -> string -> settled value.
Variable Email_save : store -> string -> settled store.

(** isValidEmail (lines 124-126) *)
Definition isValidEmail (email : string) : bool := validator_isEmail email.

(** The [catch] clause. *)
Definition subscribe_catch (error : js_error) : response :=
  if (error_name error =? "ValidationError")%string
  then reply 400 [("error", VStr "Please enter a valid email address")]
  else reply 500 [("error", VStr "Server error, please try again later")].

Definition subscribe (st : store) (b : value) : store * response :=
  match (email0 <- get b "email" ;;
         if truthy email0 then (t <- method_trim email0 ;; Ok (toLowerCase t))
         else Ok EmptyString) with
  | Throw e => (st, subscribe_catch (caught e))
  | Ok email =>
      if negb (truthy (VStr email)) then
        (st, reply 400 [("error", VStr "Email is required")])
      else if negb (isValidEmail email) then
        (st, reply 400 [("error", VStr "Please enter a valid email address")])
      else
        match Email_findOne st email with
        | RejectedWith err => (st, subscribe_catch err)
        | Fulfilled existingEmail =>
            if truthy existingEmail then
              (st, reply 409 [("error", VStr "This email is already subscribed")])
            else
              match Email_save st email with
              | RejectedWith err => (st, subscribe_catch err)
              | Fulfilled st' =>
                  (st', reply 201 [("message", VStr "Successfully subscribed to newsletter!")])
              end
        end
  end.

End Subscribe.

(** *** The add-to-collection handler (lines 343-365) *)

(** A product document as [res.json] writes it. *)
Definition product_document (p : product) : value :=
  VObj [("_id", _id p); ("product_code", VStr (product_code p));
        ("product_name", product_name p); ("product_price", product_price p);
        ("product_imageurl", product_imageurl p)].

(** [Product.findOne({ product_code: code })]: the first document with that
    code, in collection order.  The database is taken to be reachable. *)
Definition Product_findOne (catalog : list product) (query : value) : option product :=
  find (fun p => strict_eq_str (product_code p) (field query "product_code")) catalog.

Definition add_to_collection (catalog : list product) (b : value) : response :=
  let productName := match field b "productName" with VStr s => trim s | _ => EmptyString end in
  let size := match field b "size" with VStr s => trim s | _ => EmptyString end in
  if negb (truthy (VStr productName)) || negb (truthy (VStr size)) then
    reply 400 [("success", VBool false);
               ("message", VStr "Product name and size are required")]
  else
    match (query <- sanitizeMongoQuery (VObj [("product_code", VStr productName)]) ;;
           Ok (Product_findOne catalog query)) with
    | Ok (Some product) =>
        reply 200 [("success", VBool true); ("product", product_document product);
                   ("size", VStr size)]
    | Ok None =>
        reply 404 [("success", VBool false); ("message", VStr "Product not found")]
    | Throw err =>
        reply 500 [("success", VBool false); ("message", VStr "Server error");
                   ("error", VStr (exn_message err))]
    end.

(** *** The routes (lines 291, 308, 343, 368, 455)

    A request is what body-parser hands on: the middleware registered
    before the sanitizer (helmet, the header middleware, cors, body-parser)
    has passed it on.  Then come [sanitizeRequest] (line 139), the general
    rate limiter on every path under /api/ (line 182), on the subscribe
    route its own rate limiter, and on the protected routes
    [authenticateJWT]. *)

Section Routes.

Variable xss : string -> string.
(** The two limiters of express-rate-limit: a limiter answers the request
    itself (status 429) or passes it on. *)
Variable apiLimiter : request -> option response.
Variable subscribeRateLimiter : request -> option response.
Variable jwt_verify : string -> option string -> result value.
Variable E : env.

(** An exception of the handler goes to [errorHandler]. *)
Definition route_get_token
    (jwt_sign : value -> option string -> option string -> result string)
    (JWT_EXPIRY : option string) (randomBytes : list Z) (req : request) : response :=
  let req := sanitized xss req in
  match apiLimiter req with
  | Some limited => limited
  | None =>
      match get_token jwt_sign E JWT_EXPIRY randomBytes with
      | Ok r => r
      | Throw e => errorHandler (thrown e)
      end
  end.

Definition route_subscribe (validator_isEmail : string -> bool)
    (toLowerCase : string -> string) (store : Type)
    (Email_findOne : store -> string -> settled value)
    (Email_save : store -> string -> settled store)
    (st : store) (req : request) : store * response :=
  let req := sanitized xss req in
  match apiLimiter req with
  | Some limited => (st, limited)
  | None =>
      match subscribeRateLimiter req with
      | Some limited => (st, limited)
      | None =>
          match authenticateJWT jwt_verify E req with
          | Rejected r => (st, r)
          | Next _ => subscribe validator_isEmail toLowerCase store Email_findOne Email_save
                                st (body req)
          end
      end
  end.

Definition route_add_to_collection (catalog : list product) (req : request) : response :=
  let req := sanitized xss req in
  match apiLimiter req with
  | Some limited => limited
  | None =>
      match authenticateJWT jwt_verify E req with
      | Rejected r => r
      | Next _ => add_to_collection catalog (body req)
      end
  end.

Definition route_checkout (catalog : list product) (now : value) (req : request) : response :=
  let req := sanitized xss req in
  match apiLimiter req with
  | Some limited => limited
  | None =>
      match authenticateJWT jwt_verify E req with
      | Rejected r => r
      | Next _ => checkout E catalog now (body req)
      end
  end.

Definition route_save_order (store : Type)
    (Order_save : store -> value -> result (store * value))
    (st : store) (req : request) : store * response :=
  let req := sanitized xss req in
  match apiLimiter req with
  | Some limited => (st, limited)
  | None =>
      match authenticateJWT jwt_verify E req with
      | Rejected r => (st, r)
      | Next _ => save_order E store Order_save st (body req)
      end
  end.

End Routes.

(** ** The error taxonomy of the specification, read off a response *)

Inductive outcome :=
| Success
| InvalidInput
| Unauthenticated
| Forbidden
| NotFound
| IntegrityViolation
| Internal.

Definition classify (r : response) : outcome :=
  let s := status r in
  if s =? 200 then Success
  else if s =? 401 then Unauthenticated
  else if s =? 403 then Forbidden
  else if s =? 404 then NotFound
  else if s =? 400 then
    if strict_eq_str verification_failed (field (json r) "message")
    then IntegrityViolation else InvalidInput
  else Internal.

(** ** Notions used to state the properties *)

(** *** Request bodies *)

Definition cart_line (code size : value) : value :=
  VObj [("productCode", code); ("size", size)].

Definition checkout_body (lines : list value) (address : value) : value :=
  VObj [("cart", VArr lines); ("address", address)].

Definition save_body (order : value) (digest : string) : value :=
  VObj [("order", order); ("orderHash", VStr digest)].

(** *** Key order, edits and positions in a summary *)

(** [v'] is [v] with the keys of the object in another order. *)
Inductive reordered : value -> value -> Prop :=
| reordered_same v : reordered v v
| reordered_keys ps ps' :
    NoDup (map fst ps) -> Permutation ps ps' -> reordered (VObj ps) (VObj ps').

(** Two property lists with the same keys in the same order: the lines of
    [cart] related by [Rline], [address] and [pricing] by [Rinner], every
    other property equal. *)
Definition prop_rel (Rline Rinner : value -> value -> Prop)
    (kv kv' : string * value) : Prop :=
  fst kv = fst kv' /\
  if (fst kv =? "cart")%string then
    snd kv = snd kv' \/
    exists c c', snd kv = VArr c /\ snd kv' = VArr c' /\ Forall2 Rline c c'
  else if ((fst kv =? "address") || (fst kv =? "pricing"))%string then
    Rinner (snd kv) (snd kv')
  else snd kv = snd kv'.

Definition summary_rel (Rline Rinner : value -> value -> Prop) (S S' : value) : Prop :=
  exists ps ps', S = VObj ps /\ S' = VObj ps' /\
                 Forall2 (prop_rel Rline Rinner) ps ps'.

(** Equal up to the order of keys inside address, pricing and cart lines. *)
Definition key_reordered : value -> value -> Prop := summary_rel reordered reordered.
(** Equal up to the order of keys inside cart lines only. *)
Definition lines_reordered : value -> value -> Prop := summary_rel reordered eq.

(** [obj[k] = v]: the value of an existing key is replaced in place, a new
    key is added last. *)
Fixpoint assign (k : string) (v : value) (ps : list (string * value)) : list (string * value) :=
  match ps with
  | [] => [(k, v)]
  | (k', v') :: rest =>
      if (k' =? k)%string then (k, v) :: rest else (k', v') :: assign k v rest
  end.

Definition hashed_top (k : string) : bool :=
  existsb (String.eqb k) ["cart"; "address"; "pricing"].
Definition hashed_line (k : string) : bool :=
  existsb (String.eqb k) ["productCode"; "productName"; "price"; "size"].

(** Edits of a summary that touch only properties outside the hashed
    projection: a top-level property other than cart, address and pricing
    (orderDate, status), or a property of a cart line other than
    productCode, productName, price and size (imageUrl, _id). *)
Inductive excluded_edit : value -> value -> Prop :=
| edit_none S : excluded_edit S S
| edit_top k v ps :
    hashed_top k = false -> excluded_edit (VObj ps) (VObj (assign k v ps))
| edit_line k v ps before line after :
    hashed_line k = false ->
    lookup "cart" ps = VArr (before ++ VObj line :: after) ->
    excluded_edit (VObj ps)
      (VObj (assign "cart" (VArr (before ++ VObj (assign k v line) :: after)) ps))
| edit_trans S1 S2 S3 :
    excluded_edit S1 S2 -> excluded_edit S2 S3 -> excluded_edit S1 S3.

(** A value whose properties can be read: neither [null] nor [undefined]. *)
Definition is_line (item : value) : bool :=
  match item with VUndefined | VNull => false | _ => true end.

(** A summary the digest is defined on: an object whose cart is an array
    of lines, none of them [null] or [undefined]. *)
Definition hashable (S : value) : Prop :=
  exists ps items, S = VObj ps /\ lookup "cart" ps = VArr items /\
                   forallb is_line items = true.

(** One-hole contexts: a position inside a JSON value. *)
Inductive ctx :=
| CHole
| CObj (before : list (string * value)) (k : string) (c : ctx)
       (after : list (string * value))
| CArr (before : list value) (c : ctx) (after : list value).

Fixpoint plug (c : ctx) (v : value) : value :=
  match c with
  | CHole => v
  | CObj before k c' after => VObj (before ++ (k, plug c' v) :: after)
  | CArr before c' after => VArr (before ++ plug c' v :: after)
  end.

(** *** Cart lines *)

(** A line whose productCode is not a non-empty string after trimming. *)
Definition bad_code (item : value) : bool :=
  match item with
  | VUndefined | VNull => true
  | _ => match field item "productCode" with
         | VStr s => (trim s =? EmptyString)%string
         | _ => true
         end
  end.

(** A line whose productCode is a non-empty string without surrounding
    white space. *)
Definition clean_code (item : value) : bool :=
  match item with
  | VUndefined | VNull => false
  | _ => match field item "productCode" with
         | VStr s => (trim s =? s)%string && negb (s =? EmptyString)%string
         | _ => false
         end
  end.

(** The text of a product code, for a line that has one. *)
Definition code_text (item : value) : string :=
  match field item "productCode" with VStr s => s | _ => EmptyString end.

Definition in_catalog (catalog : list product) (code : value) : bool :=
  existsb (fun p => strict_eq_str (product_code p) code) catalog.

Definition valid_size (size : value) : bool :=
  match size with VStr s => negb (trim s =? EmptyString)%string | _ => false end.

(** The lines checkout keeps: the code is in the catalog and the size is a
    non-empty string after trimming. *)
Definition kept (catalog : list product) (item : value) : bool :=
  in_catalog catalog (field item "productCode") && valid_size (field item "size").

(** A kept line, filled in from the first catalog record with its code. *)
Definition enrich (catalog : list product) (item : value) : value :=
  match find (fun p => strict_eq_str (product_code p) (field item "productCode")) catalog with
  | Some p =>
      VObj [("_id", _id p); ("productCode", VStr (product_code p));
            ("productName", product_name p); ("price", product_price p);
            ("imageUrl", product_imageurl p);
            ("size", VStr match field item "size" with VStr s => trim s | _ => EmptyString end)]
  | None => VNull
  end.

(** *** Bearer tokens *)

(** The bearer token [authenticateJWT] extracts: what follows the first
    space of the header, up to the next one, when it is not empty. *)
Definition bearer_token (req : request) : option string :=
  match authorization req with
  | Some h =>
      match nth_error (split " " h) 1 with
      | Some t => if (t =? EmptyString)%string then None else Some t
      | None => None
      end
  | None => None
  end.

(** *** Reading back a quoted string *)

Definition hex_val (c : ascii) : option Z :=
  let n := Z.of_N (N_of_ascii c) in
  if (48 <=? n) && (n <=? 57) then Some (n - 48)
  else if (97 <=? n) && (n <=? 102) then Some (n - 87)
  else None.

Definition cons_char (n : Z) (o : option string) : option string :=
  match o with
  | Some s => Some (String (ascii_of_N (Z.to_N n)) s)
  | None => None
  end.

(** The string whose quoted body is [s], when there is one. *)
Fixpoint unquote_body (s : string) : option string :=
  match s with
  | EmptyString => Some EmptyString
  | String c r =>
      if (c =? "\")%char then
        match r with
        | String x r1 =>
            if (x =? "b")%char then cons_char 8 (unquote_body r1)
            else if (x =? "t")%char then cons_char 9 (unquote_body r1)
            else if (x =? "n")%char then cons_char 10 (unquote_body r1)
            else if (x =? "f")%char then cons_char 12 (unquote_body r1)
            else if (x =? "r")%char then cons_char 13 (unquote_body r1)
            else if (x =? "u")%char then
              match r1 with
              | String h1 (String h2 (String h3 (String h4 r2))) =>
                  match hex_val h1, hex_val h2, hex_val h3, hex_val h4 with
                  | Some a, Some b, Some c', Some d =>
                      cons_char (((a * 16 + b) * 16 + c') * 16 + d) (unquote_body r2)
                  | _, _, _, _ => None
                  end
              | _ => None
              end
            else cons_char (Z.of_N (N_of_ascii x)) (unquote_body r1)
        | EmptyString => None
        end
      else cons_char (Z.of_N (N_of_ascii c)) (unquote_body r)
  end.

(** *** Rounding to two decimals, as a number *)

(** [round(x, 2)], as the handler computes it. *)
Definition round2 (x : number) : number := parseFloat (toFixed x 2).

Fixpoint all_digits (s : string) : bool :=
  match s with
  | EmptyString => true
  | String c r => is_digit c && all_digits r
  end.

(** The number a run of digits denotes, after the digits read so far. *)
Fixpoint digits_value (acc : Z) (s : string) : Z :=
  match s with
  | EmptyString => acc
  | String c r => digits_value (10 * acc + (Z.of_N (N_of_ascii c) - 48)) r
  end.

(** The integer nearest to [100 * x] for [x = m * 2 ^ e], the larger one
    when two are equally near. *)
Definition hundredths (m : positive) (e : Z) : Z :=
  let '(p, q) := ratio_of m e in (2 * p * 10 ^ 2 + q) / (2 * q).

(** The numbers [toFixed] writes in fixed notation: finite, and below
    [10 ^ 21] in magnitude. *)
Definition fixed_range (x : number) : bool :=
  match x with
  | S754_zero _ => true
  | S754_finite _ m e => let '(p, q) := ratio_of m e in p <? 10 ^ 21 * q
  | _ => false
  end.

(** [x] rounded to two decimals, the half-way case going away from zero:
    the double nearest to [n / 100], where [n] is the integer nearest to
    [100 * |x|], carrying the sign of [x]. *)
Definition round2_spec (x : number) : number :=
  match x with
  | S754_zero _ => S754_zero false
  | S754_finite s m e =>
      let n := hundredths m e in
      if n =? 0 then S754_zero s else dec s n (-2)
  | _ => x
  end.

(** Rounded to two decimals: rounding again gives the same number. *)
Definition is_rounded2 (x : number) : Prop := round2_spec x = x.

(** [x >= 0], either zero included; [NaN] is not. *)
Definition nonneg (x : number) : bool :=
  match x with
  | S754_zero _ | S754_finite false _ _ | S754_infinity false => true
  | _ => false
  end.

(** A catalog price that counts as a non-negative amount in the subtotal:
    a non-negative number, or a value the reducer replaces by 0. *)
Definition price_nonneg (price : value) : bool :=
  match price with
  | VNum x => nonneg x || isNaN x
  | _ => true
  end.

(** *** Comparing a non-negative number with a power of two *)

(** [x <= 2 ^ K], for [x] zero or positive and finite. *)
Definition le_pow2 (x : number) (K : Z) : Prop :=
  match x with
  | S754_zero _ => True
  | S754_finite false m e => e <= K /\ Zpos m <= 2 ^ (K - e)
  | _ => False
  end.

(** [2 ^ K <= x], for [x] positive, possibly infinite. *)
Definition ge_pow2 (x : number) (K : Z) : Prop :=
  match x with
  | S754_infinity false => True
  | S754_finite false m e => K <= e \/ 2 ^ (K - e) <= Zpos m
  | _ => False
  end.

(** *** The strings of a value *)

(** [v] with [f] applied to every string in it, at any depth; keys, numbers,
    booleans and [null] are left as they are. *)
Fixpoint map_strings (f : string -> string) (v : value) : value :=
  match v with
  | VStr s => VStr (f s)
  | VArr items => VArr (map (map_strings f) items)
  | VObj props => VObj (map (fun kv => let '(k, x) := kv in (k, map_strings f x)) props)
  | _ => v
  end.

(** The result of code that may throw, after [f]. *)
Definition on_ok {A B} (f : A -> B) (r : result A) : result B :=
  match r with Ok a => Ok (f a) | Throw e => Throw e end.

(** *** Characters of a string *)

(** Every character of [s] satisfies [p]. *)
Fixpoint all_chars (p : ascii -> bool) (s : string) : bool :=
  match s with
  | EmptyString => true
  | String c r => p c && all_chars p r
  end.

(** [s] does not contain the character [c]. *)
Definition lacks (c : ascii) (s : string) : bool :=
  all_chars (fun x => negb (x =? c)%char) s.

(** The number of occurrences of [c] in [s]. *)
Fixpoint count_char (c : ascii) (s : string) : nat :=
  match s with
  | EmptyString => O
  | String x r => ((if (x =? c)%char then 1 else 0) + count_char c r)%nat
  end.

(** [0-9a-f] *)
Definition is_hex_lower (c : ascii) : bool :=
  in_range "0" "9" c || in_range "a" "f" c.

(** *** Requests and lines *)

(** A request with the given Authorization header. *)
Definition with_header (h : string) (b : value) : request :=
  {| authorization := Some h; body := b |}.

(** Two cart lines that agree on what the checkout handler reads of a
    line: its productCode and its size. *)
Definition same_line (a b : value) : Prop :=
  get a "productCode" = get b "productCode" /\ get a "size" = get b "size".

(** The line checkout builds for a catalog product and a trimmed size. *)
Definition catalog_line (p : product) (size : string) : value :=
  VObj [("_id", _id p); ("productCode", VStr (product_code p));
        ("productName", product_name p); ("price", product_price p);
        ("imageUrl", product_imageurl p); ("size", VStr size)].

(** *** The language of a regular expression *)

Inductive matches : regex -> string -> Prop :=
| matches_empty : matches Empty EmptyString
| matches_char p c : p c = true -> matches (Char p) (String c EmptyString)
| matches_cat r1 r2 s1 s2 :
    matches r1 s1 -> matches r2 s2 -> matches (Cat r1 r2) (s1 ++ s2)
| matches_alt_l r1 r2 s : matches r1 s -> matches (Alt r1 r2) s
| matches_alt_r r1 r2 s : matches r2 s -> matches (Alt r1 r2) s
| matches_star_nil r : matches (Star r) EmptyString
| matches_star_cons r s1 s2 :
    matches r s1 -> matches (Star r) s2 -> matches (Star r) (s1 ++ s2).

(** The labels of a domain, each followed by a dot. *)
Fixpoint dotted (labels : list string) : string :=
  match labels with
  | [] => EmptyString
  | l :: rest => l ++ "." ++ dotted rest
  end.

(** A non-empty string of characters of [[\w-]]. *)
Definition is_label (l : string) : Prop :=
  l <> EmptyString /\ all_chars label_char l = true.

(** *** Rounding a fraction to a double *)

(** The integer nearest to [a / b], the even one when two are equally
    near. *)
Definition rne (a b : Z) : Z :=
  match 2 * (a mod b) ?= b with
  | Lt => a / b
  | Eq => if Z.even (a / b) then a / b else a / b + 1
  | Gt => a / b + 1
  end.

(** [a / b] as the rounding code holds it: the integer part, whether the
    fraction is at least one half, and whether it is neither zero nor one
    half. *)
Definition rec_of (a b : Z) : shr_record :=
  {| shr_m := a / b;
     shr_r := b <=? 2 * (a mod b);
     shr_s := negb (a mod b =? 0) && negb (2 * (a mod b) =? b) |}.

(** [p / q / 2 ^ E] as a fraction. *)
Definition scaled (p q E : Z) : Z * Z :=
  if 0 <=? E then (p, q * 2 ^ E) else (p * 2 ^ (- E), q).

(** [2 ^ (mu - 1) <= p / q < 2 ^ mu] *)
Definition binade (p q mu : Z) : Prop :=
  fst (scaled p q mu) < snd (scaled p q mu) /\
  snd (scaled p q (mu - 1)) <= fst (scaled p q (mu - 1)).

(** The double with significand [c] at exponent [E], [c] being at most
    [2 ^ 53]. *)
Definition finish (neg : bool) (c E : Z) : number :=
  if c =? 0 then S754_zero neg
  else
    let '(m, e) := if c =? 2 ^ 53 then (2 ^ 52, E + 1) else (c, E) in
    if e <=? 971 then S754_finite neg (Z.to_pos m) e else S754_infinity neg.

(** *** Powers of ten against powers of two *)

(** [a ^ x <= b ^ y], for exponents of either sign. *)
Definition pow_le (a x b y : Z) : bool :=
  a ^ Z.max x 0 * b ^ Z.max (- y) 0 <=? b ^ Z.max y 0 * a ^ Z.max (- x) 0.

(** The estimate [magnitude] starts from, for a value in
    [2 ^ (L + 1), 2 ^ (L + 2)). *)
Definition estimate (L : Z) : Z := L * 1233 / 4096 - 2.

(** The estimate is at most one too large for a decimal exponent, and at
    most seven too small. *)
Definition estimate_ok (L : Z) : bool :=
  pow_le 10 (estimate L - 1) 2 (L + 1) && pow_le 2 (L + 2) 10 (estimate L + 7).

(** [s * 10 ^ e] as a fraction. *)
Definition decimal_ratio (s e : Z) : Z * Z :=
  if 0 <=? e then (s * 10 ^ e, 1) else (s, 10 ^ (- e)).

(** The test of [shortest_from]: [s * 10 ^ e] reads as the double [x]. *)
Definition reads_as (x : number) (s e : Z) : bool :=
  match x, dec false s e with
  | S754_finite _ m1 e1, S754_finite _ m2 e2 => Pos.eqb m1 m2 && (e1 =? e2)
  | _, _ => false
  end.

(** *** Scalar values *)

(** A value [JSON.stringify] writes as one token: [null], a boolean, a
    string or a number, the numbers being the doubles. *)
Definition scalar (v : value) : bool :=
  match v with
  | VNull | VBool _ | VStr _ => true
  | VNum x => valid_binary prec emax x
  | VUndefined | VArr _ | VObj _ => false
  end.

(** What [JSON.stringify] keeps of a scalar: [NaN] and the infinities are
    written [null], and [-0] is written [0]. *)
Definition json_image (v : value) : value :=
  match v with
  | VNum S754_nan | VNum (S754_infinity _) => VNull
  | VNum (S754_zero _) => VNum (S754_zero false)
  | _ => v
  end.

(** Edits of a summary inside the hashed projection: the value [v] of a
    property of [address] or of [pricing], or of one of the properties
    productCode, productName, price and size of a cart line, is replaced by
    [v']. *)
Inductive hashed_edit : value -> value -> value -> value -> Prop :=
| hashed_inner k0 k v v' ps before after :
    k0 = "address" \/ k0 = "pricing" ->
    lookup k0 ps = VObj (before ++ (k, v) :: after) ->
    hashed_edit (VObj ps)
      (VObj (assign k0 (VObj (before ++ (k, v') :: after)) ps)) v v'
| hashed_in_line f v' ps before line after :
    hashed_line f = true ->
    lookup "cart" ps = VArr (before ++ VObj line :: after) ->
    hashed_edit (VObj ps)
      (VObj (assign "cart" (VArr (before ++ VObj (assign f v' line) :: after)) ps))
      (lookup f line) v'.

(** ** Sample data *)

Definition demo_env : env := {| SECRET_KEY := Some "k"; JWT_SECRET := Some "j" |}.

Definition demo_product (code name : string) (price : number) : product :=
  {| _id := VStr ("id-" ++ code); product_code := code; product_name := VStr name;
     product_price := VNum price; product_imageurl := VStr ("/img/" ++ code) |}.

Definition demo_catalog : list product :=
  [ demo_product "A1" "Shirt" (num_of_Z 800); demo_product "B2" "Cap" (num_of_Z 500) ].

Definition demo_catalog_fraction : list product :=
  [ demo_product "A1" "Shirt" (dec false 1 (-1)); demo_product "B2" "Cap" (dec false 2 (-1)) ].

Definition demo_catalog_negative : list product :=
  [ demo_product "A1" "Shirt" (num_of_Z (-1000)) ].

Definition demo_address : value := VObj [("city", VStr "Pune"); ("zip", VStr "411001")].
Definition demo_address_swapped : value := VObj [("zip", VStr "411001"); ("city", VStr "Pune")].

Definition demo_address_null : value :=
  VObj [("city", VStr "Pune"); ("landmark", VNull)].
Definition demo_address_infinite : value :=
  VObj [("city", VStr "Pune"); ("landmark", VNum (S754_infinity false))].

Definition demo_line : list (string * value) :=
  [("_id", VStr "id-A1"); ("productCode", VStr "A1"); ("productName", VStr "Shirt");
   ("price", VNum (num_of_Z 800)); ("imageUrl", VStr "/img/A1"); ("size", VStr "M")].

Definition demo_line_swapped : list (string * value) :=
  [("size", VStr "M"); ("price", VNum (num_of_Z 800)); ("_id", VStr "id-A1");
   ("productName", VStr "Shirt"); ("imageUrl", VStr "/img/A1"); ("productCode", VStr "A1")].

Definition demo_pricing : value :=
  VObj [("subtotal", VNum (num_of_Z 800)); ("discount", VNum (num_of_Z 80));
        ("delivery", VNum (num_of_Z 0)); ("total", VNum (num_of_Z 720))].

Definition demo_summary (line : list (string * value)) (address : value) : value :=
  VObj [("cart", VArr [VObj line]); ("address", address); ("pricing", demo_pricing);
        ("orderDate", VStr "2024-05-01T10:00:00.000Z"); ("status", VStr "pending")].

Definition demo_digest : string :=
  Eval vm_compute in
    match generateOrderHash demo_env (demo_summary demo_line demo_address) with
    | Ok d => d
    | Throw _ => EmptyString
    end.

(** The sample summary with only excluded properties changed. *)
Definition demo_summary_edited : value :=
  VObj [("cart", VArr [VObj [("_id", VStr "id-A1"); ("productCode", VStr "A1");
                             ("productName", VStr "Shirt");
                             ("price", VNum (num_of_Z 800));
                             ("imageUrl", VStr "/img/other"); ("size", VStr "M")]]);
        ("address", demo_address); ("pricing", demo_pricing);
        ("orderDate", VStr "1999-12-31T00:00:00.000Z"); ("status", VStr "paid")].

(** The position of [address.landmark] and of [address.city] in the hashed
    projection of the sample summaries. *)
Definition demo_projected_line : value :=
  VObj [("productCode", VStr "A1"); ("productName", VStr "Shirt");
        ("price", VNum (num_of_Z 800)); ("size", VStr "M")].
Definition landmark_position : ctx :=
  CObj [("cart", VArr [demo_projected_line])] "address"
       (CObj [("city", VStr "Pune")] "landmark" CHole [])
       [("pricing", demo_pricing)].
Definition city_position : ctx :=
  CObj [("cart", VArr [demo_projected_line])] "address"
       (CObj [] "city" CHole [("zip", VStr "411001")])
       [("pricing", demo_pricing)].

(** A stand-in for the order collection: the documents stored so far, the
    [_id] of a new document being its position. *)
Definition list_store : Type := list value.
Definition list_save (st : list_store) (doc : value) : result (list_store * value) :=
  Ok ((st ++ [doc])%list, VNum (num_of_Z (Z.of_nat (List.length st)))).

(** A stand-in for [jwt.verify], with the errors jsonwebtoken reports: a
    token is three segments separated by dots, the last one playing the
    signature and the first one telling whether the token has expired. *)
Definition demo_jwt_verify (token : string) (secret : option string) : result value :=
  match secret with
  | None => Throw (Error "secret or public key must be provided")
  | Some sec =>
      match split "." token with
      | [header; payload; signature] =>
          if negb (signature =? sec)%string then Throw (Error "invalid signature")
          else if (header =? "expired")%string then Throw (Error "jwt expired")
          else Ok (VObj [("clientId", VStr payload)])
      | _ => Throw (Error "jwt malformed")
      end
  end.

(** A stand-in for [xss]: the two angle brackets are escaped. *)
Fixpoint demo_xss (s : string) : string :=
  match s with
  | EmptyString => EmptyString
  | String c r =>
      if (c =? "<")%char then "&lt;" ++ demo_xss r
      else if (c =? ">")%char then "&gt;" ++ demo_xss r
      else String c (demo_xss r)
  end.

(** The sample summary with markup in a property outside the hashed
    projection. *)
Definition demo_summary_markup : value :=
  demo_summary
    [("_id", VStr "id-A1"); ("productCode", VStr "A1"); ("productName", VStr "Shirt");
     ("price", VNum (num_of_Z 800)); ("imageUrl", VStr "/img/<A1>"); ("size", VStr "M")]
    demo_address.

(** Stand-ins for the email collection, [validator.isEmail] and
    [toLowerCase]: the addresses stored so far, an address being stored
    when it matches the pattern of the schema; an address is valid when it
    holds an at sign; ASCII letters are lowered. *)
Definition address_book : Type := list string.

Definition book_findOne (st : address_book) (email : string) : settled value :=
  Fulfilled (if existsb (String.eqb email) st then VObj [("email", VStr email)] else VNull).

Definition book_save (st : address_book) (email : string) : settled address_book :=
  if email_validator email then Fulfilled (st ++ [email])%list
  else RejectedWith {| error_name := "ValidationError";
                       error_message := "emails validation failed" |}.

Definition lower_ascii (c : ascii) : ascii :=
  if in_range "A" "Z" c then ascii_of_N (N_of_ascii c + 32) else c.

Fixpoint demo_toLowerCase (s : string) : string :=
  match s with
  | EmptyString => EmptyString
  | String c r => String (lower_ascii c) (demo_toLowerCase r)
  end.

Definition demo_isEmail (s : string) : bool := negb (lacks "@" s).

(** A stand-in for [jwt.sign], the counterpart of [demo_jwt_verify]: the
    client id between a header segment and the secret. *)
Definition demo_jwt_sign (payload : value) (secret expiry : option string) : result string :=
  match secret, field payload "clientId" with
  | Some sec, VStr c => Ok ("h." ++ c ++ "." ++ sec)
  | _, _ => Throw (Error "secretOrPrivateKey must have a value")
  end.

(** Sixteen sample bytes. *)
Definition demo_bytes : list Z :=
  [0; 17; 34; 51; 68; 85; 102; 119; 136; 153; 170; 187; 204; 221; 238; 255].

(** A stand-in for [jwt.verify] that returns, as jsonwebtoken does, the
    signed claim together with the issue and expiry times. *)
Definition demo_jwt_verify_claims (token : string) (secret : option string) : result value :=
  match demo_jwt_verify token secret with
  | Ok payload =>
      Ok (VObj [("clientId", field payload "clientId");
                ("iat", VNum (num_of_Z 1714557600)); ("exp", VNum (num_of_Z 1714561200))])
  | Throw e => Throw e
  end.

(** Limiters that let every request pass, and one that has reached its
    limit. *)
Definition no_limit (req : request) : option response := None.
Definition limit_reached (req : request) : option response :=
  Some (reply 429 [("error", VStr "Too many requests. Please try again later.")]).

(** A sample summary whose product name holds markup, and the same with
    only its status edited. *)
Definition demo_line_angle : list (string * value) :=
  [("_id", VStr "id-A1"); ("productCode", VStr "A1"); ("productName", VStr "Shirt <XL>");
   ("price", VNum (num_of_Z 800)); ("imageUrl", VStr "/img/A1"); ("size", VStr "M")].

Definition demo_summary_angle : value := demo_summary demo_line_angle demo_address.

Definition demo_summary_angle_paid : value :=
  VObj [("cart", VArr [VObj demo_line_angle]); ("address", demo_address);
        ("pricing", demo_pricing);
        ("orderDate", VStr "2024-05-01T10:00:00.000Z"); ("status", VStr "paid")].

Definition demo_digest_angle : string :=
  Eval vm_compute in
    match generateOrderHash demo_env demo_summary_angle with
    | Ok d => d
    | Throw _ => EmptyString
    end.

(** The position of [pricing.total] in the hashed projection of the sample
    summary, and the summary with another total. *)
Definition total_position : ctx :=
  CObj [("cart", VArr [demo_projected_line]); ("address", demo_address)] "pricing"
       (CObj [("subtotal", VNum (num_of_Z 800)); ("discount", VNum (num_of_Z 80));
              ("delivery", VNum (num_of_Z 0))] "total" CHole [])
       [].
Definition demo_summary_total (total : value) : value :=
  VObj [("cart", VArr [VObj demo_line]); ("address", demo_address);
        ("pricing", VObj [("subtotal", VNum (num_of_Z 800)); ("discount", VNum (num_of_Z 80));
                          ("delivery", VNum (num_of_Z 0)); ("total", total)]);
        ("orderDate", VStr "2024-05-01T10:00:00.000Z"); ("status", VStr "pending")].

(** ** Proof automation *)

(** Case analysis on the eight bits of a character. *)
Ltac each_char c := destruct c as [[|] [|] [|] [|] [|] [|] [|] [|]].

(** A conjunction of closed facts, each settled by evaluation. *)
Ltac by_evaluation := repeat split; vm_compute; solve [reflexivity | discriminate].


(** * Properties *)

(** ** The run-time model against known values *)

Example sha256_abc :
  hex_of_bytes (Sha256.sha256 (bytes_of_string "abc"))
  = "ba7816bf8f01cfea414140de5dae2223b00361a396177a9cb410ff61f20015ad".
Proof. vm_compute. reflexivity. Qed.

Example sha256_empty :
  hex_of_bytes (Sha256.sha256 [])
  = "e3b0c44298fc1c149afbf4c8996fb92427ae41e4649b934ca495991b7852b855".
Proof. vm_compute. reflexivity. Qed.

Example sha256_two_blocks :
  hex_of_bytes (Sha256.sha256 (bytes_of_string
    "abcdbcdecdefdefgefghfghighijhijkijkljklmklmnlmnomnopnopq"))
  = "248d6a61d20638b8e5c026930c3e6039a33ce45964ff2167f6ecedd419db06c1".
Proof. vm_compute. reflexivity. Qed.

(** RFC 4231, test case 2 *)
Example hmac_rfc4231_case2 :
  hmac_sha256_hex "Jefe" "what do ya want for nothing?"
  = "5bdcc146bf60754e6a042426089575c75a003f089d2739839dec58b964ec3843".
Proof. vm_compute. reflexivity. Qed.

(** [0.1 + 0.2], and numbers at the edges of Number::toString *)
Example toString_sum :
  Number_toString (num_add (dec false 1 (-1)) (dec false 2 (-1))) = "0.30000000000000004".
Proof. vm_compute. reflexivity. Qed.

Example toString_samples :
  map Number_toString
    [dec false 123456 (-3); dec false 1 (-7); dec false 1 (-6); dec false 1 21;
     dec false 1 20; dec false 1 23; num_of_Z (-150); dec false 5 (-324);
     dec false 17976931348623157 292; S754_zero true]
  = ["123.456"; "1e-7"; "0.000001"; "1e+21"; "100000000000000000000"; "1e+23";
     "-150"; "5e-324"; "1.7976931348623157e+308"; "0"].
Proof. vm_compute. reflexivity. Qed.

(** [(1.005).toFixed(2)], [(0.125).toFixed(2)], [(-0.125).toFixed(2)],
    [(10.05 * 0.1).toFixed(2)], [(1e21).toFixed(2)], [(-0.001).toFixed(2)] *)
Example toFixed_samples :
  map (fun x => toFixed x 2)
    [dec false 1005 (-3); dec false 125 (-3); dec true 125 (-3);
     num_mul (dec false 1005 (-2)) (dec false 1 (-1)); dec false 1 21; dec true 1 (-3)]
  = ["1.00"; "0.13"; "-0.13"; "1.01"; "1e+21"; "-0.00"].
Proof. vm_compute. reflexivity. Qed.

Example parseFloat_samples :
  map parseFloat ["80.00"; "-0.00"; "1e+21"; "NaN"; "Infinity"; "  12.5abc"; "."]
  = [num_of_Z 80; S754_zero true; dec false 1 21; S754_nan; S754_infinity false;
     dec false 125 (-1); S754_nan].
Proof. vm_compute. reflexivity. Qed.

Example trim_samples :
  map trim ["  A1 "; "   "; " a b "; str_of_bytes [194; 160; 65; 226; 128; 168]%nat]
  = ["A1"; EmptyString; "a b"; "A"].
Proof. vm_compute. reflexivity. Qed.

(** The two priced examples of the specification. *)
Example checkout_price_800 :
  field (field (json (checkout demo_env demo_catalog VNull
           (checkout_body [cart_line (VStr "A1") (VStr "M")] demo_address))) "order") "pricing"
  = VObj [("subtotal", VNum (num_of_Z 800)); ("discount", VNum (num_of_Z 80));
          ("delivery", VNum (num_of_Z 0)); ("total", VNum (num_of_Z 720))].
Proof. vm_compute. reflexivity. Qed.

Example checkout_price_500 :
  field (field (json (checkout demo_env demo_catalog VNull
           (checkout_body [cart_line (VStr "B2") (VStr "M")] demo_address))) "order") "pricing"
  = VObj [("subtotal", VNum (num_of_Z 500)); ("discount", VNum (num_of_Z 50));
          ("delivery", VNum (num_of_Z 150)); ("total", VNum (num_of_Z 600))].
Proof. vm_compute. reflexivity. Qed.



(** ** Property lookup *)

Lemma lookup_not_in k ps :
  ~ In k (map fst ps) -> lookup k ps = VUndefined.
Proof.
  induction ps as [|[k' v] ps IH]; simpl; intros H; [reflexivity|].
  destruct (String.eqb_spec k' k) as [->|Hne]; [tauto|].
  apply IH. tauto.
Qed.

Lemma lookup_perm k ps ps' :
  NoDup (map fst ps) -> Permutation ps ps' -> lookup k ps = lookup k ps'.
Proof.
  intros Hnd Hp. induction Hp as [|[k1 v1] l l' Hp IH|[k1 v1] [k2 v2] l|l1 l2 l3 Hp1 IH1 Hp2 IH2].
  - reflexivity.
  - simpl. inversion Hnd; subst. rewrite IH by assumption. reflexivity.
  - simpl in *. inversion Hnd as [|? ? Hn1 Hnd']; subst.
    destruct (String.eqb_spec k1 k) as [->|]; destruct (String.eqb_spec k2 k) as [->|];
      try reflexivity.
    exfalso. apply Hn1. simpl. now left.
  - rewrite IH1 by assumption. apply IH2.
    eapply Permutation_NoDup; [|exact Hnd]. now apply Permutation_map.
Qed.

Lemma lookup_assign_same k v ps : lookup k (assign k v ps) = v.
Proof.
  induction ps as [|[k' v'] ps IH]; simpl.
  - now rewrite String.eqb_refl.
  - destruct (String.eqb_spec k' k) as [->|Hne]; simpl.
    + now rewrite String.eqb_refl.
    + destruct (String.eqb_spec k' k); [contradiction|exact IH].
Qed.

Lemma lookup_assign_other k k' v ps :
  k' <> k -> lookup k' (assign k v ps) = lookup k' ps.
Proof.
  intros Hne. induction ps as [|[k1 v1] ps IH]; simpl.
  - destruct (String.eqb_spec k k'); [congruence|reflexivity].
  - destruct (String.eqb_spec k1 k) as [->|Hne1]; simpl.
    + destruct (String.eqb_spec k k'); [congruence|reflexivity].
    + destruct (String.eqb_spec k1 k'); [reflexivity|exact IH].
Qed.

(** ** The monad *)

Lemma mapM_ext {A B} (f g : A -> result B) l :
  (forall x, In x l -> f x = g x) -> mapM f l = mapM g l.
Proof.
  induction l as [|a l IH]; simpl; intros H; [reflexivity|].
  rewrite (H a) by now left. rewrite IH; [reflexivity|].
  intros x Hx. apply H. now right.
Qed.

Lemma mapM_Forall2 {A B} (R : A -> A -> Prop) (f : A -> result B) l l' :
  Forall2 R l l' -> (forall x y, R x y -> f x = f y) -> mapM f l = mapM f l'.
Proof.
  intros HF Hf. induction HF as [|x y l l' Hxy HF IH]; simpl; [reflexivity|].
  rewrite (Hf x y Hxy), IH. reflexivity.
Qed.

Lemma mapM_app {A B} (f : A -> result B) l1 l2 :
  mapM f (l1 ++ l2)%list =
  (bs1 <- mapM f l1 ;; bs2 <- mapM f l2 ;; Ok (bs1 ++ bs2)%list).
Proof.
  induction l1 as [|a l1 IH]; simpl.
  - destruct (mapM f l2); reflexivity.
  - destruct (f a); simpl; [|reflexivity].
    rewrite IH. destruct (mapM f l1); simpl; [|reflexivity].
    destruct (mapM f l2); reflexivity.
Qed.

Lemma mapM_total {A B} (f : A -> result B) l :
  (forall x, In x l -> exists y, f x = Ok y) -> exists ys, mapM f l = Ok ys.
Proof.
  induction l as [|a l IH]; simpl; intros H; [now eexists|].
  destruct (H a) as [y Hy]; [now left|]. rewrite Hy. simpl.
  destruct IH as [ys Hys]; [intros x Hx; apply H; now right|].
  rewrite Hys. simpl. now eexists.
Qed.

Lemma mapM_length {A B} (f : A -> result B) l ys :
  mapM f l = Ok ys -> List.length ys = List.length l.
Proof.
  revert ys. induction l as [|a l IH]; simpl; intros ys H.
  - now inversion H.
  - destruct (f a); simpl in H; [|discriminate].
    destruct (mapM f l); simpl in H; [|discriminate].
    inversion H; subst. simpl. f_equal. now apply IH.
Qed.

(** ** The hashed projection *)

Lemma project_item_reordered v v' :
  reordered v v' -> project_item v = project_item v'.
Proof.
  intros [v0|ps ps' Hnd Hp]; [reflexivity|].
  unfold project_item, get.
  now rewrite !(lookup_perm _ ps ps' Hnd Hp).
Qed.

Lemma lookup_prop_rel Rline Rinner ps ps' k :
  Forall2 (prop_rel Rline Rinner) ps ps' ->
  prop_rel Rline Rinner (k, lookup k ps) (k, lookup k ps') \/
  (lookup k ps = VUndefined /\ lookup k ps' = VUndefined).
Proof.
  induction 1 as [|[k1 v1] [k2 v2] l l' [Hk Hv] HF IH]; simpl in *.
  - right. now split.
  - subst k2. destruct (String.eqb_spec k1 k) as [->|Hne]; [|exact IH].
    left. split; [reflexivity|exact Hv].
Qed.

Lemma projection_rel Rline S S' :
  (forall x y, Rline x y -> project_item x = project_item y) ->
  summary_rel Rline eq S S' -> projection S = projection S'.
Proof.
  intros HR (ps & ps' & -> & -> & HF).
  unfold projection, get.
  assert (Hc : array_map (lookup "cart" ps) project_item
               = array_map (lookup "cart" ps') project_item).
  { destruct (lookup_prop_rel _ _ _ _ "cart" HF) as [[_ H]|[-> ->]]; [|reflexivity].
    simpl in H. destruct H as [->|(c & c' & -> & -> & Hcc)]; [reflexivity|].
    simpl. now rewrite (mapM_Forall2 _ _ _ _ Hcc HR). }
  assert (Ha : lookup "address" ps = lookup "address" ps').
  { destruct (lookup_prop_rel _ _ _ _ "address" HF) as [[_ H]|[-> ->]]; [|reflexivity].
    exact H. }
  assert (Hp : lookup "pricing" ps = lookup "pricing" ps').
  { destruct (lookup_prop_rel _ _ _ _ "pricing" HF) as [[_ H]|[-> ->]]; [|reflexivity].
    exact H. }
  simpl. rewrite Hc, Ha, Hp. reflexivity.
Qed.

Lemma hashable_projection S :
  hashable S -> exists p, projection S = Ok p.
Proof.
  intros (ps & items & -> & Hc & Hl).
  unfold projection, get. rewrite Hc. simpl.
  destruct (mapM_total project_item items) as [ys Hys].
  - intros x Hx. rewrite forallb_forall in Hl. specialize (Hl x Hx).
    destruct x; try discriminate; unfold project_item; simpl; eexists; reflexivity.
  - rewrite Hys. simpl. eexists; reflexivity.
Qed.

Lemma hashable_digest E S :
  SECRET_KEY E <> None -> hashable S -> exists d, generateOrderHash E S = Ok d.
Proof.
  intros Hk HS. destruct (hashable_projection S HS) as [p Hp].
  destruct (SECRET_KEY E) as [key|] eqn:Hkey; [|congruence].
  exists (hmac_sha256_hex key (JSON_stringify p)).
  unfold generateOrderHash, orderString. rewrite Hp, Hkey. reflexivity.
Qed.

Lemma verify_own_digest E S d :
  generateOrderHash E S = Ok d -> verifyOrderHash E S (VStr d) = Ok true.
Proof.
  intros H. unfold verifyOrderHash. rewrite H. simpl.
  now rewrite String.eqb_refl.
Qed.

(** What a 200 response of checkout is made of. *)
Lemma checkout_200_inv E catalog now b :
  status (checkout E catalog now b) = 200 ->
  exists items codes mapped d,
    field b "cart" = VArr items /\ items <> [] /\
    truthy (field b "address") = true /\
    typeof (field b "address") = "object" /\
    mapM productCode_of items = Ok codes /\
    Product_find catalog codes <> [] /\
    mapM (enhance (Product_find catalog codes)) items = Ok mapped /\
    filter truthy mapped <> [] /\
    let order := VObj [("cart", VArr (filter truthy mapped));
                       ("address", field b "address");
                       ("pricing", pricing_of (filter truthy mapped));
                       ("orderDate", now); ("status", VStr "pending")] in
    generateOrderHash E order = Ok d /\
    checkout E catalog now b =
      reply 200 [("success", VBool true); ("order", order); ("orderHash", VStr d)].
Proof.
  unfold checkout.
  destruct (field b "cart") as [| |?|?|?|items|?] eqn:Hcart;
    try (destruct (truthy _); simpl; discriminate); simpl.
  destruct (Z.eqb_spec (Z.of_nat (List.length items)) 0) as [|Hne]; simpl; [discriminate|].
  assert (Hitems : items <> []) by (intros ->; now apply Hne).
  destruct (truthy (field b "address")) eqn:Hta; simpl; [|discriminate].
  destruct (String.eqb_spec (typeof (field b "address")) "object") as [Hobj|];
    simpl; [|discriminate].
  unfold checkout_try.
  destruct (mapM productCode_of items) as [codes|] eqn:Hcodes; simpl; [|discriminate].
  destruct (Z.eqb_spec (Z.of_nat (List.length (Product_find catalog codes))) 0) as [|Hnp];
    simpl; [discriminate|].
  assert (Hprod : Product_find catalog codes <> []) by (intros Heq; rewrite Heq in Hnp; now apply Hnp).
  destruct (mapM (enhance (Product_find catalog codes)) items) as [mapped|] eqn:Hmapped;
    simpl; [|discriminate].
  destruct (Z.eqb_spec (Z.of_nat (List.length (filter truthy mapped))) 0) as [|Hnf];
    simpl; [discriminate|].
  assert (Henh : filter truthy mapped <> []) by (intros Heq; rewrite Heq in Hnf; now apply Hnf).
  match goal with |- context [generateOrderHash E ?o] =>
    destruct (generateOrderHash E o) as [d|] eqn:Hd end; simpl; [|discriminate].
  intros _. exists items, codes, mapped, d.
  repeat split; try assumption; try congruence.
Qed.

(** ** The digest is never the empty string *)

Lemma blocks_nonempty fuel h ws : h <> [] -> Sha256.blocks fuel h ws <> [].
Proof.
  revert h ws. induction fuel as [|fuel IH]; intros h ws Hh; simpl; [exact Hh|].
  destruct ws; [exact Hh|]. apply IH.
  unfold Sha256.compress, Sha256.list_of. discriminate.
Qed.

Lemma sha256_nonempty msg : Sha256.sha256 msg <> [].
Proof.
  unfold Sha256.sha256.
  destruct (Sha256.blocks _ Sha256.H0 _) as [|w ws] eqn:Hb.
  - exfalso. revert Hb. apply blocks_nonempty. unfold Sha256.H0. discriminate.
  - simpl. discriminate.
Qed.

Lemma digest_nonempty key msg : hmac_sha256_hex key msg <> EmptyString.
Proof.
  unfold hmac_sha256_hex, Sha256.hmac.
  match goal with |- context [Sha256.sha256 ?m] =>
    match m with
    | (_ ++ _)%list => destruct (Sha256.sha256 m) as [|b bs] eqn:Hs
    end
  end.
  - exfalso. revert Hs. apply sha256_nonempty.
  - simpl. discriminate.
Qed.

Lemma generateOrderHash_shape E S d :
  generateOrderHash E S = Ok d ->
  exists ps items key p,
    S = VObj ps /\ lookup "cart" ps = VArr items /\ SECRET_KEY E = Some key /\
    projection S = Ok p /\ d = hmac_sha256_hex key (JSON_stringify p).
Proof.
  unfold generateOrderHash, orderString. intros H.
  destruct (projection S) as [p|] eqn:Hp; simpl in H; [|discriminate].
  destruct (SECRET_KEY E) as [key|] eqn:Hk; simpl in H; [|discriminate].
  inversion H; subst d; clear H.
  unfold projection in Hp.
  destruct S as [| |?|?|?|?|ps]; simpl in Hp; try discriminate.
  destruct (lookup "cart" ps) as [| |?|?|?|items|?] eqn:Hc; simpl in Hp; try discriminate.
  exists ps, items, key, p. repeat split; assumption.
Qed.

Lemma generateOrderHash_truthy E S d :
  generateOrderHash E S = Ok d -> truthy (VStr d) = true.
Proof.
  intros H. destruct (generateOrderHash_shape _ _ _ H) as (ps & items & key & p & _ & _ & _ & _ & ->).
  simpl. destruct (String.eqb_spec (hmac_sha256_hex key (JSON_stringify p)) EmptyString) as [Heq|];
    [|reflexivity].
  exfalso. revert Heq. apply digest_nonempty.
Qed.

(** ** Edits outside the hashed projection *)

Lemma hashed_line_false k :
  hashed_line k = false ->
  "productCode" <> k /\ "productName" <> k /\ "price" <> k /\ "size" <> k.
Proof.
  unfold hashed_line. simpl. intros H.
  repeat (apply orb_false_elim in H; destruct H as [? H]).
  repeat split; intros <-; simpl in *; discriminate.
Qed.

Lemma hashed_top_false k :
  hashed_top k = false -> "cart" <> k /\ "address" <> k /\ "pricing" <> k.
Proof.
  unfold hashed_top. simpl. intros H.
  repeat (apply orb_false_elim in H; destruct H as [? H]).
  repeat split; intros <-; simpl in *; discriminate.
Qed.

Lemma project_item_assign k v line :
  hashed_line k = false ->
  project_item (VObj (assign k v line)) = project_item (VObj line).
Proof.
  intros H. apply hashed_line_false in H. destruct H as (H1 & H2 & H3 & H4).
  unfold project_item, get.
  rewrite !lookup_assign_other by assumption. reflexivity.
Qed.

Lemma excluded_edit_projection S S' :
  excluded_edit S S' -> projection S' = projection S.
Proof.
  induction 1 as [S|k v ps Hk|k v ps before line after Hk Hc|S1 S2 S3 _ IH1 _ IH2].
  - reflexivity.
  - apply hashed_top_false in Hk. destruct Hk as (H1 & H2 & H3).
    unfold projection, get.
    rewrite !lookup_assign_other by assumption. reflexivity.
  - unfold projection, get.
    rewrite lookup_assign_same, Hc.
    rewrite !lookup_assign_other by discriminate.
    cbn [bind array_map]. rewrite !mapM_app.
    cbn [mapM]. rewrite (project_item_assign _ _ _ Hk). reflexivity.
  - congruence.
Qed.

Lemma excluded_edit_field S S' k :
  excluded_edit S S' -> hashed_top k = true -> k <> "cart" -> field S' k = field S k.
Proof.
  intros He Hk Hnc.
  induction He as [S|k0 v ps Hk0|k0 v ps before line after Hk0 Hc|S1 S2 S3 _ IH1 _ IH2].
  - reflexivity.
  - unfold field, get. rewrite lookup_assign_other; [reflexivity|].
    intros ->. congruence.
  - unfold field, get. rewrite lookup_assign_other; [reflexivity|congruence].
  - congruence.
Qed.

(** ** save-order on a pair that verifies *)

Lemma save_order_verified E store (Order_save : store -> value -> result (store * value))
      st S d :
  verifyOrderHash E S (VStr d) = Ok true ->
  truthy (field S "address") = true -> truthy (field S "pricing") = true ->
  save_order E store Order_save st (save_body S d) =
    match Order_save st S with
    | Ok (st', newId) =>
        (st', reply 200 [("success", VBool true);
                         ("message", VStr "Order saved successfully");
                         ("orderId", newId)])
    | Throw err =>
        (st, reply 500 [("success", VBool false);
                        ("message", VStr "Server error saving order");
                        ("error", VStr (exn_message err))])
    end.
Proof.
  intros Hv Ha Hp.
  assert (Hg : generateOrderHash E S = Ok d).
  { unfold verifyOrderHash in Hv.
    destruct (generateOrderHash E S) as [d'|]; simpl in Hv; [|discriminate].
    inversion Hv as [Heq]. apply String.eqb_eq in Heq. now subst. }
  pose proof (generateOrderHash_truthy _ _ _ Hg) as Hd.
  destruct (generateOrderHash_shape _ _ _ Hg) as (ps & items & key & p & -> & Hc & _).
  unfold save_order, save_order_try, save_body.
  cbn [get lookup String.eqb Ascii.eqb Bool.eqb bind].
  rewrite Hd. cbn [truthy negb typeof orb String.eqb Ascii.eqb Bool.eqb].
  unfold field, get in Ha, Hp.
  rewrite Hc, Ha, Hp. cbn [truthy isArray negb orb bind].
  rewrite Hv. cbn [negb bind].
  destruct (Order_save st (VObj ps)) as [[st' newId]|err]; reflexivity.
Qed.

(** ** C1: the digest and the order of keys *)

Lemma demo_summaries_key_reordered :
  key_reordered (demo_summary demo_line demo_address)
                (demo_summary demo_line demo_address_swapped).
Proof.
  unfold key_reordered, summary_rel, demo_summary.
  do 2 eexists. split; [reflexivity|]. split; [reflexivity|].
  repeat (apply Forall2_cons; [split; [reflexivity|simpl]|]); try apply Forall2_nil;
    try reflexivity.
  - now left.
  - apply reordered_keys.
    + simpl. repeat constructor; simpl; intuition discriminate.
    + apply perm_swap.
  - apply reordered_same.
Qed.

(** C1, as stated, fails: a summary returned by checkout and the same
    summary with the keys of [address] in the other order have different
    digests. *)
Lemma key_order_changes_digest :
  field (json (checkout demo_env demo_catalog (VStr "2024-05-01T10:00:00.000Z")
                 (checkout_body [cart_line (VStr "A1") (VStr "M")] demo_address)))
        "order" = demo_summary demo_line demo_address /\
  key_reordered (demo_summary demo_line demo_address)
                (demo_summary demo_line demo_address_swapped) /\
  generateOrderHash demo_env (demo_summary demo_line demo_address)
  <> generateOrderHash demo_env (demo_summary demo_line demo_address_swapped).
Proof.
  split; [vm_compute; reflexivity|].
  split; [exact demo_summaries_key_reordered|].
  vm_compute. discriminate.
Qed.

(** C1, amended: the digest does not depend on the order of the keys
    inside cart lines, each line being rebuilt with its four hashed
    properties in a fixed order; [address] and [pricing] are hashed with
    their keys in the order the objects hold them. *)
Theorem digest_ignores_line_key_order E S S' :
  lines_reordered S S' -> generateOrderHash E S = generateOrderHash E S'.
Proof.
  intros H. unfold generateOrderHash, orderString.
  rewrite (projection_rel reordered S S' project_item_reordered H).
  reflexivity.
Qed.

Lemma digest_ignores_line_key_order_witness :
  lines_reordered (demo_summary demo_line demo_address)
                  (demo_summary demo_line_swapped demo_address) /\
  generateOrderHash demo_env (demo_summary demo_line demo_address)
  = generateOrderHash demo_env (demo_summary demo_line_swapped demo_address).
Proof.
  assert (H : lines_reordered (demo_summary demo_line demo_address)
                              (demo_summary demo_line_swapped demo_address)).
  { unfold lines_reordered, summary_rel, demo_summary.
    do 2 eexists. split; [reflexivity|]. split; [reflexivity|].
    repeat (apply Forall2_cons; [split; [reflexivity|simpl]|]); try apply Forall2_nil;
      try reflexivity.
    right. do 2 eexists. split; [reflexivity|]. split; [reflexivity|].
    constructor; [|constructor].
    apply reordered_keys.
    - simpl. repeat constructor; simpl; intuition discriminate.
    - unfold demo_line, demo_line_swapped.
      apply Permutation_cons_app with (l1 := [_; _]) (l2 := [_; _; _]). simpl.
      apply Permutation_cons_app with (l1 := [_; _; _; _]) (l2 := []). simpl.
      apply Permutation_cons_app with (l1 := [_; _]) (l2 := [_]). simpl.
      apply Permutation_cons_app with (l1 := [_]) (l2 := [_]). simpl.
      apply perm_swap. }
  split; [exact H|].
  apply (digest_ignores_line_key_order demo_env _ _ H).
Defined.

(** ** C2: hash/verify round trip *)

(** C2: a summary the digest is defined on verifies against its own
    digest, and so does every summary checkout returns against the digest
    returned with it. *)
Theorem hash_verify_roundtrip E :
  (forall S, SECRET_KEY E <> None -> hashable S ->
     exists d, generateOrderHash E S = Ok d /\
               verifyOrderHash E S (VStr d) = Ok true) /\
  (forall catalog now b,
     status (checkout E catalog now b) = 200 ->
     exists order d,
       json (checkout E catalog now b)
       = VObj [("success", VBool true); ("order", order); ("orderHash", VStr d)] /\
       generateOrderHash E order = Ok d /\
       verifyOrderHash E order (VStr d) = Ok true).
Proof.
  split.
  - intros S Hk HS.
    destruct (hashable_digest E S Hk HS) as [d Hg].
    exists d. split; [exact Hg|]. now apply verify_own_digest.
  - intros catalog now b H200.
    destruct (checkout_200_inv _ _ _ _ H200)
      as (items & codes & mapped & d & _ & _ & _ & _ & _ & _ & _ & _ & Hd & Heq).
    cbv zeta in Hd, Heq.
    eexists; exists d. rewrite Heq. split; [reflexivity|].
    split; [exact Hd|]. now apply verify_own_digest.
Qed.

Lemma hash_verify_roundtrip_witness :
  status (checkout demo_env demo_catalog VNull
            (checkout_body [cart_line (VStr "A1") (VStr "M")] demo_address)) = 200 /\
  exists order d,
    json (checkout demo_env demo_catalog VNull
            (checkout_body [cart_line (VStr "A1") (VStr "M")] demo_address))
    = VObj [("success", VBool true); ("order", order); ("orderHash", VStr d)] /\
    generateOrderHash demo_env order = Ok d /\
    verifyOrderHash demo_env order (VStr d) = Ok true.
Proof.
  assert (H : status (checkout demo_env demo_catalog VNull
            (checkout_body [cart_line (VStr "A1") (VStr "M")] demo_address)) = 200)
    by (vm_compute; reflexivity).
  split; [exact H|].
  exact (proj2 (hash_verify_roundtrip demo_env) demo_catalog VNull _ H).
Defined.

(** ** Fields outside the hashed projection *)

(** Editing only properties outside the hashed projection (orderDate,
    status, a line's imageUrl or _id) leaves verification against the
    original digest true, and the handler of save-order, given the edited
    order as its body, hands it to the order collection. *)
Lemma excluded_edit_handler
    E S S' d store (Order_save : store -> value -> result (store * value)) st :
  generateOrderHash E S = Ok d ->
  truthy (field S "address") = true ->
  truthy (field S "pricing") = true ->
  excluded_edit S S' ->
  verifyOrderHash E S' (VStr d) = Ok true /\
  save_order E store Order_save st (save_body S' d) =
    match Order_save st S' with
    | Ok (st', newId) =>
        (st', reply 200 [("success", VBool true);
                         ("message", VStr "Order saved successfully");
                         ("orderId", newId)])
    | Throw err =>
        (st, reply 500 [("success", VBool false);
                        ("message", VStr "Server error saving order");
                        ("error", VStr (exn_message err))])
    end.
Proof.
  intros Hg Ha Hp He.
  assert (Hg' : generateOrderHash E S' = Ok d).
  { unfold generateOrderHash, orderString in *.
    now rewrite (excluded_edit_projection _ _ He). }
  assert (Hv : verifyOrderHash E S' (VStr d) = Ok true) by now apply verify_own_digest.
  split; [exact Hv|].
  apply save_order_verified; [exact Hv| |].
  - rewrite (excluded_edit_field _ _ "address" He); auto. discriminate.
  - rewrite (excluded_edit_field _ _ "pricing" He); auto. discriminate.
Qed.

Lemma demo_summary_edit :
  excluded_edit (demo_summary demo_line demo_address) demo_summary_edited.
Proof.
  unfold demo_summary.
  eapply edit_trans; [apply (edit_top "orderDate" (VStr "1999-12-31T00:00:00.000Z")); reflexivity|].
  eapply edit_trans; [apply (edit_top "status" (VStr "paid")); reflexivity|].
  cbn [assign String.eqb Ascii.eqb Bool.eqb].
  exact (edit_line "imageUrl" (VStr "/img/other")
           [("cart", VArr [VObj demo_line]); ("address", demo_address);
            ("pricing", demo_pricing);
            ("orderDate", VStr "1999-12-31T00:00:00.000Z"); ("status", VStr "paid")]
           [] demo_line [] eq_refl eq_refl).
Qed.

(** ** C9: a pair that fails verification is never stored *)

(** [Order_save] is reached only once verification has returned [true]. *)
Lemma save_order_changes_store_only_if_verified
    E store (Order_save : store -> value -> result (store * value)) st b :
  fst (save_order E store Order_save st b) <> st ->
  exists order hash,
    get b "order" = Ok order /\ get b "orderHash" = Ok hash /\
    verifyOrderHash E order hash = Ok true.
Proof.
  unfold save_order, save_order_try. intros H.
  destruct (get b "order") as [order|] eqn:Ho; simpl in H; [|contradiction].
  destruct (get b "orderHash") as [hash|] eqn:Hh; simpl in H; [|contradiction].
  exists order, hash. split; [reflexivity|]. split; [reflexivity|].
  destruct (negb (truthy order) || negb (truthy hash) || negb (typeof hash =? "string")%string);
    simpl in H; [contradiction|].
  destruct (get order "cart") as [cart|]; simpl in H; [|contradiction].
  destruct (get order "address") as [address|]; simpl in H; [|contradiction].
  destruct (get order "pricing") as [pricing|]; simpl in H; [|contradiction].
  destruct (negb (truthy cart) || negb (isArray cart) || negb (truthy address)
            || negb (truthy pricing)); simpl in H; [contradiction|].
  destruct (verifyOrderHash E order hash) as [[|]|]; simpl in H;
    [reflexivity|contradiction|contradiction].
Qed.

(** C9: when verification of a submitted order/digest pair returns [false],
    save-order answers with the integrity violation and the order
    collection is unchanged; no order id is part of the answer. *)
Theorem failed_verification_is_not_persisted
    E store (Order_save : store -> value -> result (store * value)) st S h :
  verifyOrderHash E S (VStr h) = Ok false ->
  h <> EmptyString ->
  truthy (field S "address") = true ->
  truthy (field S "pricing") = true ->
  save_order E store Order_save st (save_body S h)
  = (st, reply 400 [("success", VBool false); ("message", VStr verification_failed)]) /\
  classify (snd (save_order E store Order_save st (save_body S h))) = IntegrityViolation /\
  field (json (snd (save_order E store Order_save st (save_body S h)))) "orderId"
  = VUndefined.
Proof.
  intros Hv Hh Ha Hp.
  assert (Heq : save_order E store Order_save st (save_body S h)
    = (st, reply 400 [("success", VBool false); ("message", VStr verification_failed)])).
  { assert (Hshape : exists ps items, S = VObj ps /\ lookup "cart" ps = VArr items).
    { unfold verifyOrderHash in Hv.
      destruct (generateOrderHash E S) as [d|] eqn:Hg; simpl in Hv; [|discriminate].
      destruct (generateOrderHash_shape _ _ _ Hg) as (ps & items & _ & _ & HS & Hc & _).
      now exists ps, items. }
    destruct Hshape as (ps & items & -> & Hc).
    unfold save_order, save_order_try, save_body.
    cbn [get lookup String.eqb Ascii.eqb Bool.eqb bind].
    assert (Ht : truthy (VStr h) = true).
    { simpl. destruct (String.eqb_spec h EmptyString); [contradiction|reflexivity]. }
    rewrite Ht. cbn [truthy negb typeof orb String.eqb Ascii.eqb Bool.eqb].
    unfold field, get in Ha, Hp.
    rewrite Hc, Ha, Hp. cbn [truthy isArray negb orb bind].
    rewrite Hv. reflexivity. }
  rewrite Heq. repeat split; reflexivity.
Qed.

Lemma failed_verification_is_not_persisted_witness :
  verifyOrderHash demo_env (demo_summary demo_line demo_address_swapped) (VStr demo_digest)
  = Ok false /\
  save_order demo_env list_store list_save []
    (save_body (demo_summary demo_line demo_address_swapped) demo_digest)
  = ([], reply 400 [("success", VBool false); ("message", VStr verification_failed)]).
Proof.
  assert (Hv : verifyOrderHash demo_env (demo_summary demo_line demo_address_swapped)
                 (VStr demo_digest) = Ok false) by (vm_compute; reflexivity).
  split; [exact Hv|].
  refine (proj1 (failed_verification_is_not_persisted demo_env list_store list_save []
                   _ _ Hv _ eq_refl eq_refl)).
  vm_compute. discriminate.
Defined.

(** ** C8: the JWT middleware *)

Lemma bearer_token_none jwt_verify E req :
  bearer_token req = None ->
  exists r, authenticateJWT jwt_verify E req = Rejected r /\ status r = 401.
Proof.
  unfold bearer_token, authenticateJWT.
  destruct (authorization req) as [h|]; [|intros _; eexists; split; reflexivity].
  destruct (nth_error (split " " h) 1) as [t|];
    [|intros _; destruct (truthy (VStr h)); eexists; split; reflexivity].
  cbn [truthy]. destruct (t =? EmptyString)%string; [|discriminate].
  intros _. destruct (negb (h =? EmptyString)%string); eexists; split; reflexivity.
Qed.

Lemma bearer_token_some jwt_verify E req t :
  bearer_token req = Some t ->
  authenticateJWT jwt_verify E req =
    match (decoded <- jwt_verify t (JWT_SECRET E) ;; get decoded "clientId") with
    | Ok clientId => Next clientId
    | Throw _ => Rejected (reply 403 [("success", VBool false);
                                      ("message", VStr "Invalid or expired token")])
    end.
Proof.
  unfold bearer_token, authenticateJWT.
  destruct (authorization req) as [h|]; [|discriminate].
  destruct (nth_error (split " " h) 1) as [t'|] eqn:Hn; [|discriminate].
  destruct (String.eqb_spec t' EmptyString) as [|Hne]; [discriminate|].
  intros Heq; inversion Heq; subst t'.
  assert (Hh : truthy (VStr h) = true).
  { destruct h; [discriminate Hn|reflexivity]. }
  assert (Ht : truthy (VStr t) = true).
  { simpl. destruct (String.eqb_spec t EmptyString); [contradiction|reflexivity]. }
  rewrite Hh, Ht. reflexivity.
Qed.

(** C8, as stated, fails: a token that cannot be parsed is answered with
    403 (Forbidden), not 401 (Unauthenticated). *)
Lemma unparseable_token_is_forbidden :
  let req := {| authorization := Some "Bearer not-a-jwt"; body := VNull |} in
  bearer_token req = Some "not-a-jwt" /\
  demo_jwt_verify "not-a-jwt" (JWT_SECRET demo_env) = Throw (Error "jwt malformed") /\
  exists r, authenticateJWT demo_jwt_verify demo_env req = Rejected r /\
            classify r = Forbidden /\ classify r <> Unauthenticated.
Proof.
  cbv zeta. split; [reflexivity|]. split; [reflexivity|].
  eexists. split; [reflexivity|]. split; [reflexivity|discriminate].
Qed.

(** C8, amended: a request without a bearer token (no header, or nothing
    after its first space) is answered Unauthenticated; a token that
    [jwt.verify] rejects, for whatever reason (unparseable, bad signature,
    expired), is answered Forbidden; a token it accepts lets the request
    through with the payload's clientId. *)
Theorem token_verification_taxonomy
    (jwt_verify : string -> option string -> result value) E req :
  (bearer_token req = None ->
   exists r, authenticateJWT jwt_verify E req = Rejected r /\
             classify r = Unauthenticated) /\
  (forall t e, bearer_token req = Some t ->
     jwt_verify t (JWT_SECRET E) = Throw e ->
     exists r, authenticateJWT jwt_verify E req = Rejected r /\
               classify r = Forbidden) /\
  (forall t payload, bearer_token req = Some t ->
     jwt_verify t (JWT_SECRET E) = Ok (VObj payload) ->
     authenticateJWT jwt_verify E req = Next (lookup "clientId" payload)).
Proof.
  split; [|split].
  - intros H. destruct (bearer_token_none jwt_verify E req H) as (r & Hr & Hs).
    exists r. split; [exact Hr|]. unfold classify. rewrite Hs. reflexivity.
  - intros t e Ht He. rewrite (bearer_token_some _ _ _ _ Ht), He.
    eexists. split; reflexivity.
  - intros t payload Ht Hok. rewrite (bearer_token_some _ _ _ _ Ht), Hok. reflexivity.
Qed.

Lemma token_verification_taxonomy_witness :
  (exists r, authenticateJWT demo_jwt_verify demo_env
               {| authorization := Some "Bearer"; body := VNull |} = Rejected r /\
             classify r = Unauthenticated) /\
  (exists r, authenticateJWT demo_jwt_verify demo_env
               {| authorization := Some "Bearer expired.c1.j"; body := VNull |} = Rejected r /\
             classify r = Forbidden) /\
  authenticateJWT demo_jwt_verify demo_env
    {| authorization := Some "Bearer h.c1.j"; body := VNull |} = Next (VStr "c1").
Proof.
  split; [|split].
  - exact (proj1 (token_verification_taxonomy demo_jwt_verify demo_env
                    {| authorization := Some "Bearer"; body := VNull |}) eq_refl).
  - exact (proj1 (proj2 (token_verification_taxonomy demo_jwt_verify demo_env
                    {| authorization := Some "Bearer expired.c1.j"; body := VNull |}))
             "expired.c1.j" (Error "jwt expired") eq_refl eq_refl).
  - exact (proj2 (proj2 (token_verification_taxonomy demo_jwt_verify demo_env
                    {| authorization := Some "Bearer h.c1.j"; body := VNull |}))
             "h.c1.j" [("clientId", VStr "c1")] eq_refl eq_refl).
Defined.

(** ** C7: a line with an invalid product code *)

Lemma bad_code_throws item :
  bad_code item = true -> exists e, productCode_of item = Throw e.
Proof.
  unfold bad_code, productCode_of, field.
  destruct item as [| |?|?|?|?|ps]; simpl; intros H; try (eexists; reflexivity).
  destruct (lookup "productCode" ps) as [| |?|?|s|?|?]; simpl; try (eexists; reflexivity).
  rewrite H. simpl. eexists; reflexivity.
Qed.

Lemma mapM_throws {A B} (f : A -> result B) l :
  Exists (fun x => exists e, f x = Throw e) l -> exists e, mapM f l = Throw e.
Proof.
  induction 1 as [x l [e He]|x l _ [e IH]]; simpl.
  - rewrite He. now exists e.
  - destruct (f x); simpl; [|eexists; reflexivity].
    rewrite IH. now exists e.
Qed.

(** C7 fails on the code: with a line whose productCode is not a non-empty
    string after trimming, checkout answers 500 (a server error), where
    the specification says InvalidInput (a client error).  Neither a
    summary nor a digest is produced. *)
Theorem invalid_product_code_is_answered_500 E catalog now items address :
  items <> [] ->
  truthy address = true -> typeof address = "object" ->
  existsb bad_code items = true ->
  let r := checkout E catalog now (checkout_body items address) in
  status r = 500 /\ classify r = Internal /\
  field (json r) "message" = VStr "Server error processing order" /\
  field (json r) "order" = VUndefined /\ field (json r) "orderHash" = VUndefined.
Proof.
  intros Hne Ha Ho Hbad. cbv zeta.
  assert (Ht : exists e, mapM productCode_of items = Throw e).
  { apply mapM_throws. apply existsb_exists in Hbad. destruct Hbad as (x & Hx & Hb).
    apply Exists_exists. exists x. split; [exact Hx|]. now apply bad_code_throws. }
  destruct Ht as [e He].
  unfold checkout, checkout_body.
  cbn [field get lookup String.eqb Ascii.eqb Bool.eqb truthy isArray negb orb array_length].
  destruct (Z.eqb_spec (Z.of_nat (List.length items)) 0) as [Hz|_].
  { destruct items; [contradiction|simpl in Hz; lia]. }
  rewrite Ha, Ho. cbn [negb orb String.eqb Ascii.eqb Bool.eqb].
  unfold checkout_try. rewrite He. cbn [bind].
  repeat split; reflexivity.
Qed.

Lemma invalid_product_code_is_answered_500_witness :
  let r := checkout demo_env demo_catalog VNull
             (checkout_body [cart_line (VStr "A1") (VStr "M"); cart_line (VStr "  ") (VStr "M")]
                            demo_address) in
  status r = 500 /\ classify r = Internal /\
  field (json r) "message" = VStr "Server error processing order" /\
  field (json r) "order" = VUndefined /\ field (json r) "orderHash" = VUndefined.
Proof.
  refine (invalid_product_code_is_answered_500 demo_env demo_catalog VNull
           [cart_line (VStr "A1") (VStr "M"); cart_line (VStr "  ") (VStr "M")]
           demo_address _ eq_refl eq_refl eq_refl).
  discriminate.
Defined.

(** ** C6: best-effort filtering of cart lines *)

Lemma clean_code_inv item :
  clean_code item = true ->
  exists ps s, item = VObj ps /\ lookup "productCode" ps = VStr s /\
               trim s = s /\ s <> EmptyString.
Proof.
  unfold clean_code, field.
  destruct item as [| |?|?|?|?|ps]; simpl; try discriminate.
  destruct (lookup "productCode" ps) as [| |?|?|s|?|?] eqn:Hl; try discriminate.
  intros H. apply andb_prop in H. destruct H as [H1 H2].
  exists ps, s. repeat split; try assumption.
  - now apply String.eqb_eq.
  - intros ->. discriminate.
Qed.

Lemma productCode_of_clean item :
  clean_code item = true -> productCode_of item = Ok (code_text item).
Proof.
  intros H. destruct (clean_code_inv _ H) as (ps & s & -> & Hl & Ht & Hne).
  unfold productCode_of, code_text, field, get. rewrite Hl. cbn [bind].
  rewrite Ht. simpl. destruct (String.eqb_spec s EmptyString); [contradiction|reflexivity].
Qed.

Lemma mapM_map {A B} (f : A -> result B) (g : A -> B) l :
  (forall x, In x l -> f x = Ok (g x)) -> mapM f l = Ok (map g l).
Proof.
  induction l as [|a l IH]; simpl; intros H; [reflexivity|].
  rewrite (H a) by now left. simpl. rewrite IH; [reflexivity|].
  intros x Hx. apply H. now right.
Qed.

Lemma find_filter {A} (f g : A -> bool) l :
  (forall x, f x = true -> g x = true) -> find f (filter g l) = find f l.
Proof.
  intros H. induction l as [|a l IH]; simpl; [reflexivity|].
  destruct (g a) eqn:Hg; simpl.
  - destruct (f a); [reflexivity|exact IH].
  - destruct (f a) eqn:Hf; [|exact IH]. rewrite (H a Hf) in Hg. discriminate.
Qed.

Lemma find_existsb {A} (f : A -> bool) l :
  existsb f l = match find f l with Some _ => true | None => false end.
Proof.
  induction l as [|a l IH]; simpl; [reflexivity|].
  destruct (f a); [reflexivity|exact IH].
Qed.

Lemma enhance_clean catalog codes item :
  clean_code item = true -> In (code_text item) codes ->
  enhance (Product_find catalog codes) item
  = Ok (if kept catalog item then enrich catalog item else VNull).
Proof.
  intros Hc Hin. destruct (clean_code_inv _ Hc) as (ps & s & -> & Hl & Ht & Hne).
  unfold enhance, kept, enrich, in_catalog, Product_find, code_text, field, get in *.
  rewrite Hl in *. cbn [bind].
  rewrite find_filter.
  2:{ intros p Hp. simpl in Hp. apply String.eqb_eq in Hp.
      apply existsb_exists. exists s. split; [exact Hin|]. now apply String.eqb_eq. }
  rewrite find_existsb.
  destruct (find (fun p => strict_eq_str (product_code p) (VStr s)) catalog) as [p|];
    [|reflexivity].
  cbn [andb]. unfold valid_size.
  destruct (lookup "size" ps) as [| |?|?|z|?|?]; try reflexivity.
  simpl. destruct (trim z =? EmptyString)%string; reflexivity.
Qed.

Lemma kept_enrich_truthy catalog item :
  kept catalog item = true -> truthy (enrich catalog item) = true.
Proof.
  unfold kept, enrich, in_catalog. rewrite find_existsb.
  destruct (find _ catalog); [reflexivity|discriminate].
Qed.

Lemma filter_truthy_map catalog items :
  filter truthy (map (fun i => if kept catalog i then enrich catalog i else VNull) items)
  = map (enrich catalog) (filter (kept catalog) items).
Proof.
  induction items as [|a l IH]; simpl; [reflexivity|].
  destruct (kept catalog a) eqn:Hk; simpl.
  - rewrite (kept_enrich_truthy _ _ Hk). now rewrite IH.
  - exact IH.
Qed.

Lemma Product_find_nil catalog items :
  forallb clean_code items = true ->
  (Product_find catalog (map code_text items) = [] <->
   forallb (fun i => negb (in_catalog catalog (field i "productCode"))) items = true).
Proof.
  intros Hc. unfold Product_find. split.
  - intros Hnil. apply forallb_forall. intros i Hi.
    rewrite forallb_forall in Hc.
    destruct (clean_code_inv _ (Hc i Hi)) as (ps & s & -> & Hl & _).
    unfold in_catalog, field, get. rewrite Hl.
    destruct (existsb _ catalog) eqn:He; [|reflexivity].
    apply existsb_exists in He. destruct He as (p & Hp & Hs).
    simpl in Hs. apply String.eqb_eq in Hs.
    exfalso.
    assert (Hin' : In p (filter (fun p => existsb (String.eqb (product_code p))
                                              (map code_text items)) catalog)).
    { apply filter_In. split; [exact Hp|]. apply existsb_exists.
      exists s. split; [|now apply String.eqb_eq].
      apply in_map_iff. exists (VObj ps). split; [|exact Hi].
      unfold code_text, field, get. now rewrite Hl. }
    rewrite Hnil in Hin'. exact Hin'.
  - intros Hall. rewrite forallb_forall in Hall, Hc.
    destruct (filter _ catalog) as [|p l] eqn:Hf; [reflexivity|exfalso].
    assert (Hin : In p (filter (fun p => existsb (String.eqb (product_code p))
                                             (map code_text items)) catalog))
      by (rewrite Hf; now left).
    apply filter_In in Hin. destruct Hin as [Hp He].
    apply existsb_exists in He. destruct He as (c & Hcin & Hceq).
    apply String.eqb_eq in Hceq. apply in_map_iff in Hcin.
    destruct Hcin as (i & Hi & Hiin).
    specialize (Hall i Hiin). destruct (clean_code_inv _ (Hc i Hiin)) as (ps & s & -> & Hl & _).
    unfold code_text, in_catalog, field, get in *. rewrite Hl in *. subst c.
    apply negb_true_iff in Hall.
    assert (Hex : existsb (fun p => strict_eq_str (product_code p) (VStr s)) catalog = true).
    { apply existsb_exists. exists p. split; [exact Hp|]. simpl. rewrite Hceq.
      apply String.eqb_refl. }
    congruence.
Qed.

Lemma truthy_is_line v : truthy v = true -> is_line v = true.
Proof. destruct v; simpl; intros H; try reflexivity; discriminate. Qed.

(** C6, as stated, fails: when no code of the cart is in the catalog every
    line is dropped, and checkout answers 404 (NotFound), not InvalidInput. *)
Lemma all_unknown_cart_is_not_found :
  let items := [cart_line (VStr "ZZ") (VStr "M")] in
  let r := checkout demo_env demo_catalog VNull (checkout_body items demo_address) in
  filter (kept demo_catalog) items = [] /\
  status r = 404 /\ classify r = NotFound /\ classify r <> InvalidInput.
Proof.
  cbv zeta. split; [vm_compute; reflexivity|]. split; [vm_compute; reflexivity|].
  split; [vm_compute; reflexivity|vm_compute; discriminate].
Qed.

(** C6, amended: for a cart whose lines carry product codes without
    surrounding white space, checkout keeps exactly the lines whose code is
    in the catalog and whose size is a non-empty string after trimming, in
    order, each filled in from the catalog; the other lines are dropped
    without failing the request.  When no code of the cart is in the
    catalog the answer is 404 (NotFound); when some code is but no line is
    kept it is 400, "No valid items in cart" (InvalidInput). *)
Theorem best_effort_line_filtering E catalog now items address :
  SECRET_KEY E <> None ->
  items <> [] ->
  truthy address = true -> typeof address = "object" ->
  forallb clean_code items = true ->
  let r := checkout E catalog now (checkout_body items address) in
  if forallb (fun i => negb (in_catalog catalog (field i "productCode"))) items then
    status r = 404 /\ classify r = NotFound
  else
    match filter (kept catalog) items with
    | [] => status r = 400 /\ classify r = InvalidInput /\
            field (json r) "message" = VStr "No valid items in cart"
    | lines => status r = 200 /\
               field (field (json r) "order") "cart" = VArr (map (enrich catalog) lines)
    end.
Proof.
  intros Hkey Hne Ha Ho Hclean. cbv zeta.
  unfold checkout, checkout_body.
  cbn [field get lookup String.eqb Ascii.eqb Bool.eqb truthy isArray negb orb array_length].
  destruct (Z.eqb_spec (Z.of_nat (List.length items)) 0) as [Hz|_].
  { destruct items; [contradiction|simpl in Hz; lia]. }
  rewrite Ha, Ho. cbn [negb orb String.eqb Ascii.eqb Bool.eqb].
  unfold checkout_try.
  rewrite (mapM_map productCode_of code_text).
  2:{ intros x Hx. apply productCode_of_clean. rewrite forallb_forall in Hclean. auto. }
  cbn [bind sanitizeMongoQuery existsb fst prefix orb].
  pose proof (Product_find_nil catalog items Hclean) as Hnil.
  destruct (forallb (fun i => negb (in_catalog catalog (field i "productCode"))) items).
  - rewrite (proj2 Hnil eq_refl). simpl. split; reflexivity.
  - destruct (Z.eqb_spec (Z.of_nat (List.length (Product_find catalog (map code_text items)))) 0)
      as [Hz|_].
    { destruct (Product_find catalog (map code_text items)); [|simpl in Hz; lia].
      destruct Hnil as [Hnil _]. specialize (Hnil eq_refl). discriminate. }
    rewrite (mapM_map _ (fun i => if kept catalog i then enrich catalog i else VNull)).
    2:{ intros x Hx. apply enhance_clean.
        - rewrite forallb_forall in Hclean. auto.
        - now apply in_map. }
    cbn [bind]. rewrite filter_truthy_map.
    destruct (filter (kept catalog) items) as [|l0 ls] eqn:Hkept.
    + simpl. repeat split; reflexivity.
    + match goal with |- context [Z.of_nat (List.length ?l) =? 0] =>
        destruct (Z.eqb_spec (Z.of_nat (List.length l)) 0) as [Hz|_] end.
      { simpl in Hz. lia. }
      match goal with |- context [generateOrderHash E ?o] =>
        destruct (hashable_digest E o Hkey) as (d & Hd) end.
      { eexists _, _. split; [reflexivity|]. split; [reflexivity|].
        apply forallb_forall. intros x Hx. apply truthy_is_line.
        rewrite <- Hkept, <- filter_truthy_map in Hx.
        apply filter_In in Hx. tauto. }
      rewrite Hd. cbn [bind]. split; reflexivity.
Qed.

Lemma best_effort_line_filtering_witness :
  let items := [cart_line (VStr "A1") (VStr " M "); cart_line (VStr "ZZ") (VStr "M");
                cart_line (VStr "B2") VNull] in
  let r := checkout demo_env demo_catalog VNull (checkout_body items demo_address) in
  status r = 200 /\
  field (field (json r) "order") "cart"
  = VArr [VObj [("_id", VStr "id-A1"); ("productCode", VStr "A1");
                ("productName", VStr "Shirt"); ("price", VNum (num_of_Z 800));
                ("imageUrl", VStr "/img/A1"); ("size", VStr "M")]].
Proof.
  refine (best_effort_line_filtering demo_env demo_catalog VNull
            [cart_line (VStr "A1") (VStr " M "); cart_line (VStr "ZZ") (VStr "M");
             cart_line (VStr "B2") VNull] demo_address _ _ eq_refl eq_refl eq_refl);
    discriminate.
Defined.

(** ** Strings *)

Lemma str_app_assoc (a b c : string) : (a ++ b) ++ c = a ++ (b ++ c).
Proof. induction a as [|x a IH]; simpl; [reflexivity|now rewrite IH]. Qed.

Lemma str_app_nil_r (a : string) : a ++ EmptyString = a.
Proof. induction a as [|x a IH]; simpl; [reflexivity|now rewrite IH]. Qed.

Lemma str_app_length (a b : string) :
  String.length (a ++ b) = (String.length a + String.length b)%nat.
Proof. induction a as [|x a IH]; simpl; [reflexivity|now rewrite IH]. Qed.

Lemma str_app_inv_head (a b c : string) : a ++ b = a ++ c -> b = c.
Proof. induction a as [|x a IH]; simpl; intros H; [exact H|]. inversion H. auto. Qed.

Lemma str_app_inv_tail (a b c : string) : a ++ c = b ++ c -> a = b.
Proof.
  revert b. induction a as [|x a IH]; intros [|y b] H; simpl in *.
  - reflexivity.
  - exfalso. apply (f_equal String.length) in H. simpl in H.
    rewrite str_app_length in H. lia.
  - exfalso. apply (f_equal String.length) in H. simpl in H.
    rewrite str_app_length in H. lia.
  - inversion H. f_equal. now apply IH.
Qed.

(** ** Quoted strings can be read back *)

Lemma unquote_quote_char c r :
  unquote_body (quote_char c ++ r)
  = cons_char (Z.of_N (N_of_ascii c)) (unquote_body r).
Proof.
  each_char c; reflexivity.
Qed.

Lemma unquote_quote_body s : unquote_body (quote_body s) = Some s.
Proof.
  induction s as [|c s IH]; [reflexivity|].
  cbn [quote_body]. rewrite unquote_quote_char, IH. unfold cons_char.
  now rewrite N2Z.id, ascii_N_embedding.
Qed.

Lemma quote_body_inj a b : quote_body a = quote_body b -> a = b.
Proof.
  intros H. apply (f_equal unquote_body) in H.
  rewrite !unquote_quote_body in H. now inversion H.
Qed.

Lemma Quote_inj a b : Quote a = Quote b -> a = b.
Proof.
  unfold Quote. intros H. apply str_app_inv_head in H.
  apply str_app_inv_tail in H. now apply quote_body_inj.
Qed.

(** ** The text of a value inside a larger value *)

Lemma join_nonempty_tail sep a y l :
  join sep (a :: y :: l) = a ++ sep ++ join sep (y :: l).
Proof. reflexivity. Qed.

Lemma join_hole sep l1 l2 :
  exists pre post, forall x, join sep (l1 ++ x :: l2)%list = pre ++ x ++ post.
Proof.
  induction l1 as [|a l1 (pre & post & IH)].
  - exists EmptyString. destruct l2 as [|y l2].
    + exists EmptyString. intros x. simpl. now rewrite str_app_nil_r.
    + exists (sep ++ join sep (y :: l2)). intros x. reflexivity.
  - exists (a ++ sep ++ pre), post. intros x.
    assert (H : join sep ((a :: l1) ++ x :: l2)%list
                = a ++ sep ++ join sep (l1 ++ x :: l2)%list).
    { destruct l1; reflexivity. }
    rewrite H, IH. now rewrite !str_app_assoc.
Qed.

Lemma members_text_app l1 k t l2 :
  members_text (l1 ++ (k, Some t) :: l2)%list
  = (members_text l1 ++ (Quote k ++ ":" ++ t)%string :: members_text l2)%list.
Proof.
  induction l1 as [|[k1 [t1|]] l1 IH]; simpl; [reflexivity| |exact IH].
  now rewrite IH.
Qed.

(** The text of [plug c v] is the text of [v] between two strings that
    depend on the position only. *)
Lemma stringify_plug c :
  exists pre post, forall v t,
    stringify v = Some t -> stringify (plug c v) = Some (pre ++ t ++ post).
Proof.
  induction c as [|before k c (pre & post & IH) after|before c (pre & post & IH) after].
  - exists EmptyString, EmptyString. intros v t H. simpl. now rewrite str_app_nil_r.
  - destruct (join_hole ","
                (members_text (map (fun kv => let '(k, x) := kv in (k, stringify x)) before))
                (members_text (map (fun kv => let '(k, x) := kv in (k, stringify x)) after)))
      as (p & q & Hj).
    exists ("{" ++ p ++ Quote k ++ ":" ++ pre), (post ++ q ++ "}").
    intros v t H. cbn [plug stringify].
    rewrite map_app. cbn [map]. rewrite (IH v t H), members_text_app, Hj.
    now rewrite !str_app_assoc.
  - destruct (join_hole ","
                (map elem_text (map stringify before))
                (map elem_text (map stringify after))) as (p & q & Hj).
    exists ("[" ++ p ++ pre), (post ++ q ++ "]").
    intros v t H. cbn [plug stringify].
    rewrite !map_app. cbn [map]. rewrite (IH v t H). cbn [elem_text]. rewrite Hj.
    now rewrite !str_app_assoc.
Qed.

Lemma plug_text_differs c v v' t t' :
  stringify v = Some t -> stringify v' = Some t' -> t <> t' ->
  JSON_stringify (plug c v) <> JSON_stringify (plug c v').
Proof.
  intros H H' Hne. destruct (stringify_plug c) as (pre & post & Hc).
  unfold JSON_stringify. rewrite (Hc v t H), (Hc v' t' H').
  intros Heq. apply str_app_inv_head in Heq. apply str_app_inv_tail in Heq.
  contradiction.
Qed.

(** ** C3: tampering with a hashed field *)

(** Verification of any order against the digest of [S] compares the HMAC
    of the two hashed texts. *)
Lemma verify_compares_hmac E S S' d key s s' :
  generateOrderHash E S = Ok d -> SECRET_KEY E = Some key ->
  orderString S = Ok s -> orderString S' = Ok s' ->
  verifyOrderHash E S' (VStr d)
  = Ok (hmac_sha256_hex key s' =? hmac_sha256_hex key s)%string.
Proof.
  unfold verifyOrderHash, generateOrderHash. intros Hg Hk Hs Hs'.
  rewrite Hs, Hk in Hg. simpl in Hg. inversion Hg; subst d.
  rewrite Hs', Hk. reflexivity.
Qed.

(** Changing one field of [address] or [pricing], or one hashed field of a
    cart line, changes the value at one position of the hashed projection. *)
Lemma inner_edit_position ps items lines k0 before k v v' after :
  (k0 = "address" \/ k0 = "pricing") ->
  lookup "cart" ps = VArr items -> mapM project_item items = Ok lines ->
  lookup k0 ps = VObj (before ++ (k, v) :: after)%list ->
  exists c,
    projection (VObj ps) = Ok (plug c v) /\
    projection (VObj (assign k0 (VObj (before ++ (k, v') :: after)%list) ps))
    = Ok (plug c v').
Proof.
  intros Hk0 Hc Hl Hk. destruct Hk0 as [-> | ->].
  - exists (CObj [("cart", VArr lines)] "address" (CObj before k CHole after)
                 [("pricing", lookup "pricing" ps)]).
    unfold projection, get. rewrite lookup_assign_same.
    rewrite !lookup_assign_other by discriminate.
    rewrite Hc, Hk. cbn [array_map bind]. rewrite Hl. split; reflexivity.
  - exists (CObj [("cart", VArr lines); ("address", lookup "address" ps)] "pricing"
                 (CObj before k CHole after) []).
    unfold projection, get. rewrite lookup_assign_same.
    rewrite !lookup_assign_other by discriminate.
    rewrite Hc, Hk. cbn [array_map bind]. rewrite Hl. split; reflexivity.
Qed.

Lemma line_edit_position ps l1 line l2 p1 p2 f v' :
  hashed_line f = true ->
  lookup "cart" ps = VArr (l1 ++ VObj line :: l2)%list ->
  mapM project_item l1 = Ok p1 -> mapM project_item l2 = Ok p2 ->
  exists c,
    projection (VObj ps) = Ok (plug c (lookup f line)) /\
    projection (VObj (assign "cart" (VArr (l1 ++ VObj (assign f v' line) :: l2)%list) ps))
    = Ok (plug c v').
Proof.
  intros Hf Hc H1 H2.
  assert (Hcases : f = "productCode" \/ f = "productName" \/ f = "price" \/ f = "size").
  { unfold hashed_line in Hf. cbn [existsb] in Hf.
    destruct (String.eqb_spec f "productCode"); [tauto|].
    destruct (String.eqb_spec f "productName"); [tauto|].
    destruct (String.eqb_spec f "price"); [tauto|].
    destruct (String.eqb_spec f "size"); [tauto|discriminate]. }
  assert (Hproj : forall bef aft,
    (forall x, project_item (VObj (assign f x line))
               = Ok (VObj (bef ++ (f, x) :: aft)%list)) ->
    project_item (VObj line) = Ok (VObj (bef ++ (f, lookup f line) :: aft)%list) ->
    let c := CObj [] "cart" (CArr p1 (CObj bef f CHole aft) p2)
                  [("address", lookup "address" ps); ("pricing", lookup "pricing" ps)] in
    projection (VObj ps) = Ok (plug c (lookup f line)) /\
    projection (VObj (assign "cart" (VArr (l1 ++ VObj (assign f v' line) :: l2)%list) ps))
    = Ok (plug c v')).
  { intros bef aft Hnew Hold. cbv zeta. unfold projection, get.
    rewrite lookup_assign_same. rewrite !lookup_assign_other by discriminate.
    rewrite Hc. cbn [array_map bind]. rewrite !mapM_app. cbn [mapM].
    rewrite H1, H2, Hnew, Hold. split; reflexivity. }
  destruct Hcases as [-> | [-> | [-> | ->]]].
  - eexists. apply (Hproj [] [("productName", lookup "productName" line);
                              ("price", lookup "price" line); ("size", lookup "size" line)]).
    + intros x. unfold project_item, get.
      rewrite lookup_assign_same. now rewrite !lookup_assign_other by discriminate.
    + reflexivity.
  - eexists. apply (Hproj [("productCode", lookup "productCode" line)]
                          [("price", lookup "price" line); ("size", lookup "size" line)]).
    + intros x. unfold project_item, get.
      rewrite lookup_assign_same. now rewrite !lookup_assign_other by discriminate.
    + reflexivity.
  - eexists. apply (Hproj [("productCode", lookup "productCode" line);
                           ("productName", lookup "productName" line)]
                          [("size", lookup "size" line)]).
    + intros x. unfold project_item, get.
      rewrite lookup_assign_same. now rewrite !lookup_assign_other by discriminate.
    + reflexivity.
  - eexists. apply (Hproj [("productCode", lookup "productCode" line);
                           ("productName", lookup "productName" line);
                           ("price", lookup "price" line)] []).
    + intros x. unfold project_item, get.
      rewrite lookup_assign_same. now rewrite !lookup_assign_other by discriminate.
    + reflexivity.
Qed.

(** C3, as stated, fails: in a summary returned by checkout, replacing
    [null] by a non-finite number in a field of the address changes the
    order but not its hashed text, and the changed order verifies against
    the original digest. *)
Lemma undetected_address_change :
  let S := demo_summary demo_line demo_address_null in
  let S' := demo_summary demo_line demo_address_infinite in
  field (json (checkout demo_env demo_catalog (VStr "2024-05-01T10:00:00.000Z")
                 (checkout_body [cart_line (VStr "A1") (VStr "M")] demo_address_null)))
        "order" = S /\
  projection S = Ok (plug landmark_position VNull) /\
  projection S' = Ok (plug landmark_position (VNum (S754_infinity false))) /\
  VNull <> VNum (S754_infinity false) /\
  exists d, generateOrderHash demo_env S = Ok d /\
            verifyOrderHash demo_env S' (VStr d) = Ok true.
Proof.
  cbv zeta. split; [vm_compute; reflexivity|].
  split; [reflexivity|]. split; [reflexivity|]. split; [discriminate|].
  eexists. split; vm_compute; reflexivity.
Qed.

(** A change of one position of the hashed projection that changes the
    JSON text of the value there changes the hashed text, and verification
    against the old digest compares the HMACs of the two texts. *)
Lemma changed_text_is_hashed E S S' d c v v' t t' :
  generateOrderHash E S = Ok d ->
  projection S = Ok (plug c v) ->
  projection S' = Ok (plug c v') ->
  stringify v = Some t -> stringify v' = Some t' -> t <> t' ->
  exists key s s',
    SECRET_KEY E = Some key /\
    orderString S = Ok s /\ orderString S' = Ok s' /\ s <> s' /\
    verifyOrderHash E S' (VStr d)
    = Ok (hmac_sha256_hex key s' =? hmac_sha256_hex key s)%string.
Proof.
  intros Hg Hp Hp' Ht Ht' Hne.
  destruct (generateOrderHash_shape _ _ _ Hg) as (ps & items & key & p & _ & _ & Hk & _ & _).
  exists key, (JSON_stringify (plug c v)), (JSON_stringify (plug c v')).
  assert (Hs : orderString S = Ok (JSON_stringify (plug c v)))
    by (unfold orderString; now rewrite Hp).
  assert (Hs' : orderString S' = Ok (JSON_stringify (plug c v')))
    by (unfold orderString; now rewrite Hp').
  repeat split; try assumption.
  - now apply (plug_text_differs c v v' t t').
  - now apply (verify_compares_hmac E S S' d key).
Qed.

(** A change that leaves the JSON text of the value unchanged is not seen:
    the changed order verifies against the old digest. *)
Lemma same_text_verifies E S S' d c v v' :
  generateOrderHash E S = Ok d ->
  projection S = Ok (plug c v) ->
  projection S' = Ok (plug c v') ->
  stringify v = stringify v' -> stringify v <> None ->
  verifyOrderHash E S' (VStr d) = Ok true.
Proof.
  intros Hg Hp Hp' Ht Hsome.
  destruct (generateOrderHash_shape _ _ _ Hg) as (ps & items & key & p & _ & _ & Hk & _ & _).
  assert (Hs : orderString S = Ok (JSON_stringify (plug c v)))
    by (unfold orderString; now rewrite Hp).
  assert (Hs' : orderString S' = Ok (JSON_stringify (plug c v')))
    by (unfold orderString; now rewrite Hp').
  rewrite (verify_compares_hmac E S S' d key _ _ Hg Hk Hs Hs').
  destruct (stringify v) as [t|] eqn:Hv; [|contradiction].
  destruct (stringify_plug c) as (pre & post & Hc).
  unfold JSON_stringify. rewrite (Hc v t Hv), (Hc v' t (eq_sym Ht)).
  now rewrite String.eqb_refl.
Qed.

(** The example of the specification: a digest computed before the address
    was edited does not verify the edited order. *)
Example edited_address_fails_verification :
  verifyOrderHash demo_env
    (demo_summary demo_line (VObj [("city", VStr "Goa"); ("zip", VStr "411001")]))
    (VStr demo_digest) = Ok false.
Proof. vm_compute. reflexivity. Qed.

(** ** Decimal numerals: writing and reading back *)

Lemma all_digits_app a b : all_digits (a ++ b) = all_digits a && all_digits b.
Proof.
  induction a as [|c a IH]; simpl; [reflexivity|].
  now rewrite IH, andb_assoc.
Qed.

Lemma all_digits_head c a : all_digits (String c a) = true -> is_digit c = true.
Proof. cbn [all_digits]. intros H. apply andb_prop in H. exact (proj1 H). Qed.

Lemma digits_value_app acc a b :
  digits_value acc (a ++ b) = digits_value (digits_value acc a) b.
Proof. revert acc. induction a as [|c a IH]; intros acc; simpl; [reflexivity|apply IH]. Qed.

Lemma read_digits_run a r acc cnt :
  all_digits a = true ->
  match r with String c _ => is_digit c = false | EmptyString => True end ->
  read_digits (a ++ r) acc cnt = (digits_value acc a, (cnt + String.length a)%nat, r).
Proof.
  revert acc cnt. induction a as [|c a IH]; intros acc cnt Ha Hr.
  - simpl. rewrite Nat.add_0_r. destruct r as [|c r]; [reflexivity|].
    simpl. now rewrite Hr.
  - simpl in Ha. apply andb_prop in Ha. destruct Ha as [Hc Ha].
    simpl. rewrite Hc. rewrite (IH _ _ Ha Hr). f_equal. f_equal. lia.
Qed.

Lemma digit_char_value d :
  0 <= d < 10 ->
  is_digit (digit_char d) = true /\ Z.of_N (N_of_ascii (digit_char d)) - 48 = d.
Proof.
  intros H.
  assert (Hd : d = 0 \/ d = 1 \/ d = 2 \/ d = 3 \/ d = 4 \/ d = 5 \/ d = 6 \/ d = 7
               \/ d = 8 \/ d = 9) by lia.
  repeat (destruct Hd as [->|Hd]; [split; reflexivity|]). subst. split; reflexivity.
Qed.

Lemma digits_acc_spec fuel n acc :
  (0 < fuel)%nat -> 0 <= n < 10 ^ Z.of_nat fuel ->
  exists ds, digits_acc fuel n acc = ds ++ acc /\ all_digits ds = true /\
             (0 < String.length ds)%nat /\
             forall a, digits_value a ds = a * 10 ^ Z.of_nat (String.length ds) + n.
Proof.
  revert n acc. induction fuel as [|fuel IH]; intros n acc Hf Hn; [lia|].
  cbn [digits_acc].
  assert (Hmod : 0 <= n mod 10 < 10) by (apply Z.mod_pos_bound; lia).
  destruct (digit_char_value _ Hmod) as [Hd Hv].
  destruct (Z.ltb_spec n 10) as [Hlt|Hge].
  - exists (String (digit_char (n mod 10)) EmptyString).
    split; [reflexivity|]. split; [simpl; now rewrite Hd|]. split; [simpl; lia|].
    intros a. cbn [digits_value String.length]. rewrite Hv, Z.mod_small by lia.
    change (Z.of_nat 1) with 1. rewrite Z.pow_1_r. lia.
  - destruct fuel as [|fuel'].
    { simpl in Hn. lia. }
    destruct (IH (n / 10) (String (digit_char (n mod 10)) acc)) as (ds & Heq & Hall & Hlen & Hval).
    + lia.
    + split; [apply Z.div_pos; lia|].
      apply Z.div_lt_upper_bound; [lia|].
      replace (Z.of_nat (S (S fuel'))) with (Z.succ (Z.of_nat (S fuel'))) in Hn by lia.
      rewrite Z.pow_succ_r in Hn by lia. lia.
    + exists (ds ++ String (digit_char (n mod 10)) EmptyString).
      split; [rewrite Heq; now rewrite str_app_assoc|].
      split; [rewrite all_digits_app, Hall; simpl; now rewrite Hd|].
      split; [rewrite str_app_length; simpl; lia|].
      intros a. rewrite digits_value_app, Hval. cbn [digits_value]. rewrite Hv.
      rewrite str_app_length. simpl String.length.
      replace (Z.of_nat (String.length ds + 1)) with (Z.succ (Z.of_nat (String.length ds))) by lia.
      rewrite Z.pow_succ_r by lia.
      pose proof (Z.div_mod n 10). lia.
Qed.

Lemma decimal_spec n :
  0 <= n ->
  all_digits (decimal n) = true /\ (0 < String.length (decimal n))%nat /\
  forall a, digits_value a (decimal n) = a * 10 ^ Z.of_nat (String.length (decimal n)) + n.
Proof.
  intros Hn. unfold decimal.
  destruct (digits_acc_spec (S (Z.to_nat (Z.log2 n))) n EmptyString) as (ds & Heq & Hall & Hlen & Hval).
  - lia.
  - split; [exact Hn|].
    rewrite Nat2Z.inj_succ, Z2Nat.id by apply Z.log2_nonneg.
    destruct (Z.eq_dec n 0) as [->|Hnz]; [reflexivity|].
    pose proof (Z.log2_spec n ltac:(lia)) as [_ Hlt].
    eapply Z.lt_le_trans; [exact Hlt|].
    apply Z.pow_le_mono_l. pose proof (Z.log2_nonneg n). lia.
  - rewrite Heq, str_app_nil_r. repeat split; assumption.
Qed.

Lemma zeros_spec k :
  all_digits (zeros k) = true /\ String.length (zeros k) = k /\
  forall a, digits_value a (zeros k) = a * 10 ^ Z.of_nat k.
Proof.
  induction k as [|k (Hall & Hlen & Hval)].
  - repeat split. intros a. simpl. lia.
  - repeat split.
    + simpl. exact Hall.
    + simpl. now rewrite Hlen.
    + intros a. cbn [zeros digits_value]. rewrite Hval.
      change (Z.of_N (N_of_ascii "0") - 48) with 0.
      rewrite Nat2Z.inj_succ, Z.pow_succ_r by lia. lia.
Qed.

Lemma substring_all s : substring 0 (String.length s) s = s.
Proof. induction s as [|c s IH]; simpl; [reflexivity|now rewrite IH]. Qed.

Lemma str_take_drop k s :
  (k <= String.length s)%nat -> str_take k s ++ str_drop k s = s.
Proof.
  unfold str_take, str_drop. revert k. induction s as [|c s IH]; intros k Hk.
  - simpl in Hk. replace k with O by lia. reflexivity.
  - destruct k as [|k].
    + cbn [substring append]. rewrite Nat.sub_0_r.
      change (substring 0 (String.length (String c s)) (String c s) = String c s).
      apply substring_all.
    + simpl in Hk. cbn [substring append String.length]. rewrite Nat.sub_succ.
      f_equal. apply IH. lia.
Qed.

Lemma str_take_length k s :
  (k <= String.length s)%nat -> String.length (str_take k s) = k.
Proof.
  unfold str_take. revert k. induction s as [|c s IH]; intros k Hk.
  - simpl in Hk. replace k with O by lia. reflexivity.
  - destruct k as [|k]; [reflexivity|]. simpl in *. f_equal. apply IH. lia.
Qed.

(** ** [parseFloat] on what [toFixed] writes *)

Lemma digit_not_white_space c r fuel :
  is_digit c = true -> strip_prefix fuel white_space (String c r) = String c r.
Proof.
  intros Hc. destruct fuel as [|fuel]; [reflexivity|].
  cbn [strip_prefix].
  replace (find (fun w => prefix w (String c r)) white_space) with (@None string);
    [reflexivity|].
  each_char c; try discriminate Hc; reflexivity.
Qed.

Lemma minus_not_white_space r fuel :
  strip_prefix fuel white_space (String "-" r) = String "-" r.
Proof. destruct fuel as [|fuel]; reflexivity. Qed.

Lemma parseFloat_digit c r :
  is_digit c = true -> parseFloat (String c r) = parse_unsigned false (String c r).
Proof.
  intros Hc. unfold parseFloat, trimStart. rewrite (digit_not_white_space _ _ _ Hc).
  each_char c; try discriminate Hc; reflexivity.
Qed.

Lemma parseFloat_minus r : parseFloat (String "-" r) = parse_unsigned true r.
Proof. unfold parseFloat, trimStart. now rewrite minus_not_white_space. Qed.

Lemma prefix_Infinity_digit c r :
  is_digit c = true -> prefix "Infinity" (String c r) = false.
Proof.
  intros Hc.
  each_char c; try discriminate Hc; reflexivity.
Qed.

(** Digits, a point, digits. *)
Lemma parse_unsigned_fixed neg a b :
  all_digits a = true -> (0 < String.length a)%nat -> all_digits b = true ->
  parse_unsigned neg (a ++ String "." b)
  = if digits_value 0 (a ++ b) =? 0 then S754_zero neg
    else dec neg (digits_value 0 (a ++ b)) (- Z.of_nat (String.length b)).
Proof.
  intros Ha Hlen Hb. unfold parse_unsigned.
  destruct a as [|c a']; [simpl in Hlen; lia|].
  pose proof (all_digits_head _ _ Ha) as Hc.
  change (String c a' ++ String "." b) with (String c (a' ++ String "." b)).
  rewrite (prefix_Infinity_digit _ _ Hc).
  change (String c (a' ++ String "." b)) with (String c a' ++ String "." b).
  rewrite (read_digits_run (String c a') (String "." b) 0 O Ha) by reflexivity.
  cbv iota beta.
  pose proof (read_digits_run b EmptyString (digits_value 0 (String c a')) O Hb I) as Hrb.
  rewrite str_app_nil_r in Hrb. rewrite Hrb.
  cbn [Nat.add String.length]. cbv iota beta.
  rewrite digits_value_app.
  cbn [read_exponent]. rewrite Z.sub_0_l. reflexivity.
Qed.

Lemma hundredths_nonneg m e : 0 <= hundredths m e.
Proof.
  unfold hundredths, ratio_of.
  destruct (Z.leb_spec 0 e) as [He|He]; cbv beta iota.
  - apply Z.div_pos; [|lia]. pose proof (Z.pow_nonneg 2 e ltac:(lia)). nia.
  - assert (0 < 2 ^ (- e)) by (apply Z.pow_pos_nonneg; lia).
    apply Z.div_pos; lia.
Qed.

(** What [toFixed(2)] writes for a positive number in fixed notation. *)
Lemma toFixed_pos_fixed m e :
  fixed_range (S754_finite false m e) = true ->
  exists a b,
    toFixed_pos m e 2 = a ++ String "." b /\
    all_digits a = true /\ (0 < String.length a)%nat /\
    all_digits b = true /\ String.length b = 2%nat /\
    digits_value 0 (a ++ b) = hundredths m e.
Proof.
  intros Hr. pose proof (hundredths_nonneg m e) as Hn.
  unfold fixed_range in Hr. unfold toFixed_pos, hundredths in *.
  destruct (ratio_of m e) as [p q].
  replace (10 ^ 21 * q <=? p) with false by (symmetry; apply Z.leb_gt; now apply Z.ltb_lt).
  change (Z.of_nat 2) with 2.
  set (n := (2 * p * 10 ^ 2 + q) / (2 * q)) in *.
  destruct (decimal_spec n Hn) as (Hall & Hlen & Hval).
  set (ds := if (String.length (decimal n) <=? 2)%nat
             then zeros (2 + 1 - String.length (decimal n)) ++ decimal n
             else decimal n).
  assert (Hds : all_digits ds = true /\ (3 <= String.length ds)%nat /\
                digits_value 0 ds = n).
  { unfold ds. destruct (Nat.leb_spec (String.length (decimal n)) 2) as [Hle|Hgt].
    - destruct (zeros_spec (2 + 1 - String.length (decimal n))) as (Hz1 & Hz2 & Hz3).
      split; [rewrite all_digits_app, Hz1, Hall; reflexivity|].
      split; [rewrite str_app_length, Hz2; lia|].
      rewrite digits_value_app, Hz3, Hval. lia.
    - split; [exact Hall|]. split; [lia|]. rewrite Hval. lia. }
  destruct Hds as (Hdall & Hdlen & Hdval).
  cbn [Nat.eqb].
  exists (str_take (String.length ds - 2) ds), (str_drop (String.length ds - 2) ds).
  pose proof (str_take_drop (String.length ds - 2) ds ltac:(lia)) as Hsplit.
  pose proof (str_take_length (String.length ds - 2) ds ltac:(lia)) as Htl.
  assert (Hparts : all_digits (str_take (String.length ds - 2) ds) = true /\
                   all_digits (str_drop (String.length ds - 2) ds) = true).
  { rewrite <- Hsplit in Hdall. rewrite all_digits_app in Hdall.
    now apply andb_prop in Hdall. }
  destruct Hparts as [Hta Hdb].
  split; [reflexivity|]. split; [exact Hta|]. split; [lia|]. split; [exact Hdb|].
  split.
  - apply (f_equal String.length) in Hsplit. rewrite str_app_length, Htl in Hsplit. lia.
  - now rewrite Hsplit.
Qed.

(** [parseFloat(x.toFixed(2))] is [x] rounded to two decimals, half away
    from zero, whenever [toFixed] writes [x] in fixed notation. *)
Lemma round2_correct x :
  fixed_range x = true -> round2 x = round2_spec x.
Proof.
  unfold round2. destruct x as [s|s| |s m e]; try discriminate.
  - intros _. destruct s; reflexivity.
  - intros Hr.
    assert (Hr' : fixed_range (S754_finite false m e) = true) by exact Hr.
    destruct (toFixed_pos_fixed m e Hr') as (a & b & Heq & Ha & Hla & Hb & Hlb & Hv).
    assert (Hparse : forall neg, parse_unsigned neg (toFixed_pos m e 2)
                                 = if hundredths m e =? 0 then S754_zero neg
                                   else dec neg (hundredths m e) (-2)).
    { intros neg. rewrite Heq, (parse_unsigned_fixed neg a b Ha Hla Hb), Hv, Hlb.
      reflexivity. }
    destruct s; cbn [toFixed round2_spec].
    + change ("-" ++ toFixed_pos m e 2) with (String "-" (toFixed_pos m e 2)).
      rewrite parseFloat_minus. apply Hparse.
    + rewrite Heq. destruct a as [|c a']; [simpl in Hla; lia|].
      pose proof (all_digits_head _ _ Ha) as Hc.
      change (String c a' ++ String "." b) with (String c (a' ++ String "." b)).
      rewrite (parseFloat_digit _ _ Hc).
      change (String c (a' ++ String "." b)) with (String c a' ++ String "." b).
      rewrite <- Heq. apply Hparse.
Qed.

(** ** Signs of binary64 results *)

Lemma iter_pos_preserves {A} (P : A -> Prop) (f : A -> A) p x :
  (forall y, P y -> P (f y)) -> P x -> P (iter_pos f p x).
Proof.
  intros Hf. revert x. induction p as [p IH|p IH|]; intros x Hx; simpl; auto.
Qed.

Lemma shr_1_nonneg mrs : 0 <= shr_m mrs -> 0 <= shr_m (shr_1 mrs).
Proof.
  destruct mrs as [m r s]. simpl.
  destruct m as [|[p|p|]|[p|p|]]; simpl; lia.
Qed.

Lemma shr_nonneg mrs e n : 0 <= shr_m mrs -> 0 <= shr_m (fst (shr mrs e n)).
Proof.
  intros H. unfold shr. destruct n as [|p|p]; simpl; try exact H.
  apply iter_pos_preserves; [apply shr_1_nonneg|exact H].
Qed.

Lemma shr_fexp_nonneg m e l :
  0 <= m -> 0 <= shr_m (fst (shr_fexp prec emax m e l)).
Proof.
  intros H. unfold shr_fexp. apply shr_nonneg.
  destruct l as [|[| |]]; exact H.
Qed.

Lemma round_nearest_even_nonneg m l : 0 <= m -> 0 <= round_nearest_even m l.
Proof.
  intros H. unfold round_nearest_even.
  destruct l as [|[| |]]; try lia. destruct (Z.even m); lia.
Qed.

Lemma binary_round_aux_nonneg mx ex lx :
  0 <= mx -> nonneg (binary_round_aux prec emax false mx ex lx) = true.
Proof.
  intros H. unfold binary_round_aux.
  pose proof (shr_fexp_nonneg mx ex lx H) as H1.
  destruct (shr_fexp prec emax mx ex lx) as [mrs' e'].
  simpl fst in H1.
  pose proof (shr_fexp_nonneg _ e' loc_Exact
                (round_nearest_even_nonneg _ (loc_of_shr_record mrs') H1)) as H2.
  destruct (shr_fexp prec emax _ e' loc_Exact) as [mrs'' e''].
  simpl fst in H2.
  destruct (shr_m mrs'') as [|m|m]; [reflexivity| |lia].
  destruct (e'' <=? emax - prec); reflexivity.
Qed.

Lemma num_add_nonneg x y :
  nonneg x = true -> nonneg y = true -> nonneg (num_add x y) = true.
Proof.
  unfold num_add.
  destruct x as [[|]|[|]| |[|] mx ex]; try discriminate;
    destruct y as [[|]|[|]| |[|] my ey]; try discriminate; intros _ _; try reflexivity.
  unfold SFadd, binary_normalize, cond_Zopp.
  cbn [Z.add]. unfold binary_round.
  destruct (shl_align _ _ _) as [mz ez]. apply binary_round_aux_nonneg. lia.
Qed.

Lemma num_mul_tenth_nonneg x :
  nonneg x = true -> nonneg (num_mul x (dec false 1 (-1))) = true.
Proof.
  unfold num_mul.
  replace (dec false 1 (-1)) with (S754_finite false 7205759403792794 (-56))
    by (vm_compute; reflexivity).
  destruct x as [[|]|[|]| |[|] mx ex]; try discriminate; intros _; try reflexivity.
  unfold SFmul. cbn [xorb]. apply binary_round_aux_nonneg. lia.
Qed.

Lemma nearest_nonneg p q :
  0 <= p -> 0 < q -> nonneg (nearest false p q) = true.
Proof.
  intros Hp Hq. unfold nearest, SFdiv_core_binary.
  match goal with |- context [Z.div_eucl ?a q] =>
    assert (Ha : 0 <= a); [|pose proof (Z_div_mod a q ltac:(lia)) as Hd;
                             destruct (Z.div_eucl a q) as [qq rr]] end.
  { match goal with |- 0 <= match ?s with _ => _ end =>
      destruct s; [exact Hp| |lia] end.
    rewrite Z.shiftl_mul_pow2 by lia. apply Z.mul_nonneg_nonneg; [exact Hp|].
    apply Z.pow_nonneg. lia. }
  apply binary_round_aux_nonneg. nia.
Qed.

Lemma dec_nonneg n e : 0 <= n -> nonneg (dec false n e) = true.
Proof.
  intros Hn. unfold dec. destruct (0 <=? e) eqn:He.
  - apply nearest_nonneg; [|lia]. apply Z.mul_nonneg_nonneg; [exact Hn|].
    apply Z.pow_nonneg. lia.
  - apply nearest_nonneg; [exact Hn|]. apply Z.pow_pos_nonneg; lia.
Qed.

(** ** The sign of what [parseFloat] reads *)

Lemma is_digit_value c : is_digit c = true -> 0 <= Z.of_N (N_of_ascii c) - 48 < 10.
Proof.
  unfold is_digit. cbv zeta. intros H. apply andb_prop in H. destruct H as [H1 H2].
  apply N.leb_le in H1. apply N.leb_le in H2. lia.
Qed.

Lemma read_digits_bounds s acc cnt :
  0 <= acc ->
  0 <= fst (fst (read_digits s acc cnt)) /\ (cnt <= snd (fst (read_digits s acc cnt)))%nat.
Proof.
  revert acc cnt. induction s as [|c s IH]; intros acc cnt Hacc; cbn [read_digits];
    [cbn [fst snd]; split; lia|].
  destruct (is_digit c) eqn:Hc; [|cbn [fst snd]; split; lia].
  pose proof (is_digit_value c Hc) as Hd.
  destruct (IH (10 * acc + (Z.of_N (N_of_ascii c) - 48)) (S cnt) ltac:(lia)) as [H1 H2].
  split; [exact H1|lia].
Qed.

Lemma parseFloat_digit_nonneg c r :
  is_digit c = true -> nonneg (parseFloat (String c r)) = true.
Proof.
  intros Hc. rewrite (parseFloat_digit _ _ Hc). unfold parse_unsigned.
  rewrite (prefix_Infinity_digit _ _ Hc).
  pose proof (read_digits_bounds (String c r) 0 O ltac:(lia)) as [Hv Hn].
  assert (Hn1 : (1 <= snd (fst (read_digits (String c r) 0 O)))%nat).
  { cbn [read_digits]. rewrite Hc. pose proof (is_digit_value c Hc) as Hd.
    apply (proj2 (read_digits_bounds r (10 * 0 + (Z.of_N (N_of_ascii c) - 48)) 1%nat
                    ltac:(lia))). }
  destruct (read_digits (String c r) 0 O) as [[ip ni] r1].
  simpl in Hv, Hn1.
  assert (Hfp : forall fp nf r2,
            (fp, nf, r2) = match r1 with
                           | String "." t => read_digits t ip O
                           | _ => (ip, O, r1)
                           end -> 0 <= fp).
  { intros fp nf r2 Heq.
    assert (Hcase : (fp, nf, r2) = (ip, O, r1) \/ exists t, (fp, nf, r2) = read_digits t ip O).
    { destruct r1 as [|c1 t]; [now left|].
      each_char c1; try (now left).
      right. now exists t. }
    destruct Hcase as [H|[t H]].
    - inversion H. lia.
    - pose proof (read_digits_bounds t ip O Hv) as [H1 _]. rewrite <- H in H1. exact H1. }
  destruct (match r1 with String "." t => read_digits t ip O | _ => (ip, O, r1) end)
    as [[fp nf] r2] eqn:Hm.
  specialize (Hfp fp nf r2 eq_refl).
  destruct ni as [|ni]; [lia|].
  destruct (fp =? 0); [reflexivity|]. now apply dec_nonneg.
Qed.

Lemma digits_acc_head fuel n acc :
  (0 < fuel)%nat -> exists c r, digits_acc fuel n acc = String c r /\ is_digit c = true.
Proof.
  revert n acc. induction fuel as [|fuel IH]; intros n acc Hf; [lia|].
  cbn [digits_acc].
  assert (Hmod : 0 <= n mod 10 < 10) by (apply Z.mod_pos_bound; lia).
  destruct (digit_char_value _ Hmod) as [Hd _].
  destruct (n <? 10); [now eexists _, _|].
  destruct fuel as [|fuel']; [now eexists _, _|].
  apply IH. lia.
Qed.

Lemma decimal_head n : exists c r, decimal n = String c r /\ is_digit c = true.
Proof. unfold decimal. apply digits_acc_head. lia. Qed.

Lemma toString_pos_head m e :
  exists c r, toString_pos m e = String c r /\ is_digit c = true.
Proof.
  unfold toString_pos. destruct (shortest m e) as [s ex].
  destruct (decimal_head s) as (c & r & Hd & Hc). rewrite Hd.
  set (k := Z.of_nat (String.length (String c r))).
  destruct ((k <=? ex + k) && (ex + k <=? 21)); [now eexists _, _|].
  destruct (Z.ltb_spec 0 (ex + k)) as [Hpos|Hneg]; cbn [andb].
  - destruct (ex + k <=? 21).
    + destruct (Z.to_nat (ex + k)) as [|n'] eqn:Hn; [lia|].
      unfold str_take. cbn [substring append]. now eexists _, _.
    + destruct ((-6 <? ex + k) && (ex + k <=? 0)); [now eexists _, _|].
      destruct (k =? 1); [now eexists _, _|].
      unfold str_take. cbn [substring append]. now eexists _, _.
  - destruct ((-6 <? ex + k) && (ex + k <=? 0)); [now eexists _, _|].
    destruct (k =? 1); [now eexists _, _|].
    unfold str_take. cbn [substring append]. now eexists _, _.
Qed.

Lemma round2_nonneg x : nonneg x = true -> nonneg (round2 x) = true.
Proof.
  unfold round2. destruct x as [s|[|]| |[|] m e]; try discriminate; intros _.
  - destruct s; reflexivity.
  - reflexivity.
  - destruct (fixed_range (S754_finite false m e)) eqn:Hr.
    + destruct (toFixed_pos_fixed m e Hr) as (a & b & Heq & Ha & Hla & _).
      cbn [toFixed]. rewrite Heq.
      destruct a as [|c a']; [simpl in Hla; lia|].
      cbn [append]. apply parseFloat_digit_nonneg. exact (all_digits_head _ _ Ha).
    + cbn [toFixed]. unfold toFixed_pos. unfold fixed_range in Hr.
      destruct (ratio_of m e) as [p q].
      replace (10 ^ 21 * q <=? p) with true
        by (symmetry; apply Z.leb_le; apply Z.ltb_ge; exact Hr).
      destruct (toString_pos_head m e) as (c & r & -> & Hc).
      now apply parseFloat_digit_nonneg.
Qed.


(** ** Rounding and powers of two *)

Lemma digits2_pos_bounds m :
  2 ^ (Zpos (digits2_pos m) - 1) <= Zpos m < 2 ^ Zpos (digits2_pos m).
Proof.
  induction m as [m IH|m IH|]; cbn [digits2_pos].
  - rewrite Pos2Z.inj_succ.
    replace (Z.succ (Zpos (digits2_pos m)) - 1) with (Z.succ (Zpos (digits2_pos m) - 1)) by lia.
    rewrite !Z.pow_succ_r by lia. lia.
  - rewrite Pos2Z.inj_succ.
    replace (Z.succ (Zpos (digits2_pos m)) - 1) with (Z.succ (Zpos (digits2_pos m) - 1)) by lia.
    rewrite !Z.pow_succ_r by lia. lia.
  - simpl. lia.
Qed.

Lemma Zdigits2_nonneg m : 0 <= Zdigits2 m.
Proof. destruct m; simpl; lia. Qed.

Lemma Zdigits2_upper m K : 0 <= m -> 0 <= K -> m < 2 ^ K -> Zdigits2 m <= K.
Proof.
  intros Hm HK Hlt. destruct m as [|p|p]; [simpl; lia| |lia].
  cbn [Zdigits2]. pose proof (digits2_pos_bounds p) as [Hlo _].
  destruct (Z.le_gt_cases (Zpos (digits2_pos p)) K) as [|Hgt]; [assumption|].
  assert (2 ^ K <= 2 ^ (Zpos (digits2_pos p) - 1)) by (apply Z.pow_le_mono_r; lia).
  lia.
Qed.

Lemma shr_1_div2 mrs : 0 <= shr_m mrs -> shr_m (shr_1 mrs) = shr_m mrs / 2.
Proof.
  destruct mrs as [m r s]. cbn [shr_m shr_1]. intros Hm.
  destruct m as [|[p|p|]|p]; cbn [shr_m]; try lia.
  - reflexivity.
  - apply (Z.div_unique _ _ _ 1); lia.
  - apply (Z.div_unique _ _ _ 0); lia.
  - reflexivity.
Qed.

Lemma iter_shr_1_div p mrs :
  0 <= shr_m mrs -> shr_m (iter_pos shr_1 p mrs) = shr_m mrs / 2 ^ Zpos p.
Proof.
  revert mrs. induction p as [p IH|p IH|]; intros mrs Hm; cbn [iter_pos].
  - pose proof (shr_1_nonneg _ Hm) as H1.
    assert (H2 : 0 <= shr_m (iter_pos shr_1 p (shr_1 mrs)))
      by (apply iter_pos_preserves; [apply shr_1_nonneg|exact H1]).
    assert (Hpow : 2 ^ Z.pos p~1 = 2 * 2 ^ Zpos p * 2 ^ Zpos p).
    { change (Z.pos p~1) with (Z.succ (2 * Z.pos p)).
      rewrite Z.pow_succ_r, Z.pow_twice_r by lia. lia. }
    assert (Hp : 0 < 2 ^ Zpos p) by (apply Z.pow_pos_nonneg; lia).
    rewrite (IH _ H2), (IH _ H1), (shr_1_div2 _ Hm), Hpow.
    rewrite !Z.div_div by lia. f_equal. lia.
  - assert (H2 : 0 <= shr_m (iter_pos shr_1 p mrs))
      by (apply iter_pos_preserves; [apply shr_1_nonneg|exact Hm]).
    assert (Hpow : 2 ^ Z.pos p~0 = 2 ^ Zpos p * 2 ^ Zpos p).
    { change (Z.pos p~0) with (2 * Z.pos p). now rewrite Z.pow_twice_r. }
    assert (Hp : 0 < 2 ^ Zpos p) by (apply Z.pow_pos_nonneg; lia).
    rewrite (IH _ H2), (IH _ Hm), Hpow.
    rewrite !Z.div_div by lia. reflexivity.
  - now apply shr_1_div2.
Qed.

(** [shr_fexp] divides the mantissa by a power of two, rounding down. *)
Lemma shr_fexp_spec m e l :
  0 <= m ->
  let n := fexp prec emax (Zdigits2 m + e) - e in
  (n <= 0 /\ shr_m (fst (shr_fexp prec emax m e l)) = m /\
   snd (shr_fexp prec emax m e l) = e) \/
  (0 < n /\ shr_m (fst (shr_fexp prec emax m e l)) = m / 2 ^ n /\
   snd (shr_fexp prec emax m e l) = e + n).
Proof.
  intros Hm n. unfold shr_fexp. fold n.
  assert (Hs : shr_m (shr_record_of_loc m l) = m) by (destruct l as [|[| |]]; reflexivity).
  unfold shr. destruct n as [|p|p] eqn:Hn.
  - left. cbn [fst snd]. split; [lia|]. split; [exact Hs|reflexivity].
  - right. cbn [fst snd]. split; [lia|].
    split; [|reflexivity]. rewrite iter_shr_1_div by (rewrite Hs; exact Hm).
    now rewrite Hs.
  - left. cbn [fst snd]. split; [lia|]. split; [exact Hs|reflexivity].
Qed.

Lemma round_nearest_even_bounds m l : m <= round_nearest_even m l <= m + 1.
Proof.
  unfold round_nearest_even. destruct l as [|[| |]]; try lia.
  destruct (Z.even m); lia.
Qed.

Lemma fexp_ge_emin e : emin prec emax <= fexp prec emax e.
Proof. unfold fexp. lia. Qed.

Lemma fexp_cases e :
  fexp prec emax e = Z.max (e - 53) (-1074).
Proof. reflexivity. Qed.

Lemma pow2_split a b : 0 <= a -> 0 <= b -> 2 ^ (a + b) = 2 ^ a * 2 ^ b.
Proof. intros. now apply Z.pow_add_r. Qed.

Lemma pow2_pos a : 0 <= a -> 0 < 2 ^ a.
Proof. intros. apply Z.pow_pos_nonneg; lia. Qed.

(** Rounding does not cross a power of two from below. *)
Lemma round_up_bound mx ex lx K :
  0 <= mx -> ex <= K -> mx + 1 <= 2 ^ (K - ex) -> -1074 <= K -> K <= 971 ->
  le_pow2 (binary_round_aux prec emax false mx ex lx) K.
Proof.
  intros Hm Hex Hmx HK1 HK2. unfold binary_round_aux.
  pose proof (shr_fexp_spec mx ex lx Hm) as Hs1. cbv zeta in Hs1.
  rewrite fexp_cases in Hs1.
  assert (Hd : Zdigits2 mx <= K - ex) by (apply Zdigits2_upper; lia).
  destruct (shr_fexp prec emax mx ex lx) as [mrs1 e1]. cbn [fst snd] in Hs1.
  assert (HA : e1 <= K /\ shr_m mrs1 + 1 <= 2 ^ (K - e1) /\ 0 <= shr_m mrs1).
  { destruct Hs1 as [(Hn & -> & ->)|(Hn & -> & ->)].
    - repeat split; lia.
    - set (n := Z.max (Zdigits2 mx + ex - 53) (-1074) - ex) in *.
      assert (He1 : ex + n <= K) by (unfold n; lia).
      split; [exact He1|].
      assert (Hpow : 2 ^ (K - ex) = 2 ^ n * 2 ^ (K - (ex + n))).
      { rewrite <- pow2_split by lia. f_equal. lia. }
      pose proof (pow2_pos n ltac:(lia)) as Hpn.
      split.
      + assert (mx / 2 ^ n < 2 ^ (K - (ex + n))); [|lia].
        apply Z.div_lt_upper_bound; [exact Hpn|]. lia.
      + apply Z.div_pos; lia. }
  destruct HA as (He1 & Hm1 & Hm1n).
  pose proof (round_nearest_even_bounds (shr_m mrs1) (loc_of_shr_record mrs1)) as Hr.
  set (m2 := round_nearest_even (shr_m mrs1) (loc_of_shr_record mrs1)) in *.
  assert (Hm2 : 0 <= m2) by lia.
  pose proof (shr_fexp_spec m2 e1 loc_Exact Hm2) as Hs2. cbv zeta in Hs2.
  rewrite fexp_cases in Hs2.
  assert (Hd2 : Zdigits2 m2 <= K - e1 + 1).
  { apply Zdigits2_upper; [lia|lia|].
    replace (K - e1 + 1) with (Z.succ (K - e1)) by lia.
    rewrite Z.pow_succ_r by lia. pose proof (pow2_pos (K - e1) ltac:(lia)). lia. }
  destruct (shr_fexp prec emax m2 e1 loc_Exact) as [mrs3 e3]. cbn [fst snd] in Hs2.
  assert (HB : e3 <= K /\ shr_m mrs3 <= 2 ^ (K - e3) /\ 0 <= shr_m mrs3).
  { destruct Hs2 as [(Hn & -> & ->)|(Hn & -> & ->)].
    - repeat split; lia.
    - set (n := Z.max (Zdigits2 m2 + e1 - 53) (-1074) - e1) in *.
      assert (He3 : e1 + n <= K) by (unfold n; lia).
      split; [exact He3|].
      assert (Hpow : 2 ^ (K - e1) = 2 ^ n * 2 ^ (K - (e1 + n))).
      { rewrite <- pow2_split by lia. f_equal. lia. }
      pose proof (pow2_pos n ltac:(lia)) as Hpn.
      split; [|apply Z.div_pos; lia].
      apply Z.div_le_upper_bound; [exact Hpn|]. lia. }
  destruct HB as (He3 & Hm3 & Hm3n).
  destruct (shr_m mrs3) as [|m|m]; [exact I| |lia].
  destruct (Z.leb_spec e3 (emax - prec)) as [_|Hgt].
  - split; assumption.
  - unfold emax, prec in Hgt. lia.
Qed.

(** Rounding does not cross the power of two below the rounded value. *)
Lemma round_low_bound mx ex :
  -1074 <= Zpos (digits2_pos mx) + ex - 1 ->
  ge_pow2 (binary_round_aux prec emax false (Zpos mx) ex loc_Exact)
          (Zpos (digits2_pos mx) + ex - 1).
Proof.
  intros HK. set (K := Zpos (digits2_pos mx) + ex - 1) in *.
  pose proof (digits2_pos_bounds mx) as [Hlo _].
  unfold binary_round_aux.
  pose proof (shr_fexp_spec (Zpos mx) ex loc_Exact ltac:(lia)) as Hs1. cbv zeta in Hs1.
  rewrite fexp_cases in Hs1. cbn [Zdigits2] in Hs1.
  destruct (shr_fexp prec emax (Zpos mx) ex loc_Exact) as [mrs1 e1]. cbn [fst snd] in Hs1.
  assert (HA : -1074 <= e1 /\ e1 <= K /\ 2 ^ (K - e1) <= shr_m mrs1).
  { destruct Hs1 as [(Hn & -> & ->)|(Hn & -> & ->)].
    - split; [lia|]. split; [unfold K; lia|].
      replace (K - ex) with (Zpos (digits2_pos mx) - 1) by (unfold K; lia). exact Hlo.
    - set (n := Z.max (Zpos (digits2_pos mx) + ex - 53) (-1074) - ex) in *.
      split; [unfold n; lia|]. split; [unfold n, K; lia|].
      assert (Hpow : 2 ^ (Zpos (digits2_pos mx) - 1) = 2 ^ n * 2 ^ (K - (ex + n))).
      { rewrite <- pow2_split by (unfold n, K; lia). f_equal. unfold K. lia. }
      pose proof (pow2_pos n ltac:(lia)) as Hpn.
      apply Z.div_le_lower_bound; [exact Hpn|]. lia. }
  destruct HA as (He1lo & He1 & Hm1).
  pose proof (pow2_pos (K - e1) ltac:(lia)) as Hp1.
  pose proof (round_nearest_even_bounds (shr_m mrs1) (loc_of_shr_record mrs1)) as Hr.
  set (m2 := round_nearest_even (shr_m mrs1) (loc_of_shr_record mrs1)) in *.
  assert (Hm2 : 0 < m2) by lia.
  pose proof (shr_fexp_spec m2 e1 loc_Exact ltac:(lia)) as Hs2. cbv zeta in Hs2.
  rewrite fexp_cases in Hs2.
  destruct (shr_fexp prec emax m2 e1 loc_Exact) as [mrs3 e3]. cbn [fst snd] in Hs2.
  assert (HB : 0 < shr_m mrs3 /\ (K <= e3 \/ 2 ^ (K - e3) <= shr_m mrs3)).
  { destruct Hs2 as [(Hn & -> & ->)|(Hn & -> & ->)].
    - split; [lia|]. right. lia.
    - destruct m2 as [|p2|p2]; try lia. cbn [Zdigits2] in *.
      pose proof (digits2_pos_bounds p2) as [Hlo2 _].
      set (d2 := Zpos (digits2_pos p2)) in *.
      assert (Hn2 : Z.max (d2 + e1 - 53) (-1074) - e1 = d2 - 53) by lia.
      rewrite Hn2 in *.
      pose proof (pow2_pos (d2 - 53) ltac:(lia)) as Hpn.
      split.
      + assert (2 ^ 52 <= Zpos p2 / 2 ^ (d2 - 53)); [|lia].
        apply Z.div_le_lower_bound; [exact Hpn|].
        rewrite <- pow2_split by lia. replace (d2 - 53 + 52) with (d2 - 1) by lia.
        exact Hlo2.
      + destruct (Z.le_gt_cases K (e1 + (d2 - 53))) as [|Hgt]; [now left|right].
        apply Z.div_le_lower_bound; [exact Hpn|].
        rewrite <- pow2_split by lia.
        replace (d2 - 53 + (K - (e1 + (d2 - 53)))) with (K - e1) by lia. lia. }
  destruct HB as (Hm3 & Hge).
  destruct (shr_m mrs3) as [|m|m]; try lia.
  destruct (e3 <=? emax - prec); [exact Hge|exact I].
Qed.

Lemma le_pow2_mono x K K' : le_pow2 x K -> K <= K' -> le_pow2 x K'.
Proof.
  destruct x as [s|s| |[|] m e]; simpl; try tauto. intros [He Hm] HK.
  split; [lia|]. eapply Z.le_trans; [exact Hm|]. apply Z.pow_le_mono_r; lia.
Qed.

Lemma ge_pow2_mono x K K' : ge_pow2 x K' -> K <= K' -> ge_pow2 x K.
Proof.
  destruct x as [s|[|]| |[|] m e]; simpl; try tauto. intros [He|Hm] HK.
  - left. lia.
  - destruct (Z.le_gt_cases K e) as [|Hgt]; [now left|right].
    eapply Z.le_trans; [|exact Hm]. apply Z.pow_le_mono_r; lia.
Qed.

Lemma pos_iter_xO m d : Zpos (Pos.iter xO m d) = Zpos m * 2 ^ Zpos d.
Proof.
  induction d as [|d IH] using Pos.peano_ind.
  - simpl. lia.
  - rewrite Pos.iter_succ, Pos2Z.inj_xO, IH, Pos2Z.inj_succ, Z.pow_succ_r by lia. lia.
Qed.

Lemma shl_align_fst mx ex ez :
  ez <= ex -> Zpos (fst (shl_align mx ex ez)) = Zpos mx * 2 ^ (ex - ez).
Proof.
  intros H. unfold shl_align. destruct (ez - ex) as [|d|d] eqn:Hd; cbn [fst]; try lia.
  - replace (ex - ez) with 0 by lia. lia.
  - rewrite pos_iter_xO. f_equal. f_equal. lia.
Qed.

Lemma shl_align_snd mx ex ez :
  snd (shl_align mx ex ez) = Z.min ex ez.
Proof.
  unfold shl_align. destruct (ez - ex) as [|d|d] eqn:Hd; cbn [snd]; lia.
Qed.

(** The difference of [t] and [d] is not negative when a power of two
    lies between them. *)
Lemma num_sub_nonneg t d K :
  le_pow2 d K -> ge_pow2 t K -> nonneg (num_sub t d) = true.
Proof.
  unfold num_sub.
  destruct d as [sd|sd| |[|] md ed]; simpl; try tauto;
    destruct t as [st|[|]| |[|] mt et]; simpl; try tauto; try reflexivity.
  intros [Hed Hmd] Hge.
  unfold binary_normalize, cond_Zopp.
  set (ez := Z.min et ed).
  pose proof (shl_align_fst mt et ez ltac:(unfold ez; lia)) as Ht.
  pose proof (shl_align_fst md ed ez ltac:(unfold ez; lia)) as Hd.
  set (a := fst (shl_align mt et ez)) in *. set (b := fst (shl_align md ed ez)) in *.
  assert (Hab : Zpos b <= Zpos a).
  { rewrite Ht, Hd.
    pose proof (pow2_pos (ed - ez) ltac:(unfold ez; lia)) as Hp1.
    pose proof (pow2_pos (et - ez) ltac:(unfold ez; lia)) as Hp2.
    assert (H1 : Zpos md * 2 ^ (ed - ez) <= 2 ^ (K - ez)).
    { replace (K - ez) with (K - ed + (ed - ez)) by lia.
      rewrite pow2_split by (unfold ez; lia).
      apply Z.mul_le_mono_nonneg_r; lia. }
    assert (H2 : 2 ^ (K - ez) <= Zpos mt * 2 ^ (et - ez)).
    { destruct Hge as [Hle|Hm].
      - eapply Z.le_trans; [apply (Z.pow_le_mono_r 2 (K - ez) (et - ez)); unfold ez; lia|].
        nia.
      - destruct (Z.le_gt_cases K et) as [Hle|Hgt].
        + eapply Z.le_trans; [apply (Z.pow_le_mono_r 2 (K - ez) (et - ez)); unfold ez; lia|].
          nia.
        + replace (K - ez) with (K - et + (et - ez)) by lia.
          rewrite pow2_split by (unfold ez; lia).
          apply Z.mul_le_mono_nonneg_r; lia. }
    lia. }
  assert (Hz : 0 <= Z.pos_sub a b) by (rewrite <- Pos2Z.add_pos_neg; lia).
  change (Zpos a - Zpos b) with (Z.pos_sub a b).
  destruct (Z.pos_sub a b) as [|p|p]; try lia.
  - reflexivity.
  - unfold binary_round. destruct (shl_align p ez _) as [mz ez'].
    apply binary_round_aux_nonneg. lia.
Qed.

Lemma num_sub_zero_nonneg t :
  nonneg t = true -> nonneg (num_sub t (S754_zero false)) = true.
Proof. destruct t as [[|]|[|]| |[|] m e]; try discriminate; reflexivity. Qed.

(** A sum of non-negative numbers is not below the power of two under its
    first term. *)
Lemma num_add_low ms es del :
  nonneg del = true -> is_finite del = true ->
  -1074 <= Zpos (digits2_pos ms) + es - 1 ->
  ge_pow2 (num_add (S754_finite false ms es) del) (Zpos (digits2_pos ms) + es - 1).
Proof.
  intros Hn Hf HK. pose proof (digits2_pos_bounds ms) as [Hlo _].
  set (K := Zpos (digits2_pos ms) + es - 1) in *.
  destruct del as [sd|sd| |[|] md ed]; try discriminate.
  - simpl. right. replace (K - es) with (Zpos (digits2_pos ms) - 1) by (unfold K; lia).
    exact Hlo.
  - unfold num_add, SFadd, binary_normalize, cond_Zopp.
    set (ez := Z.min es ed).
    pose proof (shl_align_fst ms es ez ltac:(unfold ez; lia)) as Ha.
    set (a := fst (shl_align ms es ez)) in *. set (b := fst (shl_align md ed ez)) in *.
    cbn [Z.add]. unfold binary_round.
    set (e2 := fexp prec emax (Zpos (digits2_pos (a + b)) + ez)).
    pose proof (shl_align_snd (a + b) ez e2) as Hsnd.
    assert (Hfst : 2 ^ (K - Z.min ez e2) <= Zpos (fst (shl_align (a + b) ez e2))).
    { assert (Hab : 2 ^ (K - ez) <= Zpos (a + b)).
      { rewrite Pos2Z.inj_add, Ha.
        replace (K - ez) with (Zpos (digits2_pos ms) - 1 + (es - ez)) by (unfold K; lia).
        rewrite pow2_split by (unfold ez; lia).
        pose proof (pow2_pos (es - ez) ltac:(unfold ez; lia)). nia. }
      destruct (Z.le_gt_cases ez e2) as [Hle|Hgt].
      - unfold shl_align. replace (Z.min ez e2) with ez by lia.
        destruct (e2 - ez) as [|d|d] eqn:Hd; cbn [fst]; first [exact Hab|lia].
      - rewrite shl_align_fst by lia. replace (Z.min ez e2) with e2 by lia.
        replace (K - e2) with (K - ez + (ez - e2)) by lia.
        rewrite pow2_split by (unfold K, ez; lia).
        apply Z.mul_le_mono_nonneg_r; [|exact Hab].
        apply Z.lt_le_incl, pow2_pos. lia. }
    destruct (shl_align (a + b) ez e2) as [mz ez']. cbn [fst snd] in *. subst ez'.
    pose proof (digits2_pos_bounds mz) as [_ Hhi].
    assert (Hdig : K <= Zpos (digits2_pos mz) + Z.min ez e2 - 1).
    { assert (K - Z.min ez e2 < Zpos (digits2_pos mz)); [|lia].
      apply (Z.pow_lt_mono_r_iff 2); [lia|lia|]. lia. }
    apply (ge_pow2_mono _ K (Zpos (digits2_pos mz) + Z.min ez e2 - 1)); [|exact Hdig].
    apply round_low_bound. lia.
Qed.

(** The product with 0.1 is at most an eighth of the next power of two. *)
Lemma num_mul_tenth_bound ms es :
  Zpos (digits2_pos ms) + es - 3 <= 971 ->
  le_pow2 (num_mul (S754_finite false ms es) (dec false 1 (-1)))
          (Z.max (Zpos (digits2_pos ms) + es - 3) (-1074)).
Proof.
  intros HB. pose proof (digits2_pos_bounds ms) as [_ Hhi].
  replace (dec false 1 (-1)) with (S754_finite false 7205759403792794 (-56))
    by (vm_compute; reflexivity).
  unfold num_mul, SFmul. cbn [xorb].
  set (d := Zpos (digits2_pos ms)) in *.
  apply round_up_bound; try lia.
  eapply Z.le_trans;
    [|apply (Z.pow_le_mono_r 2 (d + 53)); lia].
  rewrite pow2_split by lia.
  rewrite Pos2Z.inj_mul.
  assert (Zpos 7205759403792794 + 1 <= 2 ^ 53) by (vm_compute; discriminate).
  pose proof (pow2_pos d ltac:(lia)). nia.
Qed.

(** ** The size of a discount *)

Lemma hundredths_small m e K :
  e <= K -> Zpos m <= 2 ^ (K - e) -> K <= -8 -> hundredths m e = 0.
Proof.
  intros He Hm HK. unfold hundredths, ratio_of.
  destruct (Z.leb_spec 0 e) as [|Hneg]; [lia|]. cbv beta iota.
  apply Z.div_small.
  assert (Hq : 2 ^ (- e) = 2 ^ 8 * 2 ^ (- e - 8))
    by (rewrite <- pow2_split by lia; f_equal; lia).
  assert (Hle : 2 ^ (K - e) <= 2 ^ (- e - 8)) by (apply Z.pow_le_mono_r; lia).
  pose proof (pow2_pos (- e - 8) ltac:(lia)).
  change (2 ^ 8) with 256 in Hq. change (10 ^ 2) with 100. lia.
Qed.

Lemma hundredths_bound m e K :
  e <= K -> Zpos m <= 2 ^ (K - e) -> -7 <= K ->
  64 * hundredths m e < 100 * 2 ^ (K + 7).
Proof.
  intros He Hm HK. unfold hundredths, ratio_of. change (10 ^ 2) with 100.
  pose proof (pow2_pos (K + 7) ltac:(lia)) as HpK.
  destruct (Z.leb_spec 0 e) as [Hpos|Hneg]; cbv beta iota.
  - pose proof (pow2_pos e Hpos) as Hpe.
    assert (Hp : 128 * (Zpos m * 2 ^ e) <= 2 ^ (K + 7)).
    { replace (K + 7) with (7 + (K - e) + e) by lia.
      rewrite !pow2_split by lia. change (2 ^ 7) with 128. nia. }
    pose proof (Z.mul_div_le (2 * (Zpos m * 2 ^ e) * 100 + 1) (2 * 1) ltac:(lia)) as Hdiv.
    lia.
  - pose proof (pow2_pos (- e) ltac:(lia)) as Hq.
    assert (Hp : 128 * Zpos m <= 2 ^ (K + 7) * 2 ^ (- e)).
    { rewrite <- pow2_split by lia. replace (K + 7 + - e) with (7 + (K - e)) by lia.
      rewrite pow2_split by lia. change (2 ^ 7) with 128. lia. }
    pose proof (Z.mul_div_le (2 * Zpos m * 100 + 2 ^ (- e)) (2 * 2 ^ (- e)) ltac:(lia)) as Hdiv.
    set (n := (2 * Zpos m * 100 + 2 ^ (- e)) / (2 * 2 ^ (- e))) in *.
    assert (128 * n * 2 ^ (- e) <= (100 * 2 ^ (K + 7) + 64) * 2 ^ (- e)) by nia.
    assert (128 * n <= 100 * 2 ^ (K + 7) + 64) by nia.
    lia.
Qed.

Lemma div_eucl_div a b : fst (Z.div_eucl a b) = a / b.
Proof. unfold Z.div. now destruct (Z.div_eucl a b). Qed.

Lemma hundredth_value_bound n K :
  0 < n -> 64 * n < 100 * 2 ^ (K + 6) -> -6 <= K -> K <= 971 ->
  le_pow2 (dec false n (-2)) K.
Proof.
  intros Hn Hb HK1 HK2. unfold dec. cbv beta iota.
  change (0 <=? -2) with false. cbv iota.
  change (10 ^ (- -2)) with 100.
  unfold nearest, SFdiv_core_binary.
  change (Zdigits2 100) with 7. rewrite !Z.add_0_r. change (0 - 0) with 0.
  rewrite fexp_cases.
  assert (Hd1 : 1 <= Zdigits2 n <= K + 7).
  { split.
    - destruct n as [|p|p]; try lia. cbn [Zdigits2]. lia.
    - apply Zdigits2_upper; [lia|lia|].
      assert (H26 : 2 ^ (K + 7) = 2 * 2 ^ (K + 6)).
      { replace (K + 7) with (Z.succ (K + 6)) by lia. rewrite Z.pow_succ_r by lia. lia. }
      pose proof (pow2_pos (K + 6) ltac:(lia)). lia. }
  set (d1 := Zdigits2 n) in *.
  set (e' := Z.min (Z.max (d1 - 7 - 53) (-1074)) 0).
  assert (He' : e' <= 0 /\ e' <= d1 - 60) by (unfold e'; lia).
  set (m' := match 0 - e' with Z.pos _ => Z.shiftl n (0 - e') | 0 => n | Z.neg _ => 0 end).
  assert (Hm' : m' = n * 2 ^ (- e')).
  { unfold m'. destruct (0 - e') as [|p|p] eqn:Hs; try lia.
    - replace (- e') with 0 by lia. lia.
    - rewrite Z.shiftl_mul_pow2 by lia. f_equal. f_equal. lia. }
  pose proof (div_eucl_div m' 100) as Hq.
  destruct (Z.div_eucl m' 100) as [q r]. cbn [fst] in Hq.
  pose proof (pow2_pos (- e') ltac:(lia)) as Hps.
  assert (Hq0 : 0 <= q) by (rewrite Hq; apply Z.div_pos; nia).
  apply round_up_bound; try lia.
  assert (Hlt : q < 2 ^ (K - e')); [|lia].
  rewrite Hq. apply Z.div_lt_upper_bound; [lia|].
  assert (Hpow : 2 ^ (K + 6) * 2 ^ (- e') = 64 * 2 ^ (K - e')).
  { rewrite <- pow2_split by lia. replace (K + 6 + - e') with (6 + (K - e')) by lia.
    rewrite pow2_split by lia. reflexivity. }
  rewrite Hm'. nia.
Qed.

(** The rounded value of a number that is at most [2 ^ K]. *)
Lemma round2_spec_bound v K :
  le_pow2 v K -> K <= 970 ->
  (K <= -8 -> round2_spec v = S754_zero false) /\
  (-7 <= K -> le_pow2 (round2_spec v) (K + 1)).
Proof.
  intros Hv HK. destruct v as [s|s| |[|] m e]; simpl in Hv; try contradiction.
  - split; intros _; [reflexivity|exact I].
  - destruct Hv as [He Hm]. cbn [round2_spec]. split; intros HK'.
    + now rewrite (hundredths_small m e K He Hm HK').
    + pose proof (hundredths_bound m e K He Hm HK') as Hb.
      pose proof (hundredths_nonneg m e) as Hn.
      destruct (Z.eqb_spec (hundredths m e) 0) as [|Hnz]; [exact I|].
      apply hundredth_value_bound; try lia.
      replace (K + 1 + 6) with (K + 7) by lia. exact Hb.
Qed.

Lemma le_pow2_fixed_range v K : le_pow2 v K -> K <= 69 -> fixed_range v = true.
Proof.
  intros Hv HK. destruct v as [s|s| |[|] m e]; simpl in Hv; try contradiction;
    [reflexivity|].
  destruct Hv as [He Hm]. unfold fixed_range, ratio_of.
  assert (H69 : 2 ^ 69 < 10 ^ 21) by (vm_compute; reflexivity).
  destruct (Z.leb_spec 0 e) as [Hpos|Hneg]; cbv beta iota; apply Z.ltb_lt.
  - assert (Zpos m * 2 ^ e <= 2 ^ K).
    { assert (HK2 : 2 ^ K = 2 ^ (K - e) * 2 ^ e)
        by (rewrite <- pow2_split by lia; f_equal; lia).
      rewrite HK2.
      apply Z.mul_le_mono_nonneg_r; [apply Z.lt_le_incl, pow2_pos; lia|exact Hm]. }
    assert (2 ^ K <= 2 ^ 69) by (apply Z.pow_le_mono_r; lia). lia.
  - assert (Hle : 2 ^ (K - e) <= 2 ^ (69 - e)) by (apply Z.pow_le_mono_r; lia).
    assert (Hsp : 2 ^ (69 - e) = 2 ^ 69 * 2 ^ (- e))
      by (rewrite <- pow2_split by lia; f_equal; lia).
    pose proof (pow2_pos (- e) ltac:(lia)). nia.
Qed.

Lemma fixed_range_digits m e :
  fixed_range (S754_finite false m e) = true -> Zpos (digits2_pos m) + e <= 70.
Proof.
  unfold fixed_range, ratio_of. pose proof (digits2_pos_bounds m) as [Hlo _].
  set (d := Zpos (digits2_pos m)) in *.
  assert (H70 : 10 ^ 21 < 2 ^ 70) by (vm_compute; reflexivity).
  destruct (Z.leb_spec 0 e) as [Hpos|Hneg]; cbv beta iota; intros H; apply Z.ltb_lt in H.
  - assert (Hlt : 2 ^ (d - 1 + e) < 2 ^ 70).
    { rewrite pow2_split by lia. pose proof (pow2_pos e Hpos). nia. }
    apply Z.pow_lt_mono_r_iff in Hlt; lia.
  - assert (Hlt : 2 ^ (d - 1) < 2 ^ (70 - e)).
    { replace (70 - e) with (70 + - e) by lia. rewrite pow2_split by lia.
      pose proof (pow2_pos (- e) ltac:(lia)). nia. }
    apply Z.pow_lt_mono_r_iff in Hlt; lia.
Qed.

(** For a non-negative subtotal below [10 ^ 21] and a delivery charge that
    is a non-negative number, the total is not negative. *)
Lemma total_nonneg subtotal delivery :
  nonneg subtotal = true -> fixed_range subtotal = true ->
  nonneg delivery = true -> is_finite delivery = true ->
  fixed_range (num_mul subtotal (dec false 1 (-1))) = true /\
  nonneg (round2 (num_sub (num_add subtotal delivery)
                          (round2 (num_mul subtotal (dec false 1 (-1)))))) = true.
Proof.
  intros Hs Hr Hd Hf.
  destruct subtotal as [s|s| |[|] ms es]; try discriminate.
  - split; [destruct s; reflexivity|].
    apply round2_nonneg.
    replace (round2 (num_mul (S754_zero s) (dec false 1 (-1)))) with (S754_zero false)
      by (destruct s; vm_compute; reflexivity).
    apply num_sub_zero_nonneg. apply num_add_nonneg; [reflexivity|exact Hd].
  - pose proof (fixed_range_digits _ _ Hr) as HB.
    set (B := Zpos (digits2_pos ms) + es) in *.
    pose proof (num_mul_tenth_bound ms es ltac:(fold B; lia)) as Hv. fold B in Hv.
    set (v := num_mul (S754_finite false ms es) (dec false 1 (-1))) in *.
    assert (Hvr : fixed_range v = true)
      by (apply (le_pow2_fixed_range v _ Hv); lia).
    split; [exact Hvr|].
    apply round2_nonneg. rewrite (round2_correct v Hvr).
    destruct (round2_spec_bound v _ Hv ltac:(lia)) as [Hsmall Hbig].
    destruct (Z.le_gt_cases B (-5)) as [Hlow|Hhigh].
    + rewrite Hsmall by lia. apply num_sub_zero_nonneg.
      apply num_add_nonneg; [reflexivity|exact Hd].
    + apply (num_sub_nonneg _ _ (B - 1)).
      * apply (le_pow2_mono _ (Z.max (B - 3) (-1074) + 1)); [apply Hbig; lia|lia].
      * apply num_add_low; [exact Hd|exact Hf|fold B; lia].
Qed.

(** ** Rounding to nearest, in terms of fractions *)

Lemma rec_of_div a b :
  0 <= a -> 0 < b ->
  shr_record_of_loc (fst (Z.div_eucl a b)) (new_location b (snd (Z.div_eucl a b)))
  = rec_of a b.
Proof.
  intros Ha Hb.
  assert (Hq : fst (Z.div_eucl a b) = a / b) by reflexivity.
  assert (Hr : snd (Z.div_eucl a b) = a mod b) by reflexivity.
  rewrite Hq, Hr. pose proof (Z.mod_pos_bound a b Hb) as Hm.
  unfold rec_of, new_location.
  destruct (Z.even b) eqn:Heven; unfold new_location_even, new_location_odd;
    destruct (Z.eqb_spec (a mod b) 0) as [H0|H0].
  - rewrite H0. cbn [negb andb shr_record_of_loc]. f_equal.
    symmetry; apply Z.leb_gt; lia.
  - cbn [negb andb].
    destruct (Z.compare_spec (2 * (a mod b)) b) as [He|Hl|Hg];
      cbn [shr_record_of_loc]; f_equal;
      try (symmetry; apply Z.leb_le; lia); try (symmetry; apply Z.leb_gt; lia);
      try (symmetry; apply negb_true_iff, Z.eqb_neq; lia);
      try (symmetry; apply negb_false_iff, Z.eqb_eq; lia).
  - rewrite H0. cbn [negb andb shr_record_of_loc]. f_equal.
    symmetry; apply Z.leb_gt; lia.
  - cbn [negb andb].
    assert (Hodd : 2 * (a mod b) <> b).
    { intros He. rewrite <- He in Heven. rewrite Z.even_mul in Heven. discriminate. }
    destruct (Z.compare_spec (2 * (a mod b) + 1) b) as [He|Hl|Hg];
      cbn [shr_record_of_loc]; f_equal;
      try (symmetry; apply Z.leb_le; lia); try (symmetry; apply Z.leb_gt; lia);
      try (symmetry; apply negb_true_iff, Z.eqb_neq; lia).
Qed.

Lemma div_mod_double a b :
  0 <= a -> 0 < b ->
  a / (2 * b) = a / b / 2 /\ a mod (2 * b) = a mod b + (a / b) mod 2 * b.
Proof.
  intros Ha Hb.
  pose proof (Z.div_mod a b ltac:(lia)) as H1.
  pose proof (Z.mod_pos_bound a b Hb) as H2.
  pose proof (Z.div_mod (a / b) 2 ltac:(lia)) as H3.
  pose proof (Z.mod_pos_bound (a / b) 2 ltac:(lia)) as H4.
  assert (Hq : a / (2 * b) = a / b / 2).
  { rewrite Z.mul_comm. now rewrite Z.div_div by lia. }
  split; [exact Hq|].
  pose proof (Z.div_mod a (2 * b) ltac:(lia)) as H5.
  rewrite Hq in H5. nia.
Qed.

Lemma shr_1_rec_of a b :
  0 <= a -> 0 < b -> shr_1 (rec_of a b) = rec_of a (2 * b).
Proof.
  intros Ha Hb. destruct (div_mod_double a b Ha Hb) as [Hq Hr].
  pose proof (Z.mod_pos_bound a b Hb) as Hm.
  assert (Hc : 0 <= a / b) by (apply Z.div_pos; lia).
  unfold rec_of. rewrite Hq, Hr. cbn [shr_1].
  assert (Hs : (b <=? 2 * (a mod b)) || (negb (a mod b =? 0) && negb (2 * (a mod b) =? b))
               = negb (a mod b =? 0)).
  { destruct (Z.eqb_spec (a mod b) 0) as [H0|H0]; cbn [negb andb].
    - rewrite orb_false_r. apply Z.leb_gt. lia.
    - destruct (Z.leb_spec b (2 * (a mod b))); [reflexivity|].
      cbn [orb]. apply negb_true_iff, Z.eqb_neq. lia. }
  rewrite Hs.
  destruct (a / b) as [|[c|c|]|c] eqn:Hab; try lia.
  - (* 0 *)
    change (0 mod 2) with 0. change (0 / 2) with 0. rewrite Z.mul_0_l, Z.add_0_r.
    f_equal.
    + symmetry. apply Z.leb_gt. lia.
    + destruct (Z.eqb_spec (a mod b) 0); cbn [negb andb]; [reflexivity|].
      symmetry. apply negb_true_iff, Z.eqb_neq. lia.
  - (* 2c+1 *)
    assert (H2 : Z.pos c~1 / 2 = Z.pos c) by (symmetry; apply (Z.div_unique _ _ _ 1); lia).
    assert (H3 : Z.pos c~1 mod 2 = 1) by (symmetry; apply (Z.mod_unique _ _ (Z.pos c) 1); lia).
    rewrite H2, H3. f_equal.
    + symmetry. apply Z.leb_le. lia.
    + destruct (Z.eqb_spec (a mod b) 0) as [H0|H0]; cbn [negb andb].
      * rewrite H0. symmetry. apply andb_false_iff. right.
        apply negb_false_iff, Z.eqb_eq. lia.
      * symmetry. apply andb_true_iff. split; apply negb_true_iff, Z.eqb_neq; lia.
  - (* 2c *)
    assert (H2 : Z.pos c~0 / 2 = Z.pos c) by (symmetry; apply (Z.div_unique _ _ _ 0); lia).
    assert (H3 : Z.pos c~0 mod 2 = 0) by (symmetry; apply (Z.mod_unique _ _ (Z.pos c) 0); lia).
    rewrite H2, H3, Z.mul_0_l, Z.add_0_r. f_equal.
    + symmetry. apply Z.leb_gt. lia.
    + destruct (Z.eqb_spec (a mod b) 0); cbn [negb andb]; [reflexivity|].
      symmetry. apply negb_true_iff, Z.eqb_neq. lia.
  - (* 1 *)
    change (1 / 2) with 0. change (1 mod 2) with 1. f_equal.
    + symmetry. apply Z.leb_le. lia.
    + destruct (Z.eqb_spec (a mod b) 0) as [H0|H0]; cbn [negb andb].
      * rewrite H0. symmetry. apply andb_false_iff. right.
        apply negb_false_iff, Z.eqb_eq. lia.
      * symmetry. apply andb_true_iff. split; apply negb_true_iff, Z.eqb_neq; lia.
Qed.

Lemma iter_shr_rec_of n a b :
  0 <= a -> 0 < b -> iter_pos shr_1 n (rec_of a b) = rec_of a (b * 2 ^ Zpos n).
Proof.
  intros Ha. revert b. induction n as [n IH|n IH|]; intros b Hb; cbn [iter_pos].
  - assert (Hp : 0 < 2 ^ Zpos n) by (apply Z.pow_pos_nonneg; lia).
    rewrite shr_1_rec_of, IH, IH by nia. f_equal.
    change (Z.pos n~1) with (Z.succ (2 * Z.pos n)).
    rewrite Z.pow_succ_r, Z.pow_twice_r by lia. ring.
  - assert (Hp : 0 < 2 ^ Zpos n) by (apply Z.pow_pos_nonneg; lia).
    rewrite IH, IH by nia. f_equal.
    change (Z.pos n~0) with (2 * Z.pos n). rewrite Z.pow_twice_r. ring.
  - rewrite shr_1_rec_of by assumption. f_equal. change (2 ^ 1) with 2. ring.
Qed.

Lemma rne_rec_of a b :
  0 < b ->
  round_nearest_even (shr_m (rec_of a b)) (loc_of_shr_record (rec_of a b)) = rne a b.
Proof.
  intros Hb. pose proof (Z.mod_pos_bound a b Hb) as Hm.
  unfold rec_of, rne. cbn [shr_m loc_of_shr_record].
  destruct (Z.compare_spec (2 * (a mod b)) b) as [He|Hl|Hg].
  - replace (b <=? 2 * (a mod b)) with true by (symmetry; apply Z.leb_le; lia).
    replace (2 * (a mod b) =? b) with true by (symmetry; apply Z.eqb_eq; lia).
    rewrite andb_false_r. reflexivity.
  - replace (b <=? 2 * (a mod b)) with false by (symmetry; apply Z.leb_gt; lia).
    destruct (negb (a mod b =? 0) && negb (2 * (a mod b) =? b)); reflexivity.
  - replace (b <=? 2 * (a mod b)) with true by (symmetry; apply Z.leb_le; lia).
    replace (a mod b =? 0) with false by (symmetry; apply Z.eqb_neq; lia).
    replace (2 * (a mod b) =? b) with false by (symmetry; apply Z.eqb_neq; lia).
    reflexivity.
Qed.

Lemma rec_of_scale k a b : 0 < k -> 0 < b -> rec_of (k * a) (k * b) = rec_of a b.
Proof.
  intros Hk Hb. unfold rec_of.
  rewrite Z.div_mul_cancel_l, Z.mul_mod_distr_l by lia.
  f_equal.
  - destruct (Z.leb_spec b (2 * (a mod b))); [apply Z.leb_le|apply Z.leb_gt]; nia.
  - f_equal; f_equal.
    + destruct (Z.eqb_spec (a mod b) 0); [apply Z.eqb_eq|apply Z.eqb_neq]; nia.
    + destruct (Z.eqb_spec (2 * (a mod b)) b); [apply Z.eqb_eq|apply Z.eqb_neq]; nia.
Qed.

Lemma rne_scale k a b : 0 < k -> 0 < b -> rne (k * a) (k * b) = rne a b.
Proof.
  intros Hk Hb. rewrite <- !rne_rec_of by nia. now rewrite rec_of_scale.
Qed.

(** Powers of two and the number of binary digits. *)

Lemma pow2_lt_inv x y : 0 <= y -> 2 ^ x < 2 ^ y -> x < y.
Proof. intros Hy H. apply (Z.pow_lt_mono_r_iff 2); [lia|exact Hy|exact H]. Qed.

Lemma pow2_le_mono x y : 0 <= x -> x <= y -> 2 ^ x <= 2 ^ y.
Proof. intros Hx Hxy. apply Z.pow_le_mono_r; lia. Qed.

Lemma pow2_lt_mono x y : 0 <= x -> x < y -> 2 ^ x < 2 ^ y.
Proof. intros Hx Hxy. apply Z.pow_lt_mono_r; lia. Qed.

Lemma Zdigits2_bounds m :
  0 < m -> 0 < Zdigits2 m /\ 2 ^ (Zdigits2 m - 1) <= m < 2 ^ Zdigits2 m.
Proof.
  destruct m as [|m|m]; try lia. intros _. cbn [Zdigits2].
  split; [lia|apply digits2_pos_bounds].
Qed.

Lemma Zdigits2_unique m d :
  0 < d -> 2 ^ (d - 1) <= m < 2 ^ d -> Zdigits2 m = d.
Proof.
  intros Hd [Hl Hu].
  assert (Hm : 0 < m) by (pose proof (pow2_pos (d - 1)); lia).
  destruct (Zdigits2_bounds m Hm) as (H0 & Hl' & Hu').
  assert (Zdigits2 m - 1 < d) by (apply pow2_lt_inv; lia).
  assert (d - 1 < Zdigits2 m) by (apply pow2_lt_inv; lia).
  lia.
Qed.

(** Fractions against powers of two, all exponents shifted by an offset
    [B] that makes them natural numbers. *)

Lemma scaled_cross p q E B :
  0 <= B -> 0 <= E + B ->
  fst (scaled p q E) * (q * 2 ^ (E + B)) = snd (scaled p q E) * (p * 2 ^ B).
Proof.
  intros HB HE. unfold scaled. destruct (Z.leb_spec 0 E); cbn [fst snd].
  - rewrite pow2_split by lia. ring.
  - replace B with (- E + (E + B)) at 2 by ring. rewrite (pow2_split (- E) (E + B)) by lia. ring.
Qed.

Lemma scaled_pos p q E :
  0 < p -> 0 < q -> 0 < fst (scaled p q E) /\ 0 < snd (scaled p q E).
Proof.
  intros Hp Hq. unfold scaled. destruct (Z.leb_spec 0 E); cbn [fst snd].
  - pose proof (pow2_pos E). split; [lia|]. apply Z.mul_pos_pos; lia.
  - pose proof (pow2_pos (- E)). split; [|lia]. apply Z.mul_pos_pos; lia.
Qed.

Lemma binade_at p q mu B :
  0 < p -> 0 < q -> 0 <= B -> 0 <= mu - 1 + B ->
  binade p q mu <->
  2 ^ (mu - 1 + B) * q <= p * 2 ^ B /\ p * 2 ^ B < 2 ^ (mu + B) * q.
Proof.
  intros Hp Hq HB Hmu. unfold binade.
  pose proof (scaled_cross p q mu B HB ltac:(lia)) as H1.
  pose proof (scaled_cross p q (mu - 1) B HB ltac:(lia)) as H2.
  destruct (scaled_pos p q mu Hp Hq) as [Ha1 Hb1].
  destruct (scaled_pos p q (mu - 1) Hp Hq) as [Ha2 Hb2].
  pose proof (pow2_pos (mu + B) ltac:(lia)) as Hp1.
  pose proof (pow2_pos (mu - 1 + B) ltac:(lia)) as Hp2.
  pose proof (pow2_pos B HB) as Hp3.
  set (a1 := fst (scaled p q mu)) in *. set (b1 := snd (scaled p q mu)) in *.
  set (a2 := fst (scaled p q (mu - 1))) in *. set (b2 := snd (scaled p q (mu - 1))) in *.
  set (T1 := 2 ^ (mu + B)) in *. set (T2 := 2 ^ (mu - 1 + B)) in *.
  set (TB := 2 ^ B) in *.
  split.
  - intros [Hlt Hle]. split.
    + apply (Z.mul_le_mono_pos_l _ _ a2); [lia|].
      replace (a2 * (T2 * q)) with (b2 * (p * TB)) by (rewrite <- H2; ring).
      replace (a2 * (p * TB)) with ((p * TB) * a2) by ring.
      rewrite (Z.mul_comm b2). apply Z.mul_le_mono_nonneg_l; [nia|lia].
    + apply (Z.mul_lt_mono_pos_l b1); [lia|].
      replace (b1 * (T1 * q)) with ((q * T1) * b1) by ring.
      rewrite <- H1. rewrite (Z.mul_comm a1). apply Z.mul_lt_mono_pos_l; [nia|lia].
  - intros [Hle Hlt]. split.
    + apply (Z.mul_lt_mono_pos_l (q * T1)); [nia|].
      rewrite (Z.mul_comm _ a1), H1.
      replace (q * T1 * b1) with (b1 * (T1 * q)) by ring.
      apply Z.mul_lt_mono_pos_l; lia.
    + apply (Z.mul_le_mono_pos_l _ _ (q * T2)); [nia|].
      rewrite (Z.mul_comm _ a2), H2.
      replace (q * T2 * b2) with (b2 * (T2 * q)) by ring.
      apply Z.mul_le_mono_nonneg_l; lia.
Qed.

Lemma digits_ratio p q mu B :
  0 < p -> 0 < q -> 0 <= B -> 0 <= mu - 1 + B ->
  2 ^ (mu - 1 + B) * q <= p * 2 ^ B < 2 ^ (mu + B) * q ->
  Zdigits2 p - Zdigits2 q <= mu <= Zdigits2 p - Zdigits2 q + 1.
Proof.
  intros Hp Hq HB Hmu [Hl Hu].
  destruct (Zdigits2_bounds p Hp) as (Hd1 & Hl1 & Hu1).
  destruct (Zdigits2_bounds q Hq) as (Hd2 & Hl2 & Hu2).
  set (d1 := Zdigits2 p) in *. set (d2 := Zdigits2 q) in *.
  pose proof (pow2_pos B HB) as HpB.
  pose proof (pow2_pos (mu - 1 + B) Hmu) as Hp1.
  pose proof (pow2_pos (mu + B) ltac:(lia)) as Hp2.
  split.
  - assert (H : 2 ^ (d1 - 1 + B) < 2 ^ (mu + B + d2)).
    { rewrite (pow2_split (d1 - 1) B), (pow2_split (mu + B) d2) by lia.
      apply Z.le_lt_trans with (p * 2 ^ B); [apply Z.mul_le_mono_nonneg_r; lia|].
      apply Z.lt_trans with (2 ^ (mu + B) * q); [exact Hu|].
      apply Z.mul_lt_mono_pos_l; lia. }
    apply pow2_lt_inv in H; lia.
  - assert (H : 2 ^ (mu - 1 + B + (d2 - 1)) < 2 ^ (d1 + B)).
    { rewrite (pow2_split (mu - 1 + B) (d2 - 1)), (pow2_split d1 B) by lia.
      apply Z.le_lt_trans with (2 ^ (mu - 1 + B) * q);
        [apply Z.mul_le_mono_nonneg_l; lia|].
      apply Z.le_lt_trans with (p * 2 ^ B); [exact Hl|].
      apply Z.mul_lt_mono_pos_r; lia. }
    apply pow2_lt_inv in H; lia.
Qed.

Lemma SFdiv_core_binary_eq p q :
  0 <= p ->
  let e' := Z.min (fexp prec emax (Zdigits2 p - Zdigits2 q)) 0 in
  SFdiv_core_binary prec emax p 0 q 0
  = (p * 2 ^ (- e') / q, e', new_location q ((p * 2 ^ (- e')) mod q)).
Proof.
  intros Hp e'. unfold SFdiv_core_binary. rewrite !Z.add_0_r.
  change (0 - 0) with 0. fold e'.
  assert (He : e' <= 0) by (unfold e'; lia).
  assert (Hm : match 0 - e' with
               | Zpos _ => Z.shiftl p (0 - e')
               | Z0 => p
               | Zneg _ => 0
               end = p * 2 ^ (- e')).
  { replace (0 - e') with (- e') by ring.
    destruct (- e') as [|s|s] eqn:Hs; try lia.
    apply Z.shiftl_mul_pow2. lia. }
  rewrite Hm. unfold Z.div, Z.modulo.
  destruct (Z.div_eucl (p * 2 ^ (- e')) q). reflexivity.
Qed.

Lemma binary_round_aux_eq neg mx ex lx r1 e1 r2 e2 :
  shr_fexp prec emax mx ex lx = (r1, e1) ->
  shr_fexp prec emax (round_nearest_even (shr_m r1) (loc_of_shr_record r1)) e1 loc_Exact
  = (r2, e2) ->
  binary_round_aux prec emax neg mx ex lx
  = match shr_m r2 with
    | Z0 => S754_zero neg
    | Zpos m => if e2 <=? emax - prec then S754_finite neg m e2 else S754_infinity neg
    | Zneg _ => S754_nan
    end.
Proof. intros H1 H2. unfold binary_round_aux. rewrite H1, H2. reflexivity. Qed.

Lemma shr_fexp_rec_of a b e :
  0 <= a -> 0 < b ->
  0 <= fexp prec emax (Zdigits2 (a / b) + e) - e ->
  shr_fexp prec emax (a / b) e (new_location b (a mod b))
  = (rec_of a (b * 2 ^ (fexp prec emax (Zdigits2 (a / b) + e) - e)),
     fexp prec emax (Zdigits2 (a / b) + e)).
Proof.
  intros Ha Hb Hn. unfold shr_fexp.
  pose proof (rec_of_div a b Ha Hb) as Hr.
  change (fst (Z.div_eucl a b)) with (a / b) in Hr.
  change (snd (Z.div_eucl a b)) with (a mod b) in Hr.
  rewrite Hr. unfold shr.
  destruct (fexp prec emax (Zdigits2 (a / b) + e) - e) as [|n|n] eqn:Hs; try lia.
  - rewrite Z.mul_1_r. f_equal. lia.
  - rewrite iter_shr_rec_of by assumption. f_equal. lia.
Qed.

Lemma shr_fexp_exact c E :
  0 <= c -> c <= 2 ^ 53 -> -1074 <= E ->
  exists r2 e2,
    shr_fexp prec emax c E loc_Exact = (r2, e2) /\
    ((c < 2 ^ 53 /\ shr_m r2 = c /\ e2 = E) \/
     (c = 2 ^ 53 /\ shr_m r2 = 2 ^ 52 /\ e2 = E + 1)).
Proof.
  intros Hc Hu HE. unfold shr_fexp, shr. rewrite fexp_cases.
  destruct (Z.eq_dec c (2 ^ 53)) as [H53|H53].
  - subst c. change (Zdigits2 (2 ^ 53)) with 54.
    replace (Z.max (54 + E - 53) (-1074) - E) with 1 by lia.
    eexists _, _. split; [reflexivity|]. right. cbn [iter_pos].
    split; [reflexivity|]. split; [reflexivity|lia].
  - assert (Hd : Zdigits2 c <= 53) by (apply Zdigits2_upper; lia).
    pose proof (Zdigits2_nonneg c).
    destruct (Z.max (Zdigits2 c + E - 53) (-1074) - E) as [|n|n] eqn:Hs; try lia;
      (eexists _, _; split; [reflexivity|]; left; cbn [shr_record_of_loc shr_m]; lia).
Qed.

Lemma rne_bounds a b : 0 < b -> a / b <= rne a b <= a / b + 1.
Proof.
  intros Hb. unfold rne.
  destruct (2 * (a mod b) ?= b); [destruct (Z.even (a / b))| |]; lia.
Qed.

Lemma finish_round neg c E r2 e2 :
  0 <= c ->
  (c < 2 ^ 53 /\ shr_m r2 = c /\ e2 = E) \/
  (c = 2 ^ 53 /\ shr_m r2 = 2 ^ 52 /\ e2 = E + 1) ->
  match shr_m r2 with
  | Z0 => S754_zero neg
  | Zpos m => if e2 <=? emax - prec then S754_finite neg m e2 else S754_infinity neg
  | Zneg _ => S754_nan
  end = finish neg c E.
Proof.
  intros Hc [(Hlt & -> & ->)|(-> & -> & ->)]; unfold finish.
  - destruct c as [|c|c]; try lia; [reflexivity|].
    replace (Z.pos c =? 0) with false by reflexivity.
    replace (Z.pos c =? 2 ^ 53) with false by (symmetry; apply Z.eqb_neq; lia).
    reflexivity.
  - reflexivity.
Qed.

(** [nearest] is rounding to nearest, ties to even, at the exponent of the
    binade of [p / q]. *)
Lemma nearest_spec neg p q mu :
  0 < p -> 0 < q -> binade p q mu ->
  nearest neg p q
  = finish neg (rne (fst (scaled p q (fexp prec emax mu)))
                    (snd (scaled p q (fexp prec emax mu))))
           (fexp prec emax mu).
Proof.
  intros Hp Hq Hb.
  unfold nearest. rewrite SFdiv_core_binary_eq by lia.
  set (D := Zdigits2 p - Zdigits2 q).
  set (e' := Z.min (fexp prec emax D) 0).
  set (E := fexp prec emax mu).
  assert (HE : E = Z.max (mu - 53) (-1074)) by apply fexp_cases.
  assert (He' : e' = Z.min (Z.max (D - 53) (-1074)) 0)
    by (unfold e'; now rewrite fexp_cases).
  set (B := - e' + 1074 + Z.abs mu + 1).
  assert (HB : 0 <= B) by lia.
  destruct (proj1 (binade_at p q mu B Hp Hq HB ltac:(lia)) Hb) as [HL HU].
  pose proof (digits_ratio p q mu B Hp Hq HB ltac:(lia) (conj HL HU)) as HD.
  fold D in HD.
  set (s := - e') in *.
  assert (Hs : 0 <= s) by lia.
  set (m' := p * 2 ^ s).
  assert (Hm' : 0 < m') by (apply Z.mul_pos_pos; [lia|apply pow2_pos; lia]).
  pose proof (pow2_pos (B - s) ltac:(lia)) as HpBs.
  assert (HpB : p * 2 ^ B = m' * 2 ^ (B - s)).
  { unfold m'. rewrite <- Z.mul_assoc, <- pow2_split by lia. do 2 f_equal. lia. }
  (* the exponent after the division *)
  assert (HA : fexp prec emax (Zdigits2 (m' / q) + e') = E).
  { destruct (Z.le_gt_cases q m') as [Hge|Hlt].
    - assert (Hmus : 1 <= mu + s).
      { assert (H : 2 ^ (B - s) < 2 ^ (mu + B)).
        { apply (Z.mul_lt_mono_pos_l q); [lia|].
          apply Z.le_lt_trans with (m' * 2 ^ (B - s));
            [apply Z.mul_le_mono_nonneg_r; lia|].
          rewrite <- HpB. lia. }
        apply pow2_lt_inv in H; lia. }
      assert (Hdig : Zdigits2 (m' / q) = mu + s).
      { apply Zdigits2_unique; [lia|]. split.
        - apply Z.div_le_lower_bound; [lia|].
          apply (Z.mul_le_mono_pos_r _ _ (2 ^ (B - s))); [lia|].
          rewrite <- HpB.
          replace (q * 2 ^ (mu + s - 1) * 2 ^ (B - s)) with (2 ^ (mu - 1 + B) * q); [exact HL|].
          replace (mu - 1 + B) with (mu + s - 1 + (B - s)) by ring.
          rewrite pow2_split by lia. ring.
        - apply Z.div_lt_upper_bound; [lia|].
          apply (Z.mul_lt_mono_pos_r (2 ^ (B - s))); [lia|].
          rewrite <- HpB.
          replace (q * 2 ^ (mu + s) * 2 ^ (B - s)) with (2 ^ (mu + B) * q); [exact HU|].
          replace (mu + B) with (mu + s + (B - s)) by ring.
          rewrite pow2_split by lia. ring. }
      rewrite Hdig. replace (mu + s + e') with mu by lia. reflexivity.
    - rewrite Z.div_small by lia. cbn [Zdigits2 Z.add].
      assert (Hmu : mu <= e').
      { assert (H : 2 ^ (mu - 1 + B) < 2 ^ (B - s)).
        { apply (Z.mul_lt_mono_pos_r q); [lia|].
          apply Z.le_lt_trans with (p * 2 ^ B); [exact HL|].
          rewrite HpB, (Z.mul_comm (2 ^ (B - s))).
          apply Z.mul_lt_mono_pos_r; lia. }
        apply pow2_lt_inv in H; lia. }
      rewrite fexp_cases. lia. }
  assert (Hn : 0 <= E - e') by lia.
  pose proof (shr_fexp_rec_of m' q e' ltac:(lia) Hq) as H1.
  rewrite HA in H1. specialize (H1 Hn).
  (* the record is that of the fraction at exponent E *)
  assert (Hrec : rec_of m' (q * 2 ^ (E - e'))
                 = rec_of (fst (scaled p q E)) (snd (scaled p q E))).
  { unfold scaled. destruct (Z.leb_spec 0 E) as [HE0|HE0]; cbn [fst snd].
    - replace (q * 2 ^ (E - e')) with (2 ^ s * (q * 2 ^ E)).
      + unfold m'. rewrite (Z.mul_comm p). apply rec_of_scale.
        * apply pow2_pos; lia.
        * apply Z.mul_pos_pos; [lia|apply pow2_pos; lia].
      + replace (E - e') with (s + E) by lia. rewrite pow2_split by lia. ring.
    - replace m' with (2 ^ (E - e') * (p * 2 ^ (- E))).
      + rewrite (Z.mul_comm q). apply rec_of_scale; [apply pow2_pos; lia|lia].
      + unfold m'. replace s with (E - e' + - E) by lia.
        rewrite pow2_split by lia. ring. }
  rewrite Hrec in H1.
  destruct (scaled_pos p q E Hp Hq) as [Ha Hbb].
  pose proof (scaled_cross p q E B HB ltac:(lia)) as Hcross.
  set (a := fst (scaled p q E)) in *. set (b := snd (scaled p q E)) in *.
  assert (Hc : 0 <= rne a b <= 2 ^ 53).
  { pose proof (rne_bounds a b Hbb) as [Hlo Hhi].
    assert (0 <= a / b) by (apply Z.div_pos; lia).
    assert (a / b < 2 ^ 53); [|lia].
    apply Z.div_lt_upper_bound; [lia|].
    pose proof (pow2_pos (E + B) ltac:(lia)) as HT.
    apply (Z.mul_lt_mono_pos_r (q * 2 ^ (E + B))); [nia|].
    rewrite Hcross.
    apply Z.lt_le_trans with (b * (2 ^ (mu + B) * q)).
    - apply Z.mul_lt_mono_pos_l; lia.
    - replace (b * 2 ^ 53 * (q * 2 ^ (E + B))) with (b * (2 ^ (53 + (E + B)) * q))
        by (rewrite (pow2_split 53) by lia; ring).
      apply Z.mul_le_mono_nonneg_l; [lia|].
      apply Z.mul_le_mono_nonneg_r; [lia|]. apply pow2_le_mono; lia. }
  destruct (shr_fexp_exact (rne a b) E ltac:(lia) ltac:(lia) ltac:(lia))
    as (r2 & e2 & H2 & Hcases).
  rewrite <- (rne_rec_of a b Hbb) in H2.
  rewrite (binary_round_aux_eq neg _ _ _ _ _ _ _ H1 H2).
  apply finish_round; [lia|exact Hcases].
Qed.

(** ** What [nearest] depends on, and what reads back as a given double *)

Lemma rne_frac a b a' b' :
  0 < b -> 0 < b' -> a * b' = a' * b -> rne a b = rne a' b'.
Proof.
  intros Hb Hb' H.
  rewrite <- (rne_scale b' a b), <- (rne_scale b a' b') by lia.
  f_equal; lia.
Qed.

Lemma rne_near a b c :
  0 < b -> (2 * c - 1) * b < 2 * a -> 2 * a < (2 * c + 1) * b -> rne a b = c.
Proof.
  intros Hb Hl Hu.
  pose proof (Z.div_mod a b ltac:(lia)) as Hdm.
  pose proof (Z.mod_pos_bound a b Hb) as Hm.
  set (k := a / b) in *. set (r := a mod b) in *.
  assert (Hk : k = c \/ k = c - 1) by nia.
  unfold rne. fold k r.
  destruct Hk as [->| ->].
  - replace (2 * r ?= b) with Lt; [reflexivity|]. symmetry. apply Z.compare_lt_iff. nia.
  - replace (2 * r ?= b) with Gt; [lia|]. symmetry. apply Z.compare_gt_iff. nia.
Qed.

Lemma nearest_zero neg q : 0 < q -> nearest neg 0 q = S754_zero neg.
Proof.
  intros Hq. unfold nearest. rewrite SFdiv_core_binary_eq by lia.
  set (e' := Z.min _ 0).
  assert (He : -1074 <= e' <= 0).
  { unfold e'. rewrite fexp_cases. lia. }
  rewrite Z.mul_0_l. rewrite Z.div_0_l, Z.mod_0_l by lia.
  assert (Hl : new_location q 0 = loc_Exact).
  { unfold new_location. destruct (Z.even q); reflexivity. }
  rewrite Hl.
  destruct (shr_fexp_exact 0 e' ltac:(lia) ltac:(lia) ltac:(lia))
    as (r2 & e2 & H2 & [(_ & Hm & _)|(Hc & _)]); [|discriminate Hc].
  assert (H1 : shr_fexp prec emax 0 e' loc_Exact = (r2, e2)) by exact H2.
  assert (Hr : round_nearest_even (shr_m r2) (loc_of_shr_record r2) = 0).
  { unfold shr_fexp, shr in H2. rewrite fexp_cases in H2.
    cbn [Zdigits2 Z.add] in H2.
    destruct (Z.max (e' - 53) (-1074) - e') as [|n|n] eqn:Hs; try lia;
      injection H2 as <- <-; reflexivity. }
  assert (H3 : shr_fexp prec emax
                 (round_nearest_even (shr_m r2) (loc_of_shr_record r2)) e2 loc_Exact
               = shr_fexp prec emax 0 e2 loc_Exact) by now rewrite Hr.
  assert (He2 : e2 = e').
  { unfold shr_fexp, shr in H2. rewrite fexp_cases in H2.
    cbn [Zdigits2 Z.add] in H2.
    destruct (Z.max (e' - 53) (-1074) - e') as [|n|n] eqn:Hs; try lia;
      now injection H2 as <- <-. }
  subst e2. rewrite H1 in H3.
  rewrite (binary_round_aux_eq neg _ _ _ _ _ _ _ H1 H3), Hm. reflexivity.
Qed.

Lemma binade_frac p q p' q' mu :
  0 < p -> 0 < q -> 0 < p' -> 0 < q' -> p * q' = p' * q ->
  binade p q mu -> binade p' q' mu.
Proof.
  intros Hp Hq Hp' Hq' H Hb.
  set (B := Z.abs mu + 1).
  apply (binade_at p q mu B Hp Hq ltac:(lia) ltac:(lia)) in Hb.
  apply (binade_at p' q' mu B Hp' Hq' ltac:(lia) ltac:(lia)).
  destruct Hb as [Hl Hu].
  pose proof (pow2_pos B ltac:(lia)) as HB.
  pose proof (pow2_pos (mu - 1 + B) ltac:(lia)) as H1.
  pose proof (pow2_pos (mu + B) ltac:(lia)) as H2.
  set (TB := 2 ^ B) in *. set (T1 := 2 ^ (mu - 1 + B)) in *.
  set (T2 := 2 ^ (mu + B)) in *.
  split.
  - apply (Z.mul_le_mono_pos_r _ _ q); [lia|].
    replace (p' * TB * q) with (p * TB * q')
      by (replace (p' * TB * q) with (p' * q * TB) by ring; rewrite <- H; ring).
    replace (T1 * q' * q) with (T1 * q * q') by ring.
    apply Z.mul_le_mono_nonneg_r; lia.
  - apply (Z.mul_lt_mono_pos_r q); [lia|].
    replace (p' * TB * q) with (p * TB * q')
      by (replace (p' * TB * q) with (p' * q * TB) by ring; rewrite <- H; ring).
    replace (T2 * q' * q) with (T2 * q * q') by ring.
    apply Z.mul_lt_mono_pos_r; lia.
Qed.

Lemma scaled_frac p q p' q' E :
  p * q' = p' * q ->
  fst (scaled p q E) * snd (scaled p' q' E)
  = fst (scaled p' q' E) * snd (scaled p q E).
Proof.
  intros H. unfold scaled. destruct (0 <=? E); cbn [fst snd].
  - replace (p * (q' * 2 ^ E)) with (p * q' * 2 ^ E) by ring. rewrite H. ring.
  - replace (p * 2 ^ (- E) * q') with (p * q' * 2 ^ (- E)) by ring. rewrite H. ring.
Qed.

Lemma binade_exists p q : 0 < p -> 0 < q -> exists mu, binade p q mu.
Proof.
  intros Hp Hq.
  destruct (Zdigits2_bounds p Hp) as (Hd1 & Hl1 & Hu1).
  destruct (Zdigits2_bounds q Hq) as (Hd2 & Hl2 & Hu2).
  set (d1 := Zdigits2 p) in *. set (d2 := Zdigits2 q) in *.
  set (B := d1 + d2 + 2).
  pose proof (pow2_pos B ltac:(lia)) as HB.
  assert (Hlow : 2 ^ (d1 - d2 - 1 + B) * q <= p * 2 ^ B).
  { apply Z.le_trans with (2 ^ (d1 - d2 - 1 + B) * 2 ^ d2).
    - apply Z.mul_le_mono_nonneg_l; [apply Z.lt_le_incl, pow2_pos|]; lia.
    - rewrite <- pow2_split by lia.
      replace (d1 - d2 - 1 + B + d2) with (d1 - 1 + B) by ring.
      rewrite pow2_split by lia. apply Z.mul_le_mono_nonneg_r; lia. }
  assert (Hup : p * 2 ^ B < 2 ^ (d1 - d2 + 1 + B) * q).
  { apply Z.lt_le_trans with (2 ^ d1 * 2 ^ B).
    - apply Z.mul_lt_mono_pos_r; lia.
    - rewrite <- pow2_split by lia.
      replace (d1 + B) with (d1 - d2 + 1 + B + (d2 - 1)) by ring.
      rewrite (pow2_split (d1 - d2 + 1 + B)) by lia.
      apply Z.mul_le_mono_nonneg_l; [apply Z.lt_le_incl, pow2_pos|]; lia. }
  destruct (Z.lt_ge_cases (p * 2 ^ B) (2 ^ (d1 - d2 + B) * q)) as [H|H].
  - exists (d1 - d2). apply (binade_at p q _ B); [lia|lia|lia|lia|].
    split; [exact Hlow|exact H].
  - exists (d1 - d2 + 1). apply (binade_at p q _ B); [lia|lia|lia|lia|].
    split; [|exact Hup].
    replace (d1 - d2 + 1 - 1 + B) with (d1 - d2 + B) by ring. lia.
Qed.

(** [nearest] depends on the value of the fraction only. *)
Lemma nearest_frac neg p q p' q' :
  0 < p -> 0 < q -> 0 < p' -> 0 < q' -> p * q' = p' * q ->
  nearest neg p q = nearest neg p' q'.
Proof.
  intros Hp Hq Hp' Hq' H.
  destruct (binade_exists p q Hp Hq) as [mu Hb].
  rewrite (nearest_spec neg p q mu Hp Hq Hb).
  rewrite (nearest_spec neg p' q' mu Hp' Hq' (binade_frac _ _ _ _ _ Hp Hq Hp' Hq' H Hb)).
  f_equal. apply rne_frac.
  - apply scaled_pos; assumption.
  - apply scaled_pos; assumption.
  - now apply scaled_frac.
Qed.

Lemma bounded_inv m ex :
  bounded prec emax m ex = true ->
  let d := Zpos (digits2_pos m) in
  ex = Z.max (d + ex - 53) (-1074) /\ ex <= 971 /\
  2 ^ (d - 1) <= Zpos m < 2 ^ d.
Proof.
  intros H d. unfold bounded, canonical_mantissa in H.
  apply andb_true_iff in H as [H1 H2].
  apply Z.eqb_eq in H1. apply Z.leb_le in H2. rewrite fexp_cases in H1.
  split; [symmetry; exact H1|]. split; [exact H2|]. apply digits2_pos_bounds.
Qed.

Lemma finish_finite neg m ex :
  Zpos m < 2 ^ 53 -> ex <= 971 ->
  finish neg (Zpos m) ex = S754_finite neg m ex.
Proof.
  intros Hm He. unfold finish.
  replace (Z.pos m =? 0) with false by reflexivity.
  replace (Z.pos m =? 2 ^ 53) with false by (symmetry; apply Z.eqb_neq; lia).
  replace (ex <=? 971) with true by (symmetry; apply Z.leb_le; lia).
  reflexivity.
Qed.

(** A fraction within half a unit in the last place of a double (a quarter
    from below, where the double is a power of two and the spacing halves)
    rounds to that double. *)
Lemma reads_back neg m ex p q B :
  bounded prec emax m ex = true ->
  0 < p -> 0 < q -> 1075 <= B ->
  2 * (p * 2 ^ B) < (2 * Zpos m + 1) * (2 ^ (ex + B) * q) ->
  (2 * Zpos m - 1) * (2 ^ (ex + B) * q) < 2 * (p * 2 ^ B) ->
  (Zpos m = 2 ^ 52 -> -1074 < ex ->
   (4 * Zpos m - 1) * (2 ^ (ex + B) * q) < 4 * (p * 2 ^ B)) ->
  nearest neg p q = S754_finite neg m ex.
Proof.
  intros Hbd Hp Hq HB Hup Hlo Hlo4.
  destruct (bounded_inv m ex Hbd) as (Hex & He971 & Hml & Hmu).
  set (d := Zpos (digits2_pos m)) in *.
  assert (Hd : 1 <= d) by (unfold d; lia).
  assert (Hd53 : d <= 53) by lia.
  assert (Hex0 : -1074 <= ex) by lia.
  set (mu := d + ex).
  pose proof (pow2_pos B ltac:(lia)) as HpB.
  pose proof (pow2_pos (ex + B) ltac:(lia)) as HpT.
  pose proof (pow2_pos (d - 1) ltac:(lia)) as Hpd.
  assert (Hm53 : Zpos m < 2 ^ 53).
  { apply Z.lt_le_trans with (2 ^ d); [lia|]. apply pow2_le_mono; lia. }
  assert (HT1 : 2 ^ (mu - 1 + B) = 2 ^ (d - 1) * 2 ^ (ex + B)).
  { unfold mu. rewrite <- pow2_split by lia. f_equal. ring. }
  assert (HT2 : 2 ^ (mu + B) = 2 * 2 ^ (mu - 1 + B)).
  { replace (mu + B) with (1 + (mu - 1 + B)) by ring.
    rewrite pow2_split by (unfold mu; lia). reflexivity. }
  assert (HT3 : 2 ^ (mu - 1 + B) = 2 * 2 ^ (mu - 2 + B)).
  { replace (mu - 1 + B) with (1 + (mu - 2 + B)) by ring.
    rewrite pow2_split by (unfold mu; lia). reflexivity. }
  assert (Hd2 : 2 ^ d = 2 * 2 ^ (d - 1)).
  { replace d with (1 + (d - 1)) at 1 by ring. rewrite pow2_split by lia. reflexivity. }
  pose proof (pow2_pos (mu - 2 + B) ltac:(unfold mu; lia)) as HpT3.
  set (T := 2 ^ (ex + B)) in *. set (P := p * 2 ^ B) in *.
  assert (HP : 0 < P) by (unfold P; nia).
  assert (HTq : 0 < T * q) by nia.
  (* rounding at the exponent of the double gives its significand *)
  assert (Hsame : rne (fst (scaled p q ex)) (snd (scaled p q ex)) = Zpos m).
  { destruct (scaled_pos p q ex Hp Hq) as [Ha Hb].
    pose proof (scaled_cross p q ex B ltac:(lia) ltac:(lia)) as Hc.
    fold T P in Hc.
    set (a := fst (scaled p q ex)) in *. set (b := snd (scaled p q ex)) in *.
    apply rne_near; [exact Hb| |].
    - apply (Z.mul_lt_mono_pos_r (q * T)); [nia|].
      replace (2 * a * (q * T)) with (2 * (a * (q * T))) by ring. rewrite Hc.
      replace ((2 * Z.pos m - 1) * b * (q * T))
        with (b * ((2 * Z.pos m - 1) * (T * q))) by ring.
      replace (2 * (b * P)) with (b * (2 * P)) by ring.
      apply Z.mul_lt_mono_pos_l; lia.
    - apply (Z.mul_lt_mono_pos_r (q * T)); [nia|].
      replace (2 * a * (q * T)) with (2 * (a * (q * T))) by ring. rewrite Hc.
      replace ((2 * Z.pos m + 1) * b * (q * T))
        with (b * ((2 * Z.pos m + 1) * (T * q))) by ring.
      replace (2 * (b * P)) with (b * (2 * P)) by ring.
      apply Z.mul_lt_mono_pos_l; lia. }
  destruct (Z.le_gt_cases (2 ^ (mu - 1 + B) * q) P) as [Hin|Hbelow].
  - (* the fraction lies in the binade of the double *)
    assert (Hb : binade p q mu).
    { apply (binade_at p q mu B); [lia|lia|lia|unfold mu; lia|]. fold P.
      split; [exact Hin|]. rewrite HT2, HT1.
      assert (2 * P < 2 * 2 ^ (d - 1) * 2 * (T * q)); [|lia].
      apply Z.lt_le_trans with (1 := Hup).
      apply Z.mul_le_mono_nonneg_r; lia. }
    rewrite (nearest_spec neg p q mu Hp Hq Hb), fexp_cases.
    fold mu in Hex. rewrite <- Hex, Hsame. now apply finish_finite.
  - (* the fraction lies in the binade below *)
    assert (Hmpow : Zpos m = 2 ^ (d - 1)).
    { rewrite HT1 in Hbelow.
      assert ((2 * Z.pos m - 1) * (T * q) < 2 * 2 ^ (d - 1) * (T * q)) by lia.
      assert (2 * Z.pos m - 1 < 2 * 2 ^ (d - 1)); [|lia].
      apply (Z.mul_lt_mono_pos_r (T * q)); lia. }
    assert (Hb : binade p q (mu - 1)).
    { apply (binade_at p q (mu - 1) B); [lia|lia|lia|unfold mu; lia|]. fold P.
      replace (mu - 1 - 1 + B) with (mu - 2 + B) by ring. split; [|exact Hbelow].
      assert (2 * (2 ^ (mu - 2 + B) * q) < 2 * P); [|lia].
      apply Z.le_lt_trans with (2 := Hlo).
      replace (2 * (2 ^ (mu - 2 + B) * q)) with (2 ^ (mu - 1 + B) * q) by (rewrite HT3; ring).
      rewrite HT1. replace (2 ^ (d - 1) * T * q) with (2 ^ (d - 1) * (T * q)) by ring.
      apply Z.mul_le_mono_nonneg_r; lia. }
    rewrite (nearest_spec neg p q (mu - 1) Hp Hq Hb), fexp_cases.
    destruct (Z.eq_dec ex (-1074)) as [Hsub|Hnorm].
    + replace (Z.max (mu - 1 - 53) (-1074)) with ex by (unfold mu; lia).
      rewrite Hsame. now apply finish_finite.
    + assert (Hd' : d = 53) by (unfold mu in Hex; lia).
      replace (Z.max (mu - 1 - 53) (-1074)) with (ex - 1) by (unfold mu; lia).
      assert (Hm52 : Zpos m = 2 ^ 52) by (rewrite Hmpow, Hd'; reflexivity).
      specialize (Hlo4 Hm52 ltac:(lia)).
      assert (HTT : T = 2 * 2 ^ (ex - 1 + B)).
      { unfold T. replace (ex + B) with (1 + (ex - 1 + B)) by ring.
        rewrite pow2_split by lia. reflexivity. }
      pose proof (pow2_pos (ex - 1 + B) ltac:(lia)) as HpT'.
      destruct (scaled_pos p q (ex - 1) Hp Hq) as [Ha Hbb].
      pose proof (scaled_cross p q (ex - 1) B ltac:(lia) ltac:(lia)) as Hc.
      fold P in Hc.
      set (a := fst (scaled p q (ex - 1))) in *.
      set (b := snd (scaled p q (ex - 1))) in *.
      set (T' := 2 ^ (ex - 1 + B)) in *.
      assert (Hr : rne a b = 2 ^ 53).
      { rewrite HT1, <- Hmpow in Hbelow.
        apply rne_near; [exact Hbb| |].
        - apply (Z.mul_lt_mono_pos_r (q * T')); [nia|].
          replace (2 * a * (q * T')) with (2 * (a * (q * T'))) by ring. rewrite Hc.
          replace ((2 * 2 ^ 53 - 1) * b * (q * T'))
            with (b * ((2 * 2 ^ 53 - 1) * (T' * q))) by ring.
          replace (2 * (b * P)) with (b * (2 * P)) by ring.
          apply Z.mul_lt_mono_pos_l; [lia|].
          rewrite HTT, Hm52 in Hlo4.
          change (2 ^ 53) with (2 * 2 ^ 52). lia.
        - apply (Z.mul_lt_mono_pos_r (q * T')); [nia|].
          replace (2 * a * (q * T')) with (2 * (a * (q * T'))) by ring. rewrite Hc.
          replace ((2 * 2 ^ 53 + 1) * b * (q * T'))
            with (b * ((2 * 2 ^ 53 + 1) * (T' * q))) by ring.
          replace (2 * (b * P)) with (b * (2 * P)) by ring.
          apply Z.mul_lt_mono_pos_l; [lia|].
          rewrite HTT, Hm52 in Hbelow.
          change (2 ^ 53) with (2 * 2 ^ 52).
          assert (0 < T' * q) by nia. lia. }
      rewrite Hr. unfold finish.
      replace (2 ^ 53 =? 0) with false by reflexivity.
      rewrite Z.eqb_refl.
      replace (ex - 1 + 1) with ex by ring.
      replace (ex <=? 971) with true by (symmetry; apply Z.leb_le; lia).
      f_equal. apply Pos2Z.inj. rewrite Hm52. reflexivity.
Qed.

(** ** The decimal exponent of a double *)

Lemma pow_pos_base a x : 0 < a -> 0 <= x -> 0 < a ^ x.
Proof. intros. apply Z.pow_pos_nonneg; lia. Qed.

Lemma pow_split a x y : 0 <= x -> 0 <= y -> a ^ (x + y) = a ^ x * a ^ y.
Proof. intros. apply Z.pow_add_r; lia. Qed.

Lemma pow_le_offset a x b y X Y :
  0 < a -> 0 < b -> pow_le a x b y = true ->
  0 <= X -> 0 <= x + X -> 0 <= Y -> 0 <= y + Y ->
  a ^ (x + X) * b ^ Y <= b ^ (y + Y) * a ^ X.
Proof.
  intros Ha Hb H HX HxX HY HyY. unfold pow_le in H. apply Z.leb_le in H.
  pose proof (pow_pos_base a (X - Z.max (- x) 0) Ha ltac:(lia)) as H1.
  pose proof (pow_pos_base b (Y - Z.max (- y) 0) Hb ltac:(lia)) as H2.
  assert (E1 : a ^ (x + X) = a ^ Z.max x 0 * a ^ (X - Z.max (- x) 0))
    by (rewrite <- pow_split by lia; f_equal; lia).
  assert (E2 : b ^ Y = b ^ Z.max (- y) 0 * b ^ (Y - Z.max (- y) 0))
    by (rewrite <- pow_split by lia; f_equal; lia).
  assert (E3 : b ^ (y + Y) = b ^ Z.max y 0 * b ^ (Y - Z.max (- y) 0))
    by (rewrite <- pow_split by lia; f_equal; lia).
  assert (E4 : a ^ X = a ^ Z.max (- x) 0 * a ^ (X - Z.max (- x) 0))
    by (rewrite <- pow_split by lia; f_equal; lia).
  rewrite E1, E2, E3, E4.
  set (u := a ^ (X - Z.max (- x) 0)) in *. set (w := b ^ (Y - Z.max (- y) 0)) in *.
  set (l := a ^ Z.max x 0 * b ^ Z.max (- y) 0) in *.
  set (r := b ^ Z.max y 0 * a ^ Z.max (- x) 0) in *.
  replace (a ^ Z.max x 0 * u * (b ^ Z.max (- y) 0 * w)) with (l * (u * w))
    by (unfold l; ring).
  replace (b ^ Z.max y 0 * w * (a ^ Z.max (- x) 0 * u)) with (r * (u * w))
    by (unfold r; ring).
  apply Z.mul_le_mono_nonneg_r; [nia|exact H].
Qed.

Lemma forallb_seq_range (f : nat -> bool) n :
  forallb f (seq 0 n) = true -> forall i, (i < n)%nat -> f i = true.
Proof.
  intros H i Hi. rewrite forallb_forall in H. apply H. apply in_seq. lia.
Qed.

Lemma estimate_table i :
  (i < 2110)%nat -> estimate_ok (Z.of_nat i - 1080) = true.
Proof.
  revert i. apply (forallb_seq_range (fun i => estimate_ok (Z.of_nat i - 1080))).
  vm_compute. reflexivity.
Qed.

Lemma estimate_ok_range L : -1080 <= L < 1030 -> estimate_ok L = true.
Proof.
  intros HL. pose proof (estimate_table (Z.to_nat (L + 1080)) ltac:(lia)) as H.
  rewrite Z2Nat.id in H by lia. now replace (L + 1080 - 1080) with L in H by ring.
Qed.

(** [lt_pow10] and [scaled_floor], with exponents shifted by an offset. *)

Lemma lt_pow10_offset p q n C :
  0 < q -> 0 <= C -> 0 <= n + C ->
  lt_pow10 p q n = true <-> p * 10 ^ C < 10 ^ (n + C) * q.
Proof.
  intros Hq HC Hn. unfold lt_pow10. destruct (Z.leb_spec 0 n) as [H0|H0].
  - rewrite Z.ltb_lt, pow_split by lia.
    pose proof (pow_pos_base 10 C ltac:(lia) HC).
    pose proof (pow_pos_base 10 n ltac:(lia) H0). nia.
  - rewrite Z.ltb_lt.
    replace C with (- n + (n + C)) at 1 by ring. rewrite pow_split by lia.
    pose proof (pow_pos_base 10 (n + C) ltac:(lia) Hn).
    pose proof (pow_pos_base 10 (- n) ltac:(lia) ltac:(lia)). nia.
Qed.

Lemma magnitude_from_spec p q fuel n0 :
  lt_pow10 p q (n0 - 1) = false ->
  lt_pow10 p q (n0 + Z.of_nat fuel - 1) = true ->
  lt_pow10 p q (magnitude_from fuel p q n0) = true /\
  lt_pow10 p q (magnitude_from fuel p q n0 - 1) = false.
Proof.
  revert n0. induction fuel as [|fuel IH]; intros n0 Hlo Hhi.
  - replace (n0 + Z.of_nat 0 - 1) with (n0 - 1) in Hhi by lia. congruence.
  - cbn [magnitude_from]. destruct (lt_pow10 p q n0) eqn:H0.
    + split; assumption.
    + apply IH.
      * now replace (n0 + 1 - 1) with n0 by ring.
      * now replace (n0 + 1 + Z.of_nat fuel - 1) with (n0 + Z.of_nat (S fuel) - 1) by lia.
Qed.

Lemma ratio_of_pos m ex :
  0 < fst (ratio_of m ex) /\ 0 < snd (ratio_of m ex).
Proof.
  unfold ratio_of. destruct (Z.leb_spec 0 ex); cbn [fst snd].
  - split; [|lia]. apply Z.mul_pos_pos; [lia|apply pow2_pos; lia].
  - split; [lia|apply pow2_pos; lia].
Qed.

Lemma ratio_of_cross m ex B :
  0 <= B -> 0 <= ex + B ->
  fst (ratio_of m ex) * 2 ^ B = Zpos m * 2 ^ (ex + B) * snd (ratio_of m ex).
Proof.
  intros HB He. unfold ratio_of. destruct (Z.leb_spec 0 ex); cbn [fst snd].
  - rewrite pow2_split by lia. ring.
  - replace B with (- ex + (ex + B)) at 1 by ring.
    rewrite (pow2_split (- ex)) by lia. ring.
Qed.

Lemma log2_digits m : Z.log2 (Zpos m) = Zpos (digits2_pos m) - 1.
Proof.
  apply Z.log2_unique; [lia|].
  replace (Z.succ (Zpos (digits2_pos m) - 1)) with (Zpos (digits2_pos m)) by lia.
  apply digits2_pos_bounds.
Qed.

Lemma ratio_of_log2 m ex :
  Z.log2 (fst (ratio_of m ex)) - Z.log2 (snd (ratio_of m ex)) - 1
  = Zpos (digits2_pos m) + ex - 2.
Proof.
  unfold ratio_of. destruct (Z.leb_spec 0 ex); cbn [fst snd].
  - rewrite Z.log2_mul_pow2 by lia. rewrite log2_digits. change (Z.log2 1) with 0. lia.
  - rewrite Z.log2_pow2 by lia. rewrite log2_digits. lia.
Qed.

Lemma cancel_le a b t : 0 < t -> a * t <= b * t -> a <= b.
Proof. intros Ht H. apply (Z.mul_le_mono_pos_r _ _ t); assumption. Qed.

Lemma cancel_lt a b t : 0 < t -> a * t < b * t -> a < b.
Proof. intros Ht H. apply (Z.mul_lt_mono_pos_r t); assumption. Qed.

(** The value of a double between two powers of two, with offset. *)
Lemma ratio_of_binade m ex B :
  bounded prec emax m ex = true -> 1075 <= B ->
  let p := fst (ratio_of m ex) in
  let q := snd (ratio_of m ex) in
  let d := Zpos (digits2_pos m) in
  2 ^ (d + ex - 1 + B) * q <= p * 2 ^ B /\ p * 2 ^ B < 2 ^ (d + ex + B) * q.
Proof.
  intros Hbd HB p q d.
  destruct (bounded_inv m ex Hbd) as (Hex & _ & Hml & Hmu). fold d in Hex, Hml, Hmu.
  destruct (ratio_of_pos m ex) as [Hp Hq]. fold p in Hp. fold q in Hq.
  pose proof (ratio_of_cross m ex B ltac:(lia) ltac:(lia)) as Hc. fold p q in Hc.
  assert (Hd : 1 <= d) by (unfold d; lia).
  pose proof (pow2_pos (ex + B) ltac:(lia)) as HT.
  rewrite Hc.
  replace (d + ex - 1 + B) with (d - 1 + (ex + B)) by ring.
  replace (d + ex + B) with (d + (ex + B)) by ring.
  rewrite (pow2_split (d - 1) (ex + B)), (pow2_split d (ex + B)) by lia.
  split.
  - apply Z.mul_le_mono_nonneg_r; [lia|]. apply Z.mul_le_mono_nonneg_r; lia.
  - apply Z.mul_lt_mono_pos_r; [lia|]. apply Z.mul_lt_mono_pos_r; lia.
Qed.

Lemma estimate_range L : -1080 <= L < 1030 -> -400 <= estimate L <= 400.
Proof.
  intros HL. unfold estimate.
  pose proof (Z.div_mod (L * 1233) 4096 ltac:(lia)).
  pose proof (Z.mod_pos_bound (L * 1233) 4096 ltac:(lia)). lia.
Qed.

(** [magnitude] finds the decimal exponent of a double: the [n] with
    [10 ^ (n - 1) <= x < 10 ^ n]. *)
Lemma magnitude_bounds m ex :
  bounded prec emax m ex = true ->
  let p := fst (ratio_of m ex) in
  let q := snd (ratio_of m ex) in
  lt_pow10 p q (magnitude p q) = true /\
  lt_pow10 p q (magnitude p q - 1) = false.
Proof.
  intros Hbd p q.
  destruct (bounded_inv m ex Hbd) as (Hex & He971 & Hml & Hmu).
  destruct (ratio_of_pos m ex) as [Hp Hq]. fold p in Hp. fold q in Hq.
  unfold magnitude, p, q. rewrite ratio_of_log2. fold p q.
  set (d := Zpos (digits2_pos m)) in *.
  assert (Hd : 1 <= d <= 53).
  { split; [unfold d; lia|].
    destruct (Z.le_gt_cases d 53) as [H|H]; [exact H|exfalso]. lia. }
  set (L := d + ex - 2).
  assert (HL : -1080 <= L < 1030) by (unfold L; lia).
  change ((L * 1233 / 4096) - 2) with (estimate L).
  pose proof (estimate_ok_range L HL) as Hok. unfold estimate_ok in Hok.
  apply andb_true_iff in Hok as [HA HB].
  pose proof (estimate_range L HL) as Hn0.
  remember 1100 as B eqn:HeqB. remember 500 as C eqn:HeqC.
  assert (HB1 : 1100 <= B) by lia. assert (HC1 : 500 <= C) by lia.
  clear HeqB HeqC.
  destruct (ratio_of_binade m ex B Hbd ltac:(lia)) as [Hlo Hhi].
  fold p q d in Hlo, Hhi.
  replace (d + ex - 1 + B) with (L + 1 + B) in Hlo by (unfold L; ring).
  replace (d + ex + B) with (L + 2 + B) in Hhi by (unfold L; ring).
  pose proof (pow_le_offset 10 (estimate L - 1) 2 (L + 1) C B
                ltac:(lia) ltac:(lia) HA ltac:(lia) ltac:(lia) ltac:(lia) ltac:(lia)) as TA.
  pose proof (pow_le_offset 2 (L + 2) 10 (estimate L + 7) B C
                ltac:(lia) ltac:(lia) HB ltac:(lia) ltac:(lia) ltac:(lia) ltac:(lia)) as TB.
  pose proof (pow2_pos B ltac:(lia)) as HpB.
  pose proof (pow_pos_base 10 C ltac:(lia) ltac:(lia)) as HpC.
  apply magnitude_from_spec.
  - destruct (lt_pow10 p q (estimate L - 1)) eqn:Hlt; [exfalso|reflexivity].
    apply (lt_pow10_offset p q (estimate L - 1) C Hq ltac:(lia) ltac:(lia)) in Hlt.
    set (X := 10 ^ (estimate L - 1 + C)) in *. set (U := 2 ^ (L + 1 + B)) in *.
    set (T := 2 ^ B) in *. set (Y := 10 ^ C) in *.
    assert (H1 : X * q * T <= p * Y * T).
    { apply Z.le_trans with (U * Y * q).
      - replace (X * q * T) with (X * T * q) by ring.
        apply Z.mul_le_mono_nonneg_r; lia.
      - replace (U * Y * q) with (U * q * Y) by ring.
        replace (p * Y * T) with (p * T * Y) by ring.
        apply Z.mul_le_mono_nonneg_r; lia. }
    apply cancel_le in H1; lia.
  - change (Z.of_nat 8) with 8. replace (estimate L + 8 - 1) with (estimate L + 7) by ring.
    apply (lt_pow10_offset p q (estimate L + 7) C Hq ltac:(lia) ltac:(lia)).
    set (X := 10 ^ (estimate L + 7 + C)) in *. set (U := 2 ^ (L + 2 + B)) in *.
    set (T := 2 ^ B) in *. set (Y := 10 ^ C) in *.
    apply (cancel_lt _ _ T HpB).
    apply Z.lt_le_trans with (U * q * Y).
    + replace (p * Y * T) with (p * T * Y) by ring.
      apply Z.mul_lt_mono_pos_r; lia.
    + replace (U * q * Y) with (U * Y * q) by ring.
      replace (X * q * T) with (X * T * q) by ring.
      apply Z.mul_le_mono_nonneg_r; lia.
Qed.

(** ** The shortest digits of a double read back as the double *)

Lemma dec_nearest neg s e :
  dec neg s e = nearest neg (fst (decimal_ratio s e)) (snd (decimal_ratio s e)).
Proof. unfold dec, decimal_ratio. destruct (0 <=? e); reflexivity. Qed.

Lemma decimal_ratio_pos s e :
  0 < s -> 0 < fst (decimal_ratio s e) /\ 0 < snd (decimal_ratio s e).
Proof.
  intros Hs. unfold decimal_ratio. destruct (Z.leb_spec 0 e); cbn [fst snd].
  - split; [|lia]. apply Z.mul_pos_pos; [lia|apply pow_pos_base; lia].
  - split; [lia|apply pow_pos_base; lia].
Qed.

Lemma decimal_ratio_cross s e C :
  0 <= C -> 0 <= e + C ->
  fst (decimal_ratio s e) * 10 ^ C = s * 10 ^ (e + C) * snd (decimal_ratio s e).
Proof.
  intros HC He. unfold decimal_ratio. destruct (Z.leb_spec 0 e); cbn [fst snd].
  - rewrite pow_split by lia. ring.
  - replace C with (- e + (e + C)) at 1 by ring.
    rewrite (pow_split 10 (- e)) by lia. ring.
Qed.

Lemma dec_zero neg e : dec neg 0 e = S754_zero neg.
Proof.
  unfold dec. destruct (Z.leb_spec 0 e).
  - rewrite Z.mul_0_l. apply nearest_zero. lia.
  - apply nearest_zero. apply pow_pos_base; lia.
Qed.

(** A decimal within half a unit in the last place of a double reads as that
    double. *)
Lemma dec_reads_back neg m ex s e B C :
  bounded prec emax m ex = true -> 0 < s ->
  1075 <= B -> 0 <= C -> 0 <= e + C ->
  let G := 2 ^ B * 10 ^ (e + C) in
  let H := 2 ^ (ex + B) * 10 ^ C in
  2 * (s * G) < 2 * (Zpos m * H) + H ->
  2 * (Zpos m * H) - H < 2 * (s * G) ->
  (Zpos m = 2 ^ 52 -> -1074 < ex -> 4 * (Zpos m * H) - H < 4 * (s * G)) ->
  dec neg s e = S754_finite neg m ex.
Proof.
  intros Hbd Hs HB HC HeC G H Hup Hlo Hlo4.
  rewrite dec_nearest.
  destruct (decimal_ratio_pos s e Hs) as [Hp Hq].
  pose proof (decimal_ratio_cross s e C HC HeC) as Hc.
  set (p := fst (decimal_ratio s e)) in *. set (q := snd (decimal_ratio s e)) in *.
  pose proof (pow2_pos B ltac:(lia)) as HpB.
  pose proof (pow_pos_base 10 C ltac:(lia) HC) as HpC.
  assert (HW : p * 2 ^ B * 10 ^ C = s * G * q).
  { unfold G. replace (p * 2 ^ B * 10 ^ C) with (p * 10 ^ C * 2 ^ B) by ring.
    rewrite Hc. ring. }
  assert (HH : forall k, k * (2 ^ (ex + B) * q) * 10 ^ C = k * H * q)
    by (intros k; unfold H; ring).
  apply (reads_back neg m ex p q B Hbd Hp Hq HB).
  - apply (cancel_lt _ _ (10 ^ C) HpC). rewrite HH.
    replace (2 * (p * 2 ^ B) * 10 ^ C) with (2 * (s * G) * q) by lia.
    apply Z.mul_lt_mono_pos_r; lia.
  - apply (cancel_lt _ _ (10 ^ C) HpC). rewrite HH.
    replace (2 * (p * 2 ^ B) * 10 ^ C) with (2 * (s * G) * q) by lia.
    apply Z.mul_lt_mono_pos_r; lia.
  - intros H52 Hn. specialize (Hlo4 H52 Hn).
    apply (cancel_lt _ _ (10 ^ C) HpC). rewrite HH.
    replace (4 * (p * 2 ^ B) * 10 ^ C) with (4 * (s * G) * q) by lia.
    apply Z.mul_lt_mono_pos_r; lia.
Qed.

Lemma scaled_floor_offset p q e C :
  0 <= p -> 0 < q -> 0 <= C -> 0 <= e + C ->
  scaled_floor p q e * 10 ^ (e + C) * q <= p * 10 ^ C /\
  p * 10 ^ C < (scaled_floor p q e + 1) * 10 ^ (e + C) * q.
Proof.
  intros Hp Hq HC He. unfold scaled_floor.
  destruct (Z.leb_spec 0 e) as [H0|H0].
  - pose proof (pow_pos_base 10 e ltac:(lia) H0) as Hpe.
    pose proof (pow_pos_base 10 C ltac:(lia) HC) as HpC.
    assert (Hqe : 0 < q * 10 ^ e) by nia.
    pose proof (Z.div_mod p (q * 10 ^ e) ltac:(lia)) as Hdm.
    pose proof (Z.mod_pos_bound p (q * 10 ^ e) Hqe) as Hm.
    rewrite pow_split by lia.
    set (lo := p / (q * 10 ^ e)) in *. set (r := p mod (q * 10 ^ e)) in *.
    set (T := 10 ^ e) in *. set (Y := 10 ^ C) in *.
    split.
    + replace (lo * (T * Y) * q) with (q * T * lo * Y) by ring.
      apply Z.mul_le_mono_nonneg_r; lia.
    + replace ((lo + 1) * (T * Y) * q) with ((q * T * lo + q * T) * Y) by ring.
      apply Z.mul_lt_mono_pos_r; lia.
  - pose proof (pow_pos_base 10 (- e) ltac:(lia) ltac:(lia)) as Hpe.
    pose proof (pow_pos_base 10 (e + C) ltac:(lia) He) as HpC.
    pose proof (Z.div_mod (p * 10 ^ (- e)) q ltac:(lia)) as Hdm.
    pose proof (Z.mod_pos_bound (p * 10 ^ (- e)) q Hq) as Hm.
    assert (HY : 10 ^ C = 10 ^ (- e) * 10 ^ (e + C))
      by (rewrite <- pow_split by lia; f_equal; ring).
    rewrite HY.
    set (lo := p * 10 ^ (- e) / q) in *. set (r := (p * 10 ^ (- e)) mod q) in *.
    set (T := 10 ^ (- e)) in *. set (Y := 10 ^ (e + C)) in *.
    split.
    + replace (lo * Y * q) with (q * lo * Y) by ring.
      replace (p * (T * Y)) with (p * T * Y) by ring.
      apply Z.mul_le_mono_nonneg_r; lia.
    + replace ((lo + 1) * Y * q) with ((q * lo + q) * Y) by ring.
      replace (p * (T * Y)) with (p * T * Y) by ring.
      apply Z.mul_lt_mono_pos_r; lia.
Qed.

Lemma scaled_floor_nonneg p q e : 0 <= p -> 0 < q -> 0 <= scaled_floor p q e.
Proof.
  intros Hp Hq. unfold scaled_floor. destruct (Z.leb_spec 0 e).
  - apply Z.div_pos; [lia|]. apply Z.mul_pos_pos; [lia|apply pow_pos_base; lia].
  - apply Z.div_pos; [|lia]. apply Z.mul_nonneg_nonneg; [lia|].
    apply Z.lt_le_incl, pow_pos_base; lia.
Qed.

Lemma magnitude_from_range p q fuel n0 :
  n0 <= magnitude_from fuel p q n0 <= n0 + Z.of_nat fuel.
Proof.
  revert n0. induction fuel as [|fuel IH]; intros n0; cbn [magnitude_from]; [lia|].
  destruct (lt_pow10 p q n0); [lia|]. specialize (IH (n0 + 1)). lia.
Qed.

(** Of the two seventeen-digit decimals around a double, the nearer one
    reads as the double. *)
Lemma seventeen_digits m ex :
  bounded prec emax m ex = true ->
  let p := fst (ratio_of m ex) in
  let q := snd (ratio_of m ex) in
  let e := magnitude p q - 17 in
  let lo := scaled_floor p q e in
  dec false lo e = S754_finite false m ex \/
  dec false (lo + 1) e = S754_finite false m ex.
Proof.
  intros Hbd p q e lo.
  destruct (bounded_inv m ex Hbd) as (Hex & He971 & Hml & Hmu).
  destruct (ratio_of_pos m ex) as [Hp Hq]. fold p in Hp. fold q in Hq.
  destruct (magnitude_bounds m ex Hbd) as [Hlt Hge]. fold p q in Hlt, Hge.
  set (d := Zpos (digits2_pos m)) in *.
  assert (Hd : 1 <= d <= 53).
  { split; [unfold d; lia|].
    destruct (Z.le_gt_cases d 53) as [H|H]; [exact H|exfalso]. lia. }
  assert (Hm53 : Zpos m < 2 ^ 53).
  { apply Z.lt_le_trans with (2 ^ d); [lia|]. apply pow2_le_mono; lia. }
  assert (Hn : -400 <= magnitude p q <= 410).
  { unfold magnitude. pose proof (magnitude_from_range p q 8
      ((Z.log2 p - Z.log2 q - 1) * 1233 / 4096 - 2)) as Hr.
    unfold p, q in Hr |- *. rewrite ratio_of_log2 in Hr |- *.
    fold d in Hr |- *.
    pose proof (estimate_range (d + ex - 2) ltac:(lia)) as He. unfold estimate in He.
    change (Z.of_nat 8) with 8 in Hr. lia. }
  set (n := magnitude p q) in *.
  remember 1100 as B eqn:HeqB. remember 500 as C eqn:HeqC.
  assert (HB1 : 1100 <= B) by lia. assert (HC1 : 500 <= C) by lia.
  clear HeqB HeqC.
  assert (HeC : 0 <= e + C) by (unfold e; lia).
  pose proof (ratio_of_cross m ex B ltac:(lia) ltac:(lia)) as Hc. fold p q in Hc.
  destruct (scaled_floor_offset p q e C ltac:(lia) Hq ltac:(lia) HeC) as [Hfl Hfu].
  fold lo in Hfl, Hfu.
  pose proof (scaled_floor_nonneg p q e ltac:(lia) Hq) as Hlo0. fold lo in Hlo0.
  pose proof (pow2_pos B ltac:(lia)) as HpB.
  pose proof (pow2_pos (ex + B) ltac:(lia)) as HpT.
  pose proof (pow_pos_base 10 C ltac:(lia) ltac:(lia)) as HpC.
  pose proof (pow_pos_base 10 (e + C) ltac:(lia) HeC) as HpeC.
  set (G := 2 ^ B * 10 ^ (e + C)).
  set (H := 2 ^ (ex + B) * 10 ^ C).
  assert (HG : 0 < G) by (unfold G; nia).
  assert (HH : 0 < H) by (unfold H; nia).
  set (V := Zpos m * H).
  (* the double lies between the two decimals *)
  assert (HVq : p * 10 ^ C * 2 ^ B = V * q).
  { unfold V, H. replace (p * 10 ^ C * 2 ^ B) with (p * 2 ^ B * 10 ^ C) by ring.
    rewrite Hc. ring. }
  assert (Hlow : lo * G <= V).
  { apply (cancel_le _ _ q Hq). rewrite <- HVq.
    replace (lo * G * q) with (lo * 10 ^ (e + C) * q * 2 ^ B) by (unfold G; ring).
    apply Z.mul_le_mono_nonneg_r; lia. }
  assert (Hupp : V < (lo + 1) * G).
  { apply (cancel_lt _ _ q Hq). rewrite <- HVq.
    replace ((lo + 1) * G * q) with ((lo + 1) * 10 ^ (e + C) * q * 2 ^ B)
      by (unfold G; ring).
    apply Z.mul_lt_mono_pos_r; lia. }
  (* the decimals have seventeen digits *)
  assert (Hlo16 : 10 ^ 16 <= lo).
  { destruct (Z.le_gt_cases (10 ^ 16) lo) as [Hok|Hbad]; [exact Hok|exfalso].
    assert (Hcontra : lt_pow10 p q (n - 1) = true); [|congruence].
    apply (lt_pow10_offset p q (n - 1) C Hq ltac:(lia) ltac:(lia)).
    apply Z.lt_le_trans with (1 := Hfu).
    replace (n - 1 + C) with (16 + (e + C)) by (unfold e; ring).
    rewrite (pow_split 10 16) by lia.
    apply Z.mul_le_mono_nonneg_r; [lia|].
    apply Z.mul_le_mono_nonneg_r; lia. }
  assert (HVm : V <= (2 ^ 53 - 1) * H).
  { unfold V. apply Z.mul_le_mono_nonneg_r; lia. }
  assert (HloG : 10 ^ 16 * G <= lo * G) by (apply Z.mul_le_mono_nonneg_r; lia).
  assert (HGH : G < H).
  { change (2 ^ 53 - 1) with 9007199254740991 in HVm.
    change (10 ^ 16) with 10000000000000000 in HloG. lia. }
  assert (HGH2 : Zpos m = 2 ^ 52 -> 2 * G < H).
  { intros H52. unfold V in Hlow. rewrite H52 in Hlow.
    change (2 ^ 52) with 4503599627370496 in Hlow.
    change (10 ^ 16) with 10000000000000000 in HloG. lia. }
  assert (Hlo1 : 0 < lo) by (change (10 ^ 16) with 10000000000000000 in Hlo16; lia).
  destruct (Z.le_gt_cases (2 * (V - lo * G)) G) as [Hnear|Hfar].
  - left.
    apply (dec_reads_back false m ex lo e B C Hbd Hlo1 ltac:(lia) ltac:(lia) HeC);
      fold G H V.
    + lia.
    + lia.
    + intros H52 Hnorm. specialize (HGH2 H52). lia.
  - right.
    apply (dec_reads_back false m ex (lo + 1) e B C Hbd ltac:(lia) ltac:(lia) ltac:(lia) HeC);
      fold G H V.
    + lia.
    + lia.
    + intros H52 Hnorm. lia.
Qed.

Lemma reads_as_true m ex s e :
  0 <= s -> reads_as (S754_finite false m ex) s e = true ->
  0 < s /\ dec false s e = S754_finite false m ex.
Proof.
  intros Hs H. unfold reads_as in H.
  destruct (Z.eq_dec s 0) as [->|Hs0].
  - rewrite dec_zero in H. discriminate.
  - split; [lia|]. pose proof (dec_nonneg s e Hs) as Hn.
    destruct (dec false s e) as [| | |sg m2 e2]; try discriminate H.
    apply andb_true_iff in H as [H1 H2].
    apply Pos.eqb_eq in H1. apply Z.eqb_eq in H2. subst m2 e2.
    destruct sg; [discriminate Hn|reflexivity].
Qed.

Lemma reads_as_of_eq m ex s e :
  dec false s e = S754_finite false m ex ->
  reads_as (S754_finite false m ex) s e = true.
Proof. intros H. unfold reads_as. now rewrite H, Pos.eqb_refl, Z.eqb_refl. Qed.

Lemma shortest_from_step fuel k x p q n :
  shortest_from (S fuel) k x p q n
  = let e := n - k in
    let lo := scaled_floor p q e in
    let hi := lo + 1 in
    match reads_as x lo e, reads_as x hi e with
    | true, true => if dist p q hi e <? dist p q lo e then (hi, e)
                    else if dist p q lo e <? dist p q hi e then (lo, e)
                    else if Z.even lo then (lo, e) else (hi, e)
    | true, false => (lo, e)
    | false, true => (hi, e)
    | false, false => shortest_from fuel (k + 1) x p q n
    end.
Proof. reflexivity. Qed.

(** The search for the shortest digits ends within seventeen digits, on
    digits that read as the double. *)
Lemma shortest_from_spec m ex fuel k :
  bounded prec emax m ex = true ->
  let p := fst (ratio_of m ex) in
  let q := snd (ratio_of m ex) in
  (1 <= fuel)%nat -> k + Z.of_nat fuel = 18 ->
  reads_as (S754_finite false m ex)
           (fst (shortest_from fuel k (S754_finite false m ex) p q (magnitude p q)))
           (snd (shortest_from fuel k (S754_finite false m ex) p q (magnitude p q)))
  = true /\
  0 <= fst (shortest_from fuel k (S754_finite false m ex) p q (magnitude p q)).
Proof.
  intros Hbd p q. revert k.
  destruct (ratio_of_pos m ex) as [Hp Hq]. fold p in Hp. fold q in Hq.
  induction fuel as [|fuel IH]; intros k Hf Hk; [lia|].
  rewrite shortest_from_step. cbv zeta.
  pose proof (scaled_floor_nonneg p q (magnitude p q - k) ltac:(lia) Hq) as Hlo.
  set (e := magnitude p q - k) in *. set (lo := scaled_floor p q e) in *.
  destruct (reads_as _ lo e) eqn:H1; destruct (reads_as _ (lo + 1) e) eqn:H2.
  - destruct (dist p q (lo + 1) e <? dist p q lo e); [cbn [fst snd]; split; [exact H2|lia]|].
    destruct (dist p q lo e <? dist p q (lo + 1) e); [cbn [fst snd]; split; [exact H1|lia]|].
    destruct (Z.even lo); cbn [fst snd]; split; try assumption; lia.
  - cbn [fst snd]. split; [exact H1|lia].
  - cbn [fst snd]. split; [exact H2|lia].
  - destruct fuel as [|fuel].
    + exfalso. assert (k = 17) by lia. subst k.
      destruct (seventeen_digits m ex Hbd) as [H|H]; fold p q e lo in H;
        apply reads_as_of_eq in H; congruence.
    + apply IH; lia.
Qed.

Lemma strip_zeros_spec neg x fuel s e :
  0 < s -> dec neg s e = x ->
  0 < fst (strip_zeros fuel s e) /\
  dec neg (fst (strip_zeros fuel s e)) (snd (strip_zeros fuel s e)) = x.
Proof.
  revert s e. induction fuel as [|fuel IH]; intros s e Hs Hx; cbn [strip_zeros].
  - split; assumption.
  - destruct (Z.eqb_spec (s mod 10) 0) as [H0|H0]; cbn [andb]; [|split; assumption].
    replace (0 <? s) with true by (symmetry; apply Z.ltb_lt; lia).
    pose proof (Z.div_mod s 10 ltac:(lia)) as Hdm. rewrite H0 in Hdm.
    assert (Hs' : 0 < s / 10) by lia.
    apply IH; [exact Hs'|]. rewrite <- Hx, !dec_nearest.
    destruct (decimal_ratio_pos s e Hs) as [Hp Hq].
    destruct (decimal_ratio_pos (s / 10) (e + 1) Hs') as [Hp' Hq'].
    apply nearest_frac; try assumption.
    set (C := Z.abs e + 1).
    pose proof (decimal_ratio_cross s e C ltac:(lia) ltac:(lia)) as H1.
    pose proof (decimal_ratio_cross (s / 10) (e + 1) C ltac:(lia) ltac:(lia)) as H2.
    pose proof (pow_pos_base 10 C ltac:(lia) ltac:(lia)) as HpC.
    pose proof (pow_pos_base 10 (e + C) ltac:(lia) ltac:(lia)) as HpeC.
    assert (HT : 10 ^ (e + 1 + C) = 10 * 10 ^ (e + C)).
    { replace (e + 1 + C) with (1 + (e + C)) by ring.
      rewrite (pow_split 10 1) by lia. reflexivity. }
    rewrite HT in H2.
    set (p := fst (decimal_ratio s e)) in *. set (q := snd (decimal_ratio s e)) in *.
    set (p' := fst (decimal_ratio (s / 10) (e + 1))) in *.
    set (q' := snd (decimal_ratio (s / 10) (e + 1))) in *.
    set (Y := 10 ^ C) in *. set (T := 10 ^ (e + C)) in *.
    apply (Z.mul_reg_r _ _ Y); [lia|].
    replace (p' * q * Y) with (p' * Y * q) by ring.
    replace (p * q' * Y) with (p * Y * q') by ring.
    rewrite H1, H2.
    replace (s / 10 * (10 * T) * q' * q) with (10 * (s / 10) * T * q * q') by ring.
    replace (10 * (s / 10)) with s by lia. ring.
Qed.

(** The digits [Number::toString] prints read as the double. *)
Lemma shortest_spec m ex :
  bounded prec emax m ex = true ->
  0 < fst (shortest m ex) /\
  dec false (fst (shortest m ex)) (snd (shortest m ex)) = S754_finite false m ex.
Proof.
  intros Hbd. unfold shortest.
  rewrite (surjective_pairing (ratio_of m ex)).
  destruct (shortest_from_spec m ex 17 1 Hbd ltac:(lia) ltac:(lia)) as [Hr Hs].
  destruct (shortest_from 17 1 _ _ _ _) as [s e] eqn:Hsf. cbn [fst snd] in Hr, Hs.
  destruct (reads_as_true m ex s e Hs Hr) as [Hpos Hdec].
  now apply strip_zeros_spec.
Qed.

(** ** Reading a printed number *)

Lemma read_digits_all a acc cnt :
  all_digits a = true ->
  read_digits a acc cnt = (digits_value acc a, (cnt + String.length a)%nat, EmptyString).
Proof.
  intros Ha. pose proof (read_digits_run a EmptyString acc cnt Ha I) as H.
  now rewrite str_app_nil_r in H.
Qed.

Lemma read_exponent_printed ex10 :
  read_exponent (String "e" ((if ex10 <? 0 then "-" else "+") ++ decimal (Z.abs ex10)))
  = ex10.
Proof.
  destruct (decimal_spec (Z.abs ex10) ltac:(lia)) as (Hd & Hl & Hv).
  unfold read_exponent.
  change (("e" =? "e")%char) with true. cbn [orb].
  destruct (Z.ltb_spec ex10 0) as [Hneg|Hpos]; cbn [append].
  - rewrite (read_digits_all _ 0 O Hd), Hv.
    destruct (0 + String.length (decimal (Z.abs ex10)))%nat eqn:Hn; lia.
  - rewrite (read_digits_all _ 0 O Hd), Hv.
    destruct (0 + String.length (decimal (Z.abs ex10)))%nat eqn:Hn; lia.
Qed.

(** Digits alone. *)
Lemma parse_unsigned_int neg a :
  all_digits a = true -> (0 < String.length a)%nat ->
  parse_unsigned neg a
  = if digits_value 0 a =? 0 then S754_zero neg else dec neg (digits_value 0 a) 0.
Proof.
  intros Ha Hlen. unfold parse_unsigned.
  destruct a as [|c a']; [simpl in Hlen; lia|].
  pose proof (all_digits_head _ _ Ha) as Hc.
  rewrite (prefix_Infinity_digit _ _ Hc).
  rewrite (read_digits_all (String c a') 0 O Ha).
  cbn [Nat.add String.length read_exponent]. cbv iota beta.
  change (Z.of_nat 0) with 0. rewrite Z.sub_0_r. reflexivity.
Qed.

(** Digits and an exponent. *)
Lemma parse_unsigned_exp neg a r :
  all_digits a = true -> (0 < String.length a)%nat ->
  parse_unsigned neg (a ++ String "e" r)
  = if digits_value 0 a =? 0 then S754_zero neg
    else dec neg (digits_value 0 a) (read_exponent (String "e" r)).
Proof.
  intros Ha Hlen. unfold parse_unsigned.
  destruct a as [|c a']; [simpl in Hlen; lia|].
  pose proof (all_digits_head _ _ Ha) as Hc.
  change (String c a' ++ String "e" r) with (String c (a' ++ String "e" r)).
  rewrite (prefix_Infinity_digit _ _ Hc).
  change (String c (a' ++ String "e" r)) with (String c a' ++ String "e" r).
  rewrite (read_digits_run (String c a') (String "e" r) 0 O Ha) by reflexivity.
  cbv iota beta. cbn [Nat.add String.length]. cbv iota beta.
  change (Z.of_nat 0) with 0. rewrite Z.sub_0_r. reflexivity.
Qed.

(** Digits, a point, digits and an exponent. *)
Lemma parse_unsigned_point_exp neg a b r :
  all_digits a = true -> (0 < String.length a)%nat -> all_digits b = true ->
  parse_unsigned neg (a ++ String "." (b ++ String "e" r))
  = if digits_value 0 (a ++ b) =? 0 then S754_zero neg
    else dec neg (digits_value 0 (a ++ b))
             (read_exponent (String "e" r) - Z.of_nat (String.length b)).
Proof.
  intros Ha Hlen Hb. unfold parse_unsigned.
  destruct a as [|c a']; [simpl in Hlen; lia|].
  pose proof (all_digits_head _ _ Ha) as Hc.
  change (String c a' ++ String "." (b ++ String "e" r))
    with (String c (a' ++ String "." (b ++ String "e" r))).
  rewrite (prefix_Infinity_digit _ _ Hc).
  change (String c (a' ++ String "." (b ++ String "e" r)))
    with (String c a' ++ String "." (b ++ String "e" r)).
  rewrite (read_digits_run (String c a') (String "." (b ++ String "e" r)) 0 O Ha)
    by reflexivity.
  cbv iota beta.
  rewrite (read_digits_run b (String "e" r) (digits_value 0 (String c a')) O Hb)
    by reflexivity.
  cbn [Nat.add String.length]. cbv iota beta.
  rewrite digits_value_app. reflexivity.
Qed.

Lemma str_drop_length k s :
  (k <= String.length s)%nat -> String.length (str_drop k s) = (String.length s - k)%nat.
Proof.
  intros Hk. pose proof (str_take_drop k s Hk) as H.
  apply (f_equal String.length) in H. rewrite str_app_length in H.
  rewrite (str_take_length k s Hk) in H. lia.
Qed.

Lemma take_drop_digits k s :
  (k <= String.length s)%nat -> all_digits s = true ->
  all_digits (str_take k s) = true /\ all_digits (str_drop k s) = true.
Proof.
  intros Hk Hs. rewrite <- (str_take_drop k s Hk), all_digits_app in Hs.
  now apply andb_true_iff in Hs.
Qed.

(** The sign does not take part in the rounding. *)
Lemma nearest_sign neg p q m ex :
  0 < p -> 0 < q ->
  nearest false p q = S754_finite false m ex ->
  nearest neg p q = S754_finite neg m ex.
Proof.
  intros Hp Hq. destruct (binade_exists p q Hp Hq) as [mu Hb].
  rewrite !(nearest_spec _ p q mu Hp Hq Hb). unfold finish.
  destruct (_ =? 0); [discriminate|].
  destruct (_ =? 2 ^ 53).
  - destruct (_ <=? 971); [|discriminate]. intros H. inversion H. reflexivity.
  - destruct (_ <=? 971); [|discriminate]. intros H. inversion H. reflexivity.
Qed.

Lemma dec_sign neg s e m ex :
  0 < s -> dec false s e = S754_finite false m ex ->
  dec neg s e = S754_finite neg m ex.
Proof.
  intros Hs. rewrite !dec_nearest.
  destruct (decimal_ratio_pos s e Hs). now apply nearest_sign.
Qed.

(** Reading what [Number::toString] prints for a positive double gives the
    double back. *)
Lemma parse_toString_pos neg m ex :
  bounded prec emax m ex = true ->
  parse_unsigned neg (toString_pos m ex) = S754_finite neg m ex.
Proof.
  intros Hbd. destruct (shortest_spec m ex Hbd) as [Hs Hdec].
  unfold toString_pos. destruct (shortest m ex) as [s e]. cbn [fst snd] in Hs, Hdec.
  apply (dec_sign neg) in Hdec; [|exact Hs].
  destruct (decimal_spec s ltac:(lia)) as (Hd & Hl & Hv).
  set (ds := decimal s) in *. set (k := Z.of_nat (String.length ds)).
  assert (Hk : 1 <= k) by (unfold k; lia).
  assert (Hs0 : (s =? 0) = false) by (apply Z.eqb_neq; lia).
  assert (Hvs : digits_value 0 ds = s) by (rewrite Hv; lia).
  destruct (Z.leb_spec k (e + k)) as [H1|H1]; [destruct (Z.leb_spec (e + k) 21) as [H2|H2]|];
    cbn [andb].
  - (* digits and zeros *)
    destruct (zeros_spec (Z.to_nat (e + k - k))) as (Hz & Hzl & Hzv).
    rewrite parse_unsigned_int.
    + rewrite digits_value_app, Hzv, Hvs.
      replace (Z.of_nat (Z.to_nat (e + k - k))) with e by lia.
      assert (Hne : (s * 10 ^ e =? 0) = false).
      { apply Z.eqb_neq. pose proof (pow_pos_base 10 e ltac:(lia) ltac:(lia)). nia. }
      rewrite Hne, <- Hdec. unfold dec.
      replace (0 <=? 0) with true by reflexivity.
      replace (0 <=? e) with true by (symmetry; apply Z.leb_le; lia).
      change (10 ^ 0) with 1. now rewrite Z.mul_1_r.
    + rewrite all_digits_app, Hd, Hz. reflexivity.
    + rewrite str_app_length. lia.
  - (* exponent form, large *)
    replace (0 <? e + k) with true by (symmetry; apply Z.ltb_lt; lia).
    replace (e + k <=? 21) with false by (symmetry; apply Z.leb_gt; lia).
    replace (-6 <? e + k) with true by (symmetry; apply Z.ltb_lt; lia).
    replace (e + k <=? 0) with false by (symmetry; apply Z.leb_gt; lia).
    cbn [andb].
    destruct (Z.eqb_spec k 1) as [Hk1|Hk1].
    + change (ds ++ "e" ++ ?r) with (ds ++ String "e" r).
      rewrite parse_unsigned_exp by (assumption || lia).
      rewrite Hvs, Hs0, read_exponent_printed, <- Hdec. f_equal. lia.
    + destruct (take_drop_digits 1 ds ltac:(lia) Hd) as [Ht Hdr].
      change (str_take 1 ds ++ "." ++ str_drop 1 ds ++ "e" ++ ?r)
        with (str_take 1 ds ++ String "." (str_drop 1 ds ++ String "e" r)).
      rewrite parse_unsigned_point_exp;
        [|exact Ht|rewrite str_take_length; lia|exact Hdr].
      rewrite str_take_drop by lia.
      rewrite Hvs, Hs0, read_exponent_printed, str_drop_length, <- Hdec by lia.
      f_equal. lia.
  - destruct (Z.ltb_spec 0 (e + k)) as [H3|H3];
      [destruct (Z.leb_spec (e + k) 21) as [H4|H4]|]; cbn [andb].
    + (* digits, a point, digits *)
      destruct (take_drop_digits (Z.to_nat (e + k)) ds ltac:(lia) Hd) as [Ht Hdr].
      change (str_take ?j ds ++ "." ++ ?r) with (str_take j ds ++ String "." r).
      rewrite parse_unsigned_fixed; [|exact Ht|rewrite str_take_length; lia|exact Hdr].
      rewrite str_take_drop by lia.
      rewrite Hvs, Hs0, str_drop_length, <- Hdec by lia. f_equal. lia.
    + (* exponent form, large *)
      replace (-6 <? e + k) with true by (symmetry; apply Z.ltb_lt; lia).
      replace (e + k <=? 0) with false by (symmetry; apply Z.leb_gt; lia).
      cbn [andb].
      destruct (Z.eqb_spec k 1) as [Hk1|Hk1]; [lia|].
      destruct (take_drop_digits 1 ds ltac:(lia) Hd) as [Ht Hdr].
      change (str_take 1 ds ++ "." ++ str_drop 1 ds ++ "e" ++ ?r)
        with (str_take 1 ds ++ String "." (str_drop 1 ds ++ String "e" r)).
      rewrite parse_unsigned_point_exp;
        [|exact Ht|rewrite str_take_length; lia|exact Hdr].
      rewrite str_take_drop by lia.
      rewrite Hvs, Hs0, read_exponent_printed, str_drop_length, <- Hdec by lia.
      f_equal. lia.
    + destruct (Z.ltb_spec (-6) (e + k)) as [H5|H5]; cbn [andb].
      * (* zero, a point, zeros and digits *)
        replace (e + k <=? 0) with true by (symmetry; apply Z.leb_le; lia).
        destruct (zeros_spec (Z.to_nat (- (e + k)))) as (Hz & Hzl & Hzv).
        change ("0." ++ ?r) with ("0" ++ String "." r).
        rewrite parse_unsigned_fixed;
          [|reflexivity|cbn; lia|rewrite all_digits_app, Hz, Hd; reflexivity].
        change ("0" ++ ?r) with (String "0" r).
        assert (Hv0 : digits_value 0 (String "0" (zeros (Z.to_nat (- (e + k))) ++ ds)) = s).
        { change (digits_value 0 (String "0" ?r)) with (digits_value 0 r).
          rewrite digits_value_app, Hzv, Hv. lia. }
        rewrite Hv0, Hs0, str_app_length, Hzl, <- Hdec. f_equal. lia.
      * (* exponent form, small *)
        destruct (Z.eqb_spec k 1) as [Hk1|Hk1].
        -- change (ds ++ "e" ++ ?r) with (ds ++ String "e" r).
           rewrite parse_unsigned_exp by (assumption || lia).
           rewrite Hvs, Hs0, read_exponent_printed, <- Hdec. f_equal. lia.
        -- destruct (take_drop_digits 1 ds ltac:(lia) Hd) as [Ht Hdr].
           change (str_take 1 ds ++ "." ++ str_drop 1 ds ++ "e" ++ ?r)
             with (str_take 1 ds ++ String "." (str_drop 1 ds ++ String "e" r)).
           rewrite parse_unsigned_point_exp;
             [|exact Ht|rewrite str_take_length; lia|exact Hdr].
           rewrite str_take_drop by lia.
           rewrite Hvs, Hs0, read_exponent_printed, str_drop_length, <- Hdec by lia.
           f_equal. lia.
Qed.

(** ** Numbers and other scalars can be read back from their JSON text *)

(** [parseFloat] undoes [Number::toString] on every double but [-0], which
    is printed as [0]. *)
Lemma parseFloat_Number_toString x :
  valid_binary prec emax x = true ->
  parseFloat (Number_toString x)
  = match x with S754_zero _ => S754_zero false | _ => x end.
Proof.
  intros Hv. destruct x as [sg|[|]| |[|] m e]; try reflexivity.
  - cbn [Number_toString]. change ("-" ++ toString_pos m e) with (String "-" (toString_pos m e)).
    rewrite parseFloat_minus. now apply parse_toString_pos.
  - cbn [Number_toString].
    destruct (toString_pos_head m e) as (c & r & Hs & Hc).
    rewrite Hs, (parseFloat_digit c r Hc), <- Hs. now apply parse_toString_pos.
Qed.

Lemma Quote_head s : exists r, Quote s = String (Ascii false true false false false true false false) r.
Proof. unfold Quote. eexists. reflexivity. Qed.

Lemma parseFloat_quoted r : parseFloat (String (Ascii false true false false false true false false) r) = S754_nan.
Proof.
  unfold parseFloat, trimStart.
  assert (H : forall fuel, strip_prefix fuel white_space (String (Ascii false true false false false true false false) r) = String (Ascii false true false false false true false false) r)
    by (intros [|fuel]; reflexivity).
  rewrite H. reflexivity.
Qed.

(** The JSON text of a scalar is that of its image. *)
Lemma stringify_json_image v : stringify (json_image v) = stringify v.
Proof. destruct v as [| | |[sg|sg| |sg m e]| | |]; reflexivity. Qed.

Lemma scalar_text v : scalar v = true -> exists t, stringify v = Some t.
Proof. destruct v as [| |[|]|x| | |]; try discriminate; intros _; eexists; reflexivity. Qed.

(** The text of a number that JSON writes as a number reads back as that
    number; no other text of a scalar reads as a number. *)
Lemma text_reads_back v t :
  scalar v = true -> stringify v = Some t ->
  match json_image v with
  | VNum x => parseFloat t = x /\ x <> S754_nan
  | _ => parseFloat t = S754_nan
  end.
Proof.
  intros Hs Ht. destruct v as [| |[|]|x| | |]; try discriminate Hs;
    cbn [stringify] in Ht; inversion Ht; subst t; clear Ht.
  - reflexivity.
  - reflexivity.
  - reflexivity.
  - cbn [scalar] in Hs. pose proof (parseFloat_Number_toString x Hs) as Hr.
    destruct x as [sg|sg| |sg m e]; cbn [json_image is_finite]; try reflexivity.
    + split; [exact Hr|discriminate].
    + split; [exact Hr|discriminate].
  - cbn [json_image]. destruct (Quote_head s) as [r Hq]. rewrite Hq.
    apply parseFloat_quoted.
Qed.

Lemma scalar_json_image v : scalar v = true -> scalar (json_image v) = true.
Proof. destruct v as [| | |[sg|sg| |sg m e]| | |]; try discriminate; intros H; try exact H; reflexivity. Qed.

Ltac split_facts :=
  repeat match goal with H : _ /\ _ |- _ => destruct H end.

(** Two scalars have the same JSON text exactly when they have the same
    image. *)
Lemma scalar_text_inj v v' :
  scalar v = true -> scalar v' = true ->
  stringify v = stringify v' -> json_image v = json_image v'.
Proof.
  intros Hs Hs' Heq.
  destruct (scalar_text v Hs) as [t Ht].
  assert (Ht' : stringify v' = Some t) by congruence.
  pose proof (text_reads_back v t Hs Ht) as Hr.
  pose proof (text_reads_back v' t Hs' Ht') as Hr'.
  pose proof (scalar_json_image v Hs) as Hsi.
  pose proof (scalar_json_image v' Hs') as Hsi'.
  rewrite <- (stringify_json_image v) in Ht.
  rewrite <- (stringify_json_image v') in Ht'.
  destruct (json_image v) as [| |b|x|s| |]; try discriminate Hsi;
    destruct (json_image v') as [| |b'|x'|s'| |]; try discriminate Hsi';
    split_facts; try congruence;
    cbn [stringify] in Ht, Ht'.
  - destruct b'; congruence.
  - destruct (Quote_head s') as [r Hq]. rewrite Hq in Ht'. congruence.
  - destruct b; congruence.
  - destruct b, b'; congruence.
  - destruct (Quote_head s') as [r Hq]. rewrite Hq in Ht'. destruct b; congruence.
  - destruct (Quote_head s) as [r Hq]. rewrite Hq in Ht. congruence.
  - destruct (Quote_head s) as [r Hq]. rewrite Hq in Ht. destruct b'; congruence.
  - f_equal. apply Quote_inj. congruence.
Qed.

(** ** C3: tampering with a hashed field *)

(** An edit of a hashed field changes the value at one position of the
    hashed projection. *)
Lemma hashed_edit_position E S S' d v v' :
  generateOrderHash E S = Ok d -> hashed_edit S S' v v' ->
  exists c, projection S = Ok (plug c v) /\ projection S' = Ok (plug c v').
Proof.
  intros Hg He.
  destruct (generateOrderHash_shape _ _ _ Hg) as (ps0 & items & key & p & HS & Hc & _ & Hp & _).
  destruct He as [k0 k v v' ps before after Hk0 Hl|f v' ps l1 line l2 Hf Hl];
    inversion HS; subst ps0; clear HS.
  - unfold projection, get in Hp. rewrite Hc in Hp. cbn [array_map bind] in Hp.
    destruct (mapM project_item items) as [lines|] eqn:Hm; [|discriminate Hp].
    now apply (inner_edit_position ps items lines k0 before k v v' after).
  - rewrite Hl in Hc. inversion Hc; subst items; clear Hc.
    unfold projection, get in Hp. rewrite Hl in Hp. cbn [array_map bind] in Hp.
    rewrite mapM_app in Hp.
    destruct (mapM project_item l1) as [p1|] eqn:H1; [|discriminate Hp].
    cbn [bind mapM] in Hp.
    destruct (project_item (VObj line)) as [pl|]; [|discriminate Hp].
    cbn [bind] in Hp.
    destruct (mapM project_item l2) as [p2|] eqn:H2; [|discriminate Hp].
    now apply (line_edit_position ps l1 line l2 p1 p2 f v').
Qed.

(** C3, amended: let [d] be the digest of [S] and let [S'] differ from [S]
    in one field of the hashed projection (a property of the address or of
    the pricing, or the product code, product name, price or size of a cart
    line), the old and the new value being scalars: [null], booleans,
    strings or numbers.  The change goes unnoticed exactly when
    [JSON.stringify] writes both values alike, that is when both are among
    [null], [NaN] and the infinities, or both are zeros: then [S'] verifies
    against [d].  Every other change, of a number into another number as
    well as of a string into another string, changes the hashed text, and
    verification of [S'] against [d] returns whether HMAC-SHA-256 maps the
    two different texts to the same digest. *)
Theorem tampering_changes_hashed_text E S S' d v v' :
  generateOrderHash E S = Ok d ->
  hashed_edit S S' v v' ->
  scalar v = true -> scalar v' = true ->
  (json_image v = json_image v' -> verifyOrderHash E S' (VStr d) = Ok true) /\
  (json_image v <> json_image v' ->
   exists key s s',
     SECRET_KEY E = Some key /\
     orderString S = Ok s /\ orderString S' = Ok s' /\ s <> s' /\
     verifyOrderHash E S' (VStr d)
     = Ok (hmac_sha256_hex key s' =? hmac_sha256_hex key s)%string).
Proof.
  intros Hg He Hs Hs'.
  destruct (hashed_edit_position E S S' d v v' Hg He) as (c & Hp & Hp').
  split.
  - intros Hi. apply (same_text_verifies E S S' d c v v' Hg Hp Hp').
    + now rewrite <- (stringify_json_image v), Hi, stringify_json_image.
    + destruct (scalar_text v Hs) as [t Ht]. congruence.
  - intros Hi.
    destruct (scalar_text v Hs) as [t Ht]. destruct (scalar_text v' Hs') as [t' Ht'].
    apply (changed_text_is_hashed E S S' d c v v' t t' Hg Hp Hp' Ht Ht').
    intros Heq. apply Hi. apply scalar_text_inj; congruence.
Qed.

Lemma tampering_changes_hashed_text_witness :
  let S := demo_summary demo_line demo_address in
  let S' := demo_summary_total (VNum (num_of_Z 1)) in
  exists key s s',
    SECRET_KEY demo_env = Some key /\
    orderString S = Ok s /\ orderString S' = Ok s' /\ s <> s' /\
    verifyOrderHash demo_env S' (VStr demo_digest)
    = Ok (hmac_sha256_hex key s' =? hmac_sha256_hex key s)%string.
Proof.
  cbv zeta.
  refine (proj2 (tampering_changes_hashed_text demo_env
            (demo_summary demo_line demo_address)
            (demo_summary_total (VNum (num_of_Z 1)))
            demo_digest (VNum (num_of_Z 720)) (VNum (num_of_Z 1))
            _ _ eq_refl eq_refl) _).
  - vm_compute. reflexivity.
  - exact (hashed_inner "pricing" "total" (VNum (num_of_Z 720)) (VNum (num_of_Z 1))
             [("cart", VArr [VObj demo_line]); ("address", demo_address);
              ("pricing", demo_pricing);
              ("orderDate", VStr "2024-05-01T10:00:00.000Z"); ("status", VStr "pending")]
             [("subtotal", VNum (num_of_Z 800)); ("discount", VNum (num_of_Z 80));
              ("delivery", VNum (num_of_Z 0))] [] (or_intror eq_refl) eq_refl).
  - vm_compute. discriminate.
Defined.

(** A digest computed before the total was lowered does not verify the
    changed order. *)
Example edited_total_fails_verification :
  verifyOrderHash demo_env (demo_summary_total (VNum (num_of_Z 1))) (VStr demo_digest)
  = Ok false.
Proof. vm_compute. reflexivity. Qed.

(** ** C4: the pricing formulas *)



(** ** C5: the four figures of the pricing object *)

Lemma enhance_price products item v :
  enhance products item = Ok v ->
  v = VNull \/ exists p, In p products /\ field v "price" = product_price p.
Proof.
  unfold enhance. destruct (get item "productCode") as [code|]; simpl; [|discriminate].
  destruct (find _ products) as [p|] eqn:Hf; [|intros H; inversion H; now left].
  apply find_some in Hf. destruct Hf as [Hin _].
  destruct (get item "size") as [size0|]; simpl; [|discriminate].
  match goal with |- context [negb ?b] => destruct (negb b) end;
    intros H; inversion H; [now left|].
  right. exists p. split; [exact Hin|reflexivity].
Qed.

Lemma mapM_Forall {A B} (f : A -> result B) (P : B -> Prop) l ys :
  mapM f l = Ok ys -> (forall x y, f x = Ok y -> P y) -> Forall P ys.
Proof.
  revert ys. induction l as [|a l IH]; simpl; intros ys H Hf.
  - inversion H. constructor.
  - destruct (f a) as [b|] eqn:Ha; simpl in H; [|discriminate].
    destruct (mapM f l) as [bs|]; simpl in H; [|discriminate].
    inversion H; subst. constructor; [now apply (Hf a)|now apply IH].
Qed.

Lemma add_price_nonneg sum item :
  nonneg sum = true -> price_nonneg (field item "price") = true ->
  nonneg (add_price sum item) = true.
Proof.
  intros Hs Hp. unfold add_price. apply num_add_nonneg; [exact Hs|].
  destruct (field item "price") as [| |?|x|?|?|?]; try reflexivity.
  simpl in Hp. destruct (isNaN x); [reflexivity|].
  simpl. now rewrite orb_false_r in Hp.
Qed.

Lemma subtotal_nonneg lines sum :
  nonneg sum = true ->
  Forall (fun l => price_nonneg (field l "price") = true) lines ->
  nonneg (fold_left add_price lines sum) = true.
Proof.
  intros Hs HF. revert sum Hs. induction HF as [|l lines Hl HF IH]; intros sum Hs.
  - exact Hs.
  - simpl. apply IH. now apply add_price_nonneg.
Qed.

(** C5, as stated, fails: with catalog prices 0.1 and 0.2 the subtotal is
    0.30000000000000004, which is not rounded to two decimals; with a
    catalog price of -1000 subtotal, discount and total are negative. *)
Lemma subtotal_is_neither_rounded_nor_nonnegative :
  (let r := checkout demo_env demo_catalog_fraction VNull
              (checkout_body [cart_line (VStr "A1") (VStr "M");
                              cart_line (VStr "B2") (VStr "M")] demo_address) in
   status r = 200 /\
   exists subtotal,
     field (field (field (json r) "order") "pricing") "subtotal" = VNum subtotal /\
     Number_toString subtotal = "0.30000000000000004" /\
     ~ is_rounded2 subtotal) /\
  (let r := checkout demo_env demo_catalog_negative VNull
              (checkout_body [cart_line (VStr "A1") (VStr "M")] demo_address) in
   status r = 200 /\
   field (field (json r) "order") "pricing"
   = VObj [("subtotal", VNum (num_of_Z (-1000))); ("discount", VNum (num_of_Z (-100)));
           ("delivery", VNum (num_of_Z 150)); ("total", VNum (num_of_Z (-750)))] /\
   nonneg (num_of_Z (-1000)) = false).
Proof.
  split; cbv zeta.
  - split; [vm_compute; reflexivity|].
    eexists. split; [vm_compute; reflexivity|]. split; [vm_compute; reflexivity|].
    unfold is_rounded2. vm_compute. discriminate.
  - by_evaluation.
Qed.

(** C5, amended: in every 200 answer of checkout, discount and total are
    produced by rounding to two decimals, the half-way case going away from
    zero ([toFixed(2)], read back by [parseFloat]), delivery is exactly 0
    or 150, and subtotal is the unrounded binary64 sum of the prices of the
    returned lines, a price that is not a number counting as 0.  When no
    catalog price is a negative number, subtotal, discount and delivery are
    non-negative, and so is total when subtotal is below [10 ^ 21]. *)
Theorem pricing_figures E catalog now b :
  status (checkout E catalog now b) = 200 ->
  exists lines subtotal discount delivery total,
    field (field (json (checkout E catalog now b)) "order") "cart" = VArr lines /\
    field (field (json (checkout E catalog now b)) "order") "pricing"
    = VObj [("subtotal", VNum subtotal); ("discount", VNum discount);
            ("delivery", VNum delivery); ("total", VNum total)] /\
    subtotal = fold_left add_price lines (S754_zero false) /\
    (delivery = num_of_Z 0 \/ delivery = num_of_Z 150) /\
    (fixed_range (num_mul subtotal (dec false 1 (-1))) = true ->
     discount = round2_spec (num_mul subtotal (dec false 1 (-1)))) /\
    (fixed_range (num_sub (num_add subtotal delivery) discount) = true ->
     total = round2_spec (num_sub (num_add subtotal delivery) discount)) /\
    (forallb (fun p => price_nonneg (product_price p)) catalog = true ->
     nonneg subtotal = true /\ nonneg discount = true /\ nonneg delivery = true /\
     (fixed_range subtotal = true -> nonneg total = true)).
Proof.
  intros H200.
  destruct (checkout_200_inv _ _ _ _ H200)
    as (items & codes & mapped & d & _ & _ & _ & _ & _ & _ & Hmapped & _ & _ & Heq).
  cbv zeta in Heq. rewrite Heq.
  eexists (filter truthy mapped), _, _, _, _.
  split; [reflexivity|]. split; [reflexivity|]. split; [reflexivity|].
  split; [destruct (num_gt _ _); [now left|now right]|].
  split; [intros Hr; now apply round2_correct|].
  split; [intros Hr; now apply round2_correct|].
  intros Hcat.
  assert (Hsub : nonneg (fold_left add_price (filter truthy mapped) (S754_zero false)) = true).
  { apply subtotal_nonneg; [reflexivity|].
    apply Forall_forall. intros l Hl. apply filter_In in Hl. destruct Hl as [Hl Ht].
    pose proof (mapM_Forall _ (fun v => v = VNull \/
                  exists p, In p (Product_find catalog codes) /\
                            field v "price" = product_price p) _ _ Hmapped
                  (enhance_price _)) as HF.
    rewrite Forall_forall in HF. destruct (HF l Hl) as [->|(p & Hp & ->)]; [discriminate|].
    unfold Product_find in Hp. apply filter_In in Hp. destruct Hp as [Hp _].
    rewrite forallb_forall in Hcat. now apply Hcat. }
  split; [exact Hsub|]. split; [|split].
  - apply round2_nonneg. now apply num_mul_tenth_nonneg.
  - destruct (num_gt _ _); reflexivity.
  - intros Hr. apply total_nonneg; try assumption; destruct (num_gt _ _); reflexivity.
Qed.

Lemma pricing_figures_witness :
  exists lines subtotal discount delivery total,
    field (field (json (checkout demo_env demo_catalog_fraction VNull
      (checkout_body [cart_line (VStr "A1") (VStr "M"); cart_line (VStr "B2") (VStr "M")]
                     demo_address))) "order") "cart" = VArr lines /\
    field (field (json (checkout demo_env demo_catalog_fraction VNull
      (checkout_body [cart_line (VStr "A1") (VStr "M"); cart_line (VStr "B2") (VStr "M")]
                     demo_address))) "order") "pricing"
    = VObj [("subtotal", VNum subtotal); ("discount", VNum discount);
            ("delivery", VNum delivery); ("total", VNum total)] /\
    subtotal = fold_left add_price lines (S754_zero false) /\
    (delivery = num_of_Z 0 \/ delivery = num_of_Z 150) /\
    (fixed_range (num_mul subtotal (dec false 1 (-1))) = true ->
     discount = round2_spec (num_mul subtotal (dec false 1 (-1)))) /\
    (fixed_range (num_sub (num_add subtotal delivery) discount) = true ->
     total = round2_spec (num_sub (num_add subtotal delivery) discount)) /\
    (forallb (fun p => price_nonneg (product_price p)) demo_catalog_fraction = true ->
     nonneg subtotal = true /\ nonneg discount = true /\ nonneg delivery = true /\
     (fixed_range subtotal = true -> nonneg total = true)).
Proof.
  refine (pricing_figures demo_env demo_catalog_fraction VNull _ _).
  vm_compute. reflexivity.
Defined.

(** ** The sanitizing middleware *)

(** Induction on a value, with the property at hand for every element of an
    array and every property value of an object. *)
Lemma value_nested_ind (P : value -> Prop) :
  P VUndefined -> P VNull -> (forall b, P (VBool b)) -> (forall x, P (VNum x)) ->
  (forall s, P (VStr s)) ->
  (forall items, Forall P items -> P (VArr items)) ->
  (forall props, Forall (fun kv => P (snd kv)) props -> P (VObj props)) ->
  forall v, P v.
Proof.
  intros Hu Hn Hb Hx Hs Ha Ho. fix IH 1. intros [| |b|x|s|items|props].
  - exact Hu.
  - exact Hn.
  - apply Hb.
  - apply Hx.
  - apply Hs.
  - apply Ha. revert items. fix IHl 1. intros [|v items].
    + constructor.
    + constructor; [apply IH | apply IHl].
  - apply Ho. revert props. fix IHl 1. intros [|[k v] props].
    + constructor.
    + constructor; [apply IH | apply IHl].
Qed.

Lemma map_Forall_ext {A B} (f g : A -> B) l :
  Forall (fun x => f x = g x) l -> map f l = map g l.
Proof. induction 1 as [|x l Hx _ IH]; simpl; [reflexivity|now rewrite Hx, IH]. Qed.

(** On an array or an object, [sanitizeObject] is [map_strings xss]; the
    elements of an array inside it are treated the same way. *)
Lemma sanitizeObject_deep xss v :
  (typeof v = "object" -> sanitizeObject xss v = map_strings xss v) /\
  (forall items, v = VArr items ->
     Forall (fun item => typeof item = "object" ->
                         sanitizeObject xss item = map_strings xss item) items).
Proof.
  induction v as [| |b|x|s|items IH|props IH] using value_nested_ind;
    try (split; [intros _; reflexivity | intros ? Hv; discriminate Hv]).
  - split; [intros Hv; discriminate Hv | intros ? Hv; discriminate Hv].
  - assert (Hitems : Forall (fun item => typeof item = "object" ->
                        sanitizeObject xss item = map_strings xss item) items).
    { eapply Forall_impl; [|exact IH]. intros item [H _]. exact H. }
    split; [|intros ? Hv; inversion Hv; subst; exact Hitems].
    intros _. cbn [sanitizeObject map_strings]. f_equal.
    apply map_Forall_ext. rewrite Forall_forall in IH |- *.
    intros v Hin. destruct (IH v Hin) as [Hv Hsub].
    destruct v as [| |b|x|s|inner|ps]; try reflexivity.
    + cbn [map_strings]. f_equal. apply map_Forall_ext.
      specialize (Hsub inner eq_refl). eapply Forall_impl; [|exact Hsub].
      intros item Hitem. destruct item; try reflexivity; apply Hitem; reflexivity.
    + apply Hv. reflexivity.
  - split; [|intros ? Hv; discriminate Hv].
    intros _. cbn [sanitizeObject map_strings]. f_equal.
    apply map_Forall_ext. rewrite Forall_forall in IH |- *.
    intros [k v] Hin. destruct (IH (k, v) Hin) as [Hv Hsub]. cbn [snd] in Hv, Hsub.
    f_equal.
    destruct v as [| |b|x|s|inner|ps]; try reflexivity.
    + cbn [map_strings]. f_equal. apply map_Forall_ext.
      specialize (Hsub inner eq_refl). eapply Forall_impl; [|exact Hsub].
      intros item Hitem. destruct item; try reflexivity; apply Hitem; reflexivity.
    + apply Hv. reflexivity.
Qed.

Lemma sanitizeObject_map_strings xss v :
  typeof v = "object" -> sanitizeObject xss v = map_strings xss v.
Proof. apply sanitizeObject_deep. Qed.

Lemma sanitizeRequest_map_strings xss b :
  typeof b = "object" -> sanitizeRequest xss b = map_strings xss b.
Proof.
  intros Hb. destruct b as [| |?|?|?|elems|props]; try discriminate Hb; try reflexivity.
  - cbn [sanitizeRequest truthy map_strings]. f_equal. apply map_ext.
    intros v. destruct v; try reflexivity; apply sanitizeObject_map_strings; reflexivity.
  - cbn [sanitizeRequest truthy map_strings]. f_equal. apply map_ext.
    intros [k v]. f_equal.
    destruct v; try reflexivity; apply sanitizeObject_map_strings; reflexivity.
Qed.

(** X1: [sanitizeRequest] replaces every string of an object or array body,
    at any depth, by its [xss] image and changes nothing else (keys,
    numbers, booleans, [null], the shape); a primitive body is left as it
    is. *)
Theorem sanitizeRequest_reaches_every_string xss b :
  sanitizeRequest xss b =
    match b with
    | VArr _ | VObj _ => map_strings xss b
    | _ => b
    end.
Proof.
  destruct b as [| |[|]|x|s|elems|props]; try reflexivity.
  - unfold sanitizeRequest. destruct (truthy (VNum x)); reflexivity.
  - unfold sanitizeRequest. destruct (truthy (VStr s)); reflexivity.
  - apply sanitizeRequest_map_strings. reflexivity.
  - apply sanitizeRequest_map_strings. reflexivity.
Qed.

Lemma map_strings_twice f v :
  (forall s, f (f s) = f s) -> map_strings f (map_strings f v) = map_strings f v.
Proof.
  intros Hf. induction v as [| |b|x|s|items IH|props IH] using value_nested_ind;
    try reflexivity.
  - cbn [map_strings]. now rewrite Hf.
  - cbn [map_strings]. f_equal. rewrite map_map. apply map_Forall_ext. exact IH.
  - cbn [map_strings]. f_equal. rewrite map_map. apply map_Forall_ext.
    eapply Forall_impl; [|exact IH]. intros [k v] Hv. cbn [snd] in Hv. now rewrite Hv.
Qed.

Lemma typeof_map_strings f v : typeof (map_strings f v) = typeof v.
Proof. destruct v; reflexivity. Qed.

Lemma demo_xss_twice s : demo_xss (demo_xss s) = demo_xss s.
Proof.
  induction s as [|c r IH]; [reflexivity|]. cbn [demo_xss].
  destruct (c =? "<")%char eqn:Hlt; [cbn; now rewrite IH|].
  destruct (c =? ">")%char eqn:Hgt; [cbn; now rewrite IH|].
  cbn [demo_xss]. now rewrite Hlt, Hgt, IH.
Qed.

(** X2: when [xss] is idempotent, so is the middleware: a body that went
    through it once (the address echoed by checkout, say) comes out of a
    second pass unchanged. *)
Theorem sanitizeRequest_idempotent xss b :
  (forall s, xss (xss s) = xss s) ->
  sanitizeRequest xss (sanitizeRequest xss b) = sanitizeRequest xss b.
Proof.
  intros Hx. destruct b as [| |[|]|x|s|elems|props]; try reflexivity.
  - unfold sanitizeRequest. destruct (truthy (VNum x)) eqn:Ht; rewrite ?Ht; reflexivity.
  - unfold sanitizeRequest. destruct (truthy (VStr s)) eqn:Ht; rewrite ?Ht; reflexivity.
  - rewrite (sanitizeRequest_map_strings xss (VArr elems)) by reflexivity.
    rewrite sanitizeRequest_map_strings by reflexivity.
    now apply map_strings_twice.
  - rewrite (sanitizeRequest_map_strings xss (VObj props)) by reflexivity.
    rewrite sanitizeRequest_map_strings by reflexivity.
    now apply map_strings_twice.
Qed.

Lemma sanitizeRequest_idempotent_witness :
  sanitizeRequest demo_xss
    (sanitizeRequest demo_xss
       (checkout_body [cart_line (VStr "<b>A1") (VStr "M")]
                      (VObj [("city", VStr "<i>Pune</i>")])))
  = sanitizeRequest demo_xss
      (checkout_body [cart_line (VStr "<b>A1") (VStr "M")]
                     (VObj [("city", VStr "<i>Pune</i>")])).
Proof. apply sanitizeRequest_idempotent. exact demo_xss_twice. Defined.

(** *** Sanitizing and the digest *)

Lemma lookup_map_strings f k ps :
  lookup k (map (fun kv => let '(k', x) := kv in (k', map_strings f x)) ps)
  = map_strings f (lookup k ps).
Proof.
  induction ps as [|[k' x] ps IH]; [reflexivity|]. cbn [map lookup].
  destruct (k' =? k)%string; [reflexivity|exact IH].
Qed.

Lemma get_map_strings f v k :
  get (map_strings f v) k = on_ok (map_strings f) (get v k).
Proof.
  destruct v; try reflexivity. cbn [map_strings get on_ok]. now rewrite lookup_map_strings.
Qed.

Lemma field_map_strings f v k :
  field (map_strings f v) k = map_strings f (field v k).
Proof. unfold field. rewrite get_map_strings. destruct (get v k); reflexivity. Qed.

Lemma project_item_map_strings f item :
  project_item (map_strings f item) = on_ok (map_strings f) (project_item item).
Proof.
  unfold project_item. rewrite !get_map_strings.
  destruct item; try reflexivity.
Qed.

Lemma mapM_map_strings f items :
  mapM project_item (map (map_strings f) items)
  = on_ok (map (map_strings f)) (mapM project_item items).
Proof.
  induction items as [|item items IH]; [reflexivity|]. cbn [map mapM].
  rewrite project_item_map_strings, IH.
  destruct (project_item item); [|reflexivity]. cbn [on_ok bind].
  destruct (mapM project_item items); reflexivity.
Qed.

(** The hashed projection of a sanitized order is the sanitized projection. *)
Lemma projection_map_strings f S :
  projection (map_strings f S) = on_ok (map_strings f) (projection S).
Proof.
  unfold projection. rewrite !get_map_strings.
  destruct S as [| |?|?|?|?|ps]; try reflexivity.
  cbn [get on_ok bind].
  destruct (lookup "cart" ps) as [| |?|?|?|items|?]; try reflexivity.
  cbn [map_strings array_map]. rewrite mapM_map_strings.
  destruct (mapM project_item items); reflexivity.
Qed.

Lemma verifyOrderHash_map_strings f E S d p :
  projection S = Ok p -> map_strings f p = p -> f d = d ->
  verifyOrderHash E (map_strings f S) (VStr (f d)) = verifyOrderHash E S (VStr d).
Proof.
  intros Hp Hfix Hd. unfold verifyOrderHash, generateOrderHash, orderString.
  rewrite projection_map_strings, Hp. cbn [on_ok]. now rewrite Hfix, Hd.
Qed.

Lemma projection_object S p :
  projection S = Ok p ->
  exists ps items lines,
    S = VObj ps /\ lookup "cart" ps = VArr items /\ mapM project_item items = Ok lines /\
    p = VObj [("cart", VArr lines); ("address", lookup "address" ps);
              ("pricing", lookup "pricing" ps)].
Proof.
  unfold projection. intros H.
  destruct S as [| |?|?|?|?|ps]; try discriminate H. cbn [get bind] in H.
  destruct (lookup "cart" ps) as [| |?|?|?|items|?] eqn:Hc; try discriminate H.
  cbn [array_map] in H. destruct (mapM project_item items) as [lines|] eqn:Hl;
    [|discriminate H].
  cbn [bind] in H. inversion H. exists ps, items, lines. repeat split; assumption.
Qed.

Lemma sanitized_save_body xss S d :
  typeof S = "object" ->
  sanitizeRequest xss (save_body S d) = save_body (map_strings xss S) (xss d).
Proof.
  intros HS. unfold save_body. rewrite sanitizeRequest_map_strings by reflexivity.
  reflexivity.
Qed.

(** X3: the middleware does not break the integrity check when [xss]
    leaves the hashed strings alone.  For an order [S] that verifies against
    [d], with address and pricing present: if [xss] changes no string of the
    hashed projection of [S] and does not change [d], then save-order, run on
    the sanitized body, passes verification and saves the sanitized order. *)
Theorem sanitizing_preserves_verification
    xss E store (Order_save : store -> value -> result (store * value)) st S d p :
  verifyOrderHash E S (VStr d) = Ok true ->
  projection S = Ok p -> map_strings xss p = p -> xss d = d ->
  truthy (field S "address") = true -> truthy (field S "pricing") = true ->
  save_order E store Order_save st (sanitizeRequest xss (save_body S d)) =
    match Order_save st (map_strings xss S) with
    | Ok (st', newId) =>
        (st', reply 200 [("success", VBool true);
                         ("message", VStr "Order saved successfully");
                         ("orderId", newId)])
    | Throw err =>
        (st, reply 500 [("success", VBool false);
                        ("message", VStr "Server error saving order");
                        ("error", VStr (exn_message err))])
    end.
Proof.
  intros Hv Hp Hfix Hd Ha Hpr.
  destruct (projection_object S p Hp) as (ps & items & lines & -> & Hc & Hl & Hpeq).
  assert (Hparts : map_strings xss (lookup "address" ps) = lookup "address" ps /\
                   map_strings xss (lookup "pricing" ps) = lookup "pricing" ps).
  { subst p. cbn [map_strings map] in Hfix. inversion Hfix as [[H1 H2 H3]].
    rewrite !H2, !H3. split; reflexivity. }
  destruct Hparts as [Haddr Hpric].
  assert (Hne : truthy (VStr d) = true).
  { unfold verifyOrderHash in Hv.
    destruct (generateOrderHash E (VObj ps)) as [c|] eqn:Hg; [|discriminate Hv].
    cbn [bind strict_eq_str] in Hv.
    assert (Heq : (c =? d)%string = true) by congruence.
    apply String.eqb_eq in Heq. subst d. exact (generateOrderHash_truthy _ _ _ Hg). }
  rewrite sanitized_save_body by reflexivity.
  pose proof (verifyOrderHash_map_strings xss E (VObj ps) d p Hp Hfix Hd) as Hv'.
  rewrite Hv in Hv'. rewrite Hd in *.
  unfold save_order, save_order_try, save_body.
  cbn [get lookup String.eqb Ascii.eqb Bool.eqb bind].
  rewrite Hne. cbn [map_strings].
  change (truthy (VObj ?x)) with true.
  cbn [negb orb typeof String.eqb Ascii.eqb Bool.eqb].
  cbn [get bind]. rewrite !lookup_map_strings, Hc, Haddr, Hpric.
  cbn [map_strings]. change (truthy (VArr ?x)) with true.
  cbn [field get] in Ha, Hpr. rewrite Ha, Hpr. cbn [isArray negb orb].
  change (VObj (map (fun kv => let '(k, x) := kv in (k, map_strings xss x)) ps))
    with (map_strings xss (VObj ps)).
  rewrite Hv'. cbn [bind negb].
  destruct (Order_save st (map_strings xss (VObj ps))) as [[st' newId]|err]; reflexivity.
Qed.

Lemma sanitizing_preserves_verification_witness :
  save_order demo_env list_store list_save []
    (sanitizeRequest demo_xss (save_body demo_summary_markup demo_digest)) =
  match list_save [] (map_strings demo_xss demo_summary_markup) with
  | Ok (st', newId) =>
      (st', reply 200 [("success", VBool true);
                       ("message", VStr "Order saved successfully");
                       ("orderId", newId)])
  | Throw err =>
      ([], reply 500 [("success", VBool false);
                      ("message", VStr "Server error saving order");
                      ("error", VStr (exn_message err))])
  end.
Proof.
  eapply (sanitizing_preserves_verification demo_xss demo_env list_store list_save []
            demo_summary_markup demo_digest);
    vm_compute; reflexivity.
Defined.

(** ** C10: fields outside the hashed projection *)

Lemma projection_fixed_parts f S p :
  projection S = Ok p -> map_strings f p = p ->
  map_strings f (field S "address") = field S "address" /\
  map_strings f (field S "pricing") = field S "pricing".
Proof.
  intros Hp Hfix.
  destruct (projection_object S p Hp) as (ps & items & lines & -> & _ & _ & ->).
  cbn [map_strings map] in Hfix. inversion Hfix as [[H1 H2 H3]].
  cbn [field get]. rewrite !H2, !H3. split; reflexivity.
Qed.

(** C10, as stated, fails on the route: the sanitizing middleware runs
    before save-order.  With markup in a hashed string (a product name
    "Shirt <XL>") an order in which only the status was edited still
    verifies against the digest, and the handler alone would save it, but
    the route sees the sanitized order and refuses it with 400; with markup
    in an excluded property the order is saved, but rewritten, not as
    submitted. *)
Lemma excluded_edit_refused_behind_sanitizer :
  generateOrderHash demo_env demo_summary_angle = Ok demo_digest_angle /\
  excluded_edit demo_summary_angle demo_summary_angle_paid /\
  verifyOrderHash demo_env demo_summary_angle_paid (VStr demo_digest_angle) = Ok true /\
  save_order demo_env list_store list_save []
    (save_body demo_summary_angle_paid demo_digest_angle)
  = ([demo_summary_angle_paid],
     reply 200 [("success", VBool true); ("message", VStr "Order saved successfully");
                ("orderId", VNum (num_of_Z 0))]) /\
  save_order demo_env list_store list_save []
    (sanitizeRequest demo_xss (save_body demo_summary_angle_paid demo_digest_angle))
  = ([], reply 400 [("success", VBool false); ("message", VStr verification_failed)]) /\
  fst (save_order demo_env list_store list_save []
         (sanitizeRequest demo_xss (save_body demo_summary_markup demo_digest)))
  = [map_strings demo_xss demo_summary_markup] /\
  map_strings demo_xss demo_summary_markup <> demo_summary_markup.
Proof.
  split; [vm_compute; reflexivity|].
  split; [exact (edit_top "status" (VStr "paid") _ eq_refl)|].
  split; [vm_compute; reflexivity|].
  split; [vm_compute; reflexivity|].
  split; [vm_compute; reflexivity|].
  split; [vm_compute; reflexivity|].
  vm_compute. discriminate.
Qed.

(** C10, amended: editing only properties outside the hashed projection
    (orderDate, status, a line's imageUrl or _id) leaves verification
    against the original digest true.  Behind the sanitizing middleware
    save-order accepts the edited order when [xss] changes no string of the
    hashed projection and does not change the digest, and what it hands to
    the order collection is the sanitized order: the order as submitted
    only when [xss] changes none of its strings. *)
Theorem excluded_edits_verify_and_are_saved_sanitized
    xss E S S' d store (Order_save : store -> value -> result (store * value)) st :
  generateOrderHash E S = Ok d ->
  excluded_edit S S' ->
  verifyOrderHash E S' (VStr d) = Ok true /\
  (forall p,
     truthy (field S "address") = true -> truthy (field S "pricing") = true ->
     projection S = Ok p -> map_strings xss p = p -> xss d = d ->
     save_order E store Order_save st (sanitizeRequest xss (save_body S' d)) =
       match Order_save st (map_strings xss S') with
       | Ok (st', newId) =>
           (st', reply 200 [("success", VBool true);
                            ("message", VStr "Order saved successfully");
                            ("orderId", newId)])
       | Throw err =>
           (st, reply 500 [("success", VBool false);
                           ("message", VStr "Server error saving order");
                           ("error", VStr (exn_message err))])
       end) /\
  (map_strings xss S' = S' -> map_strings xss (VStr d) = VStr d ->
   sanitizeRequest xss (save_body S' d) = save_body S' d).
Proof.
  intros Hg He.
  assert (Hproj : projection S' = projection S) by exact (excluded_edit_projection _ _ He).
  assert (Hg' : generateOrderHash E S' = Ok d).
  { unfold generateOrderHash, orderString in *. now rewrite Hproj. }
  assert (Hv : verifyOrderHash E S' (VStr d) = Ok true) by now apply verify_own_digest.
  assert (Hobj : typeof S' = "object").
  { destruct (generateOrderHash_shape _ _ _ Hg') as (ps & its & key & q & -> & _). reflexivity. }
  split; [exact Hv|]. split.
  - intros p Ha Hpr Hp Hfix Hd.
    rewrite <- Hproj in Hp.
    destruct (projection_fixed_parts xss S' p Hp Hfix) as [Haddr Hpric].
    rewrite sanitized_save_body by exact Hobj. rewrite Hd.
    apply save_order_verified.
    + rewrite <- Hd at 1. rewrite (verifyOrderHash_map_strings xss E S' d p Hp Hfix Hd).
      exact Hv.
    + rewrite field_map_strings, Haddr.
      rewrite (excluded_edit_field _ _ "address" He); [exact Ha|reflexivity|discriminate].
    + rewrite field_map_strings, Hpric.
      rewrite (excluded_edit_field _ _ "pricing" He); [exact Hpr|reflexivity|discriminate].
  - intros HS Hd. rewrite sanitized_save_body by exact Hobj.
    cbn [map_strings] in Hd. inversion Hd as [Hd']. now rewrite HS, !Hd'.
Qed.

Lemma excluded_edits_verify_and_are_saved_sanitized_witness :
  verifyOrderHash demo_env demo_summary_edited (VStr demo_digest) = Ok true /\
  (forall p,
     truthy (field (demo_summary demo_line demo_address) "address") = true ->
     truthy (field (demo_summary demo_line demo_address) "pricing") = true ->
     projection (demo_summary demo_line demo_address) = Ok p ->
     map_strings demo_xss p = p -> demo_xss demo_digest = demo_digest ->
     save_order demo_env list_store list_save []
       (sanitizeRequest demo_xss (save_body demo_summary_edited demo_digest)) =
       match list_save [] (map_strings demo_xss demo_summary_edited) with
       | Ok (st', newId) =>
           (st', reply 200 [("success", VBool true);
                            ("message", VStr "Order saved successfully");
                            ("orderId", newId)])
       | Throw err =>
           ([], reply 500 [("success", VBool false);
                           ("message", VStr "Server error saving order");
                           ("error", VStr (exn_message err))])
       end) /\
  (map_strings demo_xss demo_summary_edited = demo_summary_edited ->
   map_strings demo_xss (VStr demo_digest) = VStr demo_digest ->
   sanitizeRequest demo_xss (save_body demo_summary_edited demo_digest)
   = save_body demo_summary_edited demo_digest).
Proof.
  apply (excluded_edits_verify_and_are_saved_sanitized demo_xss demo_env
           (demo_summary demo_line demo_address) demo_summary_edited demo_digest
           list_store list_save []).
  - vm_compute. reflexivity.
  - exact demo_summary_edit.
Defined.

(** ** The Authorization header *)

Lemma split_acc_segment sep a b cur :
  lacks sep a = true ->
  split_acc sep (a ++ String sep b) cur = (str_rev cur ++ a) :: split_acc sep b EmptyString.
Proof.
  revert cur. induction a as [|c a IH]; intros cur Ha.
  - cbn [append split_acc]. rewrite Ascii.eqb_refl. now rewrite str_app_nil_r.
  - cbn [lacks all_chars] in Ha. apply andb_prop in Ha. destruct Ha as [Hc Ha].
    cbn [append split_acc]. apply negb_true_iff in Hc. rewrite Hc.
    rewrite (IH (String c cur) Ha). cbn [str_rev]. now rewrite str_app_assoc.
Qed.

Lemma split_acc_last sep a cur :
  lacks sep a = true -> split_acc sep a cur = [str_rev cur ++ a].
Proof.
  revert cur. induction a as [|c a IH]; intros cur Ha.
  - cbn [split_acc]. now rewrite str_app_nil_r.
  - cbn [lacks all_chars] in Ha. apply andb_prop in Ha. destruct Ha as [Hc Ha].
    cbn [split_acc]. apply negb_true_iff in Hc. rewrite Hc.
    rewrite (IH (String c cur) Ha). cbn [str_rev]. now rewrite str_app_assoc.
Qed.

Lemma second_segment scheme tok tail :
  lacks " " scheme = true -> lacks " " tok = true ->
  tail = EmptyString \/ (exists t, tail = String " " t) ->
  nth_error (split " " (scheme ++ String " " (tok ++ tail))) 1 = Some tok.
Proof.
  intros Hs Ht Htail. unfold split. rewrite split_acc_segment by exact Hs.
  cbn [nth_error]. destruct Htail as [-> | [t ->]].
  - rewrite str_app_nil_r, split_acc_last by exact Ht. reflexivity.
  - rewrite split_acc_segment by exact Ht. reflexivity.
Qed.

Lemma header_truthy a b : truthy (VStr (a ++ String " " b)) = true.
Proof. destruct a; reflexivity. Qed.

(** X4: [authenticateJWT] reads the second space-separated segment of the
    header and nothing else: the scheme word is not compared with "Bearer",
    and whatever follows the token after a space is ignored.  A header
    [scheme token tail] is treated exactly as [Bearer token]. *)
Theorem authenticateJWT_reads_second_segment jwt_verify E scheme tok tail b :
  lacks " " scheme = true -> lacks " " tok = true ->
  tail = EmptyString \/ (exists t, tail = String " " t) ->
  authenticateJWT jwt_verify E (with_header (scheme ++ " " ++ tok ++ tail) b)
  = authenticateJWT jwt_verify E (with_header ("Bearer " ++ tok) b).
Proof.
  intros Hs Ht Htail. unfold authenticateJWT, with_header. cbn [authorization].
  change (scheme ++ " " ++ tok ++ tail) with (scheme ++ String " " (tok ++ tail)).
  replace ("Bearer " ++ tok) with ("Bearer" ++ String " " (tok ++ EmptyString))
    by (now rewrite str_app_nil_r).
  rewrite !header_truthy. cbn [negb].
  rewrite (second_segment scheme tok tail Hs Ht Htail).
  rewrite (second_segment "Bearer" tok EmptyString eq_refl Ht (or_introl eq_refl)).
  reflexivity.
Qed.

Lemma authenticateJWT_reads_second_segment_witness :
  authenticateJWT demo_jwt_verify demo_env (with_header ("Basic" ++ " " ++ "h.c1.j" ++ " x y") VNull)
  = authenticateJWT demo_jwt_verify demo_env (with_header ("Bearer " ++ "h.c1.j") VNull).
Proof.
  apply (authenticateJWT_reads_second_segment demo_jwt_verify demo_env "Basic" "h.c1.j" " x y" VNull).
  - reflexivity.
  - reflexivity.
  - right. exists "x y". reflexivity.
Defined.

(** ** The secret key and the shape of a digest *)

(** What save-order can answer: 200 after a verified order was saved, and
    400 or 500 with the collection untouched. *)
Lemma save_order_inv E store (Order_save : store -> value -> result (store * value)) st b :
  (fst (save_order E store Order_save st b) = st /\
   (status (snd (save_order E store Order_save st b)) = 400 \/
    status (snd (save_order E store Order_save st b)) = 500)) \/
  (exists order hash st' newId,
     get b "order" = Ok order /\ get b "orderHash" = Ok hash /\
     verifyOrderHash E order hash = Ok true /\
     Order_save st order = Ok (st', newId) /\
     save_order E store Order_save st b =
       (st', reply 200 [("success", VBool true);
                        ("message", VStr "Order saved successfully");
                        ("orderId", newId)])).
Proof.
  unfold save_order, save_order_try.
  destruct (get b "order") as [order|] eqn:Ho; cbn [bind]; [|left; split; [reflexivity|now right]].
  destruct (get b "orderHash") as [hash|] eqn:Hh; cbn [bind];
    [|left; split; [reflexivity|now right]].
  destruct (negb (truthy order) || negb (truthy hash) || negb (typeof hash =? "string")%string);
    [left; split; [reflexivity|now left]|].
  destruct (get order "cart") as [cart|]; cbn [bind]; [|left; split; [reflexivity|now right]].
  destruct (get order "address") as [address|]; cbn [bind];
    [|left; split; [reflexivity|now right]].
  destruct (get order "pricing") as [pricing|]; cbn [bind];
    [|left; split; [reflexivity|now right]].
  destruct (negb (truthy cart) || negb (isArray cart) || negb (truthy address)
            || negb (truthy pricing)); [left; split; [reflexivity|now left]|].
  destruct (verifyOrderHash E order hash) as [[|]|] eqn:Hv; cbn [bind negb];
    [|left; split; [reflexivity|now left]|left; split; [reflexivity|now right]].
  destruct (Order_save st order) as [[st' newId]|] eqn:Hs; cbn [bind];
    [|left; split; [reflexivity|now right]].
  right. exists order, hash, st', newId.
  split; [reflexivity|]. split; [reflexivity|]. split; [exact Hv|]. split; [exact Hs|].
  reflexivity.
Qed.

Lemma verifyOrderHash_true E S h :
  verifyOrderHash E S h = Ok true ->
  exists d, h = VStr d /\ generateOrderHash E S = Ok d.
Proof.
  unfold verifyOrderHash. destruct (generateOrderHash E S) as [c|]; [|discriminate].
  cbn [bind]. destruct h as [| |?|?|d|?|?]; cbn [strict_eq_str]; try discriminate.
  intros H. assert (Heq : (c =? d)%string = true) by congruence.
  apply String.eqb_eq in Heq. subst. now exists d.
Qed.

(** X5: without SECRET_KEY in the environment no order can be placed:
    checkout never answers 200, and save-order never answers 200 and never
    changes the order collection, whatever the request. *)
Theorem no_secret_no_order E :
  SECRET_KEY E = None ->
  (forall catalog now b, status (checkout E catalog now b) <> 200) /\
  (forall store (Order_save : store -> value -> result (store * value)) st b,
     fst (save_order E store Order_save st b) = st /\
     status (snd (save_order E store Order_save st b)) <> 200).
Proof.
  intros HE. split.
  - intros catalog now b H.
    destruct (checkout_200_inv E catalog now b H)
      as (items & codes & mapped & d & _ & _ & _ & _ & _ & _ & _ & _ & Hd & _).
    destruct (generateOrderHash_shape _ _ _ Hd) as (ps & its & key & p & _ & _ & Hk & _).
    congruence.
  - intros store Order_save st b.
    destruct (save_order_inv E store Order_save st b)
      as [[Hst [Hs|Hs]] | (order & hash & st' & newId & _ & _ & Hv & _)].
    + split; [exact Hst|]. rewrite Hs. discriminate.
    + split; [exact Hst|]. rewrite Hs. discriminate.
    + exfalso. destruct (verifyOrderHash_true _ _ _ Hv) as (d & _ & Hd).
      destruct (generateOrderHash_shape _ _ _ Hd) as (ps & its & key & p & _ & _ & Hk & _).
      congruence.
Qed.

Lemma no_secret_no_order_witness :
  (forall catalog now b,
     status (checkout {| SECRET_KEY := None; JWT_SECRET := Some "j" |} catalog now b) <> 200) /\
  (forall store (Order_save : store -> value -> result (store * value)) st b,
     fst (save_order {| SECRET_KEY := None; JWT_SECRET := Some "j" |} store Order_save st b) = st /\
     status (snd (save_order {| SECRET_KEY := None; JWT_SECRET := Some "j" |}
                    store Order_save st b)) <> 200).
Proof.
  apply (no_secret_no_order {| SECRET_KEY := None; JWT_SECRET := Some "j" |}). reflexivity.
Defined.

(** *** Digests are 64 lower-case hexadecimal characters *)

Lemma blocks_length fuel h ws :
  List.length h = 8%nat -> List.length (Sha256.blocks fuel h ws) = 8%nat.
Proof.
  revert h ws. induction fuel as [|fuel IH]; intros h ws Hh; [exact Hh|].
  cbn [Sha256.blocks]. destruct ws as [|w ws]; [exact Hh|].
  apply IH. reflexivity.
Qed.

Lemma be_bytes_length n x : List.length (Sha256.be_bytes n x) = n.
Proof. induction n as [|n IH]; cbn [Sha256.be_bytes List.length]; [reflexivity|now rewrite IH]. Qed.

Lemma be_bytes_range n x : Forall (fun b => 0 <= b < 256) (Sha256.be_bytes n x).
Proof.
  induction n as [|n IH]; cbn [Sha256.be_bytes]; constructor; [|exact IH].
  apply Z.mod_pos_bound. lia.
Qed.

Lemma flat_map_be_bytes_length ws :
  List.length (flat_map (Sha256.be_bytes 4) ws) = (4 * List.length ws)%nat.
Proof.
  induction ws as [|w ws IH]; [reflexivity|].
  cbn [flat_map]. rewrite length_app, be_bytes_length, IH. cbn [List.length]. lia.
Qed.

Lemma flat_map_be_bytes_range ws :
  Forall (fun b => 0 <= b < 256) (flat_map (Sha256.be_bytes 4) ws).
Proof.
  induction ws as [|w ws IH]; [constructor|].
  cbn [flat_map]. apply Forall_app. split; [apply be_bytes_range|exact IH].
Qed.

Lemma sha256_length msg : List.length (Sha256.sha256 msg) = 32%nat.
Proof.
  unfold Sha256.sha256. rewrite flat_map_be_bytes_length, blocks_length; reflexivity.
Qed.

Lemma sha256_range msg : Forall (fun b => 0 <= b < 256) (Sha256.sha256 msg).
Proof. unfold Sha256.sha256. apply flat_map_be_bytes_range. Qed.

Lemma hex_digit_lower d : 0 <= d < 16 -> is_hex_lower (hex_digit d) = true.
Proof.
  intros Hd.
  assert (H : d = 0 \/ d = 1 \/ d = 2 \/ d = 3 \/ d = 4 \/ d = 5 \/ d = 6 \/ d = 7 \/
              d = 8 \/ d = 9 \/ d = 10 \/ d = 11 \/ d = 12 \/ d = 13 \/ d = 14 \/ d = 15)
    by lia.
  repeat (destruct H as [-> | H]; [reflexivity|]). subst d. reflexivity.
Qed.

Lemma hex_of_bytes_length bs :
  String.length (hex_of_bytes bs) = (2 * List.length bs)%nat.
Proof.
  induction bs as [|b bs IH]; [reflexivity|].
  cbn [hex_of_bytes String.length List.length]. rewrite IH. lia.
Qed.

Lemma hex_of_bytes_lower bs :
  Forall (fun b => 0 <= b < 256) bs -> all_chars is_hex_lower (hex_of_bytes bs) = true.
Proof.
  induction 1 as [|b bs Hb _ IH]; [reflexivity|].
  cbn [hex_of_bytes all_chars]. rewrite IH.
  rewrite !hex_digit_lower; [reflexivity| |].
  - apply Z.mod_pos_bound. lia.
  - split; [apply Z.div_pos; lia|apply Z.div_lt_upper_bound; lia].
Qed.

Lemma hmac_hex_shape key msg :
  String.length (hmac_sha256_hex key msg) = 64%nat /\
  all_chars is_hex_lower (hmac_sha256_hex key msg) = true.
Proof.
  unfold hmac_sha256_hex, Sha256.hmac. split.
  - rewrite hex_of_bytes_length, sha256_length. reflexivity.
  - apply hex_of_bytes_lower, sha256_range.
Qed.

(** X6: every digest [generateOrderHash] returns is a string of 64
    lower-case hexadecimal characters, and [verifyOrderHash] accepts no
    other value: a hash that is not a string, or that is written in upper
    case or truncated, is rejected. *)
Theorem verified_hash_is_lowercase_hex E S h :
  verifyOrderHash E S h = Ok true ->
  exists d, h = VStr d /\ generateOrderHash E S = Ok d /\
            String.length d = 64%nat /\ all_chars is_hex_lower d = true.
Proof.
  intros Hv. destruct (verifyOrderHash_true _ _ _ Hv) as (d & -> & Hd).
  exists d. split; [reflexivity|]. split; [exact Hd|].
  destruct (generateOrderHash_shape _ _ _ Hd) as (ps & its & key & p & _ & _ & _ & _ & ->).
  apply hmac_hex_shape.
Qed.

Lemma verified_hash_is_lowercase_hex_witness :
  exists d, VStr demo_digest = VStr d /\
            generateOrderHash demo_env (demo_summary demo_line demo_address) = Ok d /\
            String.length d = 64%nat /\ all_chars is_hex_lower d = true.
Proof.
  apply (verified_hash_is_lowercase_hex demo_env (demo_summary demo_line demo_address)
           (VStr demo_digest)).
  vm_compute. reflexivity.
Defined.

(** ** What the handlers read of a request *)

Lemma project_item_null item :
  is_line item = false -> exists e, project_item item = Throw e.
Proof. destruct item; try discriminate; intros _; eexists; reflexivity. Qed.

(** X7: a submitted order whose cart holds [null] (or a missing element)
    passes the field checks of save-order and then fails inside
    [generateOrderHash]: the answer is 500, not 400, and nothing is
    saved. *)
Theorem save_order_null_line_is_500
    E store (Order_save : store -> value -> result (store * value)) st ps items hash :
  truthy (VStr hash) = true ->
  lookup "cart" ps = VArr items ->
  truthy (lookup "address" ps) = true -> truthy (lookup "pricing" ps) = true ->
  Exists (fun item => is_line item = false) items ->
  fst (save_order E store Order_save st (save_body (VObj ps) hash)) = st /\
  status (snd (save_order E store Order_save st (save_body (VObj ps) hash))) = 500.
Proof.
  intros Hh Hc Ha Hp Hnull.
  assert (Hthrow : exists e, verifyOrderHash E (VObj ps) (VStr hash) = Throw e).
  { destruct (mapM_throws project_item items) as [e He].
    - eapply Exists_impl; [|exact Hnull]. intros item. apply project_item_null.
    - exists e. unfold verifyOrderHash, generateOrderHash, orderString, projection.
      cbn [get bind]. rewrite Hc. cbn [array_map]. rewrite He. reflexivity. }
  destruct Hthrow as [e He].
  unfold save_order, save_order_try, save_body.
  cbn [get lookup String.eqb Ascii.eqb Bool.eqb bind].
  rewrite Hh. change (truthy (VObj ps)) with true.
  cbn [negb orb typeof String.eqb Ascii.eqb Bool.eqb].
  rewrite Hc, Ha, Hp. change (truthy (VArr items)) with true.
  cbn [isArray negb orb]. rewrite He. cbn [bind]. split; reflexivity.
Qed.

Lemma save_order_null_line_is_500_witness :
  fst (save_order demo_env list_store list_save []
         (save_body (VObj [("cart", VArr [VObj demo_line; VNull]);
                           ("address", demo_address); ("pricing", demo_pricing)])
                    demo_digest)) = [] /\
  status (snd (save_order demo_env list_store list_save []
         (save_body (VObj [("cart", VArr [VObj demo_line; VNull]);
                           ("address", demo_address); ("pricing", demo_pricing)])
                    demo_digest))) = 500.
Proof.
  apply (save_order_null_line_is_500 demo_env list_store list_save []
           [("cart", VArr [VObj demo_line; VNull]);
            ("address", demo_address); ("pricing", demo_pricing)]
           [VObj demo_line; VNull] demo_digest).
  - reflexivity.
  - reflexivity.
  - reflexivity.
  - reflexivity.
  - apply Exists_cons_tl. apply Exists_cons_hd. reflexivity.
Defined.

Lemma productCode_of_same a b : same_line a b -> productCode_of a = productCode_of b.
Proof. intros [H _]. unfold productCode_of. now rewrite H. Qed.

Lemma enhance_same products a b : same_line a b -> enhance products a = enhance products b.
Proof. intros [H1 H2]. unfold enhance. now rewrite H1, H2. Qed.

(** X8: checkout takes nothing from the request but the product code and
    the size of each line and the address: two requests that agree on
    these get the same answer, so a price, a name or a pricing object sent
    by the client has no effect on the summary or its digest. *)
Theorem checkout_ignores_client_prices E catalog now b b' items items' :
  field b "cart" = VArr items -> field b' "cart" = VArr items' ->
  Forall2 same_line items items' ->
  field b "address" = field b' "address" ->
  checkout E catalog now b = checkout E catalog now b'.
Proof.
  intros Hc Hc' Hlines Ha. unfold checkout. rewrite Hc, Hc', <- Ha.
  cbn [array_length]. rewrite (Forall2_length Hlines).
  unfold checkout_try.
  rewrite (mapM_Forall2 same_line productCode_of items items' Hlines productCode_of_same).
  destruct (mapM productCode_of items') as [codes|]; [|reflexivity]. cbn [bind].
  rewrite (mapM_Forall2 same_line (enhance (Product_find catalog codes)) items items' Hlines
             (enhance_same _)).
  reflexivity.
Qed.

Lemma checkout_ignores_client_prices_witness :
  checkout demo_env demo_catalog (VStr "2024-05-01T10:00:00.000Z")
    (VObj [("cart", VArr [VObj [("productCode", VStr "A1"); ("size", VStr "M");
                                ("price", VNum (num_of_Z 1))]]);
           ("address", demo_address);
           ("pricing", VObj [("total", VNum (num_of_Z 1))])])
  = checkout demo_env demo_catalog (VStr "2024-05-01T10:00:00.000Z")
      (checkout_body [cart_line (VStr "A1") (VStr "M")] demo_address).
Proof.
  apply (checkout_ignores_client_prices demo_env demo_catalog _ _ _
           [VObj [("productCode", VStr "A1"); ("size", VStr "M");
                  ("price", VNum (num_of_Z 1))]]
           [cart_line (VStr "A1") (VStr "M")]).
  - reflexivity.
  - reflexivity.
  - apply Forall2_cons; [split; reflexivity|apply Forall2_nil].
  - reflexivity.
Defined.

(** ** [trim] *)

Lemma prefix_split w s :
  prefix w s = true -> s = w ++ str_drop (String.length w) s.
Proof.
  revert w. induction s as [|b s IH]; intros w H.
  - destruct w; [reflexivity|discriminate H].
  - destruct w as [|a w].
    + unfold str_drop. cbn [String.length append]. rewrite Nat.sub_0_r.
      symmetry. apply (substring_all (String b s)).
    + cbn [prefix] in H. destruct (ascii_dec a b) as [->|]; [|discriminate].
      unfold str_drop. cbn [String.length substring append]. rewrite Nat.sub_succ.
      f_equal. exact (IH w H).
Qed.

Lemma prefix_nil s : prefix EmptyString s = true.
Proof. destruct s; reflexivity. Qed.

Lemma prefix_app w a q : prefix w a = true -> prefix w (a ++ q) = true.
Proof.
  revert w. induction a as [|b a IH]; intros w H.
  - destruct w; [apply prefix_nil|discriminate H].
  - destruct w as [|c w]; [reflexivity|].
    cbn [prefix append] in *. destruct (ascii_dec c b); [|discriminate]. now apply IH.
Qed.

Lemma find_prefix_some seps s w :
  find (fun w => prefix w s) seps = Some w -> In w seps /\ prefix w s = true.
Proof. intros H. apply find_some in H. exact H. Qed.

(** No string of [seps] starts [s]. *)
Lemma strip_prefix_fixed fuel seps s :
  find (fun w => prefix w s) seps = None -> strip_prefix fuel seps s = s.
Proof. intros H. destruct fuel; cbn [strip_prefix]; [reflexivity|now rewrite H]. Qed.

Lemma strip_prefix_done fuel seps s :
  Forall (fun w => w <> EmptyString) seps ->
  (String.length s <= fuel)%nat ->
  find (fun w => prefix w (strip_prefix fuel seps s)) seps = None.
Proof.
  intros Hne. revert s. induction fuel as [|fuel IH]; intros s Hlen.
  - destruct s; [|simpl in Hlen; lia]. cbn [strip_prefix].
    destruct (find _ seps) as [w|] eqn:Hf; [|reflexivity].
    destruct (find_prefix_some _ _ _ Hf) as [Hin Hp].
    rewrite Forall_forall in Hne. specialize (Hne w Hin).
    destruct w; [contradiction|discriminate Hp].
  - cbn [strip_prefix]. destruct (find (fun w => prefix w s) seps) as [w|] eqn:Hf;
      [|exact Hf].
    destruct (find_prefix_some _ _ _ Hf) as [Hin Hp].
    apply IH. rewrite Forall_forall in Hne. specialize (Hne w Hin).
    pose proof (prefix_split w s Hp) as Hs.
    assert (Hl : String.length s
                 = (String.length w + String.length (str_drop (String.length w) s))%nat).
    { rewrite Hs at 1. apply str_app_length. }
    assert (Hw : (1 <= String.length w)%nat) by (destruct w; [contradiction|simpl; lia]).
    lia.
Qed.

(** What is stripped is a prefix: the result is a suffix of [s]. *)
Lemma strip_prefix_suffix fuel seps s :
  exists p, s = p ++ strip_prefix fuel seps s.
Proof.
  revert s. induction fuel as [|fuel IH]; intros s; [now exists EmptyString|].
  cbn [strip_prefix]. destruct (find (fun w => prefix w s) seps) as [w|] eqn:Hf;
    [|now exists EmptyString].
  destruct (find_prefix_some _ _ _ Hf) as [_ Hp].
  destruct (IH (str_drop (String.length w) s)) as [p Hp'].
  exists (w ++ p). rewrite str_app_assoc, <- Hp'. now apply prefix_split.
Qed.

Lemma str_rev_app a b : str_rev (a ++ b) = str_rev b ++ str_rev a.
Proof.
  induction a as [|c a IH]; cbn [append str_rev].
  - now rewrite str_app_nil_r.
  - now rewrite IH, str_app_assoc.
Qed.

Lemma str_rev_involutive s : str_rev (str_rev s) = s.
Proof.
  induction s as [|c s IH]; [reflexivity|].
  cbn [str_rev]. rewrite str_rev_app, IH. reflexivity.
Qed.

Lemma str_rev_length s : String.length (str_rev s) = String.length s.
Proof.
  induction s as [|c s IH]; [reflexivity|].
  cbn [str_rev String.length]. rewrite str_app_length, IH. cbn [String.length]. lia.
Qed.

Lemma white_space_nonempty : Forall (fun w => w <> EmptyString) white_space.
Proof. repeat (constructor; [discriminate|]). constructor. Qed.

Lemma white_space_rev_nonempty :
  Forall (fun w => w <> EmptyString) (map str_rev white_space).
Proof. repeat (constructor; [discriminate|]). constructor. Qed.

Lemma trimStart_done s :
  find (fun w => prefix w (trimStart s)) white_space = None.
Proof. apply strip_prefix_done; [exact white_space_nonempty|apply Nat.le_refl]. Qed.

Lemma trimEnd_prefix s : exists q, s = trimEnd s ++ q.
Proof.
  unfold trimEnd.
  destruct (strip_prefix_suffix (String.length s) (map str_rev white_space) (str_rev s))
    as [p Hp].
  exists (str_rev p). rewrite <- str_rev_app, <- Hp. now rewrite str_rev_involutive.
Qed.

Lemma trimEnd_twice s : trimEnd (trimEnd s) = trimEnd s.
Proof.
  unfold trimEnd. rewrite str_rev_involutive. f_equal.
  apply strip_prefix_fixed. apply strip_prefix_done;
    [exact white_space_rev_nonempty|rewrite str_rev_length; apply Nat.le_refl].
Qed.

Lemma trimStart_fixed s :
  find (fun w => prefix w s) white_space = None -> trimStart s = s.
Proof. apply strip_prefix_fixed. Qed.

Lemma find_none_prefix (seps : list string) a q :
  find (fun w => prefix w (a ++ q)) seps = None ->
  find (fun w => prefix w a) seps = None.
Proof.
  intros H. destruct (find (fun w => prefix w a) seps) as [w|] eqn:Hf; [|reflexivity].
  destruct (find_prefix_some _ _ _ Hf) as [Hin Hp].
  pose proof (find_none _ _ H w Hin) as Hn. cbv beta in Hn.
  rewrite (prefix_app w a q Hp) in Hn. discriminate.
Qed.

(** Trimming twice is trimming once. *)
Lemma trim_twice s : trim (trim s) = trim s.
Proof.
  unfold trim.
  assert (Hs : trimStart (trimEnd (trimStart s)) = trimEnd (trimStart s)).
  { apply trimStart_fixed. destruct (trimEnd_prefix (trimStart s)) as [q Hq].
    apply (find_none_prefix white_space _ q). rewrite <- Hq. apply trimStart_done. }
  rewrite Hs. apply trimEnd_twice.
Qed.

(** ** add-to-collection *)

Lemma truthy_str s : truthy (VStr s) = true <-> s <> EmptyString.
Proof.
  cbn [truthy]. destruct (String.eqb_spec s EmptyString) as [->|Hne]; cbn [negb].
  - split; [discriminate|congruence].
  - split; [intros _; exact Hne|reflexivity].
Qed.

(** The queries the handlers build have no top-level operator. *)
Lemma sanitizeMongoQuery_product_code v :
  sanitizeMongoQuery (VObj [("product_code", v)]) = Ok (VObj [("product_code", v)]).
Proof. reflexivity. Qed.

(** What a 200 answer of add-to-collection is made of. *)
Lemma add_to_collection_200_inv catalog b :
  status (add_to_collection catalog b) = 200 ->
  exists n z p,
    field b "productName" = VStr n /\ field b "size" = VStr z /\
    trim n <> EmptyString /\ trim z <> EmptyString /\
    find (fun p => strict_eq_str (product_code p) (VStr (trim n))) catalog = Some p /\
    add_to_collection catalog b =
      reply 200 [("success", VBool true); ("product", product_document p);
                 ("size", VStr (trim z))].
Proof.
  unfold add_to_collection.
  destruct (field b "productName") as [| |?|?|n|?|?]; try discriminate.
  destruct (field b "size") as [| |?|?|z|?|?];
    try (destruct (negb (truthy (VStr (trim n)))); discriminate).
  destruct (truthy (VStr (trim n))) eqn:Hn; [|discriminate].
  destruct (truthy (VStr (trim z))) eqn:Hz; [|discriminate].
  cbn [negb orb]. rewrite sanitizeMongoQuery_product_code. cbn [bind].
  unfold Product_findOne. cbn [field get lookup String.eqb Ascii.eqb Bool.eqb].
  destruct (find _ catalog) as [p|] eqn:Hf; [|discriminate].
  intros _. exists n, z, p. apply truthy_str in Hn. apply truthy_str in Hz.
  repeat split; try assumption.
Qed.

(** X9: add-to-collection never answers 500 (the query it builds always
    passes [sanitizeMongoQuery]); a [productName] or [size] that is not a
    string (an object holding a query operator, say) is answered 400; a 200
    answer carries a product of the catalog whose code is the trimmed,
    non-empty [productName] of the request, and the trimmed, non-empty
    [size]. *)
Theorem add_to_collection_answers catalog b :
  status (add_to_collection catalog b) <> 500 /\
  (typeof (field b "productName") <> "string" \/ typeof (field b "size") <> "string" ->
   status (add_to_collection catalog b) = 400) /\
  (status (add_to_collection catalog b) = 200 ->
   exists n z p,
     field b "productName" = VStr n /\ field b "size" = VStr z /\
     In p catalog /\ product_code p = trim n /\
     trim n <> EmptyString /\ trim z <> EmptyString /\
     json (add_to_collection catalog b) =
       VObj [("success", VBool true); ("product", product_document p);
             ("size", VStr (trim z))]).
Proof.
  split; [|split].
  - unfold add_to_collection.
    destruct (negb _ || negb _); [discriminate|].
    rewrite sanitizeMongoQuery_product_code. cbn [bind].
    destruct (Product_findOne catalog _); discriminate.
  - unfold add_to_collection. intros [H|H].
    + destruct (field b "productName"); try reflexivity. now contradiction H.
    + destruct (field b "size"); try (now rewrite orb_true_r). now contradiction H.
  - intros H. destruct (add_to_collection_200_inv catalog b H)
      as (n & z & p & Hn & Hz & Hne & Hze & Hf & Hr).
    exists n, z, p. apply find_some in Hf. destruct Hf as [Hin Hp].
    cbn [strict_eq_str] in Hp. apply String.eqb_eq in Hp.
    rewrite Hr. repeat split; assumption.
Qed.

Lemma Product_find_one catalog c p :
  find (fun p => strict_eq_str (product_code p) (VStr c)) catalog = Some p ->
  Product_find catalog [c] <> [] /\
  find (fun p => strict_eq_str (product_code p) (VStr c)) (Product_find catalog [c]) = Some p.
Proof.
  intros Hf. unfold Product_find.
  assert (Hff : find (fun p => strict_eq_str (product_code p) (VStr c))
                  (filter (fun p => existsb (String.eqb (product_code p)) [c]) catalog)
                = Some p).
  { rewrite find_filter; [exact Hf|]. intros q Hq. cbn [strict_eq_str] in Hq.
    cbn [existsb]. now rewrite Hq. }
  split; [|exact Hff]. intros Hnil. rewrite Hnil in Hff. discriminate.
Qed.

Lemma nonempty_length {A} (l : list A) : l <> [] -> (Z.of_nat (List.length l) =? 0) = false.
Proof. destruct l; [contradiction|intros _; apply Z.eqb_neq; simpl; lia]. Qed.

(** X10: what add-to-collection returns can be checked out.  When
    add-to-collection answers 200, a cart with one line made of the
    product code and the size of that answer is accepted by checkout
    (given an address and a configured SECRET_KEY). *)
Theorem found_product_can_be_checked_out E catalog now b address :
  SECRET_KEY E <> None -> truthy address = true -> typeof address = "object" ->
  status (add_to_collection catalog b) = 200 ->
  let r := add_to_collection catalog b in
  let line := cart_line (field (field (json r) "product") "product_code")
                        (field (json r) "size") in
  status (checkout E catalog now (checkout_body [line] address)) = 200.
Proof.
  intros Hkey Ha Ho H. cbv zeta.
  destruct (add_to_collection_200_inv catalog b H)
    as (n & z & p & _ & _ & Hne & Hze & Hf & Hr).
  rewrite Hr. pose proof Hf as Hfp. apply find_some in Hfp. destruct Hfp as [_ Hp].
  cbn [strict_eq_str] in Hp. apply String.eqb_eq in Hp.
  cbn [reply json field get lookup String.eqb Ascii.eqb Bool.eqb product_document].
  rewrite Hp.
  unfold checkout, checkout_body, cart_line.
  cbn [field get lookup String.eqb Ascii.eqb Bool.eqb isArray array_length List.length].
  change (truthy (VArr ?x)) with true. rewrite Ha, Ho.
  cbn [negb orb Z.of_nat Z.eqb Pos.of_succ_nat String.eqb Ascii.eqb Bool.eqb].
  unfold checkout_try. cbn [mapM productCode_of get lookup String.eqb Ascii.eqb Bool.eqb bind].
  rewrite !trim_twice. rewrite (proj2 (truthy_str _) Hne).
  cbn [negb bind map]. rewrite sanitizeMongoQuery_product_code. cbn [bind].
  destruct (Product_find_one catalog (trim n) p Hf) as [Hprod Hfind].
  rewrite (nonempty_length _ Hprod).
  unfold enhance. cbn [get lookup String.eqb Ascii.eqb Bool.eqb bind].
  rewrite Hfind. rewrite trim_twice, (proj2 (truthy_str _) Hze).
  cbn [negb bind filter truthy List.length Z.of_nat Z.eqb Pos.of_succ_nat].
  match goal with |- context [generateOrderHash E ?o] =>
    destruct (hashable_digest E o Hkey) as (d & Hd) end.
  { eexists _, _. split; [reflexivity|]. split; reflexivity. }
  rewrite Hd. reflexivity.
Qed.

Lemma found_product_can_be_checked_out_witness :
  let r := add_to_collection demo_catalog
             (VObj [("productName", VStr " A1 "); ("size", VStr " M")]) in
  let line := cart_line (field (field (json r) "product") "product_code")
                        (field (json r) "size") in
  status (checkout demo_env demo_catalog VNull (checkout_body [line] demo_address)) = 200.
Proof.
  apply (found_product_can_be_checked_out demo_env demo_catalog VNull
           (VObj [("productName", VStr " A1 "); ("size", VStr " M")]) demo_address).
  - discriminate.
  - reflexivity.
  - reflexivity.
  - vm_compute. reflexivity.
Defined.

(** X11: the two handlers disagree on surrounding white space.  A product
    name with surrounding white space that add-to-collection accepts (it
    looks up the trimmed name) is rejected by checkout when sent as the
    product code of a line: checkout looks up the trimmed code but matches
    the line against the code as sent, finds nothing and answers 400. *)
Theorem untrimmed_code_found_then_rejected E catalog now b n z address :
  field b "productName" = VStr n -> field b "size" = VStr z ->
  trim n <> n ->
  status (add_to_collection catalog b) = 200 ->
  truthy address = true -> typeof address = "object" ->
  let r := checkout E catalog now (checkout_body [cart_line (VStr n) (VStr z)] address) in
  status r = 400 /\ field (json r) "message" = VStr "No valid items in cart".
Proof.
  intros Hn Hz Htrim H Ha Ho. cbv zeta.
  destruct (add_to_collection_200_inv catalog b H)
    as (n' & z' & p & Hn' & _ & Hne & _ & Hf & _).
  rewrite Hn in Hn'. inversion Hn'. subst n'.
  unfold checkout, checkout_body, cart_line.
  cbn [field get lookup String.eqb Ascii.eqb Bool.eqb isArray array_length List.length].
  change (truthy (VArr ?x)) with true. rewrite Ha, Ho.
  cbn [negb orb Z.of_nat Z.eqb Pos.of_succ_nat String.eqb Ascii.eqb Bool.eqb].
  unfold checkout_try. cbn [mapM productCode_of get lookup String.eqb Ascii.eqb Bool.eqb bind].
  rewrite (proj2 (truthy_str _) Hne).
  cbn [negb bind map]. rewrite sanitizeMongoQuery_product_code. cbn [bind].
  destruct (Product_find_one catalog (trim n) p Hf) as [Hprod _].
  rewrite (nonempty_length _ Hprod).
  unfold enhance. cbn [get lookup String.eqb Ascii.eqb Bool.eqb bind].
  assert (Hnone : find (fun p => strict_eq_str (product_code p) (VStr n))
                    (Product_find catalog [trim n]) = None).
  { destruct (find _ (Product_find catalog [trim n])) as [q|] eqn:Hq; [|reflexivity].
    apply find_some in Hq. destruct Hq as [Hin Hq]. unfold Product_find in Hin.
    apply filter_In in Hin. destruct Hin as [_ Hin]. cbn [existsb] in Hin.
    rewrite orb_false_r in Hin. apply String.eqb_eq in Hin.
    cbn [strict_eq_str] in Hq. apply String.eqb_eq in Hq. congruence. }
  rewrite Hnone. cbn [bind filter truthy List.length Z.of_nat Z.eqb].
  split; reflexivity.
Qed.

Lemma untrimmed_code_found_then_rejected_witness :
  let r := checkout demo_env demo_catalog VNull
             (checkout_body [cart_line (VStr " A1") (VStr "M")] demo_address) in
  status r = 400 /\ field (json r) "message" = VStr "No valid items in cart".
Proof.
  apply (untrimmed_code_found_then_rejected demo_env demo_catalog VNull
           (VObj [("productName", VStr " A1"); ("size", VStr "M")]) " A1" "M" demo_address).
  - reflexivity.
  - reflexivity.
  - vm_compute. discriminate.
  - vm_compute. reflexivity.
  - reflexivity.
  - reflexivity.
Defined.

(** ** The subscribe handler *)

Section SubscribeFacts.

Variable validator_isEmail : string -> bool.
Variable toLowerCase : string -> string.
Variable store : Type.
Variable Email_findOne : store -> string -> settled value.
Variable Email_save : store -> string -> settled store.

Lemma subscribe_catch_keeps : forall err, status (subscribe_catch err) <> 201.
Proof. intros err. unfold subscribe_catch. destruct (_ =? _)%string; discriminate. Qed.

(** The collection changes on one path only. *)
Lemma subscribe_inv st b :
  fst (subscribe validator_isEmail toLowerCase store Email_findOne Email_save st b) = st /\ status (snd (subscribe validator_isEmail toLowerCase store Email_findOne Email_save st b)) <> 201 \/
  exists s existing st',
    get b "email" = Ok (VStr s) /\
    toLowerCase (trim s) <> EmptyString /\
    validator_isEmail (toLowerCase (trim s)) = true /\
    Email_findOne st (toLowerCase (trim s)) = Fulfilled existing /\
    truthy existing = false /\
    Email_save st (toLowerCase (trim s)) = Fulfilled st' /\
    subscribe validator_isEmail toLowerCase store Email_findOne Email_save st b =
      (st', reply 201 [("message", VStr "Successfully subscribed to newsletter!")]).
Proof.
  unfold subscribe.
  destruct (get b "email") as [email0|] eqn:Hg; cbn [bind];
    [|left; split; [reflexivity|apply subscribe_catch_keeps]].
  destruct (truthy email0) eqn:Ht.
  - destruct email0 as [| |?|?|s|?|?];
      try (left; split; [reflexivity|apply subscribe_catch_keeps]).
    cbn [method_trim bind].
    destruct (truthy (VStr (toLowerCase (trim s)))) eqn:Hne; cbn [negb];
      [|left; split; [reflexivity|discriminate]].
    unfold isValidEmail.
    destruct (validator_isEmail (toLowerCase (trim s))) eqn:Hv; cbn [negb];
      [|left; split; [reflexivity|discriminate]].
    destruct (Email_findOne st (toLowerCase (trim s))) as [existing|err] eqn:Hf;
      [|left; split; [reflexivity|apply subscribe_catch_keeps]].
    destruct (truthy existing) eqn:He; [left; split; [reflexivity|discriminate]|].
    destruct (Email_save st (toLowerCase (trim s))) as [st'|err] eqn:Hs;
      [|left; split; [reflexivity|apply subscribe_catch_keeps]].
    right. exists s, existing, st'. apply truthy_str in Hne.
    split; [reflexivity|]. split; [exact Hne|]. split; [exact Hv|]. split; [exact Hf|].
    split; [exact He|]. split; [exact Hs|]. reflexivity.
  - left. split; [reflexivity|discriminate].
Qed.

End SubscribeFacts.

(** X12: subscribe changes the email collection on one path only: the
    body carries a string whose trimmed, lower-cased form is not empty, is
    accepted by [validator.isEmail] and is not found by [findOne]; what is
    saved is that form, and the answer is 201.  Every other answer (400, 409,
    500) leaves the collection as it was. *)
Theorem subscribe_stores_only_new_valid_emails
    validator_isEmail toLowerCase store
    (Email_findOne : store -> string -> settled value)
    (Email_save : store -> string -> settled store) st b :
  fst (subscribe validator_isEmail toLowerCase store Email_findOne Email_save st b) <> st ->
  exists s existing,
    get b "email" = Ok (VStr s) /\
    toLowerCase (trim s) <> EmptyString /\
    validator_isEmail (toLowerCase (trim s)) = true /\
    Email_findOne st (toLowerCase (trim s)) = Fulfilled existing /\
    truthy existing = false /\
    Email_save st (toLowerCase (trim s))
      = Fulfilled (fst (subscribe validator_isEmail toLowerCase store
                          Email_findOne Email_save st b)) /\
    status (snd (subscribe validator_isEmail toLowerCase store
                   Email_findOne Email_save st b)) = 201.
Proof.
  intros Hch.
  destruct (subscribe_inv validator_isEmail toLowerCase store Email_findOne Email_save st b)
    as [[Hst _] | (s & existing & st' & Hg & Hne & Hv & Hf & He & Hs & Hr)];
    [contradiction|].
  exists s, existing. rewrite Hr. cbn [fst snd].
  repeat split; assumption.
Qed.

Lemma subscribe_stores_only_new_valid_emails_witness :
  exists s existing,
    get (VObj [("email", VStr " Ann@Shop.io ")]) "email" = Ok (VStr s) /\
    demo_toLowerCase (trim s) <> EmptyString /\
    demo_isEmail (demo_toLowerCase (trim s)) = true /\
    book_findOne [] (demo_toLowerCase (trim s)) = Fulfilled existing /\
    truthy existing = false /\
    book_save [] (demo_toLowerCase (trim s))
      = Fulfilled (fst (subscribe demo_isEmail demo_toLowerCase address_book
                          book_findOne book_save []
                          (VObj [("email", VStr " Ann@Shop.io ")]))) /\
    status (snd (subscribe demo_isEmail demo_toLowerCase address_book
                   book_findOne book_save []
                   (VObj [("email", VStr " Ann@Shop.io ")]))) = 201.
Proof.
  apply (subscribe_stores_only_new_valid_emails demo_isEmail demo_toLowerCase address_book
           book_findOne book_save [] (VObj [("email", VStr " Ann@Shop.io ")])).
  vm_compute. discriminate.
Defined.

(** X13: an email that is present but is not a string (a number, [true],
    an array, an object) makes [trim] fail: subscribe answers 500 with the
    generic server error, not 400, and stores nothing. *)
Theorem subscribe_non_string_email_is_500
    validator_isEmail toLowerCase store
    (Email_findOne : store -> string -> settled value)
    (Email_save : store -> string -> settled store) st b v :
  get b "email" = Ok v -> truthy v = true -> typeof v <> "string" ->
  subscribe validator_isEmail toLowerCase store Email_findOne Email_save st b
  = (st, reply 500 [("error", VStr "Server error, please try again later")]).
Proof.
  intros Hg Ht Hty. unfold subscribe. rewrite Hg. cbn [bind]. rewrite Ht.
  destruct v; try discriminate Ht; try reflexivity. now contradiction Hty.
Qed.

Lemma subscribe_non_string_email_is_500_witness :
  subscribe demo_isEmail demo_toLowerCase address_book book_findOne book_save []
    (VObj [("email", VNum (num_of_Z 5))])
  = ([], reply 500 [("error", VStr "Server error, please try again later")]).
Proof.
  apply (subscribe_non_string_email_is_500 demo_isEmail demo_toLowerCase address_book
           book_findOne book_save [] (VObj [("email", VNum (num_of_Z 5))])
           (VNum (num_of_Z 5))).
  - reflexivity.
  - reflexivity.
  - discriminate.
Defined.

(** X14: an email that is missing, [null], empty, 0 or [false], or a string
    that is empty once trimmed and lower-cased, is answered 400 "Email is
    required"; neither [validator.isEmail] nor the collection is
    consulted. *)
Theorem subscribe_requires_email
    validator_isEmail toLowerCase store
    (Email_findOne : store -> string -> settled value)
    (Email_save : store -> string -> settled store) st b v :
  get b "email" = Ok v ->
  truthy v = false \/ (exists s, v = VStr s /\ toLowerCase (trim s) = EmptyString) ->
  subscribe validator_isEmail toLowerCase store Email_findOne Email_save st b
  = (st, reply 400 [("error", VStr "Email is required")]).
Proof.
  intros Hg Hv. unfold subscribe. rewrite Hg. cbn [bind].
  destruct Hv as [Hf | (s & -> & He)].
  - rewrite Hf. reflexivity.
  - destruct (truthy (VStr s)); [cbn [method_trim bind]; rewrite He|]; reflexivity.
Qed.

Lemma subscribe_requires_email_witness :
  subscribe demo_isEmail demo_toLowerCase address_book book_findOne book_save ["a@b.io"]
    (VObj [("email", VStr "   ")])
  = (["a@b.io"], reply 400 [("error", VStr "Email is required")]).
Proof.
  apply (subscribe_requires_email demo_isEmail demo_toLowerCase address_book
           book_findOne book_save ["a@b.io"] (VObj [("email", VStr "   ")]) (VStr "   ")).
  - reflexivity.
  - right. exists "   ". split; [reflexivity|]. vm_compute. reflexivity.
Defined.

(** ** The pattern of the email schema *)

(** *** The matcher decides the language *)

Lemma str_app_eq_nil (a b : string) : a ++ b = EmptyString -> a = EmptyString /\ b = EmptyString.
Proof. destruct a; [intros H; split; [reflexivity|exact H]|discriminate]. Qed.

Lemma matches_never_inv s : matches Never s -> False.
Proof. inversion 1. Qed.

Lemma matches_empty_inv s : matches Empty s -> s = EmptyString.
Proof. inversion 1. reflexivity. Qed.

Lemma matches_char_inv p s :
  matches (Char p) s -> exists c, s = String c EmptyString /\ p c = true.
Proof. inversion 1; subst. eexists. split; [reflexivity|assumption]. Qed.

Lemma matches_cat_inv r1 r2 s :
  matches (Cat r1 r2) s -> exists s1 s2, s = s1 ++ s2 /\ matches r1 s1 /\ matches r2 s2.
Proof. inversion 1; subst. eexists _, _. split; [reflexivity|]. split; assumption. Qed.

Lemma matches_alt_inv r1 r2 s : matches (Alt r1 r2) s -> matches r1 s \/ matches r2 s.
Proof. inversion 1; subst; [now left|now right]. Qed.

Lemma nullable_matches r : nullable r = true <-> matches r EmptyString.
Proof.
  induction r as [| |p|r1 IH1 r2 IH2|r1 IH1 r2 IH2|r IH]; cbn [nullable].
  - split; [discriminate|intros H; destruct (matches_never_inv _ H)].
  - split; [intros _; constructor|reflexivity].
  - split; [discriminate|].
    intros H. destruct (matches_char_inv _ _ H) as (c & Hc & _). discriminate Hc.
  - rewrite andb_true_iff, IH1, IH2. split.
    + intros [H1 H2]. exact (matches_cat _ _ _ _ H1 H2).
    + intros H. destruct (matches_cat_inv _ _ _ H) as (s1 & s2 & Heq & H1 & H2).
      symmetry in Heq. apply str_app_eq_nil in Heq. destruct Heq as [-> ->]. now split.
  - rewrite orb_true_iff, IH1, IH2. split.
    + intros [H|H]; [now apply matches_alt_l|now apply matches_alt_r].
    + apply matches_alt_inv.
  - split; [intros _; constructor|reflexivity].
Qed.

(** A starred expression matches a non-empty string in a first piece that
    is not empty, followed by the rest. *)
Lemma matches_star_cons_inv r s :
  matches (Star r) s -> forall c t, s = String c t ->
  exists t1 t2, t = t1 ++ t2 /\ matches r (String c t1) /\ matches (Star r) t2.
Proof.
  intros H. remember (Star r) as r' eqn:Hr. revert Hr.
  induction H as [| | | | | |r0 s1 s2 H1 _ H2 IH2]; intros Hr; try discriminate Hr.
  - intros c t Heq. discriminate Heq.
  - inversion Hr; subst r0. intros c t Heq.
    destruct s1 as [|c1 s1].
    + cbn [append] in Heq. exact (IH2 eq_refl c t Heq).
    + cbn [append] in Heq. inversion Heq; subst. exists s1, s2. repeat split; assumption.
Qed.

Lemma after_matches c r s : matches (after c r) s <-> matches r (String c s).
Proof.
  revert s. induction r as [| |p|r1 IH1 r2 IH2|r1 IH1 r2 IH2|r IH]; intros s; cbn [after].
  - split; intros H; destruct (matches_never_inv _ H).
  - split; intros H; [destruct (matches_never_inv _ H)|].
    apply matches_empty_inv in H. discriminate H.
  - destruct (p c) eqn:Hp; split; intros H.
    + apply matches_empty_inv in H. subst. now constructor.
    + destruct (matches_char_inv _ _ H) as (c' & Hc & _). inversion Hc. constructor.
    + destruct (matches_never_inv _ H).
    + destruct (matches_char_inv _ _ H) as (c' & Hc & Hp'). inversion Hc; subst. congruence.
  - assert (Hcat : matches (Cat (after c r1) r2) s <->
                   exists s1 s2, s = s1 ++ s2 /\ matches r1 (String c s1) /\ matches r2 s2).
    { split.
      - intros H. destruct (matches_cat_inv _ _ _ H) as (s1 & s2 & -> & H1 & H2).
        exists s1, s2. rewrite <- IH1. repeat split; assumption.
      - intros (s1 & s2 & -> & H1 & H2). constructor; [now apply IH1|exact H2]. }
    destruct (nullable r1) eqn:Hn.
    + split.
      * intros H. destruct (matches_alt_inv _ _ _ H) as [HL|HR].
        -- apply Hcat in HL. destruct HL as (s1 & s2 & -> & H1 & H2).
           exact (matches_cat _ _ _ _ H1 H2).
        -- apply IH2 in HR. apply nullable_matches in Hn.
           exact (matches_cat _ _ _ _ Hn HR).
      * intros H. destruct (matches_cat_inv _ _ _ H) as (s1 & s2 & Heq & H1 & H2).
        destruct s1 as [|c1 s1].
        -- cbn [append] in Heq. subst s2. apply matches_alt_r. now apply IH2.
        -- cbn [append] in Heq. inversion Heq; subst. apply matches_alt_l.
           apply Hcat. exists s1, s2. repeat split; assumption.
    + rewrite Hcat. split.
      * intros (s1 & s2 & -> & H1 & H2). exact (matches_cat _ _ _ _ H1 H2).
      * intros H. destruct (matches_cat_inv _ _ _ H) as (s1 & s2 & Heq & H1 & H2).
        destruct s1 as [|c1 s1].
        -- apply nullable_matches in H1. congruence.
        -- cbn [append] in Heq. inversion Heq; subst. exists s1, s2.
           repeat split; assumption.
  - split; intros H.
    + destruct (matches_alt_inv _ _ _ H) as [H'|H'];
        [apply matches_alt_l; now apply IH1|apply matches_alt_r; now apply IH2].
    + destruct (matches_alt_inv _ _ _ H) as [H'|H'];
        [apply matches_alt_l; now apply IH1|apply matches_alt_r; now apply IH2].
  - split; intros H.
    + destruct (matches_cat_inv _ _ _ H) as (s1 & s2 & -> & H1 & H2).
      apply IH in H1. exact (matches_star_cons _ _ _ H1 H2).
    + destruct (matches_star_cons_inv r _ H c s eq_refl) as (t1 & t2 & -> & H1 & H2).
      constructor; [now apply IH|exact H2].
Qed.

Lemma regex_test_matches r s : regex_test r s = true <-> matches r s.
Proof.
  revert r. induction s as [|c s IH]; intros r; cbn [regex_test].
  - apply nullable_matches.
  - rewrite IH. apply after_matches.
Qed.

(** *** What the pattern accepts *)

Lemma all_chars_app p a b : all_chars p (a ++ b) = all_chars p a && all_chars p b.
Proof.
  induction a as [|c a IH]; [reflexivity|].
  cbn [append all_chars]. rewrite IH. apply andb_assoc.
Qed.

Lemma all_chars_impl (p q : ascii -> bool) s :
  (forall c, p c = true -> q c = true) -> all_chars p s = true -> all_chars q s = true.
Proof.
  intros Hpq. induction s as [|c s IH]; [reflexivity|].
  cbn [all_chars]. rewrite !andb_true_iff. intros [Hc Hs]. split; [now apply Hpq|now apply IH].
Qed.

Lemma matches_star_chars p s : matches (Star (Char p)) s <-> all_chars p s = true.
Proof.
  split.
  - intros H. remember (Star (Char p)) as r eqn:Hr. revert Hr.
    induction H as [| | | | | |r0 s1 s2 H1 _ H2 IH2]; intros Hr; try discriminate Hr.
    + reflexivity.
    + inversion Hr; subst r0. destruct (matches_char_inv _ _ H1) as (c & -> & Hc).
      cbn [append all_chars]. now rewrite Hc, IH2.
  - induction s as [|c s IH]; [intros _; constructor|].
    cbn [all_chars]. rewrite andb_true_iff. intros [Hc Hs].
    change (String c s) with (String c EmptyString ++ s).
    constructor; [now constructor|now apply IH].
Qed.

Lemma matches_many1_chars p s :
  matches (many1 (Char p)) s <-> s <> EmptyString /\ all_chars p s = true.
Proof.
  unfold many1. split.
  - intros H. destruct (matches_cat_inv _ _ _ H) as (s1 & s2 & -> & H1 & H2).
    destruct (matches_char_inv _ _ H1) as (c & -> & Hc). apply matches_star_chars in H2.
    split; [discriminate|]. cbn [append all_chars]. now rewrite Hc, H2.
  - intros [Hne Hs]. destruct s as [|c s]; [contradiction|].
    cbn [all_chars] in Hs. apply andb_true_iff in Hs. destruct Hs as [Hc Hs].
    change (String c s) with (String c EmptyString ++ s).
    constructor; [now constructor|now apply matches_star_chars].
Qed.

Lemma matches_maybe r s : matches (maybe r) s <-> s = EmptyString \/ matches r s.
Proof.
  unfold maybe. split.
  - intros H. destruct (matches_alt_inv _ _ _ H) as [H'|H'];
      [left; now apply matches_empty_inv|now right].
  - intros [->|H]; [apply matches_alt_l; constructor|now apply matches_alt_r].
Qed.

Lemma matches_rep_2_4 p s :
  matches (rep_2_4 (Char p)) s <->
  (2 <= String.length s <= 4)%nat /\ all_chars p s = true.
Proof.
  unfold rep_2_4. split.
  - intros H. destruct (matches_cat_inv _ _ _ H) as (s1 & t1 & -> & H1 & H0).
    destruct (matches_cat_inv _ _ _ H0) as (s2 & t2 & -> & H2 & H').
    destruct (matches_char_inv _ _ H1) as (c1 & -> & Hc1).
    destruct (matches_char_inv _ _ H2) as (c2 & -> & Hc2).
    cbn [append String.length all_chars]. rewrite Hc1, Hc2. cbn [andb].
    apply matches_maybe in H'. destruct H' as [->|H']; [split; [simpl; lia|reflexivity]|].
    destruct (matches_cat_inv _ _ _ H') as (s3 & t3 & -> & H3 & H'').
    destruct (matches_char_inv _ _ H3) as (c3 & -> & Hc3).
    cbn [append String.length all_chars]. rewrite Hc3. cbn [andb].
    apply matches_maybe in H''. destruct H'' as [->|H'']; [split; [simpl; lia|reflexivity]|].
    destruct (matches_char_inv _ _ H'') as (c4 & -> & Hc4).
    cbn [String.length all_chars]. rewrite Hc4. split; [lia|reflexivity].
  - intros [Hlen Hs].
    destruct s as [|c1 [|c2 s]]; try (simpl in Hlen; lia).
    cbn [all_chars] in Hs. apply andb_true_iff in Hs. destruct Hs as [Hc1 Hs].
    apply andb_true_iff in Hs. destruct Hs as [Hc2 Hs].
    change (String c1 (String c2 s))
      with (String c1 EmptyString ++ (String c2 EmptyString ++ s)).
    constructor; [now constructor|]. constructor; [now constructor|].
    apply matches_maybe. destruct s as [|c3 s]; [now left|right].
    cbn [all_chars] in Hs. apply andb_true_iff in Hs. destruct Hs as [Hc3 Hs].
    change (String c3 s) with (String c3 EmptyString ++ s).
    constructor; [now constructor|].
    apply matches_maybe. destruct s as [|c4 s]; [now left|right].
    cbn [all_chars] in Hs. apply andb_true_iff in Hs. destruct Hs as [Hc4 _].
    destruct s; [now constructor|simpl in Hlen; lia].
Qed.

Lemma matches_label_dot s :
  matches (Cat (many1 (Char label_char)) (Char (Ascii.eqb "."))) s <->
  exists l, is_label l /\ s = l ++ ".".
Proof.
  split.
  - intros H. destruct (matches_cat_inv _ _ _ H) as (l & d & -> & H1 & H2).
    apply matches_many1_chars in H1. destruct (matches_char_inv _ _ H2) as (c & -> & Hc).
    apply Ascii.eqb_eq in Hc. subst c. now exists l.
  - intros (l & Hl & ->). constructor; [now apply matches_many1_chars|].
    constructor. reflexivity.
Qed.

Lemma matches_star_labels s :
  matches (Star (Cat (many1 (Char label_char)) (Char (Ascii.eqb ".")))) s <->
  exists labels, Forall is_label labels /\ s = dotted labels.
Proof.
  split.
  - intros H.
    remember (Star (Cat (many1 (Char label_char)) (Char (Ascii.eqb ".")))) as r eqn:Hr.
    revert Hr.
    induction H as [| | | | | |r0 s1 s2 H1 _ H2 IH2]; intros Hr; try discriminate Hr.
    + exists []. split; [constructor|reflexivity].
    + inversion Hr; subst r0. apply matches_label_dot in H1.
      destruct H1 as (l & Hl & ->). destruct (IH2 eq_refl) as (labels & Hls & ->).
      exists (l :: labels). split; [now constructor|].
      cbn [dotted]. now rewrite str_app_assoc.
  - intros (labels & Hls & ->). induction Hls as [|l labels Hl _ IH]; [constructor|].
    cbn [dotted]. rewrite <- str_app_assoc.
    constructor; [|exact IH]. apply matches_label_dot. now exists l.
Qed.

Lemma matches_domain s :
  matches (many1 (Cat (many1 (Char label_char)) (Char (Ascii.eqb ".")))) s <->
  exists labels, labels <> [] /\ Forall is_label labels /\ s = dotted labels.
Proof.
  unfold many1 at 1. split.
  - intros H. destruct (matches_cat_inv _ _ _ H) as (s1 & s2 & -> & H1 & H2).
    apply matches_label_dot in H1. destruct H1 as (l & Hl & ->).
    apply matches_star_labels in H2. destruct H2 as (labels & Hls & ->).
    exists (l :: labels). split; [discriminate|]. split; [now constructor|].
    cbn [dotted]. now rewrite str_app_assoc.
  - intros (labels & Hne & Hls & ->). destruct Hls as [|l labels Hl Hls]; [contradiction|].
    cbn [dotted]. rewrite <- str_app_assoc.
    constructor; [apply matches_label_dot; now exists l|].
    apply matches_star_labels. now exists labels.
Qed.

(** Every string the pattern matches has the three parts. *)
Lemma email_pattern_parts v :
  matches email_pattern v ->
  exists local labels tld,
    v = local ++ "@" ++ dotted labels ++ tld /\
    local <> EmptyString /\ all_chars local_char local = true /\
    labels <> [] /\ Forall is_label labels /\
    (2 <= String.length tld <= 4)%nat /\ all_chars label_char tld = true.
Proof.
  unfold email_pattern.
  intros H. destruct (matches_cat_inv _ _ _ H) as (local & s1 & -> & Hl & H1).
  destruct (matches_cat_inv _ _ _ H1) as (at_sign & s2 & -> & Ha & H2).
  destruct (matches_cat_inv _ _ _ H2) as (dom & tld & -> & Hd & Ht).
  apply matches_many1_chars in Hl. destruct Hl as [Hlne Hlc].
  destruct (matches_char_inv _ _ Ha) as (c & -> & Hc). apply Ascii.eqb_eq in Hc. subst c.
  apply matches_domain in Hd. destruct Hd as (labels & Hne & Hls & ->).
  apply matches_rep_2_4 in Ht. destruct Ht as [Hlen Htc].
  exists local, labels, tld. repeat split; try assumption; lia.
Qed.

Lemma email_validator_parts v :
  email_validator v = true ->
  exists local labels tld,
    v = local ++ "@" ++ dotted labels ++ tld /\
    local <> EmptyString /\ all_chars local_char local = true /\
    labels <> [] /\ Forall is_label labels /\
    (2 <= String.length tld <= 4)%nat /\ all_chars label_char tld = true.
Proof.
  unfold email_validator. rewrite regex_test_matches. apply email_pattern_parts.
Qed.

(** X15: the pattern of the email schema accepts exactly the strings
    [local@label. ... label.tld]: a non-empty local part of letters, digits,
    underscores, hyphens and dots; one or more non-empty labels of letters,
    digits, underscores and hyphens, each followed by a dot; and a last
    label of 2 to 4 such characters. *)
Theorem email_validator_accepts v :
  email_validator v = true <->
  exists local labels tld,
    v = local ++ "@" ++ dotted labels ++ tld /\
    local <> EmptyString /\ all_chars local_char local = true /\
    labels <> [] /\ Forall is_label labels /\
    (2 <= String.length tld <= 4)%nat /\ all_chars label_char tld = true.
Proof.
  split; [apply email_validator_parts|].
  unfold email_validator, email_pattern. rewrite regex_test_matches.
  intros (local & labels & tld & -> & Hlne & Hlc & Hne & Hls & Hlen & Htc).
  constructor; [now apply matches_many1_chars|].
  change ("@" ++ dotted labels ++ tld) with (String "@" EmptyString ++ (dotted labels ++ tld)).
  constructor; [constructor; reflexivity|].
  constructor; [apply matches_domain; now exists labels|].
  apply matches_rep_2_4. now split.
Qed.

Lemma count_char_app c a b :
  count_char c (a ++ b) = (count_char c a + count_char c b)%nat.
Proof.
  induction a as [|x a IH]; [reflexivity|].
  cbn [append count_char]. rewrite IH. lia.
Qed.

Lemma count_char_none p c s :
  all_chars p s = true -> p c = false -> count_char c s = O.
Proof.
  intros Hs Hc. induction s as [|x s IH]; [reflexivity|].
  cbn [all_chars] in Hs. apply andb_true_iff in Hs. destruct Hs as [Hx Hs].
  cbn [count_char]. rewrite (IH Hs).
  destruct (Ascii.eqb_spec x c) as [->|_]; [congruence|reflexivity].
Qed.

Lemma dotted_chars labels :
  Forall is_label labels ->
  all_chars (fun c => label_char c || (c =? ".")%char) (dotted labels) = true.
Proof.
  induction 1 as [|l labels [_ Hl] _ IH]; [reflexivity|].
  cbn [dotted]. rewrite all_chars_app. apply andb_true_iff. split.
  - eapply all_chars_impl; [|exact Hl]. intros c Hc. now rewrite Hc.
  - cbn [append all_chars]. exact IH.
Qed.

Lemma dotted_last labels :
  labels <> [] -> exists y, dotted labels = y ++ ".".
Proof.
  induction labels as [|l labels IH]; [contradiction|intros _].
  cbn [dotted]. destruct labels as [|l' labels].
  - exists l. reflexivity.
  - destruct IH as [y Hy]; [discriminate|]. exists (l ++ "." ++ y).
    rewrite Hy. now rewrite !str_app_assoc.
Qed.

(** X16: an address the pattern accepts holds exactly one at sign and no
    character other than letters, digits, underscore, hyphen, dot and the at
    sign; an address with a plus sign, a space or a non-ASCII character is
    rejected. *)
Theorem email_validator_alphabet v :
  email_validator v = true ->
  count_char "@" v = 1%nat /\
  all_chars (fun c => local_char c || (c =? "@")%char) v = true.
Proof.
  intros H. apply email_validator_parts in H.
  destruct H as (local & labels & tld & -> & _ & Hlc & _ & Hls & _ & Htc).
  pose proof (dotted_chars labels Hls) as Hd. split.
  - rewrite count_char_app. cbn [append count_char Ascii.eqb Bool.eqb].
    rewrite count_char_app.
    rewrite (count_char_none local_char "@" local Hlc eq_refl).
    rewrite (count_char_none _ "@" (dotted labels) Hd eq_refl).
    rewrite (count_char_none label_char "@" tld Htc eq_refl). reflexivity.
  - rewrite all_chars_app. apply andb_true_iff. split.
    + eapply all_chars_impl; [|exact Hlc]. intros c Hc. now rewrite Hc.
    + cbn [append all_chars]. apply andb_true_iff. split; [reflexivity|].
      rewrite all_chars_app. apply andb_true_iff. split.
      * eapply all_chars_impl; [|exact Hd]. intros c Hc. unfold local_char.
        apply orb_true_iff in Hc. destruct Hc as [Hc|Hc].
        -- unfold label_char in Hc. rewrite Hc. reflexivity.
        -- rewrite Hc. now rewrite !orb_true_r.
      * eapply all_chars_impl; [|exact Htc]. intros c Hc. unfold local_char.
        unfold label_char in Hc. now rewrite Hc.
Qed.

Lemma email_validator_alphabet_witness :
  count_char "@" "ann.lee@mail.shop.io" = 1%nat /\
  all_chars (fun c => local_char c || (c =? "@")%char) "ann.lee@mail.shop.io" = true.
Proof. apply (email_validator_alphabet "ann.lee@mail.shop.io"). vm_compute. reflexivity. Defined.

Lemma last_segment_unique x t a l :
  x ++ String "." t = a ++ String "." l ->
  lacks "." t = true -> lacks "." l = true -> t = l.
Proof.
  intros Heq Ht Hl. revert a Heq. induction x as [|c x IH]; intros a Heq.
  - destruct a as [|c' a]; cbn [append] in Heq.
    + now inversion Heq.
    + inversion Heq as [[Hc Hrest]]. exfalso. rewrite Hrest in Ht.
      unfold lacks in Ht. rewrite all_chars_app in Ht. cbn [all_chars] in Ht.
      rewrite Ascii.eqb_refl in Ht. cbn [negb andb] in Ht. now rewrite andb_false_r in Ht.
  - destruct a as [|c' a]; cbn [append] in Heq.
    + inversion Heq as [[Hc Hrest]]. exfalso. rewrite <- Hrest in Hl.
      unfold lacks in Hl. rewrite all_chars_app in Hl. cbn [all_chars] in Hl.
      rewrite Ascii.eqb_refl in Hl. cbn [negb andb] in Hl. now rewrite andb_false_r in Hl.
    + inversion Heq. now apply (IH a).
Qed.

(** X17: the last label must have 2 to 4 characters: an address whose
    text after the last dot is shorter than 2 or longer than 4 characters
    (a top-level domain such as "museum" or "technology") is rejected. *)
Theorem email_validator_rejects_long_tld a l :
  lacks "." l = true ->
  (String.length l < 2 \/ 4 < String.length l)%nat ->
  email_validator (a ++ "." ++ l) = false.
Proof.
  intros Hl Hlen. destruct (email_validator (a ++ "." ++ l)) eqn:Hv; [exfalso|reflexivity].
  apply email_validator_parts in Hv.
  destruct Hv as (local & labels & tld & Heq & _ & _ & Hne & _ & Htl & Htc).
  destruct (dotted_last labels Hne) as [y Hy].
  assert (Ht : lacks "." tld = true).
  { eapply all_chars_impl; [|exact Htc]. intros c Hc.
    destruct (Ascii.eqb_spec c ".") as [->|_]; [discriminate Hc|reflexivity]. }
  assert (Hsame : tld = l).
  { apply (last_segment_unique (local ++ "@" ++ y) tld a l); [|exact Ht|exact Hl].
    change (a ++ "." ++ l) with (a ++ String "." l) in Heq. rewrite Heq, Hy.
    rewrite !str_app_assoc. reflexivity. }
  subst tld. lia.
Qed.

Lemma email_validator_rejects_long_tld_witness :
  email_validator ("ann@city" ++ "." ++ "museum") = false.
Proof.
  apply (email_validator_rejects_long_tld "ann@city" "museum").
  - reflexivity.
  - right. simpl. lia.
Defined.

(** ** Tokens and the error handler *)

Lemma bearer_header_token tok :
  lacks " " tok = true ->
  nth_error (split " " ("Bearer " ++ tok)) 1 = Some tok.
Proof.
  intros Ht.
  replace ("Bearer " ++ tok) with ("Bearer" ++ String " " (tok ++ EmptyString))
    by (now rewrite str_app_nil_r).
  apply second_segment; [reflexivity|exact Ht|now left].
Qed.

(** X18: a token issued by get-token opens the protected routes.  When
    [jwt.sign] returns a token for the payload of the handler, the handler
    answers 200 with that token (and so does the route, unless the rate
    limiter answers first); the client id in the payload is the 32
    lower-case hexadecimal characters of the 16 random bytes; and when
    [jwt.verify] decodes the token (which holds no space) to a payload that
    carries this client id, whatever other claims such as [iat] and [exp]
    it holds, [authenticateJWT] lets a request with the header
    "Bearer token" through with that client id. *)
Theorem issued_token_is_accepted
    xss apiLimiter jwt_sign jwt_verify E JWT_EXPIRY randomBytes token decoded req b :
  List.length randomBytes = 16%nat ->
  Forall (fun x => 0 <= x < 256) randomBytes ->
  let clientId := hex_of_bytes randomBytes in
  jwt_sign (VObj [("clientId", VStr clientId)]) (JWT_SECRET E) JWT_EXPIRY = Ok token ->
  jwt_verify token (JWT_SECRET E) = Ok decoded ->
  get decoded "clientId" = Ok (VStr clientId) ->
  token <> EmptyString -> lacks " " token = true ->
  get_token jwt_sign E JWT_EXPIRY randomBytes
    = Ok (reply 200 [("success", VBool true); ("token", VStr token)]) /\
  (apiLimiter (sanitized xss req) = None ->
   route_get_token xss apiLimiter E jwt_sign JWT_EXPIRY randomBytes req
   = reply 200 [("success", VBool true); ("token", VStr token)]) /\
  String.length clientId = 32%nat /\ all_chars is_hex_lower clientId = true /\
  authenticateJWT jwt_verify E (with_header ("Bearer " ++ token) b) = Next (VStr clientId).
Proof.
  intros Hlen Hrange clientId Hsign Hverify Hclaim Hne Hsp.
  assert (Hh : get_token jwt_sign E JWT_EXPIRY randomBytes
               = Ok (reply 200 [("success", VBool true); ("token", VStr token)])).
  { unfold get_token. fold clientId. now rewrite Hsign. }
  split; [exact Hh|]. split; [|split; [|split]].
  - intros Hlim. unfold route_get_token. now rewrite Hlim, Hh.
  - unfold clientId. rewrite hex_of_bytes_length, Hlen. reflexivity.
  - apply hex_of_bytes_lower. exact Hrange.
  - unfold authenticateJWT, with_header. cbn [authorization].
    change (truthy (VStr ("Bearer " ++ token))) with true. cbn [negb].
    rewrite (bearer_header_token token Hsp).
    rewrite (proj2 (truthy_str token) Hne). cbn [negb].
    rewrite Hverify. cbn [bind]. rewrite Hclaim. reflexivity.
Qed.

Lemma issued_token_is_accepted_witness :
  let clientId := hex_of_bytes demo_bytes in
  get_token demo_jwt_sign demo_env (Some "1h") demo_bytes
    = Ok (reply 200 [("success", VBool true);
                     ("token", VStr "h.00112233445566778899aabbccddeeff.j")]) /\
  (no_limit (sanitized demo_xss (with_header "x" VNull)) = None ->
   route_get_token demo_xss no_limit demo_env demo_jwt_sign (Some "1h") demo_bytes
     (with_header "x" VNull)
   = reply 200 [("success", VBool true);
                ("token", VStr "h.00112233445566778899aabbccddeeff.j")]) /\
  String.length clientId = 32%nat /\ all_chars is_hex_lower clientId = true /\
  authenticateJWT demo_jwt_verify_claims demo_env
    (with_header ("Bearer " ++ "h.00112233445566778899aabbccddeeff.j") VNull)
  = Next (VStr clientId).
Proof.
  apply (issued_token_is_accepted demo_xss no_limit demo_jwt_sign demo_jwt_verify_claims
           demo_env (Some "1h") demo_bytes "h.00112233445566778899aabbccddeeff.j"
           (VObj [("clientId", VStr "00112233445566778899aabbccddeeff");
                  ("iat", VNum (num_of_Z 1714557600));
                  ("exp", VNum (num_of_Z 1714561200))])
           (with_header "x" VNull) VNull).
  - reflexivity.
  - unfold demo_bytes. repeat (constructor; [lia|]). constructor.
  - vm_compute. reflexivity.
  - vm_compute. reflexivity.
  - vm_compute. reflexivity.
  - discriminate.
  - reflexivity.
Defined.

(** X19: whatever error reaches [errorHandler], its answer has
    [success: false], a message that is not empty and a status that is not
    0: a missing or zero status becomes 500, a missing or empty message
    becomes "Internal server error".  In particular get-token answers 500
    with the message of the error when [jwt.sign] throws. *)
Theorem errorHandler_answer err :
  status (errorHandler err) <> 0 /\
  (status (errorHandler err) = 500 <->
   err_status err = None \/ err_status err = Some 0 \/ err_status err = Some 500) /\
  field (json (errorHandler err)) "success" = VBool false /\
  exists m, field (json (errorHandler err)) "message" = VStr m /\ m <> EmptyString /\
            (forall m0, err_message err = Some m0 -> m0 <> EmptyString -> m = m0).
Proof.
  unfold errorHandler. cbn [reply status json field get lookup String.eqb Ascii.eqb Bool.eqb].
  split; [|split; [|split]].
  - destruct (err_status err) as [s|]; [|discriminate].
    destruct (Z.eqb_spec s 0); [discriminate|assumption].
  - destruct (err_status err) as [s|].
    + destruct (Z.eqb_spec s 0) as [->|Hs].
      * split; [intros _; right; now left|reflexivity].
      * split; [intros ->; right; now right|].
        intros [H|[H|H]]; [discriminate H|inversion H; contradiction|now inversion H].
    + split; [intros _; now left|reflexivity].
  - reflexivity.
  - destruct (err_message err) as [m|].
    + destruct (truthy (VStr m)) eqn:Hm.
      * exists m. split; [reflexivity|]. split; [now apply truthy_str|].
        intros m0 H _. now inversion H.
      * exists "Internal server error". split; [reflexivity|]. split; [discriminate|].
        intros m0 H Hne. inversion H; subst m0. apply truthy_str in Hne. congruence.
    + exists "Internal server error". split; [reflexivity|]. split; [discriminate|].
      intros m0 H. discriminate H.
Qed.

Lemma bearer_token_sanitized xss req :
  bearer_token (sanitized xss req) = bearer_token req.
Proof. reflexivity. Qed.

(** X20: no protected route reaches its handler without a bearer token.
    When the Authorization header is missing or carries no token, each of
    subscribe, add-to-collection, checkout and save-order is answered by a
    rate limiter that has reached its limit (429) or else by
    [authenticateJWT] with 401; in either case the handler does not run and
    the email and order collections are left as they were. *)
Theorem no_token_no_handler
    xss (apiLimiter subscribeRateLimiter : request -> option response)
    (jwt_verify : string -> option string -> result value) E req :
  bearer_token req = None ->
  let answered (r : response) :=
    match apiLimiter (sanitized xss req) with
    | Some limited => r = limited
    | None => status r = 401
    end in
  (forall catalog,
     answered (route_add_to_collection xss apiLimiter jwt_verify E catalog req)) /\
  (forall catalog now,
     answered (route_checkout xss apiLimiter jwt_verify E catalog now req)) /\
  (forall store (Order_save : store -> value -> result (store * value)) st,
     fst (route_save_order xss apiLimiter jwt_verify E store Order_save st req) = st /\
     answered (snd (route_save_order xss apiLimiter jwt_verify E store Order_save st req))) /\
  (forall validator_isEmail toLowerCase store
          (Email_findOne : store -> string -> settled value)
          (Email_save : store -> string -> settled store) st,
     fst (route_subscribe xss apiLimiter subscribeRateLimiter jwt_verify E
            validator_isEmail toLowerCase store Email_findOne Email_save st req) = st /\
     match apiLimiter (sanitized xss req), subscribeRateLimiter (sanitized xss req) with
     | Some limited, _ | None, Some limited =>
         snd (route_subscribe xss apiLimiter subscribeRateLimiter jwt_verify E
                validator_isEmail toLowerCase store Email_findOne Email_save st req)
         = limited
     | None, None =>
         status (snd (route_subscribe xss apiLimiter subscribeRateLimiter jwt_verify E
                        validator_isEmail toLowerCase store Email_findOne Email_save st req))
         = 401
     end).
Proof.
  intros H. cbv zeta.
  rewrite <- (bearer_token_sanitized xss) in H.
  destruct (bearer_token_none jwt_verify E (sanitized xss req) H) as (r & Hr & Hs).
  unfold route_add_to_collection, route_checkout, route_save_order, route_subscribe.
  rewrite Hr.
  split; [|split; [|split]].
  - intros. destruct (apiLimiter (sanitized xss req)); [reflexivity|exact Hs].
  - intros. destruct (apiLimiter (sanitized xss req)); [reflexivity|exact Hs].
  - intros. destruct (apiLimiter (sanitized xss req)); split; try reflexivity. exact Hs.
  - intros. destruct (apiLimiter (sanitized xss req)); [split; reflexivity|].
    destruct (subscribeRateLimiter (sanitized xss req)); split; try reflexivity. exact Hs.
Qed.

Lemma no_token_no_handler_witness :
  status (route_checkout demo_xss no_limit demo_jwt_verify demo_env demo_catalog VNull
            (with_header "Bearer" VNull)) = 401 /\
  route_checkout demo_xss limit_reached demo_jwt_verify demo_env demo_catalog VNull
    (with_header "Bearer" VNull)
  = reply 429 [("error", VStr "Too many requests. Please try again later.")] /\
  route_subscribe demo_xss no_limit limit_reached demo_jwt_verify demo_env
    demo_isEmail demo_toLowerCase address_book book_findOne book_save []
    (with_header "Bearer" (VObj [("email", VStr "ann@shop.io")]))
  = ([], reply 429 [("error", VStr "Too many requests. Please try again later.")]).
Proof.
  pose proof (no_token_no_handler demo_xss no_limit limit_reached demo_jwt_verify demo_env
                (with_header "Bearer" VNull) eq_refl) as H1.
  pose proof (no_token_no_handler demo_xss limit_reached limit_reached demo_jwt_verify
                demo_env (with_header "Bearer" VNull) eq_refl) as H2.
  pose proof (no_token_no_handler demo_xss no_limit limit_reached demo_jwt_verify demo_env
                (with_header "Bearer" (VObj [("email", VStr "ann@shop.io")])) eq_refl) as H3.
  cbv zeta in H1, H2, H3.
  destruct H1 as (_ & H1 & _). destruct H2 as (_ & H2 & _). destruct H3 as (_ & _ & _ & H3).
  split; [exact (H1 demo_catalog VNull)|]. split; [exact (H2 demo_catalog VNull)|].
  specialize (H3 demo_isEmail demo_toLowerCase address_book book_findOne book_save []).
  destruct H3 as [Hst Hsnd]. cbn [no_limit limit_reached] in Hsnd.
  apply injective_projections; [exact Hst|exact Hsnd].
Defined.

(** ** Where the lines of a summary come from *)

Lemma mapM_In {A B} (f : A -> result B) l ys y :
  mapM f l = Ok ys -> In y ys -> exists x, In x l /\ f x = Ok y.
Proof.
  revert ys. induction l as [|a l IH]; cbn [mapM]; intros ys H Hy.
  - inversion H; subst. destruct Hy.
  - destruct (f a) as [b|] eqn:Ha; cbn [bind] in H; [|discriminate].
    destruct (mapM f l) as [bs|]; cbn [bind] in H; [|discriminate].
    inversion H; subst. destruct Hy as [<-|Hy].
    + exists a. split; [now left|exact Ha].
    + destruct (IH bs eq_refl Hy) as (x & Hx & Hfx). exists x. split; [now right|exact Hfx].
Qed.

Lemma enhance_truthy_inv products item v :
  enhance products item = Ok v -> truthy v = true ->
  exists p z,
    In p products /\
    get item "productCode" = Ok (VStr (product_code p)) /\
    get item "size" = Ok (VStr z) /\ trim z <> EmptyString /\
    v = catalog_line p (trim z).
Proof.
  unfold enhance.
  destruct (get item "productCode") as [code|] eqn:Hc; cbn [bind]; [|discriminate].
  destruct (find _ products) as [p|] eqn:Hf;
    [|intros H Ht; inversion H; subst; discriminate Ht].
  apply find_some in Hf. destruct Hf as [Hin Hp].
  destruct code as [| |?|?|c|?|?]; try discriminate Hp.
  cbn [strict_eq_str] in Hp. apply String.eqb_eq in Hp. subst c.
  destruct (get item "size") as [size0|] eqn:Hs; cbn [bind]; [|discriminate].
  destruct size0 as [| |?|?|z|?|?];
    try (intros H Ht; inversion H; subst; discriminate Ht).
  destruct (truthy (VStr (trim z))) eqn:Hz; cbn [negb];
    [|intros H Ht; inversion H; subst; discriminate Ht].
  intros H _. inversion H. exists p, z. apply truthy_str in Hz.
  repeat split; try assumption; reflexivity.
Qed.

(** X21: every line of a summary is built from the catalog.  When
    checkout answers 200, the cart of the summary is not empty and each of
    its lines is the line of a catalog product (its id, code, name, price
    and image) that a line of the request names by its exact code, with the
    trimmed, non-empty size of that request line. *)
Theorem summary_lines_come_from_catalog E catalog now b :
  status (checkout E catalog now b) = 200 ->
  exists items lines,
    field b "cart" = VArr items /\
    field (field (json (checkout E catalog now b)) "order") "cart" = VArr lines /\
    lines <> [] /\
    Forall (fun line =>
              exists p item z,
                In p catalog /\ In item items /\
                get item "productCode" = Ok (VStr (product_code p)) /\
                get item "size" = Ok (VStr z) /\ trim z <> EmptyString /\
                line = catalog_line p (trim z)) lines.
Proof.
  intros H.
  destruct (checkout_200_inv E catalog now b H)
    as (items & codes & mapped & d & Hc & _ & _ & _ & _ & _ & Hm & Hne & _ & Hr).
  exists items, (filter truthy mapped). rewrite Hr.
  split; [exact Hc|]. split; [reflexivity|]. split; [exact Hne|].
  apply Forall_forall. intros line Hl. apply filter_In in Hl. destruct Hl as [Hl Ht].
  destruct (mapM_In _ _ _ _ Hm Hl) as (item & Hitem & He).
  destruct (enhance_truthy_inv _ _ _ He Ht) as (p & z & Hp & Hcode & Hsize & Hz & ->).
  exists p, item, z. unfold Product_find in Hp. apply filter_In in Hp.
  repeat split; try assumption; tauto.
Qed.

Lemma summary_lines_come_from_catalog_witness :
  exists items lines,
    field (checkout_body [cart_line (VStr "A1") (VStr " M ")] demo_address) "cart"
      = VArr items /\
    field (field (json (checkout demo_env demo_catalog VNull
                          (checkout_body [cart_line (VStr "A1") (VStr " M ")] demo_address)))
                 "order") "cart" = VArr lines /\
    lines <> [] /\
    Forall (fun line =>
              exists p item z,
                In p demo_catalog /\ In item items /\
                get item "productCode" = Ok (VStr (product_code p)) /\
                get item "size" = Ok (VStr z) /\ trim z <> EmptyString /\
                line = catalog_line p (trim z)) lines.
Proof.
  apply (summary_lines_come_from_catalog demo_env demo_catalog VNull
           (checkout_body [cart_line (VStr "A1") (VStr " M ")] demo_address)).
  vm_compute. reflexivity.
Defined.

(** ** Subscribing twice *)

(** X22: duplicates are detected on the normalized address.  After a
    subscription was stored (201), a request whose email is a non-empty
    string with the same trimmed, lower-cased form (another spelling in
    upper case, surrounding white space) is answered 409 and stores nothing,
    provided [findOne] finds what [save] stored. *)
Theorem second_subscription_is_a_conflict
    validator_isEmail toLowerCase store
    (Email_findOne : store -> string -> settled value)
    (Email_save : store -> string -> settled store) st b st' s s' b' :
  get b "email" = Ok (VStr s) ->
  subscribe validator_isEmail toLowerCase store Email_findOne Email_save st b
    = (st', reply 201 [("message", VStr "Successfully subscribed to newsletter!")]) ->
  (forall e, Email_save st e = Fulfilled st' ->
             exists doc, Email_findOne st' e = Fulfilled doc /\ truthy doc = true) ->
  get b' "email" = Ok (VStr s') -> s' <> EmptyString ->
  toLowerCase (trim s') = toLowerCase (trim s) ->
  subscribe validator_isEmail toLowerCase store Email_findOne Email_save st' b'
    = (st', reply 409 [("error", VStr "This email is already subscribed")]).
Proof.
  intros Hg Hr Hlaw Hg' Hs' Hsame.
  destruct (subscribe_inv validator_isEmail toLowerCase store Email_findOne Email_save st b)
    as [[_ Hs] | (s0 & existing & st0 & Hg0 & Hne & Hv & Hf & He & Hsave & Hr0)].
  { rewrite Hr in Hs. now contradiction Hs. }
  rewrite Hg in Hg0. inversion Hg0; subst s0. rewrite Hr in Hr0. inversion Hr0; subst st0.
  destruct (Hlaw _ Hsave) as (doc & Hfind & Hdoc).
  unfold subscribe. rewrite Hg'. cbn [bind].
  rewrite (proj2 (truthy_str s') Hs'). cbn [method_trim bind]. rewrite Hsame.
  rewrite (proj2 (truthy_str _) Hne). cbn [negb].
  unfold isValidEmail. rewrite Hv. cbn [negb]. rewrite Hfind, Hdoc. reflexivity.
Qed.

Lemma second_subscription_is_a_conflict_witness :
  subscribe demo_isEmail demo_toLowerCase address_book book_findOne book_save
    ["ann@shop.io"] (VObj [("email", VStr "ANN@shop.io  ")])
  = (["ann@shop.io"], reply 409 [("error", VStr "This email is already subscribed")]).
Proof.
  apply (second_subscription_is_a_conflict demo_isEmail demo_toLowerCase address_book
           book_findOne book_save [] (VObj [("email", VStr " Ann@Shop.io ")])
           ["ann@shop.io"] " Ann@Shop.io " "ANN@shop.io  "
           (VObj [("email", VStr "ANN@shop.io  ")])).
  - reflexivity.
  - vm_compute. reflexivity.
  - intros e He. unfold book_save in He. destruct (email_validator e); [|discriminate He].
    inversion He as [Heq]. cbn [app] in Heq. inversion Heq. subst e.
    eexists. split; reflexivity.
  - reflexivity.
  - discriminate.
  - vm_compute. reflexivity.
Defined.

(** ** Checkout behind the sanitizing middleware *)

Lemma map_strings_str_inv f v c :
  map_strings f v = VStr c -> exists s0, v = VStr s0 /\ f s0 = c.
Proof. destruct v; try discriminate. cbn [map_strings]. intros H. inversion H. now eexists. Qed.

Lemma map_strings_arr_inv f v items :
  map_strings f v = VArr items ->
  exists items0, v = VArr items0 /\ items = map (map_strings f) items0.
Proof. destruct v; try discriminate. cbn [map_strings]. intros H. inversion H. now eexists. Qed.

(** X23: behind the middleware only sanitized data reaches a summary.
    When checkout answers 200 to a request that went through
    [sanitizeRequest], the address of the summary is the address of the
    request with every string replaced by its [xss] image, and the product
    code of every line of the summary is the [xss] image of the product
    code of a line of the request.  When [xss] is idempotent it therefore
    leaves the code of every line unchanged: a catalog product whose code
    [xss] would change is never part of a summary. *)
Theorem ordered_codes_are_sanitized xss E catalog now b :
  status (checkout E catalog now (sanitizeRequest xss b)) = 200 ->
  let order := field (json (checkout E catalog now (sanitizeRequest xss b))) "order" in
  field order "address" = map_strings xss (field b "address") /\
  exists items lines,
    field b "cart" = VArr items /\
    field order "cart" = VArr lines /\
    Forall (fun line =>
              exists item s0,
                In item items /\ get item "productCode" = Ok (VStr s0) /\
                field line "productCode" = VStr (xss s0)) lines /\
    ((forall s, xss (xss s) = xss s) ->
     Forall (fun line => exists code, field line "productCode" = VStr code /\
                                      xss code = code) lines).
Proof.
  intros H. cbv zeta.
  destruct (checkout_200_inv E catalog now _ H)
    as (items & codes & mapped & d & Hc & _ & _ & _ & _ & _ & Hm & _ & _ & Hr).
  assert (Hb : sanitizeRequest xss b = map_strings xss b).
  { destruct b as [| |?|?|?|?|?];
      try (apply sanitizeRequest_map_strings; reflexivity);
      unfold sanitizeRequest in Hc; destruct (truthy _); discriminate Hc. }
  rewrite Hr. cbn [reply json field get lookup String.eqb Ascii.eqb Bool.eqb].
  rewrite Hb in Hc |- *. rewrite field_map_strings in Hc |- *.
  split; [reflexivity|].
  destruct (map_strings_arr_inv _ _ _ Hc) as (items0 & Hitems0 & Hitems).
  exists items0, (filter truthy mapped). split; [exact Hitems0|]. split; [reflexivity|].
  assert (Hlines : Forall (fun line =>
              exists item s0,
                In item items0 /\ get item "productCode" = Ok (VStr s0) /\
                field line "productCode" = VStr (xss s0)) (filter truthy mapped)).
  { apply Forall_forall. intros line Hl. apply filter_In in Hl. destruct Hl as [Hl Ht].
    destruct (mapM_In _ _ _ _ Hm Hl) as (item & Hitem & He).
    destruct (enhance_truthy_inv _ _ _ He Ht) as (p & z & _ & Hcode & _ & _ & ->).
    rewrite Hitems in Hitem. apply in_map_iff in Hitem. destruct Hitem as (item0 & <- & Hin0).
    rewrite get_map_strings in Hcode.
    destruct (get item0 "productCode") as [v0|] eqn:Hg0; [|discriminate Hcode].
    cbn [on_ok] in Hcode. inversion Hcode as [Hv0].
    destruct (map_strings_str_inv _ _ _ Hv0) as (s0 & -> & Hs0).
    exists item0, s0. rewrite Hs0. repeat split; assumption. }
  split; [exact Hlines|].
  intros Hx. eapply Forall_impl; [|exact Hlines].
  intros line (item & s0 & _ & _ & Hl). exists (xss s0). split; [exact Hl|apply Hx].
Qed.

Lemma ordered_codes_are_sanitized_witness :
  let b := checkout_body [cart_line (VStr "A1") (VStr "M")]
                         (VObj [("city", VStr "<i>Pune</i>")]) in
  let order := field (json (checkout demo_env demo_catalog VNull
                              (sanitizeRequest demo_xss b))) "order" in
  field order "address" = map_strings demo_xss (field b "address") /\
  exists items lines,
    field b "cart" = VArr items /\
    field order "cart" = VArr lines /\
    Forall (fun line =>
              exists item s0,
                In item items /\ get item "productCode" = Ok (VStr s0) /\
                field line "productCode" = VStr (demo_xss s0)) lines /\
    ((forall s, demo_xss (demo_xss s) = demo_xss s) ->
     Forall (fun line => exists code, field line "productCode" = VStr code /\
                                      demo_xss code = code) lines).
Proof.
  apply (ordered_codes_are_sanitized demo_xss demo_env demo_catalog VNull
           (checkout_body [cart_line (VStr "A1") (VStr "M")]
                          (VObj [("city", VStr "<i>Pune</i>")]))).
  vm_compute. reflexivity.
Defined.
